(** * Request and buffer pooling of libavcodec/v4l2_req_media.c

    A shallow embedding of the request pool, the buffer queues and the
    transaction controller of [v4l2_req_media.c], with the properties the
    design document states about them.

    Conventions of the embedding:
    - C integers are [Z]; conversions between integer types are written out.
    - A pointer is an address ([ptr]); [None] is the null pointer.  Objects
      live in finite maps from addresses to records, one map per struct type.
    - A function that dereferences memory returns an [option]: [None] means
      that the C program has no defined behaviour there (null or dangling
      dereference, signed overflow), or that a loop never exits.
    - Kernel calls ([ioctl]) take their answers from a script carried by the
      state and append to a log of the calls that were issued. *)

From Stdlib Require Import ZArith Lia.
From stdpp Require Import base option list gmap.

Local Open Scope Z_scope.

(** ** Size classes: [log2_size] and [round_up_size] *)

Module SizeClass.

(** [size_t] is taken 64 bits wide (an LP64 target); [int] and
    [unsigned int] are 32 bits wide. *)
Definition SIZE_BITS : Z := 64.
Definition INT_MAX : Z := 2 ^ 31 - 1.
Definition UINT_MOD : Z := 2 ^ 32.

(** The conversion of an [int] to [size_t] (reduction modulo [2^64]). *)
Definition size_t_of_int (v : Z) : Z := v mod 2 ^ SIZE_BITS.

(** One step of [log2_size]:
    [if (x & ~mask) { n += shift; x >>= shift; }].
    [~mask] is computed in [int] and converted to [size_t] for the [&]. *)
Definition log2_step (mask shift : Z) (st : Z * Z) : Z * Z :=
  let '(n, x) := st in
  if Z.land x (size_t_of_int (Z.lnot mask)) =? 0
  then (n, x)
  else (n + shift, Z.shiftr x shift).

Definition log2_size (x : Z) : Z :=
  let st := log2_step 0xffff 16 (0, x) in
  let st := log2_step 0xff 8 st in
  let st := log2_step 0xf 4 st in
  let '(n, x) := log2_step 3 2 st in
  if Z.land x (size_t_of_int (Z.lnot 1)) =? 0 then n else n + 1.

(** [a << n] on [int], for [a >= 0]: defined only when the count is below
    the width and the result is representable. *)
Definition int_shl (a n : Z) : option Z :=
  if (0 <=? n) && (n <? 32) && (a * 2 ^ n <=? INT_MAX)
  then Some (Z.shiftl a n)
  else None.

(** [round_up_size]: [n] is an [unsigned int]; the two shifts are [int]
    shifts, compared with and returned as [size_t]. *)
Definition round_up_size (x : Z) : option Z :=
  let n := if x <? 256 then 8 else (log2_size x - 1) mod UINT_MOD in
  t ← int_shl 3 n;
  if size_t_of_int t <=? x
  then size_t_of_int <$> int_shl 4 n
  else Some (size_t_of_int t).

(** The size-class sequence [{3·2^n, 4·2^n}]. *)
Definition bucket (b : Z) : Prop :=
  ∃ n, 0 <= n ∧ (b = 3 * 2 ^ n ∨ b = 4 * 2 ^ n).

(** The property as the design document words it: the result is the least
    bucket that is at least [s] and at least 256. *)
Definition least_bucket_at_least (s b : Z) : Prop :=
  s <= b ∧ 256 <= b ∧ bucket b ∧
  ∀ b', bucket b' → s <= b' → 256 <= b' → b <= b'.

End SizeClass.

(** ** The environment: kernel calls and the structures they exchange *)

(** Addresses.  Objects of different struct types live in different maps, so
    an address is meaningful only together with its type. *)
Abbreviation ptr := nat (only parsing).

(** [struct timeval]. *)
Record timeval := Timeval { tv_sec : Z; tv_usec : Z }.

Definition timeval_zero : timeval := Timeval 0 0.

(** Constants of [errno.h] and [linux/videodev2.h] that the code names. *)
Definition EINTR : Z := 4.
Definition VIDEO_MAX_PLANES : nat := 8.
Definition V4L2_MEMORY_DMABUF : Z := 4.
Definition V4L2_BUF_TYPE_VIDEO_CAPTURE_MPLANE : Z := 9.
Definition V4L2_BUF_TYPE_VIDEO_OUTPUT_MPLANE : Z := 10.
Definition V4L2_BUF_FLAG_ERROR : Z := 0x40.
Definition V4L2_BUF_FLAG_M2M_HOLD_CAPTURE_BUF : Z := 0x200.
Definition V4L2_BUF_FLAG_REQUEST_FD : Z := 0x800000.

Definition V4L2_TYPE_IS_MULTIPLANAR (type : Z) : bool :=
  (type =? V4L2_BUF_TYPE_VIDEO_CAPTURE_MPLANE) ||
  (type =? V4L2_BUF_TYPE_VIDEO_OUTPUT_MPLANE).

(** [struct v4l2_format]: a type tag and a union of the single-planar and
    the multi-planar description, with the fields the code touches.  Both
    descriptions start with [width], [height], [pixelformat], and C lets a
    program read this common initial part through either member. *)
Module Fmt.
Record v4l2_pix_format := Pix {
  pix_width : Z; pix_height : Z; pix_pixelformat : Z; pix_sizeimage : Z }.
Record v4l2_pix_format_mplane := PixMp {
  mp_width : Z; mp_height : Z; mp_pixelformat : Z;
  mp_plane_sizeimage : list Z;       (* plane_fmt[i].sizeimage *)
  mp_num_planes : Z }.
Inductive fmt_union :=
| pix (p : v4l2_pix_format)
| pix_mp (p : v4l2_pix_format_mplane).
Record v4l2_format := Format { type : Z; fmt : fmt_union }.

Definition width (u : fmt_union) : Z :=
  match u with pix p => pix_width p | pix_mp p => mp_width p end.
Definition height (u : fmt_union) : Z :=
  match u with pix p => pix_height p | pix_mp p => mp_height p end.
Definition pixelformat (u : fmt_union) : Z :=
  match u with pix p => pix_pixelformat p | pix_mp p => mp_pixelformat p end.

(** The all-zero union, seen through the member that [buftype] selects. *)
Definition zero_mp : v4l2_pix_format_mplane :=
  PixMp 0 0 0 (replicate VIDEO_MAX_PLANES 0) 0.
End Fmt.

(** [struct v4l2_buffer] as handed to [VIDIOC_QBUF]. *)
Module Buf.
Record v4l2_plane := Plane { length : Z; bytesused : Z; fd : Z }.
Definition zero_plane : v4l2_plane := Plane 0 0 0.
Inductive buffer_m :=
| m_fd (bytesused : Z) (length : Z) (fd : Z)
| m_planes (planes : list v4l2_plane) (length : Z).
Record v4l2_buffer := Buffer {
  type : Z; memory : Z; index : Z; flags : Z; request_fd : Z;
  timestamp : timeval; m : buffer_m }.
End Buf.

(** Poll tasks are identified by the object their callback is bound to. *)
Inductive polltask :=
| pt_request (req : ptr)     (* media_request_done, on the request's fd *)
| pt_ctl (mbc : ptr).        (* mediabufs_poll_cb, on the video fd *)

(** The calls the code makes into its environment. *)
Inductive kcall :=
| SYS_calloc
| SYS_malloc
| SYS_open (nonblock : bool)
| SYS_close (fd : Z)
| MEDIA_IOC_REQUEST_ALLOC (fd : Z)
| MEDIA_REQUEST_IOC_QUEUE (fd : Z)
| MEDIA_REQUEST_IOC_REINIT (fd : Z)
| VIDIOC_STREAMON (fd type : Z)
| VIDIOC_STREAMOFF (fd type : Z)
| VIDIOC_REQBUFS (fd type memory count : Z)
| VIDIOC_S_FMT (fd : Z) (f : Fmt.v4l2_format)
| VIDIOC_QBUF (fd : Z) (b : Buf.v4l2_buffer)
| VIDIOC_DQBUF (fd type : Z)
| polltask_new (pt : polltask)
| polltask_delete (pt : polltask)
| pollqueue_add_task (pt : polltask) (timeout : Z).

(** The answers of the environment: success (possibly with the data written
    back), or failure with an [errno]. *)
Inductive kres :=
| KOk
| KErr (errno : Z)
| KOkFd (fd : Z)
| KOkFmt (f : Fmt.v4l2_format)
| KOkBuf (fd : Z) (ts : timeval) (flags : Z).

Definition is_err (r : kres) : bool :=
  match r with KErr _ => true | _ => false end.

(** The value of [errno] after the call ([0] stands for "not set"). *)
Definition errno_of (r : kres) : Z :=
  match r with KErr e => e | _ => 0 end.

Module K.
Record kernel := Kernel { script : list kres; log : list kcall }.
End K.

(** One call: take the next answer of the script and log the call.  With an
    empty script the call has no answer. *)
Definition env_call (k : K.kernel) (c : kcall) : option (kres * K.kernel) :=
  match K.script k with
  | [] => None
  | r :: rest => Some (r, K.Kernel rest (K.log k ++ [c]))
  end.

(** [while (ioctl(...)) { if (errno != EINTR) fail; }]: repeat the call for
    as long as it is interrupted; the answer returned is the first that is
    not [EINTR]. *)
Fixpoint ioctl_retry_from (s : list kres) (lg : list kcall) (c : kcall)
  : option (kres * K.kernel) :=
  match s with
  | [] => None
  | r :: rest =>
      if is_err r && (errno_of r =? EINTR)
      then ioctl_retry_from rest (lg ++ [c]) c
      else Some (r, K.Kernel rest (lg ++ [c]))
  end.

Definition ioctl_retry (k : K.kernel) (c : kcall) : option (kres * K.kernel) :=
  ioctl_retry_from (K.script k) (K.log k) c.

(** ** The shareable-buffer handle *)

(** Modelled from the spec: the handle of [v4l2_req_dmabufs.c], which is not
    part of the sources at hand; the design document describes it as a
    memory region with a file-descriptor identity, a size and a recorded
    data length.  The code hands null handles to [dmabuf_fd] (in
    [qent_dst_dup_fd] and in the scan of the in-use list); the descriptor of
    a null handle is taken to be [-1], which no file has. *)
Record dmabuf_h := Dmabuf { dh_fd : Z; dh_size : Z; dh_len : Z }.

(** Modelled from the spec: [dmabuf_fd], the file-descriptor identity of a
    handle. *)
Definition dmabuf_fd (dh : option dmabuf_h) : Z :=
  match dh with Some d => dh_fd d | None => -1 end.

(** Modelled from the spec: [dmabuf_size] and [dmabuf_len], the size of the
    region and the recorded length of the data in it. *)
Definition dmabuf_size (d : dmabuf_h) : Z := dh_size d.
Definition dmabuf_len (d : dmabuf_h) : Z := dh_len d.

(** Modelled from the spec: [dmabuf_len_set], which records a new length
    and leaves descriptor and size alone. *)
Definition dmabuf_len_set (d : dmabuf_h) (len : Z) : dmabuf_h :=
  Dmabuf (dh_fd d) (dh_size d) len.

(** ** Data model *)

(** Modelled from the spec: the status codes of [v4l2_req_media.h], which is
    not part of the sources at hand: success, operation-failed,
    unsupported-buffer-type, decoding-error, allocation-failed. *)
Inductive MediaBufsStatus :=
| MEDIABUFS_STATUS_SUCCESS
| MEDIABUFS_ERROR_OPERATION_FAILED
| MEDIABUFS_ERROR_DECODING_ERROR
| MEDIABUFS_ERROR_UNSUPPORTED_BUFFERTYPE
| MEDIABUFS_ERROR_ALLOCATION_FAILED.

Module Req.
(** [struct media_request]; its poll task is [pt_request] of its address. *)
Record media_request := Request { next : option ptr; mp : ptr; fd : Z }.
Definition set_next (v : option ptr) (r : media_request) :=
  Request v (mp r) (fd r).
Definition set_fd (v : Z) (r : media_request) :=
  Request (next r) (mp r) v.
End Req.

Module Pool.
(** [struct media_pool]; [sem] is the count of its semaphore. *)
Record media_pool := MediaPool { fd : Z; sem : nat; free_reqs : option ptr }.
Definition set_sem (v : nat) (p : media_pool) :=
  MediaPool (fd p) v (free_reqs p).
Definition set_free_reqs (v : option ptr) (p : media_pool) :=
  MediaPool (fd p) (sem p) v.
Definition set_fd (v : Z) (p : media_pool) :=
  MediaPool v (sem p) (free_reqs p).
End Pool.

Inductive qent_status :=
| QENT_NEW | QENT_PENDING | QENT_WAITING | QENT_DONE | QENT_ERROR | QENT_IMPORT.

Module Qe.
(** [struct qent_base]; [dh] is the array of [VIDEO_MAX_PLANES] handles. *)
Record qent_base := Base {
  next : option ptr; prev : option ptr; status : qent_status; index : Z;
  dh : list (option dmabuf_h); timestamp : timeval }.
Definition set_next v (e : qent_base) :=
  Base v (prev e) (status e) (index e) (dh e) (timestamp e).
Definition set_prev v (e : qent_base) :=
  Base (next e) v (status e) (index e) (dh e) (timestamp e).
Definition set_status v (e : qent_base) :=
  Base (next e) (prev e) v (index e) (dh e) (timestamp e).
Definition set_dh v (e : qent_base) :=
  Base (next e) (prev e) (status e) (index e) v (timestamp e).
Definition set_timestamp v (e : qent_base) :=
  Base (next e) (prev e) (status e) (index e) (dh e) v.

(** What [struct qent_dst] adds to its base (mutex and condition variable
    left out); [mbc_wl] is the weak-link client, given by the address of
    the master it refers to. *)
Record qent_dst := Dst { waiting : bool; mbc_wl : option ptr }.
Definition set_waiting v (d : qent_dst) := Dst v (mbc_wl d).
End Qe.

Module Bp.
(** [struct buf_pool]; [free_sem] is the count of its semaphore. *)
Record buf_pool := BufPool {
  free_sem : nat;
  free_head : option ptr; free_tail : option ptr;
  inuse_head : option ptr; inuse_tail : option ptr }.
Definition set_free_sem v (b : buf_pool) :=
  BufPool v (free_head b) (free_tail b) (inuse_head b) (inuse_tail b).
Definition set_free_head v (b : buf_pool) :=
  BufPool (free_sem b) v (free_tail b) (inuse_head b) (inuse_tail b).
Definition set_free_tail v (b : buf_pool) :=
  BufPool (free_sem b) (free_head b) v (inuse_head b) (inuse_tail b).
Definition set_inuse_head v (b : buf_pool) :=
  BufPool (free_sem b) (free_head b) (free_tail b) v (inuse_tail b).
Definition set_inuse_tail v (b : buf_pool) :=
  BufPool (free_sem b) (free_head b) (free_tail b) (inuse_head b) v.
(** [queue_new]: a zeroed pool with the semaphore at 0. *)
Definition empty : buf_pool := BufPool 0 None None None None.
End Bp.

Module Mbc.
(** [struct mediabufs_ctl]; the two queues, which the controller owns
    exclusively, are held by value. *)
Record mediabufs_ctl := Ctl {
  ref_count : Z; vfd : Z; stream_on : bool; polling : bool;
  src : Bp.buf_pool; dst : Bp.buf_pool;
  this_wlm : option ptr;
  src_fmt : Fmt.v4l2_format; dst_fmt : Fmt.v4l2_format }.
Definition set_ref_count v (c : mediabufs_ctl) :=
  Ctl v (vfd c) (stream_on c) (polling c) (src c) (dst c) (this_wlm c)
      (src_fmt c) (dst_fmt c).
Definition set_stream_on v (c : mediabufs_ctl) :=
  Ctl (ref_count c) (vfd c) v (polling c) (src c) (dst c) (this_wlm c)
      (src_fmt c) (dst_fmt c).
Definition set_polling v (c : mediabufs_ctl) :=
  Ctl (ref_count c) (vfd c) (stream_on c) v (src c) (dst c) (this_wlm c)
      (src_fmt c) (dst_fmt c).
Definition set_src v (c : mediabufs_ctl) :=
  Ctl (ref_count c) (vfd c) (stream_on c) (polling c) v (dst c) (this_wlm c)
      (src_fmt c) (dst_fmt c).
Definition set_dst v (c : mediabufs_ctl) :=
  Ctl (ref_count c) (vfd c) (stream_on c) (polling c) (src c) v (this_wlm c)
      (src_fmt c) (dst_fmt c).
Definition set_this_wlm v (c : mediabufs_ctl) :=
  Ctl (ref_count c) (vfd c) (stream_on c) (polling c) (src c) (dst c) v
      (src_fmt c) (dst_fmt c).
Definition set_src_fmt v (c : mediabufs_ctl) :=
  Ctl (ref_count c) (vfd c) (stream_on c) (polling c) (src c) (dst c)
      (this_wlm c) v (dst_fmt c).
End Mbc.

(** The whole state: one map per struct type, the weak-link masters (each
    holds the address of its controller until the link is broken), and the
    environment. *)
Record world := World {
  reqs : gmap nat Req.media_request;
  pools : gmap nat Pool.media_pool;
  ents : gmap nat Qe.qent_base;
  dsts : gmap nat Qe.qent_dst;
  ctls : gmap nat Mbc.mediabufs_ctl;
  wlms : gmap nat (option nat);
  kern : K.kernel }.

Definition set_reqs v (w : world) :=
  World v (pools w) (ents w) (dsts w) (ctls w) (wlms w) (kern w).
Definition set_pools v (w : world) :=
  World (reqs w) v (ents w) (dsts w) (ctls w) (wlms w) (kern w).
Definition set_ents v (w : world) :=
  World (reqs w) (pools w) v (dsts w) (ctls w) (wlms w) (kern w).
Definition set_dsts v (w : world) :=
  World (reqs w) (pools w) (ents w) v (ctls w) (wlms w) (kern w).
Definition set_ctls v (w : world) :=
  World (reqs w) (pools w) (ents w) (dsts w) v (wlms w) (kern w).
Definition set_wlms v (w : world) :=
  World (reqs w) (pools w) (ents w) (dsts w) (ctls w) v (kern w).
Definition set_kern v (w : world) :=
  World (reqs w) (pools w) (ents w) (dsts w) (ctls w) (wlms w) v.

(** A call that may block: it returns a value and a new state, or it waits
    (on a semaphore or a condition variable) and nothing has changed. *)
Inductive outcome (A S : Type) :=
| Returns (a : A) (s : S)
| Blocks.
Arguments Returns {A S} a s.
Arguments Blocks {A S}.

(** A call whose result the code does not look at: it is logged only. *)
Definition env_note (k : K.kernel) (c : kcall) : K.kernel :=
  K.Kernel (K.script k) (K.log k ++ [c]).

(** The descriptor a call hands back: [-1] on failure. *)
Definition fd_of (r : kres) : Z :=
  match r with KOkFd fd => fd | KErr _ => -1 | _ => 0 end.

(** The return code of an [ioctl]: [-1] on failure, [0] otherwise. *)
Definition rc_of (r : kres) : Z := if is_err r then -1 else 0.

(** ** Request pool *)

(** [do_wait] / [do_trywait] on the count of a semaphore.  On a valid
    semaphore [sem_wait] fails only with [EINTR], which [do_wait] retries;
    so [do_wait] either takes a unit or waits ([None]). *)
Definition do_wait (sem : nat) : option nat :=
  match sem with O => None | S c => Some c end.

Definition media_request_get (w : world) (mp : ptr)
  : option (outcome (option ptr) world) :=
  p ← pools w !! mp;
  match do_wait (Pool.sem p) with
  | None => Some Blocks
  | Some c =>
      let p := Pool.set_sem c p in
      match Pool.free_reqs p with
      | None => Some (Returns None (set_pools (<[mp := p]> (pools w)) w))
      | Some req =>
          r ← reqs w !! req;
          let p := Pool.set_free_reqs (Req.next r) p in
          let r := Req.set_next None r in
          Some (Returns (Some req)
                  (set_reqs (<[req := r]> (reqs w))
                     (set_pools (<[mp := p]> (pools w)) w)))
      end
  end.

Definition media_request_fd (w : world) (req : ptr) : option Z :=
  Req.fd <$> reqs w !! req.

(** Returns [0] or [-errno]; the poll task of the request is armed for 2000
    on success. *)
Definition media_request_start (w : world) (req : option ptr)
  : option (Z * world) :=
  req ← req;
  r ← reqs w !! req;
  '(a, k) ← ioctl_retry (kern w) (MEDIA_REQUEST_IOC_QUEUE (Req.fd r));
  if rc_of a =? -1
  then Some (- errno_of a, set_kern k w)
  else
    _ ← pools w !! Req.mp r;      (* mp->pq *)
    Some (0, set_kern (env_note k (pollqueue_add_task (pt_request req) 2000)) w).

Definition media_request_done (w : world) (req : ptr) : option world :=
  r ← reqs w !! req;
  let mp := Req.mp r in
  '(_, k) ← env_call (kern w) (MEDIA_REQUEST_IOC_REINIT (Req.fd r));
  p ← pools w !! mp;
  let r := Req.set_next (Pool.free_reqs p) r in
  let p := Pool.set_free_reqs (Some req) p in
  let p := Pool.set_sem (S (Pool.sem p)) p in
  Some (set_kern k (set_reqs (<[req := r]> (reqs w))
                      (set_pools (<[mp := p]> (pools w)) w))).

(** Returns the code, the new value of [*preq] and the state. *)
Definition media_request_abort (w : world) (preq : option ptr)
  : option (Z * option ptr * world) :=
  match preq with
  | None => Some (0, None, w)
  | Some req => w ← media_request_done w req; Some (0, None, w)
  end.

(** The loop of [delete_req_chain]; a chain of distinct requests has at most
    [size rs] members, so the fuel is exhausted only on a chain that loops. *)
Fixpoint delete_req_chain_from (fuel : nat) (rs : gmap nat Req.media_request)
    (k : K.kernel) (next : option ptr)
  : option (gmap nat Req.media_request * K.kernel) :=
  match next with
  | None => Some (rs, k)
  | Some req =>
      match fuel with
      | O => None
      | S fuel =>
          r ← rs !! req;
          let k := if Req.fd r =? -1 then k else env_note k (SYS_close (Req.fd r)) in
          delete_req_chain_from fuel (delete req rs) k (Req.next r)
      end
  end.

Definition delete_req_chain (w : world) (chain : option ptr) : option world :=
  '(rs, k) ← delete_req_chain_from (size (reqs w)) (reqs w) (kern w) chain;
  Some (set_kern k (set_reqs rs w)).

(** The allocation loop of [media_pool_new], for the [n] handles that are
    still to be made; [false] stands for [goto fail4]. *)
Fixpoint media_pool_new_loop (n : nat) (mp : ptr) (w : world)
  : option (bool * world) :=
  match n with
  | O => Some (true, w)
  | S n =>
      '(a, k) ← env_call (kern w) SYS_malloc;
      let w := set_kern k w in
      if is_err a then Some (false, w) else
      let req := fresh (dom (reqs w)) in
      p ← pools w !! mp;
      let w := set_reqs (<[req := Req.Request (Pool.free_reqs p) mp (-1)]> (reqs w)) w in
      let w := set_pools (<[mp := Pool.set_free_reqs (Some req) p]> (pools w)) w in
      '(a, k) ← env_call (kern w) (MEDIA_IOC_REQUEST_ALLOC (Pool.fd p));
      let w := set_kern k w in
      if rc_of a =? -1 then Some (false, w) else
      r ← reqs w !! req;
      let w := set_reqs (<[req := Req.set_fd (fd_of a) r]> (reqs w)) w in
      '(a, k) ← env_call (kern w) (polltask_new (pt_request req));
      let w := set_kern k w in
      if is_err a then Some (false, w) else
      media_pool_new_loop n mp w
  end.

Definition media_pool_new (w : world) (n : nat) : option (option ptr * world) :=
  '(a, k) ← env_call (kern w) SYS_calloc;
  let w := set_kern k w in
  if is_err a then Some (None, w) else
  let mp := fresh (dom (pools w)) in
  let w := set_pools (<[mp := Pool.MediaPool 0 0 None]> (pools w)) w in
  '(a, k) ← env_call (kern w) (SYS_open true);
  let w := set_kern k w in
  p ← pools w !! mp;
  let p := Pool.set_fd (fd_of a) p in
  let w := set_pools (<[mp := p]> (pools w)) w in
  if Pool.fd p =? -1 then Some (None, set_pools (delete mp (pools w)) w) else
  '(ok, w) ← media_pool_new_loop n mp w;
  p ← pools w !! mp;
  if ok : bool
  then Some (Some mp, set_pools (<[mp := Pool.set_sem n p]> (pools w)) w)
  else
    w ← delete_req_chain w (Pool.free_reqs p);
    let w := set_kern (env_note (kern w) (SYS_close (Pool.fd p))) w in
    Some (None, set_pools (delete mp (pools w)) w).

(** The requests on the free chain that starts at [hd], as the loop of
    [delete_req_chain] walks it. *)
Fixpoint chain (rs : gmap nat Req.media_request) (hd : option ptr)
    (l : list ptr) : Prop :=
  match l with
  | [] => hd = None
  | p :: l => hd = Some p ∧ ∃ r, rs !! p = Some r ∧ chain rs (Req.next r) l
  end.

(** A protocol event on one pool: an acquisition attempt, a completion
    reported by the poll queue, or an abort by the holder. *)
Inductive pool_event :=
| ev_get
| ev_done (req : ptr)
| ev_abort (preq : option ptr).

(** The pool together with the handles its users hold (acquired and not yet
    reclaimed): the handles in flight. *)
Record pool_state := PoolState { ps_world : world; ps_inflight : list ptr }.

Definition pool_step (mp : ptr) (st : pool_state) (ev : pool_event)
  : option pool_state :=
  let w := ps_world st in
  let fl := ps_inflight st in
  match ev with
  | ev_get =>
      o ← media_request_get w mp;
      match o with
      | Blocks => Some st
      | Returns None w => Some (PoolState w fl)
      | Returns (Some req) w => Some (PoolState w (req :: fl))
      end
  | ev_done req =>
      if decide (req ∈ fl)
      then w ← media_request_done w req;
           Some (PoolState w (filter (λ r, r ≠ req) fl))
      else None
  | ev_abort None =>
      '(_, _, w) ← media_request_abort w None; Some (PoolState w fl)
  | ev_abort (Some req) =>
      if decide (req ∈ fl)
      then '(_, _, w) ← media_request_abort w (Some req);
           Some (PoolState w (filter (λ r, r ≠ req) fl))
      else None
  end.

Fixpoint pool_run (mp : ptr) (st : pool_state) (evs : list pool_event)
  : option pool_state :=
  match evs with
  | [] => Some st
  | ev :: evs => st ← pool_step mp st ev; pool_run mp st evs
  end.

(** The handles of the pool at [mp] in the world [w]: those on its free
    chain [free] and those in flight [fl] make up [hs], each once. *)
Definition pool_inv (mp : ptr) (hs : list ptr) (w : world) (fl : list ptr) : Prop :=
  ∃ p free,
    pools w !! mp = Some p ∧
    chain (reqs w) (Pool.free_reqs p) free ∧
    Pool.sem p = length free ∧
    free ++ fl ≡ₚ hs ∧
    ∀ r, r ∈ hs → ∃ rq, reqs w !! r = Some rq ∧ Req.mp rq = mp.


(** ** Buffer queue *)

(** [be->field = v] on the entry at [be]. *)
Definition upd (h : gmap nat Qe.qent_base) (be : ptr)
    (f : Qe.qent_base → Qe.qent_base) : option (gmap nat Qe.qent_base) :=
  e ← h !! be; Some (<[be := f e]> h).

Definition bq_put_free (h : gmap nat Qe.qent_base) (bp : Bp.buf_pool) (be : ptr)
  : option (gmap nat Qe.qent_base * Bp.buf_pool) :=
  '(h, bp1) ← match Bp.free_tail bp with
              | Some t => h ← upd h t (Qe.set_next (Some be)); Some (h, bp)
              | None => Some (h, Bp.set_free_head (Some be) bp)
              end;
  h ← upd h be (Qe.set_prev (Bp.free_tail bp1));
  h ← upd h be (Qe.set_next None);
  Some (h, Bp.set_free_tail (Some be) bp1).

(** Returns the entry taken (or null), the memory and the pool. *)
Definition bq_get_free (h : gmap nat Qe.qent_base) (bp : Bp.buf_pool)
  : option (option ptr * gmap nat Qe.qent_base * Bp.buf_pool) :=
  match Bp.free_head bp with
  | None => Some (None, h, bp)
  | Some be =>
      e ← h !! be;
      '(h, bp) ← match Qe.next e with
                 | Some n => h ← upd h n (Qe.set_prev (Qe.prev e)); Some (h, bp)
                 | None => Some (h, Bp.set_free_tail (Qe.prev e) bp)
                 end;
      let bp := Bp.set_free_head (Qe.next e) bp in
      h ← upd h be (Qe.set_next None);
      h ← upd h be (Qe.set_prev None);
      Some (Some be, h, bp)
  end.

Definition bq_extract_inuse (h : gmap nat Qe.qent_base) (bp : Bp.buf_pool)
    (be : ptr) : option (gmap nat Qe.qent_base * Bp.buf_pool) :=
  e ← h !! be;
  '(h, bp) ← match Qe.next e with
             | Some n => h ← upd h n (Qe.set_prev (Qe.prev e)); Some (h, bp)
             | None => Some (h, Bp.set_inuse_tail (Qe.prev e) bp)
             end;
  '(h, bp) ← match Qe.prev e with
             | Some p => h ← upd h p (Qe.set_next (Qe.next e)); Some (h, bp)
             | None => Some (h, Bp.set_inuse_head (Qe.next e) bp)
             end;
  h ← upd h be (Qe.set_next None);
  h ← upd h be (Qe.set_prev None);
  Some (h, bp).

(** [for (i = 0; i < VIDEO_MAX_PLANES && be->dh[i]; ++i)
      dmabuf_len_set(be->dh[i], 0);]
    with [fuel] the number of indices still below [VIDEO_MAX_PLANES]. *)
Fixpoint len_clear_from (fuel : nat) (i : nat) (dh : list (option dmabuf_h))
  : list (option dmabuf_h) :=
  match fuel with
  | O => dh
  | S fuel =>
      match dh !! i with
      | Some (Some d) =>
          len_clear_from fuel (S i) (<[i := Some (dmabuf_len_set d 0)]> dh)
      | _ => dh
      end
  end.

Definition len_clear (dh : list (option dmabuf_h)) : list (option dmabuf_h) :=
  len_clear_from VIDEO_MAX_PLANES 0 dh.

Definition queue_put_free (h : gmap nat Qe.qent_base) (bp : Bp.buf_pool)
    (be : ptr) : option (gmap nat Qe.qent_base * Bp.buf_pool) :=
  (* Clear out state vars *)
  h ← upd h be (Qe.set_timestamp timeval_zero);
  h ← upd h be (λ e, Qe.set_dh (len_clear (Qe.dh e)) e);
  '(h, bp) ← bq_put_free h bp be;
  Some (h, Bp.set_free_sem (S (Bp.free_sem bp)) bp).

Definition queue_is_inuse (bp : Bp.buf_pool) : bool :=
  bool_decide (Bp.inuse_tail bp ≠ None).

Definition queue_put_inuse (h : gmap nat Qe.qent_base) (bp : Bp.buf_pool)
    (be : option ptr) : option (gmap nat Qe.qent_base * Bp.buf_pool) :=
  match be with
  | None => Some (h, bp)
  | Some be =>
      '(h, bp1) ← match Bp.inuse_tail bp with
                  | Some t => h ← upd h t (Qe.set_next (Some be)); Some (h, bp)
                  | None => Some (h, Bp.set_inuse_head (Some be) bp)
                  end;
      h ← upd h be (Qe.set_prev (Bp.inuse_tail bp1));
      h ← upd h be (Qe.set_next None);
      let bp := Bp.set_inuse_tail (Some be) bp1 in
      h ← upd h be (Qe.set_status QENT_WAITING);
      Some (h, bp)
  end.

Definition queue_get_free (h : gmap nat Qe.qent_base) (bp : Bp.buf_pool)
  : option (outcome (option ptr) (gmap nat Qe.qent_base * Bp.buf_pool)) :=
  match do_wait (Bp.free_sem bp) with
  | None => Some Blocks
  | Some c =>
      '(buf, h, bp) ← bq_get_free h (Bp.set_free_sem c bp);
      Some (Returns buf (h, bp))
  end.

(** [do_trywait] fails with [EAGAIN] on a semaphore at 0. *)
Definition queue_tryget_free (h : gmap nat Qe.qent_base) (bp : Bp.buf_pool)
  : option (option ptr * gmap nat Qe.qent_base * Bp.buf_pool) :=
  match do_wait (Bp.free_sem bp) with
  | None => Some (None, h, bp)
  | Some c => bq_get_free h (Bp.set_free_sem c bp)
  end.

(** The scan of [queue_find_extract_fd]:
    [for (be = bp->inuse_head; be; be = be->next)
       if (dmabuf_fd(be->dh[0]) == fd) break;]
    A list of distinct entries has at most [size h] members, so the fuel is
    exhausted only when the scan would go round a loop for ever. *)
Fixpoint find_fd_from (fuel : nat) (h : gmap nat Qe.qent_base) (fd : Z)
    (be : option ptr) : option (option ptr) :=
  match be with
  | None => Some None
  | Some p =>
      match fuel with
      | O => None
      | S fuel =>
          e ← h !! p;
          d0 ← Qe.dh e !! 0%nat;
          if dmabuf_fd d0 =? fd then Some (Some p)
          else find_fd_from fuel h fd (Qe.next e)
      end
  end.

Definition queue_find_extract_fd (h : gmap nat Qe.qent_base) (bp : Bp.buf_pool)
    (fd : Z) : option (option ptr * gmap nat Qe.qent_base * Bp.buf_pool) :=
  be ← find_fd_from (size h) h fd (Bp.inuse_head bp);
  match be with
  | None => Some (None, h, bp)
  | Some p => '(h, bp) ← bq_extract_inuse h bp p; Some (Some p, h, bp)
  end.

(** *** Reading a list back from the memory *)

(** [dseg h prv l hd tl nxt]: following [next] from [hd] visits exactly the
    entries of [l] and then reaches [nxt]; following [prev] from [tl] visits
    them backwards and then reaches [prv]. *)
Fixpoint dseg (h : gmap nat Qe.qent_base) (prv : option ptr) (l : list ptr)
    (hd tl nxt : option ptr) : Prop :=
  match l with
  | [] => hd = nxt ∧ tl = prv
  | p :: l =>
      hd = Some p ∧
      ∃ e, h !! p = Some e ∧ Qe.prev e = prv ∧
           dseg h (Some p) l (Qe.next e) tl nxt
  end.

(** A well-formed list of a queue: the entries of [l], distinct, linked both
    ways between the [hd] and [tl] fields of the queue. *)
Definition dlist (h : gmap nat Qe.qent_base) (l : list ptr)
    (hd tl : option ptr) : Prop :=
  NoDup l ∧ dseg h None l hd tl None.

(** The primary-plane descriptor of the entry at [p]. *)
Definition ent_fd (h : gmap nat Qe.qent_base) (p : ptr) : option Z :=
  e ← h !! p; d0 ← Qe.dh e !! 0%nat; Some (dmabuf_fd d0).

(** An entry as [queue_put_free] leaves it: zero timestamp, and zero
    recorded length in every plane handle of the leading run of populated
    slots. *)
Fixpoint lead_len_zero (dh : list (option dmabuf_h)) : Prop :=
  match dh with
  | Some d :: dh => dh_len d = 0 ∧ lead_len_zero dh
  | _ => True
  end.

Definition recycled (e : Qe.qent_base) : Prop :=
  Qe.timestamp e = timeval_zero ∧ lead_len_zero (Qe.dh e).

(** Every populated plane handle has a zero recorded length. *)
Definition all_len_zero (dh : list (option dmabuf_h)) : Prop :=
  ∀ i d, dh !! i = Some (Some d) → dh_len d = 0.

(** [qent_dst_dmabuf]: the inner [option] is the handle (null when the slot
    is empty); reading [dh] outside the array would be [None]. *)
Definition qent_dst_dmabuf (be : Qe.qent_base) (plane : Z)
  : option (option dmabuf_h) :=
  if Z.of_nat VIDEO_MAX_PLANES <=? plane
  then Some None
  else Qe.dh be !! Z.to_nat plane.

(** What an entry carries besides its links. *)
Definition payload (e : Qe.qent_base)
  : qent_status * Z * list (option dmabuf_h) * timeval :=
  (Qe.status e, Qe.index e, Qe.dh e, Qe.timestamp e).

(** The length-clearing loop, by recursion on the array: the handles of the
    leading run of populated slots, at most [fuel] of them, get length 0. *)
Fixpoint clear_run (fuel : nat) (dh : list (option dmabuf_h))
  : list (option dmabuf_h) :=
  match fuel, dh with
  | S fuel, Some d :: dh => Some (dmabuf_len_set d 0) :: clear_run fuel dh
  | _, _ => dh
  end.

(** The populated slots of an array of handles come first. *)
Definition no_gap (dh : list (option dmabuf_h)) : Prop :=
  ∀ i j d, (i ≤ j)%nat → dh !! j = Some (Some d) → is_Some (dh !! i ≫= id).

(** The invariant of a buffer queue: the free list [fl] and the in-use list
    [il] are well-formed and share no entry, the semaphore counts the free
    list, every free entry is recycled, and every entry in use has its
    array of plane handles. *)
Definition queue_inv (h : gmap nat Qe.qent_base) (bp : Bp.buf_pool)
    (fl il : list ptr) : Prop :=
  dlist h fl (Bp.free_head bp) (Bp.free_tail bp) ∧
  dlist h il (Bp.inuse_head bp) (Bp.inuse_tail bp) ∧
  (∀ p, p ∈ fl → p ∉ il) ∧
  Bp.free_sem bp = length fl ∧
  (∀ q, q ∈ fl → ∃ e, h !! q = Some e ∧ recycled e) ∧
  (∀ q, q ∈ il → is_Some (ent_fd h q)).

(** ** The buffer allocator and buffer creation *)

(** Calls to the shareable-buffer allocator and to the weak-reference
    broker, which the design document treats as external collaborators, the
    driver call that creates a buffer slot, and the destruction of the
    condition variable and the mutex of a destination entry.  They are
    answered from a script and logged, like the calls of the first part. *)
Inductive ecall :=
| dmabuf_realloc (old : option dmabuf_h) (size : Z)
| dmabuf_import (fd size : Z)
| dmabuf_free (dh : option dmabuf_h)
| dmabuf_read_start (dh : dmabuf_h)
| dmabuf_read_end (dh : dmabuf_h)
| dmabuf_write_start (dh : dmabuf_h)
| dmabuf_write_end (dh : dmabuf_h)
| dmabuf_map (dh : dmabuf_h)
| memcpy (dh : dmabuf_h) (offset len : Z)
| VIDIOC_CREATE_BUFS (fd count memory : Z) (format : Fmt.v4l2_format)
| weak_link_unref (client : option ptr)
| pthread_cond_destroy (be : ptr)
| pthread_mutex_destroy (be : ptr).

(** The answers: success (a zero return code, or a mapping that is not
    null), failure (a return code that is not zero, or null) with the
    [errno] that an [ioctl] sets, a handle, or the index that
    [VIDIOC_CREATE_BUFS] writes back. *)
Inductive eres :=
| EOk
| EFail (errno : Z)
| EHandle (dh : dmabuf_h)
| EIndex (index : Z).

Definition e_failed (r : eres) : bool :=
  match r with EFail _ => true | _ => false end.

Module E.
Record env := Env { script : list eres; log : list ecall }.
End E.

Definition e_call (v : E.env) (c : ecall) : option (eres * E.env) :=
  match E.script v with
  | [] => None
  | r :: rest => Some (r, E.Env rest (E.log v ++ [c]))
  end.

(** A call whose result the code does not look at. *)
Definition e_note (v : E.env) (c : ecall) : E.env :=
  E.Env (E.script v) (E.log v ++ [c]).

(** [be_dst->mbc_wl = v]. *)
Definition dst_set_mbc_wl (v : option ptr) (d : Qe.qent_dst) : Qe.qent_dst :=
  Qe.Dst (Qe.waiting d) v.

(** Modelled from the spec: [ff_weak_link_unref] of [weak_link.c], which is
    not part of the sources at hand: the holder gives its handle of the link
    back to the broker, and its field is null afterwards. *)
Definition ff_weak_link_unref (d : Qe.qent_dst) (v : E.env)
  : Qe.qent_dst * E.env :=
  (dst_set_mbc_wl None d, e_note v (weak_link_unref (Qe.mbc_wl d))).

(** ** Releasing the plane handles of an entry *)

(** The loop of [qe_base_uninit] from index [i] on, with [fuel] the number
    of indices still below [VIDEO_MAX_PLANES]. *)
Fixpoint base_uninit_from (fuel i : nat) (dh : list (option dmabuf_h))
    (v : E.env) : option (list (option dmabuf_h) * E.env) :=
  match fuel with
  | O => Some (dh, v)
  | S fuel =>
      d ← dh !! i;
      base_uninit_from fuel (S i) (<[i := None]> dh) (e_note v (dmabuf_free d))
  end.

Definition qe_base_uninit (be : Qe.qent_base) (v : E.env)
  : option (Qe.qent_base * E.env) :=
  '(dh, v) ← base_uninit_from VIDEO_MAX_PLANES 0 (Qe.dh be) v;
  Some (Qe.set_dh dh be, v).


(** ** Weak links *)

(** Modelled from the spec: the weak-reference broker of [weak_link.c], which
    is not part of the sources at hand.  A holder locks its client handle to
    get the live owner, or learns that the owner is gone; breaking the link
    at the master makes every later lock fail. *)
Definition ff_weak_link_lock (w : world) (client : option ptr) : option ptr :=
  m ← client; o ← wlms w !! m; o.

(** Modelled from the spec: [ff_weak_link_break], after which the owner is
    gone for every holder of the link. *)
Definition ff_weak_link_break (w : world) (master : option ptr) : world :=
  match master with
  | Some m => set_wlms (<[m := None]> (wlms w)) w
  | None => w
  end.

(** ** Transaction controller *)

Definition V4L2_MEMORY_MMAP : Z := 1.
Definition POLLIN : Z := 1.
Definition POLLOUT : Z := 4.

(** Store the queues of a controller back. *)
Definition put_src (w : world) (mbc : ptr) (bp : Bp.buf_pool) : option world :=
  c ← ctls w !! mbc; Some (set_ctls (<[mbc := Mbc.set_src bp c]> (ctls w)) w).
Definition put_dst (w : world) (mbc : ptr) (bp : Bp.buf_pool) : option world :=
  c ← ctls w !! mbc; Some (set_ctls (<[mbc := Mbc.set_dst bp c]> (ctls w)) w).

(** Returns [0] or [-errno]. *)
Definition request_buffers (k : K.kernel) (video_fd type memory count : Z)
  : option (Z * K.kernel) :=
  '(a, k) ← env_call k (VIDIOC_REQBUFS video_fd type memory count);
  Some (if rc_of a <? 0 then - errno_of a else 0, k).

(** Returns [0] or [-errno]. *)
Definition set_stream (k : K.kernel) (video_fd type : Z) (enable : bool)
  : option (Z * K.kernel) :=
  '(a, k) ← env_call k (if enable then VIDIOC_STREAMON video_fd type
                        else VIDIOC_STREAMOFF video_fd type);
  Some (if rc_of a <? 0 then - errno_of a else 0, k).

(** The plane loop of [qe_v4l2_queue], from index [i] on; returns the
    handles, the planes and the final [i]. *)
Fixpoint queue_planes_from (fuel i : nat) (is_dst : bool)
    (dh : list (option dmabuf_h)) (planes : list Buf.v4l2_plane)
  : list (option dmabuf_h) * list Buf.v4l2_plane * nat :=
  match fuel with
  | O => (dh, planes, i)
  | S fuel =>
      match dh !! i with
      | Some (Some d) =>
          let d := if is_dst then dmabuf_len_set d 0 else d in
          queue_planes_from fuel (S i) is_dst (<[i := Some d]> dh)
            (<[i := Buf.Plane (dmabuf_size d) (dmabuf_len d) (dmabuf_fd (Some d))]> planes)
      | _ => (dh, planes, i)
      end
  end.

(** Returns [0] or [-errno].  A null handle in slot 0 of a single-planar
    buffer is dereferenced by the handle accessors. *)
Definition qe_v4l2_queue (w : world) (be : ptr) (vfd : Z) (mreq : option ptr)
    (fmt : Fmt.v4l2_format) (is_dst hold_flag : bool) : option (Z * world) :=
  e ← ents w !! be;
  '(dh, m) ←
    (if V4L2_TYPE_IS_MULTIPLANAR (Fmt.type fmt)
     then
       let '(dh, planes, i) :=
         queue_planes_from VIDEO_MAX_PLANES 0 is_dst (Qe.dh e)
           (replicate VIDEO_MAX_PLANES Buf.zero_plane) in
       Some (dh, Buf.m_planes planes (Z.of_nat i))
     else
       d0 ← Qe.dh e !! 0%nat;
       d ← d0;
       let d := if is_dst then dmabuf_len_set d 0 else d in
       Some (<[0%nat := Some d]> (Qe.dh e),
             Buf.m_fd (dmabuf_len d) (dmabuf_size d) (dmabuf_fd (Some d))));
  '(flags, request_fd) ←
    (match mreq with
     | Some req =>
         if is_dst then Some (0, 0) else
         rfd ← media_request_fd w req;
         Some (Z.lor V4L2_BUF_FLAG_REQUEST_FD
                 (if hold_flag then V4L2_BUF_FLAG_M2M_HOLD_CAPTURE_BUF else 0),
               rfd)
     | None => Some (0, 0)
     end);
  let ts := if is_dst then timeval_zero else Qe.timestamp e in
  let e := Qe.set_timestamp ts (Qe.set_dh dh e) in
  let w := set_ents (<[be := e]> (ents w)) w in
  let buffer := Buf.Buffer (Fmt.type fmt) V4L2_MEMORY_DMABUF (Qe.index e)
                  flags request_fd ts m in
  '(a, k) ← ioctl_retry (kern w) (VIDIOC_QBUF vfd buffer);
  Some (if is_err a then - errno_of a else 0, set_kern k w).

(** What [VIDIOC_DQBUF] wrote back: descriptor of plane 0, timestamp, flags
    (nothing when the answer carries no buffer). *)
Definition dqbuf_of (a : kres) : Z * timeval * Z :=
  match a with
  | KOkBuf fd ts flags => (fd, ts, flags)
  | _ => (0, timeval_zero, 0)
  end.

(** Returns the entry dequeued (or null), the queue and the state. *)
Definition qe_dequeue (w : world) (bp : Bp.buf_pool) (vfd : Z)
    (f : Fmt.v4l2_format) : option (option ptr * Bp.buf_pool * world) :=
  '(a, k) ← ioctl_retry (kern w) (VIDIOC_DQBUF vfd (Fmt.type f));
  let w := set_kern k w in
  if is_err a then Some (None, bp, w) else
  let '(fd, ts, flags) := dqbuf_of a in
  '(be, h, bp) ← queue_find_extract_fd (ents w) bp fd;
  match be with
  | None => Some (None, bp, set_ents h w)
  | Some p =>
      h ← upd h p (Qe.set_timestamp ts);
      h ← upd h p (Qe.set_status
                     (if Z.land flags V4L2_BUF_FLAG_ERROR =? 0
                      then QENT_DONE else QENT_ERROR));
      Some (Some p, bp, set_ents h w)
  end.

Definition qe_dst_done (w : world) (dst_be : ptr) : option world :=
  d ← dsts w !! dst_be;
  Some (set_dsts (<[dst_be := Qe.set_waiting false d]> (dsts w)) w).

Definition qe_dst_waiting (w : world) (dst_be : ptr) : option (bool * world) :=
  d ← dsts w !! dst_be;
  Some (Qe.waiting d,
        set_dsts (<[dst_be := Qe.set_waiting true d]> (dsts w)) w).

Definition mediabufs_wants_poll (c : Mbc.mediabufs_ctl) : bool :=
  queue_is_inuse (Mbc.src c) || queue_is_inuse (Mbc.dst c).

Definition mediabufs_ctl_ref (w : world) (mbc : ptr) : option world :=
  c ← ctls w !! mbc;
  Some (set_ctls (<[mbc := Mbc.set_ref_count (Mbc.ref_count c + 1) c]> (ctls w)) w).

Definition mediabufs_stream_on (w : world) (mbc : ptr)
  : option (MediaBufsStatus * world) :=
  c ← ctls w !! mbc;
  if Mbc.stream_on c then Some (MEDIABUFS_STATUS_SUCCESS, w) else
  '(rc, k) ← set_stream (kern w) (Mbc.vfd c) (Fmt.type (Mbc.src_fmt c)) true;
  let w := set_kern k w in
  if rc <? 0 then Some (MEDIABUFS_ERROR_OPERATION_FAILED, w) else
  '(rc, k) ← set_stream (kern w) (Mbc.vfd c) (Fmt.type (Mbc.dst_fmt c)) true;
  let w := set_kern k w in
  if rc <? 0 then
    '(_, k) ← set_stream (kern w) (Mbc.vfd c) (Fmt.type (Mbc.src_fmt c)) false;
    Some (MEDIABUFS_ERROR_OPERATION_FAILED, set_kern k w)
  else
    Some (MEDIABUFS_STATUS_SUCCESS,
          set_ctls (<[mbc := Mbc.set_stream_on true c]> (ctls w)) w).

Definition mediabufs_stream_off (w : world) (mbc : ptr)
  : option (MediaBufsStatus * world) :=
  c ← ctls w !! mbc;
  let status := MEDIABUFS_STATUS_SUCCESS in
  if negb (Mbc.stream_on c) then Some (MEDIABUFS_STATUS_SUCCESS, w) else
  '(rc, k) ← set_stream (kern w) (Mbc.vfd c) (Fmt.type (Mbc.src_fmt c)) false;
  let w := set_kern k w in
  let status := if rc <? 0 then MEDIABUFS_ERROR_OPERATION_FAILED else status in
  '(rc, k) ← set_stream (kern w) (Mbc.vfd c) (Fmt.type (Mbc.dst_fmt c)) false;
  let w := set_kern k w in
  let status := if rc <? 0 then MEDIABUFS_ERROR_OPERATION_FAILED else status in
  Some (status, set_ctls (<[mbc := Mbc.set_stream_on false c]> (ctls w)) w).

Definition mediabufs_ctl_delete (w : world) (mbc : option ptr) : option world :=
  match mbc with
  | None => Some w
  | Some mbc =>
      c ← ctls w !! mbc;
      (* Break the weak link first *)
      let w := ff_weak_link_break w (Mbc.this_wlm c) in
      w ← Some (set_ctls (<[mbc := Mbc.set_this_wlm None c]> (ctls w)) w);
      let w := set_kern (env_note (kern w) (polltask_delete (pt_ctl mbc))) w in
      '(_, w) ← mediabufs_stream_off w mbc;
      c ← ctls w !! mbc;
      '(_, k) ← request_buffers (kern w) (Mbc.vfd c)
                  (Fmt.type (Mbc.src_fmt c)) V4L2_MEMORY_MMAP 0;
      '(_, k) ← request_buffers k (Mbc.vfd c)
                  (Fmt.type (Mbc.dst_fmt c)) V4L2_MEMORY_MMAP 0;
      let k := env_note k (SYS_close (Mbc.vfd c)) in
      Some (set_kern k (set_ctls (delete mbc (ctls w)) w))
  end.

(** Returns the new value of [*pmbc] and the state. *)
Definition mediabufs_ctl_unref (w : world) (pmbc : option ptr)
  : option (option ptr * world) :=
  match pmbc with
  | None => Some (None, w)
  | Some mbc =>
      c ← ctls w !! mbc;
      let n := Mbc.ref_count c in
      let w := set_ctls (<[mbc := Mbc.set_ref_count (n - 1) c]> (ctls w)) w in
      if n =? 0
      then w ← mediabufs_ctl_delete w (Some mbc); Some (None, w)
      else Some (None, w)
  end.

Definition mediabufs_poll_cb (w : world) (mbc : ptr) (revents : Z)
  : option world :=
  c ← ctls w !! mbc;
  let c := Mbc.set_polling false c in
  w ← Some (set_ctls (<[mbc := c]> (ctls w)) w);
  '(src_be, w) ←
    (if Z.land revents POLLOUT =? 0 then Some (None, w) else
     '(be, bp, w) ← qe_dequeue w (Mbc.src c) (Mbc.vfd c) (Mbc.src_fmt c);
     w ← put_src w mbc bp; Some (be, w));
  c ← ctls w !! mbc;
  '(dst_be, w) ←
    (if Z.land revents POLLIN =? 0 then Some (None, w) else
     '(be, bp, w) ← qe_dequeue w (Mbc.dst c) (Mbc.vfd c) (Mbc.dst_fmt c);
     w ← put_dst w mbc bp; Some (be, w));
  c ← ctls w !! mbc;
  (* Reschedule *)
  let qrun := mediabufs_wants_poll c in
  let w :=
    if qrun
    then set_kern (env_note (kern w) (pollqueue_add_task (pt_ctl mbc) 2000))
           (set_ctls (<[mbc := Mbc.set_polling true c]> (ctls w)) w)
    else w in
  w ← match src_be with
      | Some s =>
          c ← ctls w !! mbc;
          '(h, bp) ← queue_put_free (ents w) (Mbc.src c) s;
          put_src (set_ents h w) mbc bp
      | None => Some w
      end;
  w ← match dst_be with
      | Some d => qe_dst_done w d
      | None => Some w
      end;
  if qrun then Some w else snd <$> mediabufs_ctl_unref w (Some mbc).

(** The code after the label [fail1] of [mediabufs_start_request]. *)
Definition start_request_fail1 (w : world) (mbc : ptr)
    (mreq src_be dst_be : option ptr) : option (MediaBufsStatus * world) :=
  '(_, _, w) ← media_request_abort w mreq;
  w ← match src_be with
      | Some s =>
          c ← ctls w !! mbc;
          '(h, bp) ← queue_put_free (ents w) (Mbc.src c) s;
          put_src (set_ents h w) mbc bp
      | None => Some w
      end;
  (* *** TODO: If src Q fails this doesnt unwind properly *)
  w ← match dst_be with
      | Some d => qe_dst_done w d
      | None => Some w
      end;
  Some (MEDIABUFS_ERROR_OPERATION_FAILED, w).

(** The part of [mediabufs_start_request] that deals with the destination
    entry; [false] stands for [goto fail1]. *)
Definition start_request_dst (w : world) (mbc : ptr) (dst_be : option ptr)
  : option (bool * world) :=
  match dst_be with
  | None => Some (true, w)
  | Some d =>
      '(already, w) ← qe_dst_waiting w d;
      if already : bool then Some (false, w) else
      h ← upd (ents w) d (Qe.set_timestamp timeval_zero);
      let w := set_ents h w in
      c ← ctls w !! mbc;
      '(rc, w) ← qe_v4l2_queue w d (Mbc.vfd c) None (Mbc.dst_fmt c) true false;
      if negb (rc =? 0) then Some (false, w) else
      '(h, bp) ← queue_put_inuse (ents w) (Mbc.dst c) (Some d);
      w ← put_dst (set_ents h w) mbc bp;
      Some (true, w)
  end.

(** Returns the status, the new values of [*pmreq] and [*psrc_be], and the
    state. *)
Definition mediabufs_start_request (w : world) (mbc : ptr)
    (pmreq psrc_be : option ptr) (dst_be : option ptr) (is_final : bool)
  : option (MediaBufsStatus * option ptr * option ptr * world) :=
  let mreq := pmreq in
  let src_be := psrc_be in
  (* Req & src are always both "consumed" *)
  let pmreq := @None ptr in
  let psrc_be := @None ptr in
  '(status, w) ←
    (_ ← ctls w !! mbc;
     match src_be with
     | None => start_request_fail1 w mbc mreq src_be dst_be
     | Some s =>
         '(ok, w) ← start_request_dst w mbc dst_be;
         if negb ok then start_request_fail1 w mbc mreq src_be dst_be else
         c ← ctls w !! mbc;
         '(rc, w) ← qe_v4l2_queue w s (Mbc.vfd c) mreq (Mbc.src_fmt c)
                      false (negb is_final);
         if negb (rc =? 0) then start_request_fail1 w mbc mreq src_be dst_be else
         '(h, bp) ← queue_put_inuse (ents w) (Mbc.src c) (Some s);
         w ← put_src (set_ents h w) mbc bp;
         c ← ctls w !! mbc;
         w ← (if negb (Mbc.polling c) && mediabufs_wants_poll c
              then
                w ← Some (set_ctls (<[mbc := Mbc.set_polling true c]> (ctls w)) w);
                w ← mediabufs_ctl_ref w mbc;
                Some (set_kern (env_note (kern w)
                                  (pollqueue_add_task (pt_ctl mbc) 2000)) w)
              else Some w);
         '(rc, w) ← media_request_start w mreq;
         if negb (rc =? 0)
         then Some (MEDIABUFS_ERROR_OPERATION_FAILED, w)
         else Some (MEDIABUFS_STATUS_SUCCESS, w)
     end);
  Some (status, pmreq, psrc_be, w).

(** The format [fmt_set] sends: a zeroed structure with the type, and the
    requested values in the member that the type selects. *)
Definition fmt_request (buftype pixfmt width height bufsize : Z)
  : Fmt.v4l2_format :=
  if V4L2_TYPE_IS_MULTIPLANAR buftype
  then Fmt.Format buftype (Fmt.pix_mp
         (if bufsize =? 0
          then Fmt.PixMp width height pixfmt
                 (Fmt.mp_plane_sizeimage Fmt.zero_mp) 0
          else Fmt.PixMp width height pixfmt
                 (<[0%nat := bufsize mod 2 ^ 32]> (Fmt.mp_plane_sizeimage Fmt.zero_mp))
                 1))
  else Fmt.Format buftype (Fmt.pix (Fmt.Pix width height pixfmt (bufsize mod 2 ^ 32))).

(** What [VIDIOC_S_FMT] leaves in the structure it was given. *)
Definition s_fmt_of (a : kres) (sent : Fmt.v4l2_format) : Fmt.v4l2_format :=
  match a with KOkFmt f => f | _ => sent end.

(** Returns the status, the new contents of [*fmt] and the environment.  The
    old contents of [*fmt] are overwritten on entry. *)
Definition fmt_set (fmt : Fmt.v4l2_format) (k : K.kernel) (fd : Z)
    (buftype pixfmt width height bufsize : Z)
  : option (MediaBufsStatus * Fmt.v4l2_format * K.kernel) :=
  let fmt := fmt_request buftype pixfmt width height bufsize in
  '(a, k) ← ioctl_retry k (VIDIOC_S_FMT fd fmt);
  if is_err a then Some (MEDIABUFS_ERROR_OPERATION_FAILED, fmt, k) else
  let fmt := s_fmt_of a fmt in
  (* Treat anything where we don't get at least what we asked for as a fail *)
  if (Fmt.width (Fmt.fmt fmt) <? width) ||
     (Fmt.height (Fmt.fmt fmt) <? height) ||
     negb (Fmt.pixelformat (Fmt.fmt fmt) =? pixfmt)
  then Some (MEDIABUFS_ERROR_UNSUPPORTED_BUFFERTYPE, fmt, k)
  else Some (MEDIABUFS_STATUS_SUCCESS, fmt, k).

Definition mediabufs_src_fmt_set (w : world) (mbc : ptr)
    (buf_type pixfmt width height bufsize : Z)
  : option (MediaBufsStatus * world) :=
  c ← ctls w !! mbc;
  '(rv, f, k) ← fmt_set (Mbc.src_fmt c) (kern w) (Mbc.vfd c)
                  buf_type pixfmt width height bufsize;
  Some (rv, set_kern k (set_ctls (<[mbc := Mbc.set_src_fmt f c]> (ctls w)) w)).

(** ** Destination entries *)

Definition status_result (estat : qent_status) : MediaBufsStatus :=
  match estat with
  | QENT_DONE => MEDIABUFS_STATUS_SUCCESS
  | QENT_ERROR => MEDIABUFS_ERROR_DECODING_ERROR
  | _ => MEDIABUFS_ERROR_OPERATION_FAILED
  end.

(** [qent_dst_wait]: the loop
    [while (be_dst->waiting && !pthread_cond_wait(...))] waits while the
    flag is set, unless [pthread_cond_wait] fails ([cond_wait_fails]). *)
Definition qent_dst_wait (w : world) (be_dst : ptr) (cond_wait_fails : bool)
  : option (outcome MediaBufsStatus world) :=
  d ← dsts w !! be_dst;
  e ← ents w !! be_dst;
  if Qe.waiting d && negb cond_wait_fails
  then Some Blocks
  else Some (Returns (status_result (Qe.status e)) w).

(** [qent_dst_delete]: the handle of the weak link is given back, the
    condition variable and the mutex of the entry are destroyed, its plane
    handles are freed one slot after the other, and the entry is released. *)
Definition qent_dst_delete (w : world) (v : E.env) (be_dst : option ptr)
  : option (world * E.env) :=
  match be_dst with
  | None => Some (w, v)
  | Some be =>
      d ← dsts w !! be;
      let '(d, v) := ff_weak_link_unref d v in
      let w := set_dsts (<[be := d]> (dsts w)) w in
      let v := e_note v (pthread_cond_destroy be) in
      let v := e_note v (pthread_mutex_destroy be) in
      e ← ents w !! be;
      '(e, v) ← qe_base_uninit e v;
      let w := set_ents (<[be := e]> (ents w)) w in
      (* free(be_dst) *)
      Some (set_dsts (delete be (dsts w)) (set_ents (delete be (ents w)) w), v)
  end.

(** Returns the new value of [*pbe_dst] and the state. *)
Definition qent_dst_free (w : world) (v : E.env) (pbe_dst : option ptr)
  : option (option ptr * world * E.env) :=
  match pbe_dst with
  | None => Some (None, w, v)
  | Some be =>
      d ← dsts w !! be;
      match ff_weak_link_lock w (Qe.mbc_wl d) with
      | Some mbc =>
          c ← ctls w !! mbc;
          '(h, bp) ← queue_put_free (ents w) (Mbc.dst c) be;
          w ← put_dst (set_ents h w) mbc bp;
          Some (None, w, v)
      | None =>
          '(w, v) ← qent_dst_delete w v (Some be);
          Some (None, w, v)
      end
  end.

(** The answer makes [set_stream] return a negative code. *)
Definition reports_failure (a : kres) : bool :=
  is_err a && (0 <? errno_of a).

(** The status [mediabufs_stream_off] accumulates from two answers. *)
Definition stream_off_status (a1 a2 : kres) : MediaBufsStatus :=
  if reports_failure a1 || reports_failure a2
  then MEDIABUFS_ERROR_OPERATION_FAILED
  else MEDIABUFS_STATUS_SUCCESS.

(** The driver granted less than what was asked. *)
Definition fmt_short (got : Fmt.v4l2_format) (pixfmt width height : Z) : bool :=
  (Fmt.width (Fmt.fmt got) <? width) ||
  (Fmt.height (Fmt.fmt got) <? height) ||
  negb (Fmt.pixelformat (Fmt.fmt got) =? pixfmt).

(** An answer that ends a retry loop: anything but [EINTR]. *)
Definition not_eintr (a : kres) : Prop :=
  is_err a && (errno_of a =? EINTR) = false.

(** ** States used in the examples *)

(** An empty world whose environment answers the calls of
    [media_pool_new] for two handles, and four later calls. *)
Definition pool_demo_world : world :=
  World ∅ ∅ ∅ ∅ ∅ ∅
    (K.Kernel [KOk; KOkFd 5; KOk; KOkFd 10; KOk; KOk; KOkFd 11; KOk;
               KOk; KOk; KOk; KOk] []).

Definition pool_demo_created : world :=
  match media_pool_new pool_demo_world 2 with
  | Some (_, w) => w
  | None => pool_demo_world
  end.

(** A queue memory with the entry 1 in use (descriptor 10) and the entry 2
    held by a caller (descriptor 11). *)
Definition demo_planes (fd len : Z) : list (option dmabuf_h) :=
  Some (Dmabuf fd 4096 len) :: replicate 7 None.

Definition queue_demo_ents : gmap nat Qe.qent_base :=
  {[ 1%nat := Qe.Base None None QENT_WAITING 0 (demo_planes 10 0) timeval_zero;
     2%nat := Qe.Base None None QENT_NEW 1 (demo_planes 11 33) (Timeval 7 8) ]}.

Definition queue_demo_bp : Bp.buf_pool :=
  Bp.BufPool 0 None None (Some 1%nat) (Some 1%nat).

(** The same memory seen from a queue that has the entry 1 on its free list. *)
Definition queue_demo_free_bp : Bp.buf_pool :=
  Bp.BufPool 1 (Some 1%nat) (Some 1%nat) None None.

(** A controller at address 0 (video descriptor 3, multi-planar formats of
    1920x1080, not streaming, both queues empty), a source entry at 1 and a
    destination entry at 2 held by the caller, and a request at 0 of the
    pool at 0, acquired by the caller.  The environment will give the
    answers of [script]. *)
Definition demo_fmt (type : Z) : Fmt.v4l2_format :=
  Fmt.Format type
    (Fmt.pix_mp (Fmt.PixMp 1920 1080 875967048
                   (Fmt.mp_plane_sizeimage Fmt.zero_mp) 1)).

Definition ctl_demo_world (script : list kres) : world :=
  World {[ 0%nat := Req.Request None 0 7 ]}
        {[ 0%nat := Pool.MediaPool 5 0 None ]}
        {[ 1%nat := Qe.Base None None QENT_NEW 0 (demo_planes 10 100) (Timeval 5 6);
           2%nat := Qe.Base None None QENT_NEW 1 (demo_planes 11 0) (Timeval 7 8) ]}
        {[ 2%nat := Qe.Dst false (Some 0%nat) ]}
        {[ 0%nat := Mbc.Ctl 0 3 false false Bp.empty Bp.empty (Some 0%nat)
                      (demo_fmt V4L2_BUF_TYPE_VIDEO_OUTPUT_MPLANE)
                      (demo_fmt V4L2_BUF_TYPE_VIDEO_CAPTURE_MPLANE) ]}
        {[ 0%nat := Some 0%nat ]}
        (K.Kernel script []).

(** The state a call leaves, or the state it started from when it has no
    result. *)
Definition world_after {A : Type} (r : option (A * world)) (w : world) : world :=
  match r with Some (_, w') => w' | None => w end.

(** What the driver hands back in the example of a refused format:
    1280x720 for a request of 1920x1080. *)
Definition demo_fmt_small : Fmt.v4l2_format :=
  Fmt.Format V4L2_BUF_TYPE_VIDEO_OUTPUT_MPLANE
    (Fmt.pix_mp (Fmt.PixMp 1280 720 875967048
                   (Fmt.mp_plane_sizeimage Fmt.zero_mp) 1)).

(** The state after a submission. *)
Definition world_after_start
    (r : option (MediaBufsStatus * option ptr * option ptr * world))
    (w : world) : world :=
  match r with Some (_, _, _, w') => w' | None => w end.

(** The example state after a successful submission of the request 0 with
    the source entry 1 and the destination entry 2, and after the poll
    callback has dequeued the destination buffer, which the driver returned
    with [flags]. *)
Definition demo_submitted (flags : Z) : world :=
  world_after_start
    (mediabufs_start_request
       (ctl_demo_world [KOk; KOk; KOk; KOkBuf 11 (Timeval 9 9) flags])
       0 (Some 0%nat) (Some 1%nat) (Some 2%nat) true)
    (ctl_demo_world []).

Definition demo_completed (flags : Z) : world :=
  match mediabufs_poll_cb (demo_submitted flags) 0 POLLIN with
  | Some w => w
  | None => demo_submitted flags
  end.

(** ** Further code of the request pool *)

(** Returns the new value of [*pMp] and the state. *)
Definition media_pool_delete (w : world) (pMp : option ptr)
  : option (option ptr * world) :=
  match pMp with
  | None => Some (None, w)
  | Some mp =>
      p ← pools w !! mp;
      w ← delete_req_chain w (Pool.free_reqs p);
      let w := set_kern (env_note (kern w) (SYS_close (Pool.fd p))) w in
      Some (None, set_pools (delete mp (pools w)) w)
  end.

(** The [close] calls of [delete_req_chain] on the chain [l]: one for each
    request that has a descriptor. *)
Definition chain_closes (rs : gmap nat Req.media_request) (l : list ptr)
  : list kcall :=
  flat_map (λ req, match rs !! req with
                   | Some r => if Req.fd r =? -1 then [] else [SYS_close (Req.fd r)]
                   | None => []
                   end) l.

(** An empty world in which the driver refuses the second request of a
    pool of two. *)
Definition pool_fail_world : world :=
  World ∅ ∅ ∅ ∅ ∅ ∅
    (K.Kernel [KOk; KOkFd 5; KOk; KOkFd 10; KOk; KOk; KErr 12] []).

Definition pool_fail_after : world :=
  match media_pool_new pool_fail_world 2 with
  | Some (_, w) => w
  | None => pool_fail_world
  end.

(** ** Runs of a buffer queue *)

(** What the users of one queue do with it: recycle an entry they hold, take
    a free entry (waiting or not), put an entry they hold in use, and look
    an in-use entry up by the descriptor the driver reported. *)
Inductive queue_event :=
| qev_put_free (be : ptr)
| qev_get_free
| qev_tryget_free
| qev_put_inuse (be : ptr)
| qev_find_extract_fd (fd : Z).

(** The queue, the memory of its entries, and the entries that are on
    neither list: those its users hold. *)
Record queue_state := QueueState {
  qs_ents : gmap nat Qe.qent_base; qs_bp : Bp.buf_pool; qs_held : list ptr }.

(** The holder's list after a call that handed out [r]. *)
Definition took (r : option ptr) (held : list ptr) : list ptr :=
  match r with Some be => be :: held | None => held end.

Definition queue_step (st : queue_state) (ev : queue_event)
  : option queue_state :=
  let h := qs_ents st in
  let bp := qs_bp st in
  let held := qs_held st in
  match ev with
  | qev_put_free be =>
      if decide (be ∈ held)
      then '(h, bp) ← queue_put_free h bp be;
           Some (QueueState h bp (filter (λ r, r ≠ be) held))
      else None
  | qev_get_free =>
      o ← queue_get_free h bp;
      match o with
      | Blocks => Some st
      | Returns r (h, bp) => Some (QueueState h bp (took r held))
      end
  | qev_tryget_free =>
      '(r, h, bp) ← queue_tryget_free h bp;
      Some (QueueState h bp (took r held))
  | qev_put_inuse be =>
      if decide (be ∈ held)
      then '(h, bp) ← queue_put_inuse h bp (Some be);
           Some (QueueState h bp (filter (λ r, r ≠ be) held))
      else None
  | qev_find_extract_fd fd =>
      '(r, h, bp) ← queue_find_extract_fd h bp fd;
      Some (QueueState h bp (took r held))
  end.

Fixpoint queue_run (st : queue_state) (evs : list queue_event)
  : option queue_state :=
  match evs with
  | [] => Some st
  | ev :: evs => st ← queue_step st ev; queue_run st evs
  end.

(** An event a user may issue: only an entry that is held can be put on a
    list. *)
Definition queue_event_allowed (st : queue_state) (ev : queue_event) : Prop :=
  match ev with
  | qev_put_free be | qev_put_inuse be => be ∈ qs_held st
  | _ => True
  end.

(** Every entry of [all] is allocated, with its array of
    [VIDEO_MAX_PLANES] plane handles. *)
Definition queue_ents_ok (h : gmap nat Qe.qent_base) (all : list ptr) : Prop :=
  ∀ q, q ∈ all → ∃ e, h !! q = Some e ∧ length (Qe.dh e) = VIDEO_MAX_PLANES.

(** The entries [all] of a queue are on its free list, on its in-use list or
    held, each in one place. *)
Definition queue_state_inv (all : list ptr) (st : queue_state) : Prop :=
  ∃ fl il,
    queue_inv (qs_ents st) (qs_bp st) fl il ∧
    fl ++ il ++ qs_held st ≡ₚ all ∧
    queue_ents_ok (qs_ents st) all.

(** ** Teardown *)

(** The calls of [mediabufs_ctl_delete], in order: the poll task is deleted,
    streaming is switched off in both directions when it is on, the buffer
    tables of the driver are emptied, the device is closed. *)
Definition teardown_calls (mbc : ptr) (c : Mbc.mediabufs_ctl) : list kcall :=
  polltask_delete (pt_ctl mbc) ::
  (if Mbc.stream_on c
   then [VIDIOC_STREAMOFF (Mbc.vfd c) (Fmt.type (Mbc.src_fmt c));
         VIDIOC_STREAMOFF (Mbc.vfd c) (Fmt.type (Mbc.dst_fmt c))]
   else []) ++
  [VIDIOC_REQBUFS (Mbc.vfd c) (Fmt.type (Mbc.src_fmt c)) V4L2_MEMORY_MMAP 0;
   VIDIOC_REQBUFS (Mbc.vfd c) (Fmt.type (Mbc.dst_fmt c)) V4L2_MEMORY_MMAP 0;
   SYS_close (Mbc.vfd c)].

(** The number of those calls whose answer the code reads. *)
Definition teardown_answers (c : Mbc.mediabufs_ctl) : nat :=
  if Mbc.stream_on c then 4%nat else 2%nat.

(** A queue memory with the entry 1 in use, and a driver that reports,
    after an interruption, the buffer of descriptor 10 as complete. *)
Definition dequeue_demo_world : world :=
  World ∅ ∅ queue_demo_ents ∅ ∅ ∅
    (K.Kernel [KErr EINTR; KOkBuf 10 (Timeval 3 4) 0] []).
(** ** Reading, filling and allocating entries *)

(** The handles of the leading run of populated slots of an array, at most
    [fuel] of them: what a loop
    [for (i = 0; i != VIDEO_MAX_PLANES && be->dh[i]; ++i)] visits. *)
Fixpoint lead_run (fuel : nat) (dh : list (option dmabuf_h)) : list dmabuf_h :=
  match fuel, dh with
  | S fuel, Some d :: dh => d :: lead_run fuel dh
  | _, _ => []
  end.

(** *** Reading a destination entry *)

(** [while (i--) dmabuf_read_end(be->dh[i]);] *)
Fixpoint read_unwind (i : nat) (dh : list (option dmabuf_h)) (v : E.env)
  : option E.env :=
  match i with
  | O => Some v
  | S i =>
      d0 ← dh !! i;
      d ← d0;
      read_unwind i dh (e_note v (dmabuf_read_end d))
  end.

(** The loop of [qent_dst_read_start] from index [i] on, with [fuel] the
    number of indices still below [VIDEO_MAX_PLANES]. *)
Fixpoint read_start_from (fuel i : nat) (dh : list (option dmabuf_h))
    (v : E.env) : option (MediaBufsStatus * E.env) :=
  match fuel with
  | O => Some (MEDIABUFS_STATUS_SUCCESS, v)
  | S fuel =>
      match dh !! i with
      | Some (Some d) =>
          '(a, v) ← e_call v (dmabuf_read_start d);
          if e_failed a
          then v ← read_unwind i dh v;
               Some (MEDIABUFS_ERROR_ALLOCATION_FAILED, v)
          else read_start_from fuel (S i) dh v
      | _ => Some (MEDIABUFS_STATUS_SUCCESS, v)
      end
  end.

Definition qent_dst_read_start (be : Qe.qent_base) (v : E.env)
  : option (MediaBufsStatus * E.env) :=
  read_start_from VIDEO_MAX_PLANES 0 (Qe.dh be) v.

(** The loop of [qent_dst_read_stop]. *)
Fixpoint read_stop_from (fuel i : nat) (dh : list (option dmabuf_h))
    (status : MediaBufsStatus) (v : E.env) : option (MediaBufsStatus * E.env) :=
  match fuel with
  | O => Some (status, v)
  | S fuel =>
      match dh !! i with
      | Some (Some d) =>
          '(a, v) ← e_call v (dmabuf_read_end d);
          read_stop_from fuel (S i) dh
            (if e_failed a then MEDIABUFS_ERROR_OPERATION_FAILED else status) v
      | _ => Some (status, v)
      end
  end.

Definition qent_dst_read_stop (be : Qe.qent_base) (v : E.env)
  : option (MediaBufsStatus * E.env) :=
  read_stop_from VIDEO_MAX_PLANES 0 (Qe.dh be) MEDIABUFS_STATUS_SUCCESS v.

(** *** Filling a source entry *)

Definition ENOMEM : Z := 12.

(** [qent_base_realloc]; [dbsc] says whether the allocator pointer is not
    null.  Returns the code, the entry and the environment.  The new size
    is computed before [dbsc] is looked at. *)
Definition qent_base_realloc (be : Qe.qent_base) (len : Z) (dbsc : bool)
    (v : E.env) : option (Z * Qe.qent_base * E.env) :=
  d0 ← Qe.dh be !! 0%nat;
  if match d0 with
     | None => true
     | Some d => dmabuf_size d <? len
     end
  then
    newsize ← SizeClass.round_up_size len;
    if negb dbsc then Some (- ENOMEM, be, v) else
    '(a, v) ← e_call v (dmabuf_realloc d0 newsize);
    match a with
    | EHandle d =>
        Some (0, Qe.set_dh (<[0%nat := Some d]> (Qe.dh be)) be, v)
    | _ =>
        Some (- ENOMEM, Qe.set_dh (<[0%nat := None]> (Qe.dh be)) be, v)
    end
  else Some (0, be, v).

Definition qent_src_alloc (be : Qe.qent_base) (len : Z) (dbsc : bool)
    (v : E.env) : option (Z * Qe.qent_base * E.env) :=
  qent_base_realloc be len dbsc v.

(** [qent_src_data_copy]; [fixed_size] is the flag of the source entry,
    [offset] and [len] are [size_t] values, whose sum wraps. *)
Definition qent_src_data_copy (be : Qe.qent_base) (fixed_size : bool)
    (offset len : Z) (dbsc : bool) (v : E.env)
  : option (Z * Qe.qent_base * E.env) :=
  (* Realloc doesn't copy so don't alloc if offset != 0 *)
  '(rv, be, v) ← qent_base_realloc be
                   ((offset + len) mod 2 ^ SizeClass.SIZE_BITS)
                   (if fixed_size || negb (offset =? 0) then false else dbsc) v;
  if negb (rv =? 0) then Some (rv, be, v) else
  d0 ← Qe.dh be !! 0%nat;
  d ← d0;
  let v := e_note v (dmabuf_write_start d) in
  '(a, v) ← e_call v (dmabuf_map d);
  if e_failed a then Some (-1, be, v) else
  let v := e_note v (memcpy d offset len) in
  let d := dmabuf_len_set d len in
  let be := Qe.set_dh (<[0%nat := Some d]> (Qe.dh be)) be in
  let v := e_note v (dmabuf_write_end d) in
  Some (0, be, v).

(** *** Importing a plane *)

(** [qent_dst_import_fd]; [plane] is an [unsigned int], and a slot outside
    the array has no defined contents.  The slot is looked at only when the
    status is [QENT_IMPORT]. *)
Definition qent_dst_import_fd (be : Qe.qent_base) (plane fd size : Z)
    (v : E.env) : option (MediaBufsStatus * Qe.qent_base * E.env) :=
  match Qe.status be with
  | QENT_IMPORT =>
      slot ← Qe.dh be !! Z.to_nat plane;
      match slot with
      | Some _ => Some (MEDIABUFS_ERROR_OPERATION_FAILED, be, v)
      | None =>
          '(a, v) ← e_call v (dmabuf_import fd size);
          match a with
          | EHandle d =>
              Some (MEDIABUFS_STATUS_SUCCESS,
                    Qe.set_dh (<[Z.to_nat plane := Some d]> (Qe.dh be)) be, v)
          | _ => Some (MEDIABUFS_ERROR_ALLOCATION_FAILED, be, v)
          end
      end
  | _ => Some (MEDIABUFS_ERROR_OPERATION_FAILED, be, v)
  end.

(** *** Allocating the planes of an entry *)

(** [while (i--) { dmabuf_free(be->dh[i]); be->dh[i] = NULL; }] *)
Fixpoint alloc_unwind (i : nat) (dh : list (option dmabuf_h)) (v : E.env)
  : option (list (option dmabuf_h) * E.env) :=
  match i with
  | O => Some (dh, v)
  | S i =>
      d0 ← dh !! i;
      alloc_unwind i (<[i := None]> dh) (e_note v (dmabuf_free d0))
  end.

(** The loop [for (i = 0; i != num_planes; ++i)] of [qe_alloc_from_fmt]
    from index [i] on, with [fuel] iterations to go; a slot or a plane
    format outside its array has no defined contents. *)
Fixpoint alloc_planes_from (fuel i : nat) (sizes : list Z)
    (dh : list (option dmabuf_h)) (v : E.env)
  : option (Z * list (option dmabuf_h) * E.env) :=
  match fuel with
  | O => Some (0, dh, v)
  | S fuel =>
      old ← dh !! i;
      size ← sizes !! i;
      '(a, v) ← e_call v (dmabuf_realloc old size);
      match a with
      | EHandle d => alloc_planes_from fuel (S i) sizes (<[i := Some d]> dh) v
      | _ =>
          (* On failure tidy up and die *)
          '(dh, v) ← alloc_unwind i (<[i := None]> dh) v;
          Some (-1, dh, v)
      end
  end.

(** [qe_alloc_from_fmt].  A format whose union member does not agree with
    its type has no result here. *)
Definition qe_alloc_from_fmt (be : Qe.qent_base) (fmt : Fmt.v4l2_format)
    (v : E.env) : option (Z * Qe.qent_base * E.env) :=
  if V4L2_TYPE_IS_MULTIPLANAR (Fmt.type fmt)
  then
    match Fmt.fmt fmt with
    | Fmt.pix_mp p =>
        '(rc, dh, v) ← alloc_planes_from (Z.to_nat (Fmt.mp_num_planes p)) 0
                         (Fmt.mp_plane_sizeimage p) (Qe.dh be) v;
        Some (rc, Qe.set_dh dh be, v)
    | Fmt.pix _ => None
    end
  else
    match Fmt.fmt fmt with
    | Fmt.pix p =>
        old ← Qe.dh be !! 0%nat;
        '(a, v) ← e_call v (dmabuf_realloc old (Fmt.pix_sizeimage p));
        match a with
        | EHandle d =>
            Some (0, Qe.set_dh (<[0%nat := Some d]> (Qe.dh be)) be, v)
        | _ => Some (-1, Qe.set_dh (<[0%nat := None]> (Qe.dh be)) be, v)
        end
    | Fmt.pix_mp _ => None
    end.

(** *** Creating destination slots *)

Definition INDEX_UNSET : Z := 2 ^ 32 - 1.

(** [QENT_BASE_INITIALIZER]; the members it does not name are zero. *)
Definition QENT_BASE_INITIALIZER : Qe.qent_base :=
  Qe.Base None None QENT_NEW INDEX_UNSET
    (replicate VIDEO_MAX_PLANES None) timeval_zero.

(** [be->index = v]. *)
Definition qe_set_index (v : Z) (e : Qe.qent_base) : Qe.qent_base :=
  Qe.Base (Qe.next e) (Qe.prev e) (Qe.status e) v (Qe.dh e) (Qe.timestamp e).

(** [qe_dst_new]: a new entry at an address that is in use for no entry, or
    null when [malloc] fails. *)
Definition qe_dst_new (w : world) : option (option ptr * world) :=
  '(a, k) ← env_call (kern w) SYS_malloc;
  let w := set_kern k w in
  if is_err a then Some (None, w) else
  let be := fresh (dom (ents w) ∪ dom (dsts w)) in
  Some (Some be,
        set_dsts (<[be := Qe.Dst false None]> (dsts w))
          (set_ents (<[be := QENT_BASE_INITIALIZER]> (ents w)) w)).

(** The index [VIDIOC_CREATE_BUFS] wrote back, an [unsigned int] ([0], the
    initial value, when the answer carries none). *)
Definition index_of (a : eres) : Z :=
  match a with EIndex i => i mod 2 ^ 32 | _ => 0 end.

(** The conversion of an [unsigned int] to [int]. *)
Definition int_of_uint (u : Z) : Z :=
  if u <? 2 ^ 31 then u else u - 2 ^ 32.

(** The loop of [create_dst_buf]:
    [while (ioctl(...)) { const int err = -errno;
                          if (err != EINTR) return -err; }
     return cbuf.index;] *)
Fixpoint create_dst_buf_from (s : list eres) (lg : list ecall) (c : ecall)
  : option (Z * E.env) :=
  match s with
  | [] => None
  | a :: rest =>
      match a with
      | EFail errno =>
          let err := - errno in
          if negb (err =? EINTR)
          then Some (- err, E.Env rest (lg ++ [c]))
          else create_dst_buf_from rest (lg ++ [c]) c
      | _ => Some (int_of_uint (index_of a), E.Env rest (lg ++ [c]))
      end
  end.

Definition create_dst_buf (v : E.env) (c : Mbc.mediabufs_ctl)
  : option (Z * E.env) :=
  create_dst_buf_from (E.script v) (E.log v)
    (VIDIOC_CREATE_BUFS (Mbc.vfd c) 1 V4L2_MEMORY_DMABUF (Mbc.dst_fmt c)).

(** [mediabufs_dst_slots_create], for the [n] slots still to be made. *)
Fixpoint mediabufs_dst_slots_create (w : world) (v : E.env) (mbc : ptr)
    (n : nat) : option (MediaBufsStatus * world * E.env) :=
  match n with
  | O => Some (MEDIABUFS_STATUS_SUCCESS, w, v)
  | S n =>
      '(be_dst, w) ← qe_dst_new w;
      match be_dst with
      | None => Some (MEDIABUFS_ERROR_OPERATION_FAILED, w, v)
      | Some be =>
          c ← ctls w !! mbc;
          '(index, v) ← create_dst_buf v c;
          if index <? 0
          then '(w, v) ← qent_dst_delete w v (Some be);
               Some (MEDIABUFS_ERROR_OPERATION_FAILED, w, v)
          else
            (* Add index to free chain *)
            h ← upd (ents w) be (qe_set_index (index mod 2 ^ 32));
            '(h, bp) ← queue_put_free h (Mbc.dst c) be;
            w ← put_dst (set_ents h w) mbc bp;
            mediabufs_dst_slots_create w v mbc n
      end
  end.

(** The index a slot gets from an answer of [VIDIOC_CREATE_BUFS]. *)
Definition slot_index (a : eres) : Z :=
  match a with EFail errno => errno | _ => index_of a end.

(** An answer that [create_dst_buf] takes for a result: the driver's
    [errno] values are positive, and an index is below [2^31]. *)
Definition create_answer (a : eres) : Prop :=
  match a with
  | EFail errno => 0 < errno < 2 ^ 31
  | EIndex i => 0 <= i < 2 ^ 31
  | _ => True
  end.

(** An entry with two populated planes, of descriptors 10 and 11. *)
Definition two_plane_entry : Qe.qent_base :=
  Qe.Base None None QENT_DONE 0
    (Some (Dmabuf 10 4096 100) :: Some (Dmabuf 11 4096 50) :: replicate 6 None)
    timeval_zero.

(** The answer carries a handle. *)
Definition is_handle (a : eres) : bool :=
  match a with EHandle _ => true | _ => false end.

(** A multi-planar capture format of two planes. *)
Definition two_plane_fmt : Fmt.v4l2_format :=
  Fmt.Format V4L2_BUF_TYPE_VIDEO_CAPTURE_MPLANE
    (Fmt.pix_mp (Fmt.PixMp 1920 1080 875967048
                   (8192 :: 4096 :: replicate 6 0) 2)).

(** ** Source entries of a controller *)

Definition mediabufs_src_qent_get (w : world) (mbc : ptr)
  : option (outcome (option ptr) world) :=
  c ← ctls w !! mbc;
  o ← queue_get_free (ents w) (Mbc.src c);
  match o with
  | Blocks => Some Blocks
  | Returns buf (h, bp) =>
      w ← put_src (set_ents h w) mbc bp; Some (Returns buf w)
  end.

(** Returns the new value of [*pqe_src] and the state. *)
Definition mediabufs_src_qent_abort (w : world) (mbc : ptr)
    (pqe_src : option ptr) : option (option ptr * world) :=
  match pqe_src with
  | None => Some (None, w)
  | Some qe_src =>
      c ← ctls w !! mbc;
      '(h, bp) ← queue_put_free (ents w) (Mbc.src c) qe_src;
      w ← put_src (set_ents h w) mbc bp;
      Some (None, w)
  end.

(** A controller at address 0 whose source queue has the entry 1 of
    [queue_demo_ents] on its free list. *)
Definition src_demo_world : world :=
  World ∅ ∅ queue_demo_ents ∅
    {[ 0%nat := Mbc.Ctl 0 3 false false queue_demo_free_bp Bp.empty None
                  (demo_fmt V4L2_BUF_TYPE_VIDEO_OUTPUT_MPLANE)
                  (demo_fmt V4L2_BUF_TYPE_VIDEO_CAPTURE_MPLANE) ]}
    ∅ (K.Kernel [] []).

(** ** Negotiating the destination format *)

(** [struct v4l2_fmtdesc], with the fields the code reads back. *)
Record fmtdesc := FmtDesc { desc_pixelformat : Z; desc_flags : Z }.

(** The answers of the driver to [VIDIOC_ENUM_FMT], in the order in which
    the calls are made: a description, or failure with an [errno]. *)
Inductive enum_res :=
| EnumOk (d : fmtdesc)
| EnumErr (errno : Z).

Definition V4L2_FMT_FLAG_EMULATED : Z := 2.

(** [find_fmt_flags]: the enumeration goes on until the driver fails a call
    with something else than [EINTR]; the recursion is on the answers that
    are still to come ([None] when they run out).  Returns the status, the
    contents of [*fmt], the environment and the answers left. *)
Fixpoint find_fmt_flags (s : list enum_res) (fmt : Fmt.v4l2_format)
    (k : K.kernel) (fd type_v4l2 flags_must flags_not width height : Z)
    (accept_fn : fmtdesc → bool)
  : option (MediaBufsStatus * Fmt.v4l2_format * K.kernel * list enum_res) :=
  match s with
  | [] => None
  | EnumErr errno :: s =>
      if errno =? EINTR
      then find_fmt_flags s fmt k fd type_v4l2 flags_must flags_not
             width height accept_fn
      else Some (MEDIABUFS_ERROR_UNSUPPORTED_BUFFERTYPE, fmt, k, s)
  | EnumOk d :: s =>
      if negb (Z.land (desc_flags d) flags_must =? flags_must) ||
         negb (Z.land (desc_flags d) flags_not =? 0)
      then find_fmt_flags s fmt k fd type_v4l2 flags_must flags_not
             width height accept_fn
      else if negb (accept_fn d)
      then find_fmt_flags s fmt k fd type_v4l2 flags_must flags_not
             width height accept_fn
      else
        '(st, fmt, k) ← fmt_set fmt k fd type_v4l2 (desc_pixelformat d)
                          width height 0;
        match st with
        | MEDIABUFS_STATUS_SUCCESS => Some (st, fmt, k, s)
        | _ => find_fmt_flags s fmt k fd type_v4l2 flags_must flags_not
                 width height accept_fn
        end
  end.

(** [mbc->dst_fmt = v]. *)
Definition mbc_set_dst_fmt (v : Fmt.v4l2_format) (c : Mbc.mediabufs_ctl)
  : Mbc.mediabufs_ctl :=
  Mbc.Ctl (Mbc.ref_count c) (Mbc.vfd c) (Mbc.stream_on c) (Mbc.polling c)
    (Mbc.src c) (Mbc.dst c) (Mbc.this_wlm c) (Mbc.src_fmt c) v.

(** [mediabufs_dst_fmt_set]: formats that are not emulated are tried
    first, emulated ones after them. *)
Definition mediabufs_dst_fmt_set (w : world) (mbc : ptr) (s : list enum_res)
    (width height : Z) (accept_fn : fmtdesc → bool)
  : option (MediaBufsStatus * world * list enum_res) :=
  c ← ctls w !! mbc;
  let buf_type := Fmt.type (Mbc.dst_fmt c) in
  '(status, f, k, s) ← find_fmt_flags s (Mbc.dst_fmt c) (kern w) (Mbc.vfd c)
                         buf_type 0 V4L2_FMT_FLAG_EMULATED width height
                         accept_fn;
  match status with
  | MEDIABUFS_ERROR_UNSUPPORTED_BUFFERTYPE =>
      '(status, f, k, s) ← find_fmt_flags s f k (Mbc.vfd c)
                             buf_type V4L2_FMT_FLAG_EMULATED 0 width height
                             accept_fn;
      Some (status,
            set_kern k (set_ctls (<[mbc := mbc_set_dst_fmt f c]> (ctls w)) w), s)
  | _ =>
      Some (status,
            set_kern k (set_ctls (<[mbc := mbc_set_dst_fmt f c]> (ctls w)) w), s)
  end.

(** A negotiation in which the driver refuses the first format it
    enumerates and accepts the second. *)
Definition fmt_demo_world : world :=
  ctl_demo_world
    [KErr 22; KOkFmt (demo_fmt V4L2_BUF_TYPE_VIDEO_CAPTURE_MPLANE)].

Definition fmt_demo_descs : list enum_res :=
  [EnumOk (FmtDesc 1 0); EnumOk (FmtDesc 875967048 0); EnumErr 22].

Definition fmt_demo_after : world :=
  match mediabufs_dst_fmt_set fmt_demo_world 0 fmt_demo_descs 1920 1080
          (λ _, true) with
  | Some (_, w, _) => w
  | None => fmt_demo_world
  end.

(** ** Allocating a destination entry *)

(** Modelled from the spec: [ff_weak_link_ref] of [weak_link.c], which is
    not part of the sources at hand: a new client handle of the link of
    [master], given by the address of the master; null when there is no
    master. *)
Definition ff_weak_link_ref (master : option ptr) : option ptr := master.

(** The branch of [mediabufs_dst_qent_alloc] that makes a new entry when
    the free list is empty; a null entry stands for [return NULL]. *)
Definition dst_qent_new_slot (w : world) (v : E.env) (mbc : ptr)
  : option (option ptr * world * E.env) :=
  '(be_dst, w) ← qe_dst_new w;
  match be_dst with
  | None => Some (None, w, v)
  | Some be =>
      c ← ctls w !! mbc;
      d ← dsts w !! be;
      let wl := ff_weak_link_ref (Mbc.this_wlm c) in
      let w := set_dsts (<[be := dst_set_mbc_wl wl d]> (dsts w)) w in
      match wl with
      | None => '(w, v) ← qent_dst_delete w v (Some be); Some (None, w, v)
      | Some _ =>
          '(index, v) ← create_dst_buf v c;
          if index <? 0
          then '(w, v) ← qent_dst_delete w v (Some be); Some (None, w, v)
          else
            h ← upd (ents w) be (qe_set_index (index mod 2 ^ 32));
            Some (Some be, set_ents h w, v)
      end
  end.

Definition mediabufs_dst_qent_alloc (w : world) (v : E.env)
    (mbc : option ptr) : option (option ptr * world * E.env) :=
  match mbc with
  | None =>
      '(be_dst, w) ← qe_dst_new w;
      match be_dst with
      | Some be =>
          h ← upd (ents w) be (Qe.set_status QENT_IMPORT);
          Some (Some be, set_ents h w, v)
      | None => Some (None, w, v)
      end
  | Some mbc =>
      c ← ctls w !! mbc;
      '(be_dst, h, bp) ← queue_tryget_free (ents w) (Mbc.dst c);
      w ← put_dst (set_ents h w) mbc bp;
      '(be_dst, w, v) ← match be_dst with
                        | Some be => Some (Some be, w, v)
                        | None => dst_qent_new_slot w v mbc
                        end;
      match be_dst with
      | None => Some (None, w, v)
      | Some be =>
          c ← ctls w !! mbc;
          e ← ents w !! be;
          '(rc, e, v) ← qe_alloc_from_fmt e (Mbc.dst_fmt c) v;
          let w := set_ents (<[be := e]> (ents w)) w in
          if negb (rc =? 0)
          then
            (* Given how create buf works we can't uncreate it on alloc
               failure; all we can do is put it on the free Q *)
            '(h, bp) ← queue_put_free (ents w) (Mbc.dst c) be;
            w ← put_dst (set_ents h w) mbc bp;
            Some (None, w, v)
          else Some (Some be, w, v)
      end
  end.

(** A controller at address 0 whose destination queue has the entry 1 of
    [queue_demo_ents] on its free list, with a destination format of two
    planes. *)
Definition dst_demo_world : world :=
  World ∅ ∅ queue_demo_ents ∅
    {[ 0%nat := Mbc.Ctl 0 3 false false Bp.empty queue_demo_free_bp None
                  (demo_fmt V4L2_BUF_TYPE_VIDEO_OUTPUT_MPLANE)
                  two_plane_fmt ]}
    ∅ (K.Kernel [] []).

(** ** Releasing the free source entries *)

Definition qe_src_delete (h : gmap nat Qe.qent_base) (be_src : option ptr)
    (v : E.env) : option (gmap nat Qe.qent_base * E.env) :=
  match be_src with
  | None => Some (h, v)
  | Some be =>
      e ← h !! be;
      '(_, v) ← qe_base_uninit e v;
      Some (delete be h, v)
  end.

(** [while ((be = bq_get_free(bp)) != NULL) qe_src_delete(base_to_src(be));]
    A free list of distinct entries has at most [size h] members, so the
    fuel is exhausted only on a list that loops. *)
Fixpoint bq_free_all_free_src_from (fuel : nat) (h : gmap nat Qe.qent_base)
    (bp : Bp.buf_pool) (v : E.env)
  : option (gmap nat Qe.qent_base * Bp.buf_pool * E.env) :=
  match fuel with
  | O => None
  | S fuel =>
      '(be, h, bp) ← bq_get_free h bp;
      match be with
      | None => Some (h, bp, v)
      | Some p =>
          '(h, v) ← qe_src_delete h (Some p) v;
          bq_free_all_free_src_from fuel h bp v
      end
  end.

Definition bq_free_all_free_src (h : gmap nat Qe.qent_base) (bp : Bp.buf_pool)
    (v : E.env) : option (gmap nat Qe.qent_base * Bp.buf_pool * E.env) :=
  bq_free_all_free_src_from (S (size h)) h bp v.

(** ** States used in the examples of a repeated submission *)

(** The example state of a controller with a source entry, a destination
    entry and a request, where the driver accepts a first submission
    (three calls), returns both buffers without an error flag, lets the
    request be initialised again, and then refuses the destination buffer
    of a second submission with [EINVAL]. *)
Definition resubmit_demo_world : world :=
  ctl_demo_world
    [KOk; KOk; KOk; KOkBuf 10 (Timeval 9 9) 0; KOkBuf 11 (Timeval 9 9) 0;
     KOk; KErr 22; KOk].

(** The allocator finds the plane of the destination entry large enough and
    hands the same handle back. *)
Definition resubmit_demo_env : E.env :=
  E.Env [EHandle (Dmabuf 11 4096 0)] [].

(** ** Recorded plane lengths *)

(** Only the primary plane of an entry carries a recorded length.  The code
    records a length other than 0 in one place, [qent_src_data_copy], and
    there on [dh[0]]; the handles of the other slots have the length 0 that
    they were made with. *)
Definition planes_unwritten (dh : list (option dmabuf_h)) : Prop :=
  ∀ i d, (0 < i)%nat → dh !! i = Some (Some d) → dh_len d = 0.


(** A handle that the allocator hands out records no length yet. *)
Definition fresh_handle (a : eres) : Prop :=
  match a with EHandle d => dh_len d = 0 | _ => True end.


(** * Properties *)

(** ** Size classes *)

Section size_class_facts.
Import SizeClass.

(** Clearing the low [k] bits of a [size_t] leaves zero exactly when the
    value is below [2^k]. *)
Lemma land_himask_zero (x k : Z) :
  0 <= x < 2 ^ SIZE_BITS → 0 <= k <= SIZE_BITS →
  (Z.land x (size_t_of_int (Z.lnot (Z.ones k))) =? 0) = (x <? 2 ^ k).
Proof.
  intros Hx Hk. unfold size_t_of_int.
  rewrite <- Z.land_ones by (unfold SIZE_BITS; lia).
  rewrite (Z.land_comm (Z.lnot _)), Z.land_assoc.
  rewrite (Z.land_ones x) by (unfold SIZE_BITS; lia).
  rewrite (Z.mod_small x) by lia.
  rewrite <- Z.ldiff_land.
  rewrite Z.ldiff_ones_r by lia.
  rewrite Z.shiftl_mul_pow2, Z.shiftr_div_pow2 by lia.
  assert (0 < 2 ^ k) by (apply Z.pow_pos_nonneg; lia).
  destruct (Z.ltb_spec x (2 ^ k)) as [Hlt | Hge].
  - rewrite Z.div_small by lia. reflexivity.
  - apply Z.eqb_neq. 
    assert (1 <= x / 2 ^ k) by (apply Z.div_le_lower_bound; lia). nia.
Qed.

Lemma log2_step_spec (k : Z) (n x : Z) :
  0 <= x < 2 ^ SIZE_BITS → 0 < k <= SIZE_BITS →
  log2_step (Z.ones k) k (n, x) =
  if x <? 2 ^ k then (n, x) else (n + k, x / 2 ^ k).
Proof.
  intros Hx Hk. unfold log2_step.
  rewrite land_himask_zero by lia.
  destruct (x <? 2 ^ k); [done|].
  by rewrite Z.shiftr_div_pow2 by lia.
Qed.


(** The invariant of the binary search in [log2_size]: the pair is
    [(n, x >> n)] and the remaining value fits in [k] bits after the step
    for [k]. *)
Lemma log2_step_inv (x k n y : Z) :
  0 <= x < 2 ^ SIZE_BITS → 0 < k <= 16 → 0 <= n →
  y = x / 2 ^ n → y < 2 ^ (2 * k) →
  ∃ n' y', log2_step (Z.ones k) k (n, y) = (n', y') ∧
    y' = x / 2 ^ n' ∧ n <= n' ∧ y' < 2 ^ k ∧ (1 <= y → 1 <= y').
Proof.
  intros Hx Hk Hn Hy Hlt.
  assert (0 < 2 ^ n) by (apply Z.pow_pos_nonneg; lia).
  assert (0 < 2 ^ k) by (apply Z.pow_pos_nonneg; lia).
  assert (0 <= y) by (subst y; apply Z.div_pos; lia).
  assert (y <= x) by (subst y; apply Z.div_le_upper_bound; nia).
  rewrite log2_step_spec by (unfold SIZE_BITS in *; lia).
  destruct (Z.ltb_spec y (2 ^ k)) as [Hs | Hb].
  - exists n, y. repeat split; auto; lia.
  - exists (n + k), (y / 2 ^ k). repeat split; try lia.
    + subst y. rewrite Z.div_div, <- Z.pow_add_r by lia. reflexivity.
    + apply Z.div_lt_upper_bound; [lia|].
      rewrite <- Z.pow_add_r by lia. replace (k + k) with (2 * k) by lia. lia.
    + intros _. apply Z.div_le_lower_bound; lia.
Qed.

(** [log2_size] is the floor of the binary logarithm on 32-bit values, as
    its comment says. *)
Lemma log2_size_spec (x : Z) :
  1 <= x < 2 ^ 32 → log2_size x = Z.log2 x.
Proof.
  intros Hx. unfold log2_size.
  assert (Hx64 : 0 <= x < 2 ^ SIZE_BITS) by (unfold SIZE_BITS; lia).
  destruct (log2_step_inv x 16 0 x) as (n1 & y1 & E & E1 & L1 & B1 & P1);
    [done | lia | lia | by rewrite Z.div_1_r | simpl; lia |].
  change 0xffff with (Z.ones 16). rewrite E. clear E.
  destruct (log2_step_inv x 8 n1 y1) as (n2 & y2 & E & E2 & L2 & B2 & P2);
    [done | lia | lia | done | simpl; lia |].
  change 0xff with (Z.ones 8). rewrite E. clear E.
  destruct (log2_step_inv x 4 n2 y2) as (n3 & y3 & E & E3 & L3 & B3 & P3);
    [done | lia | lia | done | simpl; lia |].
  change 0xf with (Z.ones 4). rewrite E. clear E.
  destruct (log2_step_inv x 2 n3 y3) as (n4 & y4 & E & E4 & L4 & B4 & P4);
    [done | lia | lia | done | simpl; lia |].
  change 3 with (Z.ones 2). rewrite E. clear E.
  assert (1 <= y4) by (apply P4, P3, P2, P1; lia).
  assert (0 < 2 ^ n4) by (apply Z.pow_pos_nonneg; lia).
  assert (Hy4 : y4 * 2 ^ n4 <= x < (y4 + 1) * 2 ^ n4).
  { subst y4. pose proof (Z.mul_div_le x (2 ^ n4)).
    pose proof (Z.mul_succ_div_gt x (2 ^ n4)). lia. }
  change 1 with (Z.ones 1) at 1.
  rewrite land_himask_zero by (unfold SIZE_BITS; lia).
  change (2 ^ 1) with 2. change (2 ^ 2) with 4 in B4.
  destruct (Z.ltb_spec y4 2).
  - symmetry. apply Z.log2_unique; [lia|].
    replace (Z.succ n4) with (n4 + 1) by lia. rewrite Z.pow_add_r by lia. nia.
  - symmetry. apply Z.log2_unique; [lia|].
    replace (Z.succ (n4 + 1)) with (n4 + 2) by lia.
    rewrite !Z.pow_add_r by lia. change (2 ^ 1) with 2. change (2 ^ 2) with 4. nia.
Qed.


Lemma pow2_cmp (j m : Z) :
  0 <= j → 0 <= m →
  (j < m → 2 * 2 ^ j <= 2 ^ m) ∧ (m <= j → 2 ^ m <= 2 ^ j).
Proof.
  intros Hj Hm. split; intros H.
  - replace (2 * 2 ^ j) with (2 ^ (j + 1)) by (rewrite Z.pow_add_r; lia).
    apply Z.pow_le_mono_r; lia.
  - apply Z.pow_le_mono_r; lia.
Qed.

Lemma int_shl_small (a n : Z) :
  0 <= n < 32 → a * 2 ^ n <= INT_MAX → int_shl a n = Some (a * 2 ^ n).
Proof.
  intros Hn Ha. unfold int_shl.
  rewrite !andb_true_intro; [by rewrite Z.shiftl_mul_pow2 by lia|].
  repeat split; lia.
Qed.

(** What [round_up_size] computes from 256 on: with [k = floor(log2 s)],
    the bucket [3·2^(k-1)] when [s] is below it and [4·2^(k-1)] otherwise. *)
Lemma round_up_size_eq (s : Z) :
  256 <= s < 3 * 2 ^ 29 →
  let p := 2 ^ (Z.log2 s - 1) in
  2 * p <= s < 4 * p ∧
  round_up_size s = Some (if 3 * p <=? s then 4 * p else 3 * p).
Proof.
  intros Hs p.
  assert (Hk8 : 8 <= Z.log2 s) by (change 8 with (Z.log2 256); apply Z.log2_le_mono; lia).
  assert (Hk30 : Z.log2 s < 31) by (apply Z.log2_lt_pow2; lia).
  pose proof (Z.log2_spec s ltac:(lia)) as Hspec.
  replace (Z.succ (Z.log2 s)) with ((Z.log2 s - 1) + 2) in Hspec by lia.
  replace (Z.log2 s) with ((Z.log2 s - 1) + 1) in Hspec at 1 by lia.
  rewrite !Z.pow_add_r in Hspec by lia. fold p in Hspec.
  change (2 ^ 1) with 2 in Hspec. change (2 ^ 2) with 4 in Hspec.
  split; [lia|].
  assert (Hp29 : p <= 2 ^ 29) by (apply Z.pow_le_mono_r; lia).
  unfold round_up_size.
  destruct (Z.ltb_spec s 256); [lia|].
  rewrite log2_size_spec by lia.
  rewrite (Z.mod_small (Z.log2 s - 1)) by (unfold UINT_MOD; lia).
  rewrite (int_shl_small 3) by (try unfold INT_MAX; fold p; lia). simpl.
  fold p. unfold size_t_of_int, SIZE_BITS. rewrite (Z.mod_small (3 * p)) by lia.
  destruct (Z.leb_spec (3 * p) s); [|done].
  assert (p < 2 ^ 29) by lia.
  assert (Z.log2 s - 1 < 29).
  { apply (Z.pow_lt_mono_r_iff 2); [lia | lia | fold p; lia]. }
  assert (p <= 2 ^ 28) by (apply Z.pow_le_mono_r; lia).
  rewrite (int_shl_small 4) by (try unfold INT_MAX; fold p; lia). simpl.
  fold p. by rewrite Z.mod_small by lia.
Qed.

(** C1 (as the code has it).  For every requested size [s] below [3·2^29]
    (from there on the [int] shifts of [round_up_size] overflow),
    [round_up_size s] returns a bucket [b] of the [{3·2^n, 4·2^n}] sequence
    with [b > s] and [b >= 256]; from [s = 256] on, [b] is the smallest
    bucket strictly above [s], and every [s] below 256 gives 768. *)
Theorem round_up_size_next_bucket (s : Z) (Hs : 0 <= s < 3 * 2 ^ 29) :
  ∃ b, round_up_size s = Some b ∧ s < b ∧ 256 <= b ∧ bucket b ∧
       (256 <= s → ∀ b', bucket b' → s < b' → b <= b') ∧
       (s < 256 → b = 768).
Proof.
  destruct (Z.lt_ge_cases s 256) as [Hlo | Hhi].
  - exists 768. unfold round_up_size.
    destruct (Z.ltb_spec s 256); [|lia].
    change (int_shl 3 8) with (Some 768). simpl.
    change (size_t_of_int 768) with 768.
    destruct (Z.leb_spec 768 s) as [Hc | _]; [lia|].
    repeat split; try lia.
    exists 8. split; [lia | by left].
  - destruct (round_up_size_eq s ltac:(lia)) as [Hr Heq].
    set (m := Z.log2 s - 1) in *. set (p := 2 ^ m) in *.
    assert (Hm : 7 <= m).
    { assert (8 <= Z.log2 s); [|lia].
      change 8 with (Z.log2 256). apply Z.log2_le_mono; lia. }
    assert (Hp : 128 <= p) by (change 128 with (2 ^ 7); apply Z.pow_le_mono_r; lia).
    eexists. split; [exact Heq|].
    destruct (Z.leb_spec (3 * p) s) as [Hge | Hlt].
    + repeat split; try lia.
      * exists m. split; [lia | by right].
      * intros _ b' (j & Hj & Hb') Hsb'.
        destruct (pow2_cmp j m Hj ltac:(lia)) as [Hjlt Hjge].
        destruct (pow2_cmp j (m + 1) Hj ltac:(lia)) as [Hjlt' Hjge'].
        rewrite Z.pow_add_r in Hjlt', Hjge' by lia. fold p in Hjlt', Hjge'.
        change (2 ^ 1) with 2 in *. fold p in Hjlt, Hjge.
        destruct Hb' as [-> | ->].
        -- destruct (Z.lt_ge_cases j (m + 1)); [|lia].
           destruct (Z.lt_ge_cases j m); lia.
        -- destruct (Z.lt_ge_cases j m); lia.
    + repeat split; try lia.
      * exists m. split; [lia | by left].
      * intros _ b' (j & Hj & Hb') Hsb'.
        destruct (pow2_cmp j m Hj ltac:(lia)) as [Hjlt Hjge]. fold p in Hjlt, Hjge.
        destruct Hb' as [-> | ->]; destruct (Z.lt_ge_cases j m); lia.
Qed.

Lemma round_up_size_next_bucket_witness :
  0 <= 257 < 3 * 2 ^ 29 ∧
  ∃ b, round_up_size 257 = Some b ∧ 257 < b ∧ 256 <= b ∧ bucket b ∧
       (256 <= 257 → ∀ b', bucket b' → 257 < b' → b <= b') ∧
       (257 < 256 → b = 768).
Proof.
  split; [lia|]. apply (round_up_size_next_bucket 257). lia.
Defined.

(** The examples of the design document, evaluated on the code. *)
Example round_up_size_examples :
  round_up_size 100 = Some 768 ∧ round_up_size 256 = Some 384 ∧
  round_up_size 257 = Some 384 ∧ round_up_size 768 = Some 1024 ∧
  round_up_size 769 = Some 1024.
Proof. repeat split; reflexivity. Qed.

(** From [3·2^29] on, [round_up_size] shifts an [int] out of its range. *)
Example round_up_size_overflow :
  round_up_size (3 * 2 ^ 29) = None ∧ round_up_size (2 ^ 32) = None.
Proof. split; reflexivity. Qed.

(** C1 as worded fails at 768 and at 100: 768 is itself a bucket but is
    rounded to 1024, and 100 is rounded to 768 although 256 is a bucket. *)
Lemma round_up_size_not_least :
  ¬ (∃ b, round_up_size 768 = Some b ∧ least_bucket_at_least 768 b) ∧
  ¬ (∃ b, round_up_size 100 = Some b ∧ least_bucket_at_least 100 b).
Proof.
  split; intros (b & Hb & _ & _ & _ & Hmin); vm_compute in Hb;
    injection Hb as <-.
  - specialize (Hmin 768). enough (1024 <= 768) by lia.
    apply Hmin; [|lia|lia]. exists 8. split; [lia | by left].
  - specialize (Hmin 256). enough (768 <= 256) by lia.
    apply Hmin; [|lia|lia]. exists 6. split; [lia | by right].
Qed.

End size_class_facts.

(** ** Request pool: conservation of handles *)

Section request_pool.

Implicit Types (rs : gmap nat Req.media_request) (l hs : list nat).

(** A chain is unchanged by writes that keep the [next] field of its
    members. *)
Lemma chain_ext rs rs' hd l :
  (∀ p r, p ∈ l → rs !! p = Some r →
          ∃ r', rs' !! p = Some r' ∧ Req.next r' = Req.next r) →
  chain rs hd l → chain rs' hd l.
Proof.
  revert hd. induction l as [|p l IH]; intros hd Hext; simpl; [done|].
  intros (-> & r & Hr & Hc). split; [done|].
  destruct (Hext p r) as (r' & Hr' & Hn); [left | done |].
  exists r'. split; [done|]. rewrite Hn. apply IH; [|done].
  intros q rq Hq. apply Hext. by right.
Qed.

Lemma chain_insert_fresh rs hd l p r :
  p ∉ l → chain rs hd l → chain (<[p := r]> rs) hd l.
Proof.
  intros Hp. apply chain_ext. intros q rq Hq Hrq.
  exists rq. split; [|done].
  rewrite lookup_insert_ne; [done|]. intros ->. done.
Qed.

Lemma chain_lookup rs hd l p :
  chain rs hd l → p ∈ l → is_Some (rs !! p).
Proof.
  revert hd. induction l as [|q l IH]; intros hd; simpl.
  - intros _ Hp. by apply elem_of_nil in Hp.
  - intros (_ & r & Hr & Hc) [-> | Hp]%elem_of_cons; eauto.
Qed.

Lemma filter_ne_notin (l : list nat) (x : nat) :
  x ∉ l → filter (λ r, r ≠ x) l = l.
Proof.
  induction l as [|y l IH]; intros Hx; [done|].
  apply not_elem_of_cons in Hx as [Hne Hx].
  rewrite filter_cons_True by done. by rewrite IH.
Qed.

Lemma filter_ne_perm (l : list nat) (x : nat) :
  NoDup l → x ∈ l → l ≡ₚ x :: filter (λ r, r ≠ x) l.
Proof.
  induction l as [|y l IH]; intros Hnd Hx.
  - by apply elem_of_nil in Hx.
  - apply NoDup_cons in Hnd as [Hy Hnd].
    destruct (decide (y = x)) as [-> | Hne].
    + rewrite filter_cons_False by (intros ?; done).
      by rewrite filter_ne_notin.
    + rewrite filter_cons_True by done.
      apply elem_of_cons in Hx as [-> | Hx]; [done|].
      rewrite (IH Hnd Hx) at 1. apply Permutation_swap.
Qed.

Lemma pool_inv_get mp hs w fl o :
  NoDup hs → pool_inv mp hs w fl →
  media_request_get w mp = Some o →
  match o with
  | Blocks => True
  | Returns None _ => False
  | Returns (Some req) w' => pool_inv mp hs w' (req :: fl)
  end.
Proof.
  intros Hnd (p & free & Hp & Hc & Hsem & Hperm & Hmp) Hget.
  unfold media_request_get in Hget. rewrite Hp in Hget. simpl in Hget.
  rewrite Hsem in Hget.
  destruct free as [|req free]; simpl in Hget; [by injection Hget as <-|].
  simpl in Hc. destruct Hc as (Hhd & r & Hr & Hc).
  rewrite Hhd, Hr in Hget. simpl in Hget. injection Hget as <-.
  rewrite <- Hperm in Hnd. apply NoDup_app in Hnd as (Hndf & Hdisj & Hndfl).
  apply NoDup_cons in Hndf as [Hreq Hndf].
  eexists _, free. simpl. rewrite lookup_insert_eq. split; [done|]. simpl.
  split; [by apply chain_insert_fresh|]. split; [done|].
  split.
  { rewrite <- Hperm. simpl. by rewrite Permutation_middle. }
  intros q Hq. destruct (decide (q = req)) as [-> | Hne].
  - rewrite lookup_insert_eq. eexists. split; [done|]. simpl.
    destruct (Hmp req Hq) as (rq & Hrq & Hm). congruence.
  - rewrite lookup_insert_ne by done. auto.
Qed.

Lemma pool_inv_done mp hs w fl req w' :
  NoDup hs → pool_inv mp hs w fl → req ∈ fl →
  media_request_done w req = Some w' →
  pool_inv mp hs w' (filter (λ r, r ≠ req) fl).
Proof.
  intros Hnd (p & free & Hp & Hc & Hsem & Hperm & Hmp) Hfl Hdone.
  assert (Hhs : req ∈ hs) by (rewrite <- Hperm; set_solver).
  destruct (Hmp req Hhs) as (r & Hr & Hm).
  unfold media_request_done in Hdone. rewrite Hr in Hdone. simpl in Hdone.
  destruct (env_call _ _) as [[a k]|]; [|done]. simpl in Hdone.
  rewrite Hm, Hp in Hdone. simpl in Hdone. injection Hdone as <-.
  rewrite <- Hperm in Hnd. apply NoDup_app in Hnd as (Hndf & Hdisj & Hndfl).
  assert (req ∉ free) by (intros ?; by eapply Hdisj).
  eexists _, (req :: free). simpl. rewrite lookup_insert_eq.
  split; [done|]. simpl. split.
  { split; [done|]. eexists. rewrite lookup_insert_eq. split; [done|]. simpl.
    by apply chain_insert_fresh. }
  split; [by rewrite Hsem|]. split.
  { rewrite <- Hperm. simpl. rewrite (filter_ne_perm fl req) at 2 by done.
    by rewrite Permutation_middle. }
  intros q Hq. destruct (decide (q = req)) as [-> | Hne].
  - rewrite lookup_insert_eq. eexists. split; [done|]. done.
  - rewrite lookup_insert_ne by done. auto.
Qed.

Lemma pool_inv_step mp hs st ev st' :
  NoDup hs → pool_inv mp hs (ps_world st) (ps_inflight st) →
  pool_step mp st ev = Some st' →
  pool_inv mp hs (ps_world st') (ps_inflight st').
Proof.
  intros Hnd Hinv Hstep. destruct st as [w fl]. simpl in *.
  destruct ev as [| req | [req|]]; simpl in Hstep.
  - destruct (media_request_get w mp) as [o|] eqn:Hget; [|done].
    pose proof (pool_inv_get _ _ _ _ _ Hnd Hinv Hget) as Ho.
    destruct o as [[req|] w1 |]; simpl in Hstep; try done; by injection Hstep as <-.
  - destruct (decide (req ∈ fl)); [|done].
    destruct (media_request_done w req) as [w1|] eqn:Hd; [|done].
    injection Hstep as <-. by eapply pool_inv_done.
  - destruct (decide (req ∈ fl)); [|done].
    destruct (media_request_done w req) as [w1|] eqn:Hd; [|done].
    injection Hstep as <-. by eapply pool_inv_done.
  - by injection Hstep as <-.
Qed.

Lemma pool_inv_run mp hs evs st st' :
  NoDup hs → pool_inv mp hs (ps_world st) (ps_inflight st) →
  pool_run mp st evs = Some st' →
  pool_inv mp hs (ps_world st') (ps_inflight st').
Proof.
  intros Hnd. revert st. induction evs as [|ev evs IH]; intros st Hinv Hrun.
  - by injection Hrun as <-.
  - simpl in Hrun. destruct (pool_step mp st ev) as [st1|] eqn:Hs; [|done].
    eapply IH; [|exact Hrun]. by eapply pool_inv_step.
Qed.


(** The allocation loop pushes [n] fresh requests on the free chain. *)
Lemma media_pool_new_loop_ok n mp : ∀ w w' p l,
  pools w !! mp = Some p →
  chain (reqs w) (Pool.free_reqs p) l → NoDup l →
  (∀ r, r ∈ l → ∃ rq, reqs w !! r = Some rq ∧ Req.mp rq = mp) →
  media_pool_new_loop n mp w = Some (true, w') →
  ∃ p' l', pools w' !! mp = Some p' ∧
    length l' = n ∧ chain (reqs w') (Pool.free_reqs p') (l' ++ l) ∧
    NoDup (l' ++ l) ∧
    (∀ r, r ∈ l' ++ l → ∃ rq, reqs w' !! r = Some rq ∧ Req.mp rq = mp).
Proof.
  induction n as [|n IH]; intros w w' p l Hp Hc Hnd Hmp Hloop; simpl in Hloop.
  - injection Hloop as <-. exists p, []. by repeat split.
  - destruct (env_call (kern w) SYS_malloc) as [[a1 k1]|]; [|done].
    simpl in Hloop. destruct (is_err a1); [done|].
    rewrite Hp in Hloop. simpl in Hloop.
    destruct (env_call k1 _) as [[a2 k2]|]; [|done]. simpl in Hloop.
    destruct (rc_of a2 =? -1); [done|].
    rewrite lookup_insert_eq in Hloop. simpl in Hloop.
    destruct (env_call k2 _) as [[a3 k3]|]; [|done]. simpl in Hloop.
    destruct (is_err a3); [done|].
    rewrite insert_insert_eq in Hloop.
    set (req := fresh (dom (reqs w))) in *.
    assert (Hfresh : reqs w !! req = None).
    { apply not_elem_of_dom. apply is_fresh. }
    assert (Hreq : req ∉ l).
    { intros Hin. destruct (Hmp req Hin) as (rq & Hrq & _). congruence. }
    eapply IH in Hloop as (p' & l' & Hp' & Hlen & Hc' & Hnd' & Hmp').
    + exists p', (l' ++ [req]). rewrite <- app_assoc. simpl.
      repeat split; try done. rewrite length_app. simpl. lia.
    + simpl. apply lookup_insert_eq.
    + simpl. split; [done|]. eexists. rewrite lookup_insert_eq.
      split; [done|]. simpl. by apply chain_insert_fresh.
    + by apply NoDup_cons.
    + simpl. intros r [-> | Hr]%elem_of_cons.
      * rewrite lookup_insert_eq. by eexists.
      * rewrite lookup_insert_ne by (intros ->; done). auto.
Qed.

Lemma media_pool_new_ok w n mp w' :
  media_pool_new w n = Some (Some mp, w') →
  ∃ hs, length hs = n ∧ NoDup hs ∧ pool_inv mp hs w' [].
Proof.
  unfold media_pool_new. intros Hnew.
  destruct (env_call (kern w) SYS_calloc) as [[a1 k1]|]; [|done].
  simpl in Hnew. destruct (is_err a1); [done|].
  destruct (env_call k1 _) as [[a2 k2]|]; [|done]. simpl in Hnew.
  rewrite lookup_insert_eq in Hnew. simpl in Hnew.
  destruct (fd_of a2 =? -1); [done|].
  rewrite insert_insert_eq in Hnew.
  destruct (media_pool_new_loop _ _ _) as [[ok w1]|] eqn:Hloop; [|done].
  simpl in Hnew.
  destruct (pools w1 !! _) as [p1|] eqn:Hp1; [|done]. simpl in Hnew.
  destruct ok.
  2:{ destruct (delete_req_chain _ _); simpl in Hnew; done. }
  injection Hnew as <- <-.
  eapply (media_pool_new_loop_ok _ _ _ _ _ []) in Hloop
    as (p' & l' & Hp' & Hlen & Hc' & Hnd' & Hmp').
  - rewrite app_nil_r in *. exists l'. split; [done|]. split; [done|].
    rewrite Hp1 in Hp'. injection Hp' as <-.
    eexists _, l'. simpl. rewrite lookup_insert_eq. split; [done|]. simpl.
    rewrite app_nil_r. repeat split; done.
  - simpl. apply lookup_insert_eq.
  - done.
  - constructor.
  - intros r Hr. by apply elem_of_nil in Hr.
Qed.

(** C3.  On a pool created with [n] handles, after every sequence of
    acquisitions, completions and aborts of handles in flight, each of the
    [n] handles is on the free chain or in flight, never both and never
    neither; the semaphore counts the free chain, and at most [n] handles
    are in flight. *)
Theorem request_pool_conservation (w0 : world) (n : nat) (mp : ptr) (w1 : world)
    (Hnew : media_pool_new w0 n = Some (Some mp, w1)) :
  ∃ hs, length hs = n ∧ NoDup hs ∧
    ∀ evs st, pool_run mp (PoolState w1 []) evs = Some st →
      ∃ p free,
        pools (ps_world st) !! mp = Some p ∧
        chain (reqs (ps_world st)) (Pool.free_reqs p) free ∧
        Pool.sem p = length free ∧
        (∀ r, r ∈ hs ↔ r ∈ free ∨ r ∈ ps_inflight st) ∧
        (∀ r, ¬ (r ∈ free ∧ r ∈ ps_inflight st)) ∧
        NoDup free ∧ NoDup (ps_inflight st) ∧
        (length (ps_inflight st) ≤ n)%nat.
Proof.
  destruct (media_pool_new_ok _ _ _ _ Hnew) as (hs & Hlen & Hnd & Hinv).
  exists hs. split; [done|]. split; [done|]. intros evs st Hrun.
  eapply (pool_inv_run mp hs evs (PoolState w1 [])) in Hrun; [|done|done].
  destruct Hrun as (p & free & Hp & Hc & Hsem & Hperm & _).
  exists p, free. split; [done|]. split; [done|]. split; [done|].
  assert (Hnd' : NoDup (free ++ ps_inflight st)) by by rewrite Hperm.
  apply NoDup_app in Hnd' as (Hndf & Hdisj & Hndfl).
  split; [|split; [|split; [|split]]]; try done.
  - intros r. rewrite <- Hperm. apply elem_of_app.
  - intros r [Hf Hi]. by eapply Hdisj.
  - rewrite <- Hlen, <- Hperm, length_app. lia.
Qed.


Lemma request_pool_conservation_witness :
  media_pool_new pool_demo_world 2 = Some (Some 0%nat, pool_demo_created) ∧
  ∃ hs, length hs = 2%nat ∧ NoDup hs ∧
    ∀ evs st, pool_run 0 (PoolState pool_demo_created []) evs = Some st →
      ∃ p free,
        pools (ps_world st) !! 0%nat = Some p ∧
        chain (reqs (ps_world st)) (Pool.free_reqs p) free ∧
        Pool.sem p = length free ∧
        (∀ r, r ∈ hs ↔ r ∈ free ∨ r ∈ ps_inflight st) ∧
        (∀ r, ¬ (r ∈ free ∧ r ∈ ps_inflight st)) ∧
        NoDup free ∧ NoDup (ps_inflight st) ∧
        (length (ps_inflight st) ≤ 2)%nat.
Proof.
  split; [vm_compute; reflexivity|].
  apply (request_pool_conservation pool_demo_world 2 0 pool_demo_created).
  vm_compute; reflexivity.
Defined.

(** The scenario of the design document, with two handles: both are
    acquired, a third acquisition waits, and after one completion it
    succeeds with the handle that came back. *)
Example request_pool_scenario :
  ∃ st1 st2,
    pool_run 0 (PoolState pool_demo_created []) [ev_get; ev_get] = Some st1 ∧
    ps_inflight st1 = [0; 1]%nat ∧
    media_request_get (ps_world st1) 0 = Some Blocks ∧
    pool_run 0 st1 [ev_done 1%nat; ev_get] = Some st2 ∧
    ps_inflight st2 = [1; 0]%nat.
Proof. vm_compute. eauto 10. Qed.

End request_pool.

(** ** Buffer queue: the doubly-linked lists *)

Lemma upd_Some (h : gmap nat Qe.qent_base) (be : nat) f (e : Qe.qent_base) :
  h !! be = Some e → upd h be f = Some (<[be := f e]> h).
Proof. intros He. unfold upd. by rewrite He. Qed.

(** A second write to the entry that was just written. *)
Ltac upd_again :=
  rewrite (upd_Some _ _ _ _ (lookup_insert_eq _ _ _)); simpl.

Section dseg_facts.

Implicit Types (h : gmap nat Qe.qent_base) (l : list nat) (e : Qe.qent_base).


(** A segment is unchanged by writes that keep the links of its members. *)
Lemma dseg_ext h h' prv l hd tl nxt :
  (∀ p e, p ∈ l → h !! p = Some e →
          ∃ e', h' !! p = Some e' ∧ Qe.next e' = Qe.next e ∧
                Qe.prev e' = Qe.prev e) →
  dseg h prv l hd tl nxt → dseg h' prv l hd tl nxt.
Proof.
  revert prv hd. induction l as [|p l IH]; intros prv hd Hext; simpl; [done|].
  intros (-> & e & He & Hprev & Hs). split; [done|].
  destruct (Hext p e) as (e' & He' & Hn & Hp); [left | done |].
  exists e'. split; [done|]. split; [congruence|]. rewrite Hn.
  apply IH; [|done]. intros q eq Hq. apply Hext. by right.
Qed.

Lemma dseg_insert_ne h prv l hd tl nxt p e :
  p ∉ l → dseg h prv l hd tl nxt → dseg (<[p := e]> h) prv l hd tl nxt.
Proof.
  intros Hp. apply dseg_ext. intros q eq Hq Heq.
  exists eq. rewrite lookup_insert_ne by (intros ->; done). done.
Qed.

Lemma dseg_app h prv l1 l2 hd tl nxt :
  dseg h prv (l1 ++ l2) hd tl nxt ↔
  ∃ m1 m2, dseg h prv l1 hd m1 m2 ∧ dseg h m1 l2 m2 tl nxt.
Proof.
  revert prv hd. induction l1 as [|p l1 IH]; intros prv hd; simpl.
  - split.
    + intros H. exists prv, hd. done.
    + intros (m1 & m2 & [-> ->] & H). done.
  - split.
    + intros (-> & e & He & Hp & Hs).
      apply IH in Hs as (m1 & m2 & H1 & H2).
      exists m1, m2. split; [|done]. split; [done|]. eauto.
    + intros (m1 & m2 & (-> & e & He & Hp & H1) & H2).
      split; [done|]. exists e. split; [done|]. split; [done|].
      apply IH. eauto.
Qed.

Lemma dseg_lookup h prv l hd tl nxt p :
  dseg h prv l hd tl nxt → p ∈ l → is_Some (h !! p).
Proof.
  revert prv hd. induction l as [|q l IH]; intros prv hd; simpl.
  - intros _ Hp. by apply elem_of_nil in Hp.
  - intros (_ & e & He & _ & Hs) [-> | Hp]%elem_of_cons; eauto.
Qed.

(** The ends of a segment. *)
Lemma dseg_head h prv l hd tl nxt :
  dseg h prv l hd tl nxt → hd = from_option Some nxt (head l).
Proof. destruct l; simpl; [by intros [-> _] | by intros [-> _]]. Qed.

Lemma dseg_tail h prv l hd tl nxt :
  dseg h prv l hd tl nxt → tl = from_option Some prv (last l).
Proof.
  revert prv hd. induction l as [|p l IH]; intros prv hd; simpl.
  - by intros [_ ->].
  - intros (_ & e & _ & _ & Hs). apply IH in Hs. rewrite Hs.
    rewrite last_cons. by destruct (last l).
Qed.

Lemma dseg_snoc h prv l t hd tl nxt :
  dseg h prv (l ++ [t]) hd tl nxt ↔
  ∃ m e, dseg h prv l hd m (Some t) ∧ h !! t = Some e ∧
         Qe.prev e = m ∧ Qe.next e = nxt ∧ tl = Some t.
Proof.
  rewrite dseg_app. simpl. split.
  - intros (m1 & m2 & H1 & -> & e & He & Hp & Hn & Ht). exists m1, e. done.
  - intros (m & e & H1 & He & Hp & Hn & Ht). exists m, (Some t).
    split; [done|]. split; [done|]. exists e. done.
Qed.

(** Rewriting the [next] field of the last member moves the exit. *)
Lemma dseg_set_next_last h prv l t hd tl nxt e v :
  t ∉ l → h !! t = Some e →
  dseg h prv (l ++ [t]) hd tl nxt →
  dseg (<[t := Qe.set_next v e]> h) prv (l ++ [t]) hd tl v.
Proof.
  intros Ht He. rewrite !dseg_snoc.
  intros (m & e' & H1 & He' & Hp & Hn & Htl).
  assert (e' = e) as -> by congruence.
  exists m, (Qe.set_next v e). split; [by apply dseg_insert_ne|].
  rewrite lookup_insert_eq. done.
Qed.

(** Rewriting the [prev] field of the first member moves the entry. *)
Lemma dseg_set_prev_first h prv l p hd tl nxt e v :
  p ∉ l → h !! p = Some e →
  dseg h prv (p :: l) hd tl nxt →
  dseg (<[p := Qe.set_prev v e]> h) v (p :: l) hd tl nxt.
Proof.
  intros Hp He. simpl. intros (-> & e' & He' & Hprev & Hs).
  assert (e' = e) as -> by congruence.
  split; [done|]. exists (Qe.set_prev v e). rewrite lookup_insert_eq.
  split; [done|]. split; [done|]. simpl. by apply dseg_insert_ne.
Qed.

(** A list of distinct allocated entries is no longer than the memory. *)
Lemma NoDup_length_le_size h l :
  NoDup l → (∀ p, p ∈ l → is_Some (h !! p)) → (length l ≤ size h)%nat.
Proof.
  intros Hnd Hl. rewrite <- size_dom.
  rewrite <- (size_list_to_set (C := gset nat) l) by done.
  apply subseteq_size. intros p Hp. apply elem_of_list_to_set in Hp.
  apply elem_of_dom. auto.
Qed.

End dseg_facts.

Section queue_ops.

Implicit Types (h : gmap nat Qe.qent_base) (l : list nat) (e : Qe.qent_base).

(** Linking a new entry behind the tail. *)
Lemma link_tail h l hd tl be :
  dlist h l hd tl → be ∉ l →
  match tl with
  | Some t =>
      ∃ et, h !! t = Some et ∧ t ≠ be ∧ t ∈ l ∧
        dseg (<[t := Qe.set_next (Some be) et]> h) None l hd tl (Some be)
  | None => l = [] ∧ hd = None
  end.
Proof.
  intros [Hnd Hs] Hbe. pose proof (dseg_tail _ _ _ _ _ _ Hs) as Htl.
  destruct (last l) as [t|] eqn:Hlast; simpl in Htl; subst tl.
  - apply last_Some in Hlast as [l' ->].
    assert (Ht : t ∈ l' ++ [t]) by (apply elem_of_app; right; apply list_elem_of_singleton; done).
    destruct (dseg_lookup _ _ _ _ _ _ t Hs Ht) as [et Het].
    exists et. split; [done|]. split; [by intros ->|]. split; [done|].
    apply NoDup_app in Hnd as (_ & Hdisj & _).
    eapply dseg_set_next_last; [|done|exact Hs].
    intros Hin. apply (Hdisj t Hin). by apply list_elem_of_singleton.
  - apply last_None in Hlast as ->. simpl in Hs. by destruct Hs as [-> _].
Qed.

(** The list after a new entry, with links [tl] and null, is stored. *)
Lemma dlist_snoc_insert h h1 l hd tl be e' :
  NoDup l → be ∉ l →
  dseg h1 None l hd tl (Some be) →
  Qe.prev e' = tl → Qe.next e' = None →
  dlist (<[be := e']> h1) (l ++ [be]) hd (Some be).
Proof.
  intros Hnd Hbe Hs Hp Hn. split.
  - apply NoDup_app. split; [done|]. split; [|apply NoDup_singleton].
    intros x Hx Hx'. apply list_elem_of_singleton in Hx' as ->. done.
  - apply dseg_snoc. exists tl, e'. split; [by apply dseg_insert_ne|].
    by rewrite lookup_insert_eq.
Qed.

Lemma queue_put_inuse_spec h bp l be e :
  dlist h l (Bp.inuse_head bp) (Bp.inuse_tail bp) →
  be ∉ l → h !! be = Some e →
  ∃ h1 bp1 e1,
    queue_put_inuse h bp (Some be) = Some (h1, bp1) ∧
    dlist h1 (l ++ [be]) (Bp.inuse_head bp1) (Bp.inuse_tail bp1) ∧
    Bp.free_head bp1 = Bp.free_head bp ∧ Bp.free_tail bp1 = Bp.free_tail bp ∧
    Bp.free_sem bp1 = Bp.free_sem bp ∧
    h1 !! be = Some e1 ∧ Qe.status e1 = QENT_WAITING ∧
    Qe.index e1 = Qe.index e ∧ Qe.dh e1 = Qe.dh e ∧
    Qe.timestamp e1 = Qe.timestamp e ∧
    (∀ p, p ≠ be → payload <$> h1 !! p = payload <$> h !! p) ∧
    (∀ p, p ∉ l → p ≠ be → h1 !! p = h !! p).
Proof.
  intros Hdl Hbe He. pose proof (link_tail _ _ _ _ be Hdl Hbe) as Hlink.
  destruct Hdl as [Hnd Hs]. unfold queue_put_inuse.
  destruct (Bp.inuse_tail bp) as [t|] eqn:Htl.
  - destruct Hlink as (et & Het & Hne & Htin & Hs1).
    rewrite (upd_Some _ _ _ _ Het). simpl.
    rewrite (upd_Some _ _ _ e) by by rewrite lookup_insert_ne.
    simpl. upd_again.
    upd_again.
    rewrite !insert_insert_eq.
    eexists _, _, _. split; [done|]. simpl.
    split; [by apply (dlist_snoc_insert h _ l _ (Some t))|].
    rewrite lookup_insert_eq. repeat split; try done.
    + intros p Hp. rewrite lookup_insert_ne by done.
      destruct (decide (p = t)) as [-> | Hpt].
      * by rewrite lookup_insert_eq, Het.
      * by rewrite lookup_insert_ne.
    + intros p Hpl Hp. rewrite !lookup_insert_ne; [done | | done].
      intros ->. done.
  - destruct Hlink as [-> Hhd]. simpl.
    rewrite (upd_Some _ _ _ e) by done.
    simpl. upd_again.
    upd_again.
    rewrite !insert_insert_eq.
    eexists _, _, _. split; [done|]. simpl.
    split; [by apply (dlist_snoc_insert h h [] _ None)|].
    rewrite lookup_insert_eq. repeat split; try done.
    + intros p Hp. by rewrite lookup_insert_ne.
    + intros p _ Hp. by rewrite lookup_insert_ne.
Qed.


(** Unlinking an entry from its successor. *)
Lemma unlink_next h v be e l2 tl :
  NoDup l2 → dseg h (Some be) l2 (Qe.next e) tl None →
  match Qe.next e with
  | Some n =>
      ∃ en, h !! n = Some en ∧ n ∈ l2 ∧
        dseg (<[n := Qe.set_prev v en]> h) v l2 (Qe.next e) tl None
  | None => l2 = [] ∧ tl = Some be
  end.
Proof.
  intros Hnd Hs. pose proof (dseg_head _ _ _ _ _ _ Hs) as Hhd.
  destruct l2 as [|n l2]; simpl in Hhd; rewrite Hhd.
  - simpl in Hs. by destruct Hs as [_ ->].
  - apply NoDup_cons in Hnd as [Hn Hnd].
    assert (Hin : n ∈ n :: l2) by left.
    destruct (dseg_lookup _ _ _ _ _ _ n Hs Hin) as [en Hen].
    exists en. split; [done|]. split; [done|].
    rewrite Hhd in Hs. by eapply dseg_set_prev_first.
Qed.

(** Unlinking an entry from its predecessor. *)
Lemma unlink_prev h v be l1 hd m1 :
  NoDup l1 → dseg h None l1 hd m1 (Some be) →
  match m1 with
  | Some p =>
      ∃ ep, h !! p = Some ep ∧ p ∈ l1 ∧
        dseg (<[p := Qe.set_next v ep]> h) None l1 hd m1 v
  | None => l1 = [] ∧ hd = Some be
  end.
Proof.
  intros Hnd Hs. pose proof (dseg_tail _ _ _ _ _ _ Hs) as Htl.
  destruct (last l1) as [p|] eqn:Hlast; simpl in Htl; subst m1.
  - apply last_Some in Hlast as [l' ->].
    assert (Hp : p ∈ l' ++ [p])
      by (apply elem_of_app; right; by apply list_elem_of_singleton).
    destruct (dseg_lookup _ _ _ _ _ _ p Hs Hp) as [ep Hep].
    exists ep. split; [done|]. split; [done|].
    apply NoDup_app in Hnd as (_ & Hdisj & _).
    eapply dseg_set_next_last; [|done|exact Hs].
    intros Hin. apply (Hdisj p Hin). by apply list_elem_of_singleton.
  - apply last_None in Hlast as ->. simpl in Hs. by destruct Hs as [-> _].
Qed.

Lemma bq_extract_inuse_spec h bp l1 be l2 :
  dlist h (l1 ++ be :: l2) (Bp.inuse_head bp) (Bp.inuse_tail bp) →
  ∃ h1 bp1 e e1,
    h !! be = Some e ∧
    bq_extract_inuse h bp be = Some (h1, bp1) ∧
    dlist h1 (l1 ++ l2) (Bp.inuse_head bp1) (Bp.inuse_tail bp1) ∧
    Bp.free_head bp1 = Bp.free_head bp ∧ Bp.free_tail bp1 = Bp.free_tail bp ∧
    Bp.free_sem bp1 = Bp.free_sem bp ∧
    h1 !! be = Some e1 ∧ Qe.next e1 = None ∧ Qe.prev e1 = None ∧
    payload e1 = payload e ∧
    (∀ p, payload <$> h1 !! p = payload <$> h !! p) ∧
    (∀ p, p ∉ l1 ++ be :: l2 → h1 !! p = h !! p).
Proof.
  intros [Hnd Hs].
  apply NoDup_app in Hnd as (Hnd1 & Hdisj & Hnd2).
  apply NoDup_cons in Hnd2 as [Hbe2 Hnd2].
  assert (Hbe1 : be ∉ l1) by (intros Hin; apply (Hdisj be Hin); left).
  assert (Hd12 : ∀ x, x ∈ l1 → x ∉ l2)
    by (intros x Hx Hx2; apply (Hdisj x Hx); by right).
  apply dseg_app in Hs as (m1 & m2 & Hs1 & Hs2). simpl in Hs2.
  destruct Hs2 as (-> & e & He & Hprev & Hs2).
  pose proof (unlink_next h m1 be e l2 _ Hnd2 Hs2) as Hun.
  unfold bq_extract_inuse. rewrite He. simpl.
  (* first the successor, or the tail field *)
  assert (∃ h1 bp1 tl1,
    (match Qe.next e with
     | Some n => h ← upd h n (Qe.set_prev (Qe.prev e)); Some (h, bp)
     | None => Some (h, Bp.set_inuse_tail (Qe.prev e) bp)
     end) = Some (h1, bp1) ∧
    Bp.inuse_tail bp1 = tl1 ∧ Bp.inuse_head bp1 = Bp.inuse_head bp ∧
    Bp.free_head bp1 = Bp.free_head bp ∧ Bp.free_tail bp1 = Bp.free_tail bp ∧
    Bp.free_sem bp1 = Bp.free_sem bp ∧
    dseg h1 m1 l2 (Qe.next e) tl1 None ∧
    dseg h1 None l1 (Bp.inuse_head bp) m1 (Some be) ∧
    h1 !! be = Some e ∧
    (∀ p, payload <$> h1 !! p = payload <$> h !! p) ∧
    (∀ p, p ∉ l1 ++ be :: l2 → h1 !! p = h !! p))
    as (h1 & bp1 & tl1 & -> & Htl1 & Hhd1 & Hf1 & Hf2 & Hf3 & Hs2' & Hs1' & He1 & Hpay1 & Hfr1).
  { destruct (Qe.next e) as [n|] eqn:Hnext.
    - destruct Hun as (en & Hen & Hnin & Hs2').
      assert (n ≠ be) by (intros ->; done).
      rewrite (upd_Some _ _ _ _ Hen). simpl. rewrite Hprev.
      eexists _, _, _. split; [done|]. repeat split; try done.
      + apply dseg_insert_ne; [|done]. intros Hin. by apply (Hd12 n).
      + by rewrite lookup_insert_ne.
      + intros p. destruct (decide (p = n)) as [-> | Hpn].
        * by rewrite lookup_insert_eq, Hen.
        * by rewrite lookup_insert_ne.
      + intros p Hp. rewrite lookup_insert_ne; [done|]. intros <-.
        apply Hp. apply elem_of_app. right. by right.
    - destruct Hun as [-> Htl]. eexists _, _, _. split; [done|].
      simpl. repeat split; done. }
  simpl. rewrite Hprev.
  pose proof (unlink_prev h1 (Qe.next e) be l1 _ m1 Hnd1 Hs1') as Hup.
  assert (∃ h2 bp2 hd2,
    (match m1 with
     | Some p => h ← upd h1 p (Qe.set_next (Qe.next e)); Some (h, bp1)
     | None => Some (h1, Bp.set_inuse_head (Qe.next e) bp1)
     end) = Some (h2, bp2) ∧
    Bp.inuse_tail bp2 = tl1 ∧ Bp.inuse_head bp2 = hd2 ∧
    Bp.free_head bp2 = Bp.free_head bp ∧ Bp.free_tail bp2 = Bp.free_tail bp ∧
    Bp.free_sem bp2 = Bp.free_sem bp ∧
    dseg h2 None (l1 ++ l2) hd2 tl1 None ∧
    h2 !! be = Some e ∧
    (∀ p, payload <$> h2 !! p = payload <$> h !! p) ∧
    (∀ p, p ∉ l1 ++ be :: l2 → h2 !! p = h !! p))
    as (h2 & bp2 & hd2 & -> & Htl2 & Hhd2 & Hg1 & Hg2 & Hg3 & Hs' & He2 & Hpay2 & Hfr2).
  { destruct m1 as [p|].
    - destruct Hup as (ep & Hep & Hpin & Hs1'').
      assert (p ≠ be) by (intros ->; done).
      rewrite (upd_Some _ _ _ _ Hep). simpl.
      eexists _, _, _. split; [done|]. repeat split; try done.
      + apply dseg_app. rewrite Hhd1. eexists _, _. split; [exact Hs1''|].
        apply dseg_insert_ne; [|done]. by apply Hd12.
      + by rewrite lookup_insert_ne.
      + intros q. destruct (decide (q = p)) as [-> | Hqp].
        * rewrite lookup_insert_eq. simpl. rewrite <- Hpay1, Hep. done.
        * rewrite lookup_insert_ne by done. apply Hpay1.
      + intros q Hq. rewrite lookup_insert_ne; [by apply Hfr1|]. intros <-.
        apply Hq. apply elem_of_app. by left.
    - destruct Hup as [-> Hhd]. eexists _, _, _. split; [done|].
      simpl. repeat split; try done. }
  simpl. rewrite (upd_Some _ _ _ _ He2). simpl.
  upd_again.
  rewrite insert_insert_eq.
  eexists _, _, e, _. split; [done|]. split; [done|].
  split.
  { split.
    - apply NoDup_app. split; [done|]. split; [|done]. apply Hd12.
    - rewrite Hhd2, Htl2. apply dseg_insert_ne; [|done].
      intros [?|?]%elem_of_app; done. }
  rewrite lookup_insert_eq. repeat split; try done.
  - intros p. destruct (decide (p = be)) as [-> | Hp].
    + rewrite lookup_insert_eq. simpl. rewrite <- Hpay2, He2. done.
    + rewrite lookup_insert_ne by done. apply Hpay2.
  - intros p Hp. rewrite lookup_insert_ne; [by apply Hfr2|]. intros <-.
    apply Hp. apply elem_of_app. right. left.
Qed.


(** The scan stops at the first member whose primary plane has the
    descriptor, and reaches the end when there is none. *)
Lemma find_fd_from_hit h fd l1 : ∀ fuel prv hd tl be l2,
  dseg h prv (l1 ++ be :: l2) hd tl None →
  (length l1 < fuel)%nat →
  (∀ q, q ∈ l1 → is_Some (ent_fd h q) ∧ ent_fd h q ≠ Some fd) →
  ent_fd h be = Some fd →
  find_fd_from fuel h fd hd = Some (Some be).
Proof.
  induction l1 as [|p l1 IH]; intros fuel prv hd tl be l2 Hs Hfuel Hl1 Hbe;
    simpl in Hs; destruct Hs as (-> & e & He & _ & Hs);
    (destruct fuel as [|fuel]; [simpl in Hfuel; lia|]); simpl.
  - unfold ent_fd in Hbe. rewrite He in *. simpl in *.
    destruct (Qe.dh e !! 0%nat) as [d0|]; [|done]. simpl in *.
    injection Hbe as Hbe. by rewrite Hbe, Z.eqb_refl.
  - destruct (Hl1 p) as [[fq Hfq] Hne]; [left|].
    unfold ent_fd in Hfq, Hne. rewrite He in *. simpl in *.
    destruct (Qe.dh e !! 0%nat) as [d0|]; [|done]. simpl in *.
    destruct (Z.eqb_spec (dmabuf_fd d0) fd) as [Heq | _]; [by rewrite Heq in Hne|].
    eapply IH; [exact Hs | simpl in Hfuel; lia | | done].
    intros q Hq. apply Hl1. by right.
Qed.

Lemma find_fd_from_miss h fd l : ∀ fuel prv hd tl,
  dseg h prv l hd tl None →
  (length l ≤ fuel)%nat →
  (∀ q, q ∈ l → is_Some (ent_fd h q) ∧ ent_fd h q ≠ Some fd) →
  find_fd_from fuel h fd hd = Some None.
Proof.
  induction l as [|p l IH]; intros fuel prv hd tl Hs Hfuel Hl; simpl in Hs.
  - destruct Hs as [-> _]. by destruct fuel.
  - destruct Hs as (-> & e & He & _ & Hs).
    destruct fuel as [|fuel]; [simpl in Hfuel; lia|]. simpl.
    destruct (Hl p) as [[fq Hfq] Hne]; [left|].
    unfold ent_fd in Hfq, Hne. rewrite He in *. simpl in *.
    destruct (Qe.dh e !! 0%nat) as [d0|]; [|done]. simpl in *.
    destruct (Z.eqb_spec (dmabuf_fd d0) fd) as [Heq | _]; [by rewrite Heq in Hne|].
    eapply IH; [exact Hs | simpl in Hfuel; lia |].
    intros q Hq. apply Hl. by right.
Qed.

Lemma dlist_length_le_size h l hd tl :
  dlist h l hd tl → (length l ≤ size h)%nat.
Proof.
  intros [Hnd Hs]. apply NoDup_length_le_size; [done|].
  intros p Hp. by eapply dseg_lookup.
Qed.

Lemma ent_fd_payload h h' p :
  payload <$> h' !! p = payload <$> h !! p → ent_fd h' p = ent_fd h p.
Proof.
  unfold ent_fd. destruct (h' !! p) as [e'|], (h !! p) as [e|]; simpl; try done.
  intros [= _ _ Hdh _]. by rewrite Hdh.
Qed.


(** The lookup on a well-formed in-use list: a hit on the first member with
    the descriptor, which is unlinked. *)
Lemma queue_find_extract_fd_hit h bp l fd l1 be l2 :
  dlist h l (Bp.inuse_head bp) (Bp.inuse_tail bp) →
  (∀ q, q ∈ l → is_Some (ent_fd h q)) →
  l = l1 ++ be :: l2 → ent_fd h be = Some fd →
  (∀ q, q ∈ l1 → ent_fd h q ≠ Some fd) →
  ∃ h1 bp1 e e1,
    queue_find_extract_fd h bp fd = Some (Some be, h1, bp1) ∧
    bq_extract_inuse h bp be = Some (h1, bp1) ∧
    dlist h1 (l1 ++ l2) (Bp.inuse_head bp1) (Bp.inuse_tail bp1) ∧
    (be ∉ l1 ++ l2) ∧
    h !! be = Some e ∧
    h1 !! be = Some e1 ∧ Qe.next e1 = None ∧ Qe.prev e1 = None ∧
    payload e1 = payload e.
Proof.
  intros Hwf Hfd -> Hbe Hl1.
  pose proof (dlist_length_le_size _ _ _ _ Hwf) as Hlen.
  rewrite length_app in Hlen. simpl in Hlen.
  unfold queue_find_extract_fd.
  rewrite (find_fd_from_hit h fd l1 _ None _ (Bp.inuse_tail bp) be l2);
    [|apply Hwf | lia | | done].
  2:{ intros q Hq. split; [|by apply Hl1]. apply Hfd, elem_of_app. by left. }
  simpl.
  destruct (bq_extract_inuse_spec h bp l1 be l2 Hwf)
    as (h1 & bp1 & e & e1 & He & Hex & Hdl & _ & _ & _ & He1 & Hn & Hp & Hpay & _).
  rewrite Hex. simpl. exists h1, bp1, e, e1. do 3 (split; [done|]).
  split; [|done].
  destruct Hwf as [Hnd _]. apply NoDup_app in Hnd as (_ & Hdisj & Hnd2).
  apply NoDup_cons in Hnd2 as [Hbe2 _].
  intros [Hin | Hin]%elem_of_app; [|done]. apply (Hdisj be Hin). left.
Qed.

(** A miss, which changes nothing. *)
Lemma queue_find_extract_fd_miss h bp l fd :
  dlist h l (Bp.inuse_head bp) (Bp.inuse_tail bp) →
  (∀ q, q ∈ l → is_Some (ent_fd h q)) →
  (∀ q, q ∈ l → ent_fd h q ≠ Some fd) →
  queue_find_extract_fd h bp fd = Some (None, h, bp).
Proof.
  intros Hwf Hfd Hl. unfold queue_find_extract_fd.
  rewrite (find_fd_from_miss h fd l _ None _ (Bp.inuse_tail bp));
    [done | apply Hwf | by eapply dlist_length_le_size |].
  intros q Hq. split; [by apply Hfd | by apply Hl].
Qed.

End queue_ops.

Section inuse_round_trip.

Implicit Types (h : gmap nat Qe.qent_base) (l : list nat).

(** C8.  On a well-formed in-use list [l]:
    - [queue_put_inuse] appends the entry at the tail and marks it
      [QENT_WAITING], leaving the plane descriptors as they are;
    - [queue_find_extract_fd] returns the first entry, from the front,
      whose primary plane has the descriptor, as the same object, detached
      and removed from the list;
    - when no entry has the descriptor it returns null and nothing changes;
    - hence an entry put in use and looked up by the descriptor of its
      primary plane comes back itself, when no entry already in use has
      that descriptor. *)
Theorem inuse_put_find_extract h bp l
    (Hwf : dlist h l (Bp.inuse_head bp) (Bp.inuse_tail bp))
    (Hfd : ∀ q, q ∈ l → is_Some (ent_fd h q)) :
  (∀ be, be ∉ l → is_Some (h !! be) →
     ∃ h1 bp1 e1,
       queue_put_inuse h bp (Some be) = Some (h1, bp1) ∧
       dlist h1 (l ++ [be]) (Bp.inuse_head bp1) (Bp.inuse_tail bp1) ∧
       h1 !! be = Some e1 ∧ Qe.status e1 = QENT_WAITING ∧
       (∀ q, ent_fd h1 q = ent_fd h q)) ∧
  (∀ fd l1 be l2,
     l = l1 ++ be :: l2 → ent_fd h be = Some fd →
     (∀ q, q ∈ l1 → ent_fd h q ≠ Some fd) →
     ∃ h1 bp1 e1,
       queue_find_extract_fd h bp fd = Some (Some be, h1, bp1) ∧
       dlist h1 (l1 ++ l2) (Bp.inuse_head bp1) (Bp.inuse_tail bp1) ∧
       (be ∉ l1 ++ l2) ∧
       h1 !! be = Some e1 ∧ Qe.next e1 = None ∧ Qe.prev e1 = None ∧
       (payload <$> h !! be) = Some (payload e1)) ∧
  (∀ fd, (∀ q, q ∈ l → ent_fd h q ≠ Some fd) →
     queue_find_extract_fd h bp fd = Some (None, h, bp)) ∧
  (∀ be fd, be ∉ l → ent_fd h be = Some fd →
     (∀ q, q ∈ l → ent_fd h q ≠ Some fd) →
     ∃ h1 bp1 h2 bp2,
       queue_put_inuse h bp (Some be) = Some (h1, bp1) ∧
       queue_find_extract_fd h1 bp1 fd = Some (Some be, h2, bp2) ∧
       dlist h2 l (Bp.inuse_head bp2) (Bp.inuse_tail bp2)).
Proof.
  assert (Hput : ∀ be, be ∉ l → is_Some (h !! be) →
     ∃ h1 bp1 e1,
       queue_put_inuse h bp (Some be) = Some (h1, bp1) ∧
       dlist h1 (l ++ [be]) (Bp.inuse_head bp1) (Bp.inuse_tail bp1) ∧
       h1 !! be = Some e1 ∧ Qe.status e1 = QENT_WAITING ∧
       (∀ q, ent_fd h1 q = ent_fd h q)).
  { intros be Hbe [e He].
    destruct (queue_put_inuse_spec h bp l be e Hwf Hbe He)
      as (h1 & bp1 & e1 & Hput & Hdl & _ & _ & _ & He1 & Hst & Hix & Hdh & Hts
          & Hpay & _).
    exists h1, bp1, e1. do 4 (split; [done|]).
    intros q. destruct (decide (q = be)) as [-> | Hq].
    - unfold ent_fd. rewrite He1, He. simpl. by rewrite Hdh.
    - apply ent_fd_payload, Hpay, Hq. }
  split; [exact Hput|]. split; [|split].
  - intros fd l1 be l2 Heq Hbe Hl1.
    destruct (queue_find_extract_fd_hit h bp l fd l1 be l2 Hwf Hfd Heq Hbe Hl1)
      as (h1 & bp1 & e & e1 & Hfind & _ & Hdl & Hnin & He & He1 & Hn & Hp & Hpay).
    exists h1, bp1, e1. do 6 (split; [done|]). by rewrite He, Hpay.
  - intros fd Hl. by eapply queue_find_extract_fd_miss.
  - intros be fd Hbe Hbefd Hl.
    assert (is_Some (h !! be)) as Hsome.
    { unfold ent_fd in Hbefd. destruct (h !! be); [eauto | done]. }
    destruct (Hput be Hbe Hsome) as (h1 & bp1 & e1 & Hp & Hdl & He1 & _ & Hfds).
    destruct (queue_find_extract_fd_hit h1 bp1 (l ++ [be]) fd l be [] Hdl)
      as (h2 & bp2 & e & e2 & Hfind & _ & Hdl2 & _); [| done | | |].
    + intros q Hq. rewrite Hfds. apply elem_of_app in Hq as [Hq | Hq].
      * by apply Hfd.
      * apply list_elem_of_singleton in Hq as ->. by rewrite Hbefd.
    + by rewrite Hfds.
    + intros q Hq. rewrite Hfds. by apply Hl.
    + rewrite app_nil_r in Hdl2. exists h1, bp1, h2, bp2. done.
Qed.


Lemma queue_demo_inuse_wf :
  dlist queue_demo_ents [1%nat]
    (Bp.inuse_head queue_demo_bp) (Bp.inuse_tail queue_demo_bp) ∧
  ∀ q, q ∈ [1%nat] → is_Some (ent_fd queue_demo_ents q).
Proof.
  split.
  - split; [apply NoDup_singleton|]. simpl. split; [done|].
    eexists. split; [vm_compute; reflexivity|]. done.
  - intros q ->%list_elem_of_singleton. vm_compute. eauto.
Qed.

Lemma inuse_put_find_extract_witness :
  (dlist queue_demo_ents [1%nat]
     (Bp.inuse_head queue_demo_bp) (Bp.inuse_tail queue_demo_bp) ∧
   ∀ q, q ∈ [1%nat] → is_Some (ent_fd queue_demo_ents q)) ∧
  ∃ h1 bp1 h2 bp2,
    queue_put_inuse queue_demo_ents queue_demo_bp (Some 2%nat) = Some (h1, bp1) ∧
    queue_find_extract_fd h1 bp1 11 = Some (Some 2%nat, h2, bp2) ∧
    dlist h2 [1%nat] (Bp.inuse_head bp2) (Bp.inuse_tail bp2).
Proof.
  split; [exact queue_demo_inuse_wf|].
  destruct (inuse_put_find_extract queue_demo_ents queue_demo_bp [1%nat]
              (proj1 queue_demo_inuse_wf) (proj2 queue_demo_inuse_wf))
    as (_ & _ & _ & Hrt).
  apply Hrt.
  - intros H%list_elem_of_singleton. discriminate H.
  - vm_compute. reflexivity.
  - intros q ->%list_elem_of_singleton. vm_compute. congruence.
Defined.

End inuse_round_trip.

(** ** Buffer queue: recycling through the free list *)

Section free_list.

Implicit Types (h : gmap nat Qe.qent_base) (l : list nat) (e : Qe.qent_base)
  (dh : list (option dmabuf_h)).

Lemma len_clear_from_run fuel : ∀ pre dh,
  len_clear_from fuel (length pre) (pre ++ dh) = pre ++ clear_run fuel dh.
Proof.
  induction fuel as [|fuel IH]; intros pre dh; simpl; [by destruct dh|].
  rewrite lookup_app_r by lia. rewrite Nat.sub_diag.
  destruct dh as [|[d|] dh]; simpl; try done.
  rewrite insert_app_r_alt by lia. rewrite Nat.sub_diag. simpl.
  specialize (IH (pre ++ [Some (dmabuf_len_set d 0)]) dh).
  rewrite length_app, Nat.add_1_r, <- !app_assoc in IH. exact IH.
Qed.

Lemma len_clear_run dh : len_clear dh = clear_run VIDEO_MAX_PLANES dh.
Proof. apply (len_clear_from_run VIDEO_MAX_PLANES []). Qed.

Lemma clear_run_lead_zero fuel : ∀ dh,
  (length dh ≤ fuel)%nat → lead_len_zero (clear_run fuel dh).
Proof.
  induction fuel as [|fuel IH]; intros dh Hlen.
  - destruct dh; [done | simpl in Hlen; lia].
  - destruct dh as [|[d|] dh]; simpl; try done.
    split; [done|]. apply IH. simpl in Hlen. lia.
Qed.

(** With the populated slots first, a cleared leading run is all of them. *)
Lemma lead_len_zero_all dh :
  no_gap dh → lead_len_zero dh → all_len_zero dh.
Proof.
  induction dh as [|o dh IH]; intros Hgap Hz i d Hi; [done|].
  destruct o as [d0|].
  - simpl in Hz. destruct Hz as [Hd0 Hz].
    destruct i as [|i]; simpl in Hi; [congruence|].
    eapply (IH); [|done|exact Hi].
    intros i' j d' Hle Hj. apply (Hgap (S i') (S j) d'); [lia | done].
  - destruct (Hgap 0%nat i d) as [x Hx]; [lia | done | done].
Qed.

Lemma bq_put_free_spec h bp l be e :
  dlist h l (Bp.free_head bp) (Bp.free_tail bp) →
  be ∉ l → h !! be = Some e →
  ∃ h1 bp1 e1,
    bq_put_free h bp be = Some (h1, bp1) ∧
    dlist h1 (l ++ [be]) (Bp.free_head bp1) (Bp.free_tail bp1) ∧
    Bp.inuse_head bp1 = Bp.inuse_head bp ∧
    Bp.inuse_tail bp1 = Bp.inuse_tail bp ∧
    Bp.free_sem bp1 = Bp.free_sem bp ∧
    h1 !! be = Some e1 ∧ payload e1 = payload e ∧
    (∀ p, (payload <$> h1 !! p) = (payload <$> h !! p)) ∧
    (∀ p, p ∉ l → p ≠ be → h1 !! p = h !! p).
Proof.
  intros Hdl Hbe He. pose proof (link_tail _ _ _ _ be Hdl Hbe) as Hlink.
  destruct Hdl as [Hnd Hs]. unfold bq_put_free.
  destruct (Bp.free_tail bp) as [t|] eqn:Htl.
  - destruct Hlink as (et & Het & Hne & Htin & Hs1).
    rewrite (upd_Some _ _ _ _ Het). simpl. rewrite Htl.
    rewrite (upd_Some _ _ _ e) by by rewrite lookup_insert_ne.
    simpl. upd_again.
    rewrite !insert_insert_eq.
    eexists _, _, _. split; [done|]. simpl.
    split; [by apply (dlist_snoc_insert h _ l _ (Some t))|].
    rewrite lookup_insert_eq. do 5 (split; [done|]). split.
    + intros p. destruct (decide (p = be)) as [-> | Hp].
      * by rewrite lookup_insert_eq, He.
      * rewrite lookup_insert_ne by done.
        destruct (decide (p = t)) as [-> | Hpt].
        -- by rewrite lookup_insert_eq, Het.
        -- by rewrite lookup_insert_ne.
    + intros p Hpl Hp. rewrite !lookup_insert_ne; [done | | done].
      intros ->. done.
  - destruct Hlink as [-> Hhd]. simpl.
    rewrite (upd_Some _ _ _ e) by done.
    simpl. upd_again.
    rewrite !insert_insert_eq.
    eexists _, _, _. split; [done|]. simpl.
    split; [by apply (dlist_snoc_insert h h [] _ None)|].
    rewrite lookup_insert_eq. do 5 (split; [done|]). split.
    + intros p. destruct (decide (p = be)) as [-> | Hp].
      * by rewrite lookup_insert_eq, He.
      * by rewrite lookup_insert_ne.
    + intros p _ Hp. by rewrite lookup_insert_ne.
Qed.

Lemma bq_get_free_spec h bp be l :
  dlist h (be :: l) (Bp.free_head bp) (Bp.free_tail bp) →
  ∃ h1 bp1 e e1,
    h !! be = Some e ∧
    bq_get_free h bp = Some (Some be, h1, bp1) ∧
    dlist h1 l (Bp.free_head bp1) (Bp.free_tail bp1) ∧
    Bp.inuse_head bp1 = Bp.inuse_head bp ∧
    Bp.inuse_tail bp1 = Bp.inuse_tail bp ∧
    Bp.free_sem bp1 = Bp.free_sem bp ∧
    h1 !! be = Some e1 ∧ Qe.next e1 = None ∧ Qe.prev e1 = None ∧
    payload e1 = payload e ∧
    (∀ p, (payload <$> h1 !! p) = (payload <$> h !! p)) ∧
    (∀ p, p ∉ be :: l → h1 !! p = h !! p).
Proof.
  intros [Hnd Hs]. apply NoDup_cons in Hnd as [Hbe Hnd].
  simpl in Hs. destruct Hs as (Hhd & e & He & Hprev & Hs).
  pose proof (unlink_next h None be e l _ Hnd Hs) as Hun.
  unfold bq_get_free. rewrite Hhd, He. simpl. rewrite Hprev.
  destruct (Qe.next e) as [n|] eqn:Hnext.
  - destruct Hun as (en & Hen & Hnin & Hs').
    assert (n ≠ be) by (intros ->; done).
    rewrite (upd_Some _ _ _ _ Hen). simpl.
    rewrite (upd_Some _ _ _ e) by by rewrite lookup_insert_ne.
    simpl. upd_again.
    rewrite insert_insert_eq.
    eexists _, _, e, _. split; [done|]. split; [done|]. simpl.
    split; [split; [done|]; by apply dseg_insert_ne|].
    rewrite lookup_insert_eq. do 7 (split; [done|]). split.
    + intros p. destruct (decide (p = be)) as [-> | Hp].
      * by rewrite lookup_insert_eq, He.
      * rewrite lookup_insert_ne by done.
        destruct (decide (p = n)) as [-> | Hpn].
        -- by rewrite lookup_insert_eq, Hen.
        -- by rewrite lookup_insert_ne.
    + intros p Hp. apply not_elem_of_cons in Hp as [Hpb Hpl].
      rewrite !lookup_insert_ne; [done | | done]. intros ->. done.
  - destruct Hun as [-> Htl]. simpl.
    rewrite (upd_Some _ _ _ e) by done.
    simpl. upd_again.
    rewrite insert_insert_eq.
    eexists _, _, e, _. split; [done|]. split; [done|]. simpl.
    split; [done|].
    rewrite lookup_insert_eq. do 7 (split; [done|]). split.
    + intros p. destruct (decide (p = be)) as [-> | Hp].
      * by rewrite lookup_insert_eq, He.
      * by rewrite lookup_insert_ne.
    + intros p Hp. apply not_elem_of_cons in Hp as [Hpb Hpl].
      by rewrite lookup_insert_ne.
Qed.

Lemma recycled_payload e e' : payload e' = payload e → recycled e → recycled e'.
Proof. intros [= _ _ Hdh Hts] [H1 H2]. split; congruence. Qed.


Lemma queue_put_free_spec h bp l be e :
  dlist h l (Bp.free_head bp) (Bp.free_tail bp) →
  be ∉ l → h !! be = Some e →
  ∃ h1 bp1 e1,
    queue_put_free h bp be = Some (h1, bp1) ∧
    dlist h1 (l ++ [be]) (Bp.free_head bp1) (Bp.free_tail bp1) ∧
    Bp.free_sem bp1 = S (Bp.free_sem bp) ∧
    Bp.inuse_head bp1 = Bp.inuse_head bp ∧
    Bp.inuse_tail bp1 = Bp.inuse_tail bp ∧
    h1 !! be = Some e1 ∧
    Qe.timestamp e1 = timeval_zero ∧ Qe.dh e1 = len_clear (Qe.dh e) ∧
    Qe.status e1 = Qe.status e ∧ Qe.index e1 = Qe.index e ∧
    (∀ p, p ≠ be → (payload <$> h1 !! p) = (payload <$> h !! p)) ∧
    (∀ p, p ∉ l → p ≠ be → h1 !! p = h !! p).
Proof.
  intros Hdl Hbe He. unfold queue_put_free.
  rewrite (upd_Some _ _ _ _ He). simpl.
  upd_again.
  rewrite insert_insert_eq.
  set (e0 := Qe.set_dh _ _). set (h0 := <[be := e0]> h).
  assert (Hdl0 : dlist h0 l (Bp.free_head bp) (Bp.free_tail bp)).
  { destruct Hdl as [Hnd Hs]. split; [done|]. by apply dseg_insert_ne. }
  destruct (bq_put_free_spec h0 bp l be e0 Hdl0 Hbe (lookup_insert_eq _ _ _))
    as (h1 & bp1 & e1 & -> & Hdl1 & Hi1 & Hi2 & Hsem & He1 & Hpay & Hpays & Hfr).
  simpl. eexists h1, _, e1. split; [done|]. simpl.
  injection Hpay as Hst Hix Hdh Hts.
  split; [done|]. split; [by rewrite Hsem|]. do 3 (split; [done|]).
  split; [by rewrite Hts|]. split; [by rewrite Hdh|].
  split; [by rewrite Hst|]. split; [by rewrite Hix|]. split.
  - intros p Hp. rewrite Hpays. unfold h0. by rewrite lookup_insert_ne.
  - intros p Hpl Hp. rewrite Hfr by done. unfold h0. by rewrite lookup_insert_ne.
Qed.

Lemma queue_get_free_spec h bp p l :
  dlist h (p :: l) (Bp.free_head bp) (Bp.free_tail bp) →
  Bp.free_sem bp = length (p :: l) →
  ∃ h1 bp1 e e1,
    queue_get_free h bp = Some (Returns (Some p) (h1, bp1)) ∧
    queue_tryget_free h bp = Some (Some p, h1, bp1) ∧
    dlist h1 l (Bp.free_head bp1) (Bp.free_tail bp1) ∧
    Bp.free_sem bp1 = length l ∧
    Bp.inuse_head bp1 = Bp.inuse_head bp ∧
    Bp.inuse_tail bp1 = Bp.inuse_tail bp ∧
    h !! p = Some e ∧ h1 !! p = Some e1 ∧ payload e1 = payload e ∧
    (∀ q, (payload <$> h1 !! q) = (payload <$> h !! q)) ∧
    (∀ q, q ∉ p :: l → h1 !! q = h !! q).
Proof.
  intros Hwf Hsem. simpl in Hsem.
  assert (Hwf' : dlist h (p :: l)
                   (Bp.free_head (Bp.set_free_sem (length l) bp))
                   (Bp.free_tail (Bp.set_free_sem (length l) bp))) by done.
  destruct (bq_get_free_spec h _ p l Hwf')
    as (h1 & bp1 & e & e1 & He & Hget & Hdl & Hih & Hit & Hs1 & He1 & _ & _
        & Hpay & Hpays & Hfr).
  exists h1, bp1, e, e1.
  unfold queue_get_free, queue_tryget_free. rewrite Hsem. simpl.
  rewrite Hget. simpl. do 3 (split; [done|]). done.
Qed.

(** The loop of [queue_put_free] taken alone, for any array of handles.  On
    a well-formed free list [l] whose entries are all recycled (zero
    timestamp, zero recorded length in the plane handles of the leading run
    of populated slots):
    - [queue_put_free] resets the timestamp of the entry and the recorded
      length of the handles in its leading run of populated slots, appends
      the entry to the free list and posts the semaphore, and all entries of
      the free list are recycled again;
    - [queue_get_free] and [queue_tryget_free] hand out the head of the
      list, recycled, and leave a free list of recycled entries
      ([queue_get_free] waits and [queue_tryget_free] returns null on an
      empty list);
    - a recycled entry whose populated slots come first has zero recorded
      length in every populated plane handle. *)
Lemma free_list_recycled h bp l
    (Hwf : dlist h l (Bp.free_head bp) (Bp.free_tail bp))
    (Hrec : ∀ q, q ∈ l → ∃ e, h !! q = Some e ∧ recycled e) :
  (∀ be e, h !! be = Some e → be ∉ l →
     (length (Qe.dh e) ≤ VIDEO_MAX_PLANES)%nat →
     ∃ h1 bp1 e1,
       queue_put_free h bp be = Some (h1, bp1) ∧
       h1 !! be = Some e1 ∧
       Qe.timestamp e1 = timeval_zero ∧
       Qe.dh e1 = len_clear (Qe.dh e) ∧ lead_len_zero (Qe.dh e1) ∧
       dlist h1 (l ++ [be]) (Bp.free_head bp1) (Bp.free_tail bp1) ∧
       Bp.free_sem bp1 = S (Bp.free_sem bp) ∧
       ∀ q, q ∈ l ++ [be] → ∃ e, h1 !! q = Some e ∧ recycled e) ∧
  (Bp.free_sem bp = length l →
     match l with
     | [] =>
         queue_get_free h bp = Some Blocks ∧
         queue_tryget_free h bp = Some (None, h, bp)
     | p :: l' =>
         ∃ h1 bp1 e1,
           queue_get_free h bp = Some (Returns (Some p) (h1, bp1)) ∧
           queue_tryget_free h bp = Some (Some p, h1, bp1) ∧
           h1 !! p = Some e1 ∧ recycled e1 ∧
           dlist h1 l' (Bp.free_head bp1) (Bp.free_tail bp1) ∧
           Bp.free_sem bp1 = length l' ∧
           ∀ q, q ∈ l' → ∃ e, h1 !! q = Some e ∧ recycled e
     end) ∧
  (∀ e, recycled e → no_gap (Qe.dh e) → all_len_zero (Qe.dh e)).
Proof.
  split; [|split].
  - intros be e He Hbe Hlen.
    destruct (queue_put_free_spec h bp l be e Hwf Hbe He)
      as (h1 & bp1 & e1 & Hput & Hdl & Hsem & _ & _ & He1 & Hts & Hdh & _ & _
          & Hpay & _).
    assert (Hz : lead_len_zero (Qe.dh e1)).
    { rewrite Hdh, len_clear_run. by apply clear_run_lead_zero. }
    exists h1, bp1, e1. do 7 (split; [done|]).
    intros q [Hq | ->%list_elem_of_singleton]%elem_of_app.
    + destruct (Hrec q Hq) as (eq & Heq & Hr).
      assert (q ≠ be) by (intros ->; done).
      pose proof (Hpay q ltac:(done)) as Hpq. rewrite Heq in Hpq.
      destruct (h1 !! q) as [eq1|]; [|done]. simpl in Hpq.
      exists eq1. split; [done|]. injection Hpq as Hpq.
      eapply recycled_payload; [|exact Hr]. unfold payload. congruence.
    + exists e1. done.
  - intros Hsem. destruct l as [|p l'].
    + destruct Hwf as [_ [Hhd Htl]]. simpl in Hsem.
      unfold queue_get_free, queue_tryget_free. by rewrite Hsem.
    + destruct (queue_get_free_spec h bp p l' Hwf Hsem)
        as (h1 & bp1 & e & e1 & Hget & Htry & Hdl & Hs1 & _ & _ & He & He1
            & Hpay & Hpays & _).
      exists h1, bp1, e1. do 3 (split; [done|]).
      split.
      { destruct (Hrec p) as (ep & Hep & Hr); [left|].
        eapply recycled_payload; [|exact Hr]. congruence. }
      do 2 (split; [done|]).
      intros q Hq. destruct (Hrec q) as (eq & Heq & Hr); [by right|].
      pose proof (Hpays q) as Hpq. rewrite Heq in Hpq.
      destruct (h1 !! q) as [eq1|]; [|done]. simpl in Hpq.
      exists eq1. split; [done|]. injection Hpq as Hpq.
      eapply recycled_payload; [|exact Hr]. unfold payload. congruence.
  - intros e [_ Hz] Hgap. by apply lead_len_zero_all.
Qed.


Lemma queue_demo_free_wf :
  dlist queue_demo_ents [1%nat]
    (Bp.free_head queue_demo_free_bp) (Bp.free_tail queue_demo_free_bp) ∧
  ∀ q, q ∈ [1%nat] → ∃ e, queue_demo_ents !! q = Some e ∧ recycled e.
Proof.
  split.
  - split; [apply NoDup_singleton|]. simpl. split; [done|].
    eexists. split; [vm_compute; reflexivity|]. done.
  - intros q ->%list_elem_of_singleton. eexists.
    split; [vm_compute; reflexivity|]. split; [done|]. simpl. done.
Qed.













End free_list.

(** ** Buffer queue: the invariant of the two lists *)

Section queue_invariant.

Implicit Types (h : gmap nat Qe.qent_base) (l fl il : list nat)
  (e : Qe.qent_base).

Lemma dlist_frame h h1 l hd tl :
  (∀ p, p ∈ l → h1 !! p = h !! p) → dlist h l hd tl → dlist h1 l hd tl.
Proof.
  intros Hfr [Hnd Hs]. split; [done|]. eapply dseg_ext; [|exact Hs].
  intros p e Hp He. exists e. by rewrite Hfr.
Qed.

Lemma recycled_kept h h1 l :
  (∀ p, p ∈ l → (payload <$> h1 !! p) = (payload <$> h !! p)) →
  (∀ q, q ∈ l → ∃ e, h !! q = Some e ∧ recycled e) →
  ∀ q, q ∈ l → ∃ e, h1 !! q = Some e ∧ recycled e.
Proof.
  intros Hpay Hrec q Hq. destruct (Hrec q Hq) as (e & He & Hr).
  specialize (Hpay q Hq). rewrite He in Hpay.
  destruct (h1 !! q) as [e1|]; [|done]. simpl in Hpay.
  exists e1. split; [done|].
  eapply recycled_payload; [|exact Hr]. congruence.
Qed.

Lemma ent_fd_kept h h1 l :
  (∀ p, p ∈ l → (payload <$> h1 !! p) = (payload <$> h !! p)) →
  (∀ q, q ∈ l → is_Some (ent_fd h q)) →
  ∀ q, q ∈ l → is_Some (ent_fd h1 q).
Proof.
  intros Hpay Hfd q Hq. rewrite (ent_fd_payload h h1 q); auto.
Qed.

(** A queue as [queue_new] makes it. *)
Lemma queue_inv_new h : queue_inv h Bp.empty [] [].
Proof.
  split; [split; [constructor | done]|].
  split; [split; [constructor | done]|].
  split; [intros p Hp; by apply elem_of_nil in Hp|].
  split; [done|].
  split; intros q Hq; by apply elem_of_nil in Hq.
Qed.

Lemma queue_inv_put_free h bp fl il be e :
  queue_inv h bp fl il → be ∉ fl → be ∉ il → h !! be = Some e →
  (length (Qe.dh e) ≤ VIDEO_MAX_PLANES)%nat →
  ∃ h1 bp1,
    queue_put_free h bp be = Some (h1, bp1) ∧
    queue_inv h1 bp1 (fl ++ [be]) il.
Proof.
  intros (Hfl & Hil & Hdisj & Hsem & Hrec & Hfd) Hbf Hbi He Hlen.
  destruct (queue_put_free_spec h bp fl be e Hfl Hbf He)
    as (h1 & bp1 & e1 & Hput & Hdl & Hsem1 & Hih & Hit & He1 & Hts & Hdh & _ & _
        & Hpay & Hfr).
  exists h1, bp1. split; [done|]. split; [done|]. split.
  { rewrite Hih, Hit. eapply dlist_frame; [|exact Hil].
    intros p Hp. apply Hfr; [|by intros ->].
    intros Hpf. by apply (Hdisj p). }
  split.
  { intros p [Hp | ->%list_elem_of_singleton]%elem_of_app; [by apply Hdisj | done]. }
  split; [rewrite Hsem1, Hsem, length_app; simpl; lia|]. split.
  - intros q [Hq | ->%list_elem_of_singleton]%elem_of_app.
    + eapply (recycled_kept h h1 fl); [|done|done].
      intros p Hp. apply Hpay. by intros ->.
    + exists e1. split; [done|]. split; [done|].
      rewrite Hdh, len_clear_run. by apply clear_run_lead_zero.
  - eapply ent_fd_kept; [|done]. intros p Hp. apply Hpay. by intros ->.
Qed.

Lemma queue_inv_get_free h bp p fl il :
  queue_inv h bp (p :: fl) il →
  ∃ h1 bp1 e1,
    queue_get_free h bp = Some (Returns (Some p) (h1, bp1)) ∧
    queue_tryget_free h bp = Some (Some p, h1, bp1) ∧
    queue_inv h1 bp1 fl il ∧
    h1 !! p = Some e1 ∧ recycled e1 ∧ (p ∉ fl) ∧ (p ∉ il).
Proof.
  intros (Hfl & Hil & Hdisj & Hsem & Hrec & Hfd).
  destruct (queue_get_free_spec h bp p fl Hfl Hsem)
    as (h1 & bp1 & e & e1 & Hg & Ht & Hdl & Hs1 & Hih & Hit & He & He1 & Hpay
        & Hpays & Hfr).
  exists h1, bp1, e1. do 2 (split; [done|]).
  assert (Hpfl : p ∉ fl)
    by (destruct Hfl as [Hnd _]; by apply NoDup_cons in Hnd as [? _]).
  assert (Hpil : p ∉ il) by (apply Hdisj; left).
  split.
  - split; [done|]. split.
    { rewrite Hih, Hit. eapply dlist_frame; [|exact Hil].
      intros q Hq. apply Hfr. intros [-> | Hqf]%elem_of_cons; [done|].
      by apply (Hdisj q); [right|]. }
    split; [intros q Hq; apply Hdisj; by right|].
    split; [done|]. split.
    + eapply (recycled_kept h h1 fl); [by intros q _|].
      intros q Hq. apply Hrec. by right.
    + eapply ent_fd_kept; [|done]. by intros q _.
  - split; [done|]. split; [|done].
    destruct (Hrec p) as (ep & Hep & Hr); [left|].
    eapply recycled_payload; [|exact Hr]. congruence.
Qed.

Lemma queue_inv_put_inuse h bp fl il be :
  queue_inv h bp fl il → be ∉ fl → be ∉ il → is_Some (ent_fd h be) →
  ∃ h1 bp1,
    queue_put_inuse h bp (Some be) = Some (h1, bp1) ∧
    queue_inv h1 bp1 fl (il ++ [be]).
Proof.
  intros (Hfl & Hil & Hdisj & Hsem & Hrec & Hfd) Hbf Hbi Hbfd.
  assert (∃ e, h !! be = Some e) as [e He].
  { unfold ent_fd in Hbfd. destruct (h !! be) as [e|]; [eauto|].
    by destruct Hbfd. }
  destruct (queue_put_inuse_spec h bp il be e Hil Hbi He)
    as (h1 & bp1 & e1 & Hput & Hdl & Hfh & Hft & Hs1 & He1 & _ & _ & Hdh & _
        & Hpay & Hfr).
  exists h1, bp1. split; [done|]. split.
  { rewrite Hfh, Hft. eapply dlist_frame; [|exact Hfl].
    intros p Hp. apply Hfr; [by apply Hdisj | by intros ->]. }
  split; [done|]. split.
  { intros p Hp [Hq | ->%list_elem_of_singleton]%elem_of_app;
      [by apply (Hdisj p) | done]. }
  split; [by rewrite Hs1|]. split.
  - eapply (recycled_kept h h1 fl); [|done].
    intros p Hp. apply Hpay. by intros ->.
  - intros q [Hq | ->%list_elem_of_singleton]%elem_of_app.
    + rewrite (ent_fd_payload h h1 q); [by apply Hfd|].
      apply Hpay. by intros ->.
    + unfold ent_fd in *. rewrite He1. rewrite He in Hbfd. simpl in *.
      by rewrite Hdh.
Qed.

(** The first member with a given descriptor, if there is one. *)
Lemma first_match h fd l :
  (∀ q, q ∈ l → ent_fd h q ≠ Some fd) ∨
  ∃ l1 be l2, l = l1 ++ be :: l2 ∧ ent_fd h be = Some fd ∧
              ∀ q, q ∈ l1 → ent_fd h q ≠ Some fd.
Proof.
  induction l as [|p l IH].
  - left. intros q Hq. by apply elem_of_nil in Hq.
  - destruct (decide (ent_fd h p = Some fd)) as [Hp | Hp].
    + right. exists [], p, l. split; [done|]. split; [done|].
      intros q Hq. by apply elem_of_nil in Hq.
    + destruct IH as [Hno | (l1 & be & l2 & -> & Hbe & Hl1)].
      * left. intros q [-> | Hq]%elem_of_cons; auto.
      * right. exists (p :: l1), be, l2. split; [done|]. split; [done|].
        intros q [-> | Hq]%elem_of_cons; auto.
Qed.

Lemma queue_inv_find_extract h bp fl il fd :
  queue_inv h bp fl il →
  ∃ r h1 bp1 il',
    queue_find_extract_fd h bp fd = Some (r, h1, bp1) ∧
    queue_inv h1 bp1 fl il' ∧
    ((r = None ∧ il' = il ∧ h1 = h ∧ bp1 = bp) ∨
     (∃ be l1 l2, r = Some be ∧ il = l1 ++ be :: l2 ∧ il' = l1 ++ l2 ∧
                  ent_fd h be = Some fd ∧ be ∉ fl)).
Proof.
  intros Hinv. pose proof Hinv as (Hfl & Hil & Hdisj & Hsem & Hrec & Hfd).
  destruct (first_match h fd il) as [Hno | (l1 & be & l2 & Heq & Hbe & Hl1)].
  - exists None, h, bp, il.
    split; [by eapply queue_find_extract_fd_miss|]. split; [done|]. by left.
  - destruct (queue_find_extract_fd_hit h bp il fd l1 be l2 Hil Hfd Heq Hbe Hl1)
      as (h1 & bp1 & e & e1 & Hfind & Hex & Hdl & Hnin & He & He1 & _).
    exists (Some be), h1, bp1, (l1 ++ l2). split; [done|].
    assert (Hbil : be ∈ il) by (rewrite Heq; apply elem_of_app; right; left).
    assert (Hbfl : be ∉ fl) by (intros Hin; by apply (Hdisj be)).
    split; [|right; by exists be, l1, l2].
    subst il.
    destruct (bq_extract_inuse_spec h bp l1 be l2 Hil)
      as (h2 & bp2 & e' & e2 & _ & Hex' & _ & Hfh & Hft & Hs2 & _ & _ & _ & _
          & Hpay & Hfr).
    rewrite Hex in Hex'. injection Hex' as <- <-.
    split.
    { rewrite Hfh, Hft. eapply dlist_frame; [|exact Hfl].
      intros q Hq. apply Hfr. intros Hin. by apply (Hdisj q). }
    split; [done|]. split.
    { intros q Hq Hin. apply (Hdisj q Hq).
      apply elem_of_app in Hin as [Hin | Hin]; apply elem_of_app;
        [by left | right; by right]. }
    split; [by rewrite Hs2|]. split.
    + eapply (recycled_kept h h1 fl); [|done]. by intros q _.
    + intros q Hq. rewrite (ent_fd_payload h h1 q) by apply Hpay.
      apply Hfd. apply elem_of_app in Hq as [Hq | Hq]; apply elem_of_app;
        [by left | right; by right].
Qed.

End queue_invariant.

(** ** Plane lookup *)

(** C10.  [qent_dst_dmabuf] returns null for every plane index at or above
    [VIDEO_MAX_PLANES], without reading the array; for an index below it
    returns the contents of that slot (null when the slot is empty). *)
Theorem qent_dst_dmabuf_bounds (be : Qe.qent_base) (plane : Z)
    (Hlen : length (Qe.dh be) = VIDEO_MAX_PLANES) (Hplane : 0 <= plane) :
  (Z.of_nat VIDEO_MAX_PLANES <= plane → qent_dst_dmabuf be plane = Some None) ∧
  (plane < Z.of_nat VIDEO_MAX_PLANES →
     ∃ slot, Qe.dh be !! Z.to_nat plane = Some slot ∧
             qent_dst_dmabuf be plane = Some slot).
Proof.
  unfold qent_dst_dmabuf. split; intros Hp.
  - destruct (Z.leb_spec (Z.of_nat VIDEO_MAX_PLANES) plane); [done | lia].
  - destruct (Z.leb_spec (Z.of_nat VIDEO_MAX_PLANES) plane); [lia|].
    destruct (lookup_lt_is_Some_2 (Qe.dh be) (Z.to_nat plane)) as [slot Hs];
      [rewrite Hlen; lia|].
    exists slot. done.
Qed.

Lemma qent_dst_dmabuf_bounds_witness :
  (length (Qe.dh (Qe.Base None None QENT_NEW 0 (demo_planes 10 0) timeval_zero))
   = VIDEO_MAX_PLANES ∧ 0 <= 8) ∧
  qent_dst_dmabuf (Qe.Base None None QENT_NEW 0 (demo_planes 10 0) timeval_zero) 8
  = Some None.
Proof.
  split; [split; [reflexivity | lia]|].
  apply (qent_dst_dmabuf_bounds _ 8); [reflexivity | lia | vm_compute; congruence].
Defined.

Example qent_dst_dmabuf_examples :
  let be := Qe.Base None None QENT_NEW 0 (demo_planes 10 0) timeval_zero in
  qent_dst_dmabuf be 0 = Some (Some (Dmabuf 10 4096 0)) ∧
  qent_dst_dmabuf be 1 = Some None ∧
  qent_dst_dmabuf be 7 = Some None ∧
  qent_dst_dmabuf be (2 ^ 32 - 1) = Some None.
Proof. repeat split; reflexivity. Qed.

(** ** Format negotiation *)

Section fmt_set_facts.

Lemma ioctl_retry_from_eintr n a rest lg c :
  not_eintr a →
  ioctl_retry_from (replicate n (KErr EINTR) ++ a :: rest) lg c =
  Some (a, K.Kernel rest (lg ++ replicate (S n) c)).
Proof.
  intros Ha. revert lg. induction n as [|n IH]; intros lg; simpl.
  - unfold not_eintr in Ha. by rewrite Ha.
  - rewrite IH. by rewrite <- app_assoc.
Qed.

(** C7 (as the code has it).  When the driver answers [VIDIOC_S_FMT], after
    any number of interrupted attempts, with the answer [a]:
    - on an error, [fmt_set] returns operation-failed and [*fmt] holds the
      request;
    - on success with a width or height below the request, or another pixel
      format, it returns unsupported-buffer-type, and [*fmt] holds what the
      driver returned;
    - otherwise it returns success, with what the driver returned in
      [*fmt];
    so success is returned only when the driver granted at least what was
    asked, and in every case the previous contents of [*fmt] are gone. *)
Theorem fmt_set_outcome (fmt0 : Fmt.v4l2_format) (k : K.kernel)
    (fd buftype pixfmt width height bufsize : Z)
    (n : nat) (a : kres) (rest : list kres)
    (Hscript : K.script k = replicate n (KErr EINTR) ++ a :: rest)
    (Ha : not_eintr a) :
  let sent := fmt_request buftype pixfmt width height bufsize in
  let got := s_fmt_of a sent in
  ∃ st fmt1,
    fmt_set fmt0 k fd buftype pixfmt width height bufsize =
      Some (st, fmt1,
            K.Kernel rest (K.log k ++ replicate (S n) (VIDIOC_S_FMT fd sent))) ∧
    (is_err a = true → st = MEDIABUFS_ERROR_OPERATION_FAILED ∧ fmt1 = sent) ∧
    (is_err a = false → fmt1 = got) ∧
    (is_err a = false →
       (Fmt.width (Fmt.fmt got) < width ∨ Fmt.height (Fmt.fmt got) < height ∨
        Fmt.pixelformat (Fmt.fmt got) ≠ pixfmt) →
       st = MEDIABUFS_ERROR_UNSUPPORTED_BUFFERTYPE) ∧
    (st = MEDIABUFS_STATUS_SUCCESS ↔
       is_err a = false ∧ width <= Fmt.width (Fmt.fmt got) ∧
       height <= Fmt.height (Fmt.fmt got) ∧
       Fmt.pixelformat (Fmt.fmt got) = pixfmt).
Proof.
  intros sent got. unfold fmt_set, ioctl_retry. rewrite Hscript.
  rewrite ioctl_retry_from_eintr by done. simpl. fold sent.
  destruct (is_err a) eqn:Herr.
  - eexists _, _. split; [done|]. split; [done|]. split; [done|].
    split; [done|]. split; [done | by intros [? _]].
  - fold got.
    destruct (Z.ltb_spec (Fmt.width (Fmt.fmt got)) width);
      destruct (Z.ltb_spec (Fmt.height (Fmt.fmt got)) height);
      destruct (Z.eqb_spec (Fmt.pixelformat (Fmt.fmt got)) pixfmt); simpl;
      eexists _, _; (split; [done|]); (split; [done|]); (split; [done|]);
      (split; [try done; intros _ [?|[?|?]]; first [lia | done]|]);
      (split; [try done; intros _; repeat split; first [lia | done]
              | try done; intros (_ & ? & ? & ?); first [lia | done]]).
Qed.


Lemma fmt_set_outcome_witness :
  (K.script (K.Kernel [KErr EINTR; KOkFmt demo_fmt_small] []) =
     replicate 1 (KErr EINTR) ++ KOkFmt demo_fmt_small :: [] ∧
   not_eintr (KOkFmt demo_fmt_small)) ∧
  ∃ fmt1 k1,
    fmt_set (demo_fmt V4L2_BUF_TYPE_VIDEO_OUTPUT_MPLANE)
      (K.Kernel [KErr EINTR; KOkFmt demo_fmt_small] []) 3
      V4L2_BUF_TYPE_VIDEO_OUTPUT_MPLANE 875967048 1920 1080 0 =
    Some (MEDIABUFS_ERROR_UNSUPPORTED_BUFFERTYPE, fmt1, k1) ∧
    fmt1 = demo_fmt_small.
Proof.
  split; [split; reflexivity|].
  destruct (fmt_set_outcome (demo_fmt V4L2_BUF_TYPE_VIDEO_OUTPUT_MPLANE)
              (K.Kernel [KErr EINTR; KOkFmt demo_fmt_small] []) 3
              V4L2_BUF_TYPE_VIDEO_OUTPUT_MPLANE 875967048 1920 1080 0
              1 (KOkFmt demo_fmt_small) [] eq_refl eq_refl)
    as (st & fmt1 & Hset & _ & Hgot & Hshort & _).
  rewrite (Hshort eq_refl) in Hset by (left; vm_compute; reflexivity).
  rewrite (Hgot eq_refl) in Hset.
  eexists _, _. split; [exact Hset | reflexivity].
Defined.

(** C7 as worded fails on its "no partial state" part: when the driver
    answers 1280x720 to a request of 1920x1080, [mediabufs_src_fmt_set]
    returns unsupported-buffer-type and the source format of the controller
    is no longer what it was: it holds the refused format. *)
Lemma fmt_set_mismatch_overwrites :
  ∃ w1 c0 c1,
    mediabufs_src_fmt_set (ctl_demo_world [KOkFmt demo_fmt_small]) 0
      V4L2_BUF_TYPE_VIDEO_OUTPUT_MPLANE 875967048 1920 1080 0 =
    Some (MEDIABUFS_ERROR_UNSUPPORTED_BUFFERTYPE, w1) ∧
    ctls (ctl_demo_world [KOkFmt demo_fmt_small]) !! 0%nat = Some c0 ∧
    ctls w1 !! 0%nat = Some c1 ∧
    Mbc.src_fmt c1 = demo_fmt_small ∧
    Mbc.src_fmt c1 ≠ Mbc.src_fmt c0.
Proof.
  eexists _, _, _. split; [vm_compute; reflexivity|].
  split; [vm_compute; reflexivity|]. split; [vm_compute; reflexivity|].
  split; [reflexivity|]. vm_compute. discriminate.
Qed.

End fmt_set_facts.

(** ** Streaming *)

Section streaming.

Lemma set_stream_answer k a rest video_fd type enable :
  K.script k = a :: rest →
  set_stream k video_fd type enable =
  Some (if rc_of a <? 0 then - errno_of a else 0,
        K.Kernel rest (K.log k ++ [if enable then VIDIOC_STREAMON video_fd type
                                   else VIDIOC_STREAMOFF video_fd type])).
Proof.
  intros Hs. unfold set_stream, env_call. rewrite Hs. simpl.
  done.
Qed.

Lemma set_stream_negative a :
  ((if rc_of a <? 0 then - errno_of a else 0) <? 0) = reports_failure a.
Proof.
  unfold reports_failure, rc_of. destruct a as [| e | | |]; simpl; try done.
  destruct (Z.ltb_spec 0 e), (Z.ltb_spec (- e) 0); try done; lia.
Qed.

(** C6 (as the code has it).  On a controller whose [stream_on] flag is set,
    [mediabufs_stream_off] issues [VIDIOC_STREAMOFF] for the source type and
    then for the destination type whatever the first answer was, clears the
    flag, and returns operation-failed exactly when one of the two answers
    reported a failure.  On a controller whose flag is clear it makes no
    call and returns success; a [mediabufs_stream_on] that fails leaves the
    flag as it was. *)
Theorem stream_off_both_directions (w : world) (mbc : ptr) (c : Mbc.mediabufs_ctl)
    (Hc : ctls w !! mbc = Some c) :
  (Mbc.stream_on c = true →
   ∀ a1 a2 rest, K.script (kern w) = a1 :: a2 :: rest →
     ∃ w',
       mediabufs_stream_off w mbc = Some (stream_off_status a1 a2, w') ∧
       K.log (kern w') =
         K.log (kern w) ++
           [VIDIOC_STREAMOFF (Mbc.vfd c) (Fmt.type (Mbc.src_fmt c));
            VIDIOC_STREAMOFF (Mbc.vfd c) (Fmt.type (Mbc.dst_fmt c))] ∧
       K.script (kern w') = rest ∧
       ctls w' !! mbc = Some (Mbc.set_stream_on false c)) ∧
  (Mbc.stream_on c = false →
     mediabufs_stream_off w mbc = Some (MEDIABUFS_STATUS_SUCCESS, w)) ∧
  (∀ w', mediabufs_stream_on w mbc = Some (MEDIABUFS_ERROR_OPERATION_FAILED, w') →
     ctls w' !! mbc = Some c).
Proof.
  split; [|split].
  - intros Hon a1 a2 rest Hs. unfold mediabufs_stream_off.
    rewrite Hc. simpl. rewrite Hon. simpl.
    rewrite (set_stream_answer _ a1 (a2 :: rest)) by done. simpl.
    rewrite !set_stream_negative. eexists. split.
    + f_equal. f_equal. unfold stream_off_status.
      by destruct (reports_failure a1), (reports_failure a2).
    + simpl. rewrite lookup_insert_eq, <- app_assoc. done.
  - intros Hoff. unfold mediabufs_stream_off. rewrite Hc. simpl.
    by rewrite Hoff.
  - intros w'. unfold mediabufs_stream_on. rewrite Hc. simpl.
    destruct (Mbc.stream_on c); [done|].
    destruct (set_stream _ _ _ _) as [[rc1 k1]|]; [|done]. simpl.
    destruct (rc1 <? 0); [by intros [= <-]|].
    destruct (set_stream _ _ _ _) as [[rc2 k2]|]; [|done]. simpl.
    destruct (rc2 <? 0); [|done].
    destruct (set_stream _ _ _ _) as [[rc3 k3]|]; [|done]. simpl.
    by intros [= <-].
Qed.

Lemma stream_off_both_directions_witness :
  ctls (world_after (mediabufs_stream_on (ctl_demo_world [KOk; KOk; KErr 5; KOk]) 0)
          (ctl_demo_world [])) !! 0%nat
  = Some (Mbc.set_stream_on true
            (Mbc.Ctl 0 3 false false Bp.empty Bp.empty (Some 0%nat)
               (demo_fmt V4L2_BUF_TYPE_VIDEO_OUTPUT_MPLANE)
               (demo_fmt V4L2_BUF_TYPE_VIDEO_CAPTURE_MPLANE))) ∧
  ∃ w',
    mediabufs_stream_off
      (world_after (mediabufs_stream_on (ctl_demo_world [KOk; KOk; KErr 5; KOk]) 0)
         (ctl_demo_world [])) 0
    = Some (MEDIABUFS_ERROR_OPERATION_FAILED, w') ∧
    K.log (kern w') =
      [VIDIOC_STREAMON 3 V4L2_BUF_TYPE_VIDEO_OUTPUT_MPLANE;
       VIDIOC_STREAMON 3 V4L2_BUF_TYPE_VIDEO_CAPTURE_MPLANE;
       VIDIOC_STREAMOFF 3 V4L2_BUF_TYPE_VIDEO_OUTPUT_MPLANE;
       VIDIOC_STREAMOFF 3 V4L2_BUF_TYPE_VIDEO_CAPTURE_MPLANE].
Proof.
  split; [vm_compute; reflexivity|].
  destruct (stream_off_both_directions
              (world_after (mediabufs_stream_on (ctl_demo_world [KOk; KOk; KErr 5; KOk]) 0)
                 (ctl_demo_world [])) 0 _ ltac:(vm_compute; reflexivity))
    as (Hon & _ & _).
  destruct (Hon eq_refl (KErr 5) KOk [] ltac:(vm_compute; reflexivity))
    as (w' & Hoff & Hlog & _).
  exists w'. split; [exact Hoff | exact Hlog].
Defined.

(** C6 as worded fails after a stream-on in which the destination direction
    failed: [mediabufs_stream_on] has rolled the source back and left the
    flag clear, so [mediabufs_stream_off] makes no call at all and returns
    success, although the environment would have failed both calls. *)
Lemma stream_off_after_failed_stream_on :
  ∃ w1 w2,
    mediabufs_stream_on (ctl_demo_world [KOk; KErr 5; KOk; KErr 5; KErr 5]) 0
      = Some (MEDIABUFS_ERROR_OPERATION_FAILED, w1) ∧
    K.script (kern w1) = [KErr 5; KErr 5] ∧
    mediabufs_stream_off w1 0 = Some (MEDIABUFS_STATUS_SUCCESS, w2) ∧
    K.log (kern w2) = K.log (kern w1) ∧
    VIDIOC_STREAMOFF 3 V4L2_BUF_TYPE_VIDEO_CAPTURE_MPLANE ∉ K.log (kern w2).
Proof.
  eexists _, _. split; [vm_compute; reflexivity|].
  split; [reflexivity|]. split; [vm_compute; reflexivity|].
  split; [reflexivity|]. simpl.
  intros H. repeat (apply elem_of_cons in H as [H | H]; [discriminate H|]).
  by apply elem_of_nil in H.
Qed.

End streaming.

(** ** Releasing a destination entry *)

Section dst_free.

Lemma put_dst_Some w mbc bp c :
  ctls w !! mbc = Some c →
  put_dst w mbc bp = Some (set_ctls (<[mbc := Mbc.set_dst bp c]> (ctls w)) w).
Proof. intros Hc. unfold put_dst. by rewrite Hc. Qed.

Lemma base_uninit_from_spec fuel :
  ∀ pre dh v, length dh = fuel →
    base_uninit_from fuel (length pre) (pre ++ dh) v
      = Some (pre ++ replicate fuel None,
              E.Env (E.script v) (E.log v ++ (dmabuf_free <$> dh))).
Proof.
  induction fuel as [|fuel IH]; intros pre dh v Hlen.
  - destruct dh; [|done]. simpl. rewrite !app_nil_r. by destruct v.
  - destruct dh as [|d dh]; [done|]. simpl in Hlen.
    cbn [base_uninit_from]. rewrite list_lookup_middle by done. simpl.
    rewrite insert_app_r_alt by lia. rewrite Nat.sub_diag. simpl.
    pose proof (IH (pre ++ [None]) dh (e_note v (dmabuf_free d))
                  ltac:(lia)) as Hrun.
    rewrite length_app in Hrun. simpl in Hrun.
    rewrite Nat.add_1_r, <- app_assoc in Hrun. simpl in Hrun.
    rewrite Hrun. unfold e_note. simpl. by rewrite <- !app_assoc.
Qed.

Lemma qe_base_uninit_spec e v :
  length (Qe.dh e) = VIDEO_MAX_PLANES →
  qe_base_uninit e v
    = Some (Qe.set_dh (replicate VIDEO_MAX_PLANES None) e,
            E.Env (E.script v) (E.log v ++ (dmabuf_free <$> Qe.dh e))).
Proof.
  intros Hlen. unfold qe_base_uninit.
  assert (Hrun : base_uninit_from VIDEO_MAX_PLANES 0 (Qe.dh e) v
                 = Some (replicate VIDEO_MAX_PLANES None,
                         E.Env (E.script v)
                           (E.log v ++ (dmabuf_free <$> Qe.dh e))))
    by exact (base_uninit_from_spec VIDEO_MAX_PLANES [] (Qe.dh e) v Hlen).
  by rewrite Hrun.
Qed.

(** What [qent_dst_delete] does to an entry: the calls it makes, in their
    order, and the state without the entry. *)
Lemma qent_dst_delete_spec w v be d e :
  dsts w !! be = Some d → ents w !! be = Some e →
  length (Qe.dh e) = VIDEO_MAX_PLANES →
  qent_dst_delete w v (Some be)
    = Some (set_dsts (delete be (dsts w)) (set_ents (delete be (ents w)) w),
            E.Env (E.script v)
              (E.log v ++
               [weak_link_unref (Qe.mbc_wl d); pthread_cond_destroy be;
                pthread_mutex_destroy be] ++
               (dmabuf_free <$> Qe.dh e))).
Proof.
  intros Hd He Hlen. unfold qent_dst_delete, ff_weak_link_unref.
  rewrite Hd. simpl. rewrite He. simpl.
  rewrite (qe_base_uninit_spec e _ Hlen). simpl.
  rewrite !delete_insert_eq. rewrite <- !app_assoc. simpl.
  by destruct w.
Qed.

(** C5.  [qent_dst_free] nulls the pointer of its caller, and then:
    - when the weak link of the entry can be locked, it recycles the entry
      onto the tail of the destination free list of the controller the link
      leads to, posting the semaphore of that list; the entry stays
      allocated, and nothing is asked of the allocator;
    - when the lock fails (the link is broken or absent), it deletes the
      entry: it gives the handle of the weak link back, destroys the
      condition variable and the mutex, frees the plane handle of each of
      the [VIDEO_MAX_PLANES] slots of its array and releases the entry;
      controllers, weak links and the driver are as before;
    - on a null pointer it does nothing. *)
Theorem qent_dst_free_paths (w : world) (v : E.env) (be : ptr)
    (d : Qe.qent_dst) (e : Qe.qent_base)
    (Hd : dsts w !! be = Some d) (He : ents w !! be = Some e) :
  (∀ mbc c l,
     ff_weak_link_lock w (Qe.mbc_wl d) = Some mbc →
     ctls w !! mbc = Some c →
     dlist (ents w) l (Bp.free_head (Mbc.dst c)) (Bp.free_tail (Mbc.dst c)) →
     be ∉ l →
     ∃ w' c' e',
       qent_dst_free w v (Some be) = Some (None, w', v) ∧
       ctls w' !! mbc = Some c' ∧
       dlist (ents w') (l ++ [be])
         (Bp.free_head (Mbc.dst c')) (Bp.free_tail (Mbc.dst c')) ∧
       Bp.free_sem (Mbc.dst c') = S (Bp.free_sem (Mbc.dst c)) ∧
       ents w' !! be = Some e' ∧
       Qe.timestamp e' = timeval_zero ∧ Qe.dh e' = len_clear (Qe.dh e) ∧
       dsts w' = dsts w ∧ Mbc.src c' = Mbc.src c) ∧
  (ff_weak_link_lock w (Qe.mbc_wl d) = None →
   length (Qe.dh e) = VIDEO_MAX_PLANES →
     ∃ w' v',
       qent_dst_free w v (Some be) = Some (None, w', v') ∧
       ents w' = delete be (ents w) ∧ dsts w' = delete be (dsts w) ∧
       ctls w' = ctls w ∧ wlms w' = wlms w ∧ kern w' = kern w ∧
       reqs w' = reqs w ∧ pools w' = pools w ∧
       E.script v' = E.script v ∧
       E.log v' =
         E.log v ++
         [weak_link_unref (Qe.mbc_wl d); pthread_cond_destroy be;
          pthread_mutex_destroy be] ++
         (dmabuf_free <$> Qe.dh e)) ∧
  qent_dst_free w v None = Some (None, w, v).
Proof.
  split; [|split; [|done]].
  - intros mbc c l Hlock Hc Hdl Hbe.
    destruct (queue_put_free_spec (ents w) (Mbc.dst c) l be e Hdl Hbe He)
      as (h1 & bp1 & e1 & Hput & Hdl1 & Hsem & _ & _ & He1 & Hts & Hdh & _).
    unfold qent_dst_free. rewrite Hd. simpl. rewrite Hlock, Hc. simpl.
    rewrite Hput. simpl.
    rewrite (put_dst_Some _ mbc bp1 c) by done. simpl.
    eexists _, _, e1. split; [done|]. simpl. rewrite lookup_insert_eq.
    split; [done|]. simpl. done.
  - intros Hlock Hlen.
    pose proof (qent_dst_delete_spec w v be d e Hd He Hlen) as Hdel.
    unfold qent_dst_free. rewrite Hd.
    change (Some d ≫= ?f) with (f d). cbv beta. rewrite Hlock, Hdel. simpl.
    eexists _, _. split; [done|]. done.
Qed.

Lemma stream_off_keeps_links w mbc st w' :
  mediabufs_stream_off w mbc = Some (st, w') →
  wlms w' = wlms w ∧ ents w' = ents w ∧ dsts w' = dsts w.
Proof.
  unfold mediabufs_stream_off.
  destruct (ctls w !! mbc) as [c|]; [|done]. simpl.
  destruct (Mbc.stream_on c); simpl; [|by intros [= _ <-]].
  destruct (set_stream _ _ _ _) as [[rc1 k1]|]; [|done]. simpl.
  destruct (set_stream _ _ _ _) as [[rc2 k2]|]; [|done]. simpl.
  by intros [= _ <-].
Qed.

(** Teardown breaks the weak link first: once [mediabufs_ctl_delete] has
    run, the lock of every client of that link fails and the controller is
    gone, while the entries are still there. *)
Lemma ctl_delete_breaks_link w mbc c m w' :
  ctls w !! mbc = Some c → Mbc.this_wlm c = Some m →
  mediabufs_ctl_delete w (Some mbc) = Some w' →
  ff_weak_link_lock w' (Some m) = None ∧ ctls w' !! mbc = None ∧
  ents w' = ents w ∧ dsts w' = dsts w.
Proof.
  intros Hc Hm. unfold mediabufs_ctl_delete. rewrite Hc. simpl.
  rewrite Hm. simpl.
  destruct (mediabufs_stream_off _ _) as [[st w1]|] eqn:Hoff; [|done]. simpl.
  apply stream_off_keeps_links in Hoff as (Hw & He & Hdd). simpl in *.
  destruct (ctls w1 !! mbc) as [c1|]; [|done]. simpl.
  destruct (request_buffers _ _ _ _ _) as [[r1 k1]|]; [|done]. simpl.
  destruct (request_buffers _ _ _ _ _) as [[r2 k2]|]; [|done]. simpl.
  intros [= <-]. simpl. unfold ff_weak_link_lock. simpl.
  rewrite Hw, lookup_insert_eq, lookup_delete_eq. done.
Qed.

Lemma qent_dst_free_paths_witness :
  (dsts (ctl_demo_world []) !! 2%nat = Some (Qe.Dst false (Some 0%nat)) ∧
   ents (ctl_demo_world []) !! 2%nat
     = Some (Qe.Base None None QENT_NEW 1 (demo_planes 11 0) (Timeval 7 8))) ∧
  ∃ w' c' e',
    qent_dst_free (ctl_demo_world []) (E.Env [] []) (Some 2%nat)
      = Some (None, w', E.Env [] []) ∧
    ctls w' !! 0%nat = Some c' ∧
    Bp.free_head (Mbc.dst c') = Some 2%nat ∧
    Bp.free_sem (Mbc.dst c') = 1%nat ∧
    ents w' !! 2%nat = Some e' ∧ Qe.timestamp e' = timeval_zero.
Proof.
  split; [split; vm_compute; reflexivity|].
  destruct (qent_dst_free_paths (ctl_demo_world []) (E.Env [] []) 2 _ _
              ltac:(vm_compute; reflexivity) ltac:(vm_compute; reflexivity))
    as (Hlive & _ & _).
  destruct (Hlive 0%nat _ [] ltac:(vm_compute; reflexivity)
              ltac:(vm_compute; reflexivity))
    as (w' & c' & e' & Hfree & Hc' & Hdl & Hsem & He' & Hts & _).
  - split; [constructor|]. done.
  - apply not_elem_of_nil.
  - exists w', c', e'. split; [done|]. split; [done|].
    split; [|done]. destruct Hdl as [_ Hs]. simpl in Hs. by destruct Hs as [-> _].
Defined.

(** The teardown scenario of the design document: the controller is deleted
    while the caller still holds the destination entry 2; freeing the entry
    afterwards deletes it, with the calls that release what it holds, and
    touches nothing else. *)
Example qent_dst_free_after_teardown :
  ∃ w1 w2,
    mediabufs_ctl_delete (ctl_demo_world [KOk; KOk]) (Some 0%nat) = Some w1 ∧
    ctls w1 !! 0%nat = None ∧
    qent_dst_free w1 (E.Env [] []) (Some 2%nat)
      = Some (None, w2,
              E.Env []
                ([weak_link_unref (Some 0%nat); pthread_cond_destroy 2;
                  pthread_mutex_destroy 2] ++
                 (dmabuf_free <$> demo_planes 11 0))) ∧
    ents w2 !! 2%nat = None ∧ dsts w2 !! 2%nat = None ∧
    ctls w2 = ctls w1 ∧ kern w2 = kern w1.
Proof.
  eexists _, _.
  do 6 (split; [vm_compute; reflexivity|]).
  vm_compute; reflexivity.
Qed.

End dst_free.

(** ** Waiting for a destination entry *)

Section dst_wait.

Lemma world_eta w :
  World (reqs w) (pools w) (ents w) (dsts w) (ctls w) (wlms w) (kern w) = w.
Proof. by destruct w. Qed.

Lemma put_src_Some w mbc bp c :
  ctls w !! mbc = Some c →
  put_src w mbc bp = Some (set_ctls (<[mbc := Mbc.set_src bp c]> (ctls w)) w).
Proof. intros Hc. unfold put_src. by rewrite Hc. Qed.

Lemma media_request_abort_log w preq rc p w' :
  media_request_abort w preq = Some (rc, p, w') →
  p = None ∧
  ∃ tail, K.log (kern w') = K.log (kern w) ++ tail ∧
          ∀ c, c ∈ tail → ∃ fd, c = MEDIA_REQUEST_IOC_REINIT fd.
Proof.
  destruct preq as [req|]; simpl.
  - unfold media_request_done.
    destruct (reqs w !! req) as [r|]; [|done]. simpl.
    unfold env_call. destruct (K.script (kern w)) as [|a rest]; [done|]. simpl.
    destruct (pools w !! Req.mp r) as [pl|]; [|done]. simpl.
    intros [= _ <- <-]. split; [done|]. simpl. eexists. split; [done|].
    intros c ->%list_elem_of_singleton. eauto.
  - intros [= _ <- <-]. split; [done|]. exists []. rewrite app_nil_r.
    split; [done|]. intros c Hc. by apply elem_of_nil in Hc.
Qed.

(** The code behind [fail1] always reports operation-failed, and the only
    kernel call it makes is the re-initialisation of the request. *)
Lemma start_request_fail1_outcome w mbc mreq src_be dst_be st w' :
  start_request_fail1 w mbc mreq src_be dst_be = Some (st, w') →
  st = MEDIABUFS_ERROR_OPERATION_FAILED ∧
  ∃ tail, K.log (kern w') = K.log (kern w) ++ tail ∧
          ∀ c, c ∈ tail → ∃ fd, c = MEDIA_REQUEST_IOC_REINIT fd.
Proof.
  unfold start_request_fail1.
  destruct (media_request_abort w mreq) as [[[rc p] w1]|] eqn:Hab; [|done].
  apply media_request_abort_log in Hab as (_ & tail & Hlog & Htail). simpl.
  assert (∀ w2, match src_be with
                | Some s =>
                    c ← ctls w1 !! mbc;
                    '(h, bp) ← queue_put_free (ents w1) (Mbc.src c) s;
                    put_src (set_ents h w1) mbc bp
                | None => Some w1
                end = Some w2 → kern w2 = kern w1) as Hsrc.
  { intros w2. destruct src_be as [s|]; [|by intros [= <-]].
    destruct (ctls w1 !! mbc) as [c|]; [|done]. simpl.
    destruct (queue_put_free _ _ _) as [[h bp]|]; [|done]. simpl.
    unfold put_src. simpl. destruct (ctls w1 !! mbc); [|done]. simpl.
    by intros [= <-]. }
  destruct (match src_be with Some _ => _ | None => _ end) as [w2|]; [|done].
  specialize (Hsrc w2 eq_refl). simpl.
  assert (∀ w3, match dst_be with
                | Some d => qe_dst_done w2 d
                | None => Some w2
                end = Some w3 → kern w3 = kern w2) as Hdst.
  { intros w3. destruct dst_be as [dd|]; [|by intros [= <-]].
    unfold qe_dst_done. destruct (dsts w2 !! dd); [|done]. simpl.
    by intros [= <-]. }
  destruct (match dst_be with Some _ => _ | None => _ end) as [w3|]; [|done].
  specialize (Hdst w3 eq_refl). simpl. intros [= <- <-].
  split; [done|]. exists tail. rewrite Hdst, Hsrc. done.
Qed.

(** What [qent_dst_wait] and the already-waiting check do, taken alone:
    - [qent_dst_wait] waits for as long as the [waiting] flag is set (unless
      the condition wait itself fails); when it returns it has changed
      nothing, and its result is read off the status the entry has at that
      moment: success for [QENT_DONE], decoding-error for [QENT_ERROR] and
      operation-failed for the other statuses;
    - a submission of an entry whose [waiting] flag is already set goes
      straight to [fail1]: [mediabufs_start_request] is the code behind
      [fail1] run on the unchanged state, which reports operation-failed
      and queues no buffer. *)
Lemma qent_dst_wait_result (w : world) (be : ptr) (d : Qe.qent_dst)
    (e : Qe.qent_base)
    (Hd : dsts w !! be = Some d) (He : ents w !! be = Some e) :
  (∀ cond_wait_fails,
     if Qe.waiting d && negb cond_wait_fails
     then qent_dst_wait w be cond_wait_fails = Some Blocks
     else ∃ r,
       qent_dst_wait w be cond_wait_fails = Some (Returns r w) ∧
       (r = MEDIABUFS_STATUS_SUCCESS ↔ Qe.status e = QENT_DONE) ∧
       (r = MEDIABUFS_ERROR_DECODING_ERROR ↔ Qe.status e = QENT_ERROR) ∧
       (r = MEDIABUFS_ERROR_OPERATION_FAILED ↔
          Qe.status e ≠ QENT_DONE ∧ Qe.status e ≠ QENT_ERROR)) ∧
  (Qe.waiting d = true →
   ∀ mbc mreq s is_final, is_Some (ctls w !! mbc) →
     mediabufs_start_request w mbc mreq (Some s) (Some be) is_final =
       (λ r, (r.1, None, None, r.2)) <$>
         start_request_fail1 w mbc mreq (Some s) (Some be)) ∧
  (∀ mbc mreq s st w',
     start_request_fail1 w mbc mreq (Some s) (Some be) = Some (st, w') →
     st = MEDIABUFS_ERROR_OPERATION_FAILED ∧
     ∀ fd b, VIDIOC_QBUF fd b ∈ K.log (kern w') →
             VIDIOC_QBUF fd b ∈ K.log (kern w)).
Proof.
  split; [|split].
  - intros cwf. unfold qent_dst_wait. rewrite Hd, He. simpl.
    destruct (Qe.waiting d && negb cwf); [done|].
    eexists. split; [done|].
    destruct (Qe.status e); simpl; repeat split; try done;
      try (by intros [? ?]).
  - intros Hw mbc mreq s is_final [c Hc].
    unfold mediabufs_start_request, start_request_dst, qe_dst_waiting.
    rewrite Hc. simpl. rewrite Hd. simpl. rewrite Hw. simpl.
    assert (Qe.set_waiting true d = d) as -> by (destruct d; simpl in *; by subst).
    rewrite insert_id by done. unfold set_dsts. rewrite world_eta.
    by destruct (start_request_fail1 _ _ _ _ _) as [[st w']|].
  - intros mbc mreq s st w' Hf.
    apply start_request_fail1_outcome in Hf as (-> & tail & Hlog & Htail).
    split; [done|]. intros fd b. rewrite Hlog.
    intros [?|Hin]%elem_of_app; [done|].
    destruct (Htail _ Hin) as [fd' Hfd]. discriminate Hfd.
Qed.

(** The completion path: an entry that [qe_dequeue] hands back has the
    status [QENT_ERROR] when the driver flagged the buffer, and [QENT_DONE]
    otherwise. *)
Lemma qe_dequeue_posts_status w bp vfd f p bp' w' :
  qe_dequeue w bp vfd f = Some (Some p, bp', w') →
  ∃ e flags, ents w' !! p = Some e ∧
    Qe.status e = (if Z.land flags V4L2_BUF_FLAG_ERROR =? 0
                   then QENT_DONE else QENT_ERROR).
Proof.
  unfold qe_dequeue.
  destruct (ioctl_retry _ _) as [[a k]|]; [|done]. simpl.
  destruct (is_err a); [done|].
  destruct (dqbuf_of a) as [[fd ts] flags].
  destruct (queue_find_extract_fd _ _ _) as [[[be h] bp1]|]; [|done]. simpl.
  destruct be as [q|]; [|done].
  unfold upd. destruct (h !! q) as [e|]; [|done]. simpl.
  rewrite lookup_insert_eq. simpl. intros [= <- <- <-]. simpl.
  rewrite lookup_insert_eq. eexists _, flags. split; [done|]. done.
Qed.


(** The whole path on the example: submission, completion with and without
    the error flag of the driver, and the result of the wait; before the
    completion the wait blocks. *)
Example qent_dst_wait_scenario :
  qent_dst_wait (demo_submitted 0) 2 false = Some Blocks ∧
  qent_dst_wait (demo_completed 0) 2 false
    = Some (Returns MEDIABUFS_STATUS_SUCCESS (demo_completed 0)) ∧
  qent_dst_wait (demo_completed V4L2_BUF_FLAG_ERROR) 2 false
    = Some (Returns MEDIABUFS_ERROR_DECODING_ERROR
              (demo_completed V4L2_BUF_FLAG_ERROR)).
Proof.
  split; [vm_compute; reflexivity|]. split; vm_compute; reflexivity.
Qed.

(** A second submission of the entry while it is awaited is refused, with
    nothing queued. *)
Example start_request_already_waiting :
  ∃ w',
    mediabufs_start_request (demo_submitted 0) 0 None (Some 1%nat) (Some 2%nat) true
      = Some (MEDIABUFS_ERROR_OPERATION_FAILED, None, None, w') ∧
    K.log (kern w') = K.log (kern (demo_submitted 0)).
Proof. eexists. split; vm_compute; reflexivity. Qed.

End dst_wait.

(** ** Submission *)

Section start_request.

(** The request and the source entry are consumed whatever happens. *)
Lemma mediabufs_start_request_consumes w mbc pmreq psrc_be dst_be is_final
    st pmreq' psrc_be' w' :
  mediabufs_start_request w mbc pmreq psrc_be dst_be is_final
    = Some (st, pmreq', psrc_be', w') →
  pmreq' = None ∧ psrc_be' = None.
Proof.
  unfold mediabufs_start_request.
  destruct (_ ← ctls w !! mbc; _) as [[st0 w0]|]; [|done].
  by intros [= _ <- <- _].
Qed.

(** A failure to queue the destination buffer sends the submission to the
    code behind [fail1], before the entry is put in use. *)
Lemma start_request_dst_queue_failure w mbc c d s mreq is_final dd h rc w1 :
  ctls w !! mbc = Some c → dsts w !! d = Some dd → Qe.waiting dd = false →
  upd (ents w) d (Qe.set_timestamp timeval_zero) = Some h →
  qe_v4l2_queue
    (set_ents h (set_dsts (<[d := Qe.set_waiting true dd]> (dsts w)) w))
    d (Mbc.vfd c) None (Mbc.dst_fmt c) true false = Some (rc, w1) →
  rc ≠ 0 →
  mediabufs_start_request w mbc mreq (Some s) (Some d) is_final =
    (λ r, (r.1, None, None, r.2)) <$>
      start_request_fail1 w1 mbc mreq (Some s) (Some d).
Proof.
  intros Hc Hd Hw Hupd Hq Hrc.
  unfold mediabufs_start_request, start_request_dst, qe_dst_waiting.
  rewrite Hc. simpl. rewrite Hd. simpl. rewrite Hw. simpl.
  rewrite Hupd. simpl. rewrite Hc. simpl. rewrite Hq. simpl.
  destruct (Z.eqb_spec rc 0); [done|]. simpl.
  by destruct (start_request_fail1 _ _ _ _ _) as [[st w']|].
Qed.

(** A failure to queue the source buffer, after the destination part has
    gone through, sends the submission to the code behind [fail1] as well. *)
Lemma start_request_src_queue_failure w mbc dst_be s mreq is_final w1 c1 rc w2 :
  is_Some (ctls w !! mbc) →
  start_request_dst w mbc dst_be = Some (true, w1) →
  ctls w1 !! mbc = Some c1 →
  qe_v4l2_queue w1 s (Mbc.vfd c1) mreq (Mbc.src_fmt c1) false (negb is_final)
    = Some (rc, w2) →
  rc ≠ 0 →
  mediabufs_start_request w mbc mreq (Some s) dst_be is_final =
    (λ r, (r.1, None, None, r.2)) <$>
      start_request_fail1 w2 mbc mreq (Some s) dst_be.
Proof.
  intros [c Hc] Hdst Hc1 Hq Hrc. unfold mediabufs_start_request.
  rewrite Hc. simpl. rewrite Hdst. simpl. rewrite Hc1. simpl.
  rewrite Hq. simpl. destruct (Z.eqb_spec rc 0); [done|]. simpl.
  by destruct (start_request_fail1 _ _ _ _ _) as [[st w']|].
Qed.

(** The code behind [fail1] leaves the destination queue of the controller
    as it finds it: an entry that the destination part has put in use stays
    in use. *)
Lemma start_request_fail1_keeps_dst_queue w mbc mreq src_be dst_be st w' c :
  start_request_fail1 w mbc mreq src_be dst_be = Some (st, w') →
  ctls w !! mbc = Some c →
  ∃ c', ctls w' !! mbc = Some c' ∧ Mbc.dst c' = Mbc.dst c.
Proof.
  unfold start_request_fail1. intros Hf Hc.
  destruct (media_request_abort w mreq) as [[[rc p] w1]|] eqn:Hab; [|done].
  simpl in Hf.
  assert (ctls w1 = ctls w) as Hc1.
  { destruct mreq as [req|]; simpl in Hab; [|by injection Hab as _ _ <-].
    unfold media_request_done in Hab.
    destruct (reqs w !! req) as [r|]; [|done]. simpl in Hab.
    destruct (env_call _ _) as [[a k]|]; [|done]. simpl in Hab.
    destruct (pools w !! Req.mp r); [|done]. simpl in Hab.
    by injection Hab as _ _ <-. }
  assert (∃ w2 c2, match src_be with
                   | Some s =>
                       c ← ctls w1 !! mbc;
                       '(h, bp) ← queue_put_free (ents w1) (Mbc.src c) s;
                       put_src (set_ents h w1) mbc bp
                   | None => Some w1
                   end = Some w2 ∧ ctls w2 !! mbc = Some c2 ∧
                   Mbc.dst c2 = Mbc.dst c) as (w2 & c2 & Hs & Hc2 & Hd2).
  { destruct src_be as [s|].
    - rewrite Hc1, Hc in *. simpl in *.
      destruct (queue_put_free _ _ _) as [[h bp]|]; [|done]. simpl in *.
      unfold put_src in *. simpl in *. rewrite Hc1, Hc in *. simpl in *.
      eexists _, _. split; [done|]. simpl. by rewrite lookup_insert_eq.
    - exists w1, c. by rewrite Hc1. }
  rewrite Hs in Hf. simpl in Hf.
  destruct dst_be as [d|]; simpl in Hf.
  - unfold qe_dst_done in Hf. destruct (dsts w2 !! d); [|done].
    simpl in Hf. injection Hf as _ <-. exists c2. done.
  - injection Hf as _ <-. exists c2. done.
Qed.

(** C2, at the input that the comment in [mediabufs_start_request] warns
    about.  The destination buffer is queued (first answer of the driver),
    the source buffer is refused with [EINVAL].  The request and the source
    entry are consumed, the request is back on the free chain of its pool,
    the source entry is on the source free list, the destination entry is
    woken and operation-failed is returned; but the destination entry is
    still on the in-use list of the destination queue, in status
    [QENT_WAITING], its buffer is still queued in the driver, and the
    controller is left wanting a poll that nobody armed. *)
Theorem start_request_src_failure_leaves_dst_queued :
  ∃ w' c' e2 p' qb,
    mediabufs_start_request (ctl_demo_world [KOk; KErr 22; KOk]) 0
      (Some 0%nat) (Some 1%nat) (Some 2%nat) true
      = Some (MEDIABUFS_ERROR_OPERATION_FAILED, None, None, w') ∧
    ctls w' !! 0%nat = Some c' ∧ pools w' !! 0%nat = Some p' ∧
    (* what is unwound *)
    Pool.free_reqs p' = Some 0%nat ∧ Pool.sem p' = 1%nat ∧
    Bp.free_head (Mbc.src c') = Some 1%nat ∧
    Bp.free_sem (Mbc.src c') = 1%nat ∧
    Bp.inuse_head (Mbc.src c') = None ∧
    dsts w' !! 2%nat = Some (Qe.Dst false (Some 0%nat)) ∧
    (* what is not *)
    Bp.inuse_head (Mbc.dst c') = Some 2%nat ∧
    Bp.inuse_tail (Mbc.dst c') = Some 2%nat ∧
    Bp.free_head (Mbc.dst c') = None ∧
    ents w' !! 2%nat = Some e2 ∧ Qe.status e2 = QENT_WAITING ∧
    K.log (kern w') !! 0%nat = Some (VIDIOC_QBUF 3 qb) ∧
    Buf.type qb = V4L2_BUF_TYPE_VIDEO_CAPTURE_MPLANE ∧
    mediabufs_wants_poll c' = true ∧ Mbc.polling c' = false ∧
    qent_dst_wait w' 2 false
      = Some (Returns MEDIABUFS_ERROR_OPERATION_FAILED w').
Proof.
  eexists _, _, _, _, _.
  split; [vm_compute; reflexivity|].
  do 2 (split; [vm_compute; reflexivity|]).
  do 9 (split; [vm_compute; reflexivity|]).
  do 6 (split; [vm_compute; reflexivity|]).
  vm_compute; reflexivity.
Qed.

End start_request.

(** * Further properties *)

(** ** Size classes *)

Section size_class_more.
Import SizeClass.

(** X1.  [log2_size] is the floor of the binary logarithm only below [2^32]:
    on every 64-bit value it returns the smaller of that logarithm and 31
    (and 0 for 0), so it stays at 31 from [2^32] on. *)
Theorem log2_size_saturates (x : Z) (Hx : 0 <= x < 2 ^ 64) :
  log2_size x = Z.min (Z.log2 x) 31.
Proof.
  destruct (Z.eq_dec x 0) as [-> | Hx0]; [reflexivity|].
  destruct (Z.lt_ge_cases x (2 ^ 32)) as [Hlo | Hhi].
  - rewrite log2_size_spec by lia.
    assert (Z.log2 x < 32) by (apply Z.log2_lt_pow2; lia). lia.
  - assert (32 <= Z.log2 x)
      by (change 32 with (Z.log2 (2 ^ 32)); apply Z.log2_le_mono; lia).
    rewrite Z.min_r by lia. unfold log2_size.
    assert (Hdiv : ∀ y k, 0 < k → 2 ^ (2 * k) <= y → 2 ^ k <= y / 2 ^ k).
    { intros y k Hk Hy. apply Z.div_le_lower_bound; [apply Z.pow_pos_nonneg; lia|].
      rewrite <- Z.pow_add_r by lia. by replace (k + k) with (2 * k) by lia. }
    assert (Hup : ∀ y k, 0 < k → 0 <= y < 2 ^ 64 → 0 <= y / 2 ^ k < 2 ^ 64).
    { intros y k Hk Hy. assert (0 < 2 ^ k) by (apply Z.pow_pos_nonneg; lia).
      split; [apply Z.div_pos; lia|].
      apply Z.div_lt_upper_bound; [lia|]. nia. }
    set (y1 := x / 2 ^ 16). set (y2 := y1 / 2 ^ 8).
    set (y3 := y2 / 2 ^ 4). set (y4 := y3 / 2 ^ 2).
    assert (H1 : 2 ^ 16 <= y1) by (apply Hdiv; simpl; lia).
    assert (B1 : 0 <= y1 < 2 ^ 64) by (apply Hup; lia).
    assert (H2 : 2 ^ 8 <= y2) by (apply Hdiv; simpl; lia).
    assert (B2 : 0 <= y2 < 2 ^ 64) by (apply Hup; lia).
    assert (H3 : 2 ^ 4 <= y3) by (apply Hdiv; simpl; lia).
    assert (B3 : 0 <= y3 < 2 ^ 64) by (apply Hup; lia).
    assert (H4 : 2 ^ 2 <= y4) by (apply Hdiv; simpl; lia).
    assert (B4 : 0 <= y4 < 2 ^ 64) by (apply Hup; lia).
    change 0xffff with (Z.ones 16). rewrite log2_step_spec by (unfold SIZE_BITS; lia).
    destruct (Z.ltb_spec x (2 ^ 16)); [lia|]. fold y1.
    change 0xff with (Z.ones 8). rewrite log2_step_spec by (unfold SIZE_BITS; lia).
    destruct (Z.ltb_spec y1 (2 ^ 8)); [lia|]. fold y2.
    change 0xf with (Z.ones 4). rewrite log2_step_spec by (unfold SIZE_BITS; lia).
    destruct (Z.ltb_spec y2 (2 ^ 4)); [lia|]. fold y3.
    change 3 with (Z.ones 2). rewrite log2_step_spec by (unfold SIZE_BITS; lia).
    destruct (Z.ltb_spec y3 (2 ^ 2)); [lia|]. fold y4.
    change 1 with (Z.ones 1) at 1.
    rewrite land_himask_zero by (unfold SIZE_BITS; lia).
    destruct (Z.ltb_spec y4 (2 ^ 1)); [lia | reflexivity].
Qed.

Lemma log2_size_saturates_witness :
  0 <= 2 ^ 40 < 2 ^ 64 ∧ log2_size (2 ^ 40) = Z.min (Z.log2 (2 ^ 40)) 31.
Proof. split; [lia|]. apply (log2_size_saturates (2 ^ 40)). lia. Defined.

(** X2.  From 256 on, and below the overflow of the shifts, the bucket that
    [round_up_size] returns is at most one and a half times the request. *)
Theorem round_up_size_overhead (s b : Z) (Hs : 256 <= s < 3 * 2 ^ 29)
    (Hb : round_up_size s = Some b) :
  s < b ∧ 2 * b <= 3 * s.
Proof.
  destruct (round_up_size_eq s Hs) as [Hr Heq]. rewrite Heq in Hb.
  injection Hb as <-. destruct (Z.leb_spec (3 * 2 ^ (Z.log2 s - 1)) s); lia.
Qed.

Lemma round_up_size_overhead_witness :
  (256 <= 1000 < 3 * 2 ^ 29 ∧ round_up_size 1000 = Some 1024) ∧
  1000 < 1024 ∧ 2 * 1024 <= 3 * 1000.
Proof.
  split; [split; [lia | reflexivity]|].
  apply (round_up_size_overhead 1000 1024); [lia | reflexivity].
Defined.

(** X3.  From 256 on, [round_up_size] is monotone; across 256 it is not:
    every size below 256 gets 768, more than the 384 that 256 gets. *)
Theorem round_up_size_monotone (s t bs bt : Z)
    (Hs : 256 <= s) (Hst : s <= t) (Ht : t < 3 * 2 ^ 29)
    (Hbs : round_up_size s = Some bs) (Hbt : round_up_size t = Some bt) :
  bs <= bt ∧
  (∀ u, 0 <= u < 256 → round_up_size u = Some 768) ∧
  round_up_size 256 = Some 384.
Proof.
  split; [|split; [|reflexivity]].
  - destruct (round_up_size_eq s ltac:(lia)) as [Hrs Heqs].
    destruct (round_up_size_eq t ltac:(lia)) as [Hrt Heqt].
    rewrite Heqs in Hbs. rewrite Heqt in Hbt.
    injection Hbs as <-. injection Hbt as <-.
    assert (Hl8 : 8 <= Z.log2 s)
      by (change 8 with (Z.log2 256); apply Z.log2_le_mono; lia).
    assert (Hlm : Z.log2 s <= Z.log2 t) by (apply Z.log2_le_mono; lia).
    set (ms := Z.log2 s - 1) in *. set (mt := Z.log2 t - 1) in *.
    destruct (pow2_cmp ms mt ltac:(lia) ltac:(lia)) as [Hlt _].
    assert (0 < 2 ^ ms) by (apply Z.pow_pos_nonneg; lia).
    destruct (Z.eq_dec ms mt) as [Heq | Hne].
    + rewrite <- Heq in *.
      destruct (Z.leb_spec (3 * 2 ^ ms) s), (Z.leb_spec (3 * 2 ^ ms) t); lia.
    + specialize (Hlt ltac:(lia)).
      destruct (Z.leb_spec (3 * 2 ^ ms) s), (Z.leb_spec (3 * 2 ^ mt) t); lia.
  - intros u Hu. unfold round_up_size.
    destruct (Z.ltb_spec u 256); [|lia].
    change (int_shl 3 8) with (Some 768). simpl.
    change (size_t_of_int 768) with 768.
    destruct (Z.leb_spec 768 u); [lia | done].
Qed.

Lemma round_up_size_monotone_witness :
  (256 <= 300 ∧ 300 <= 400 ∧ 400 < 3 * 2 ^ 29 ∧
   round_up_size 300 = Some 384 ∧ round_up_size 400 = Some 512) ∧
  384 <= 512.
Proof.
  split; [repeat split; try lia; reflexivity|].
  apply (round_up_size_monotone 300 400 384 512); try lia; reflexivity.
Defined.

End size_class_more.

(** ** Request pool *)

Section request_pool_more.

Implicit Types (rs : gmap nat Req.media_request) (l hs : list nat).

(** The loop of [delete_req_chain] on a chain of distinct requests frees
    exactly its members and closes their descriptors in chain order. *)
Lemma delete_req_chain_from_spec l : ∀ fuel rs k hd,
  chain rs hd l → NoDup l → (length l ≤ fuel)%nat →
  ∃ rs',
    delete_req_chain_from fuel rs k hd =
      Some (rs', K.Kernel (K.script k) (K.log k ++ chain_closes rs l)) ∧
    (∀ q, q ∈ l → rs' !! q = None) ∧
    (∀ q, q ∉ l → rs' !! q = rs !! q).
Proof.
  induction l as [|p l IH]; intros fuel rs k hd Hc Hnd Hfuel; simpl in Hc.
  - subst hd. exists rs. destruct fuel; simpl; rewrite app_nil_r;
      (split; [by destruct k|]); split; try done;
      intros q Hq; by apply elem_of_nil in Hq.
  - destruct Hc as (-> & r & Hr & Hc).
    destruct fuel as [|fuel]; [simpl in Hfuel; lia|]. simpl. rewrite Hr. simpl.
    apply NoDup_cons in Hnd as [Hp Hnd].
    assert (Hc' : chain (delete p rs) (Req.next r) l).
    { eapply chain_ext; [|exact Hc]. intros q rq Hq Hrq. exists rq.
      rewrite lookup_delete_ne by (intros ->; done). done. }
    destruct (IH fuel (delete p rs)
                (if Req.fd r =? -1 then k else env_note k (SYS_close (Req.fd r)))
                (Req.next r) Hc' Hnd ltac:(simpl in Hfuel; lia))
      as (rs' & Heq & Hin & Hout).
    exists rs'. split; [|split].
    + rewrite Heq. f_equal. f_equal.
      assert (chain_closes (delete p rs) l = chain_closes rs l) as ->.
      { unfold chain_closes. clear -Hp. induction l as [|q l IH]; [done|].
        apply not_elem_of_cons in Hp as [Hne Hp]. simpl.
        rewrite lookup_delete_ne by done. by rewrite IH. }
      destruct (Req.fd r =? -1); simpl; [done|]. by rewrite <- app_assoc.
    + intros q [-> | Hq]%elem_of_cons; [|by apply Hin].
      rewrite Hout by done. apply lookup_delete_eq.
    + intros q Hq. apply not_elem_of_cons in Hq as [Hne Hq].
      rewrite Hout by done. by rewrite lookup_delete_ne.
Qed.

Lemma chain_length_le_size rs hd l :
  chain rs hd l → NoDup l → (length l ≤ size rs)%nat.
Proof.
  intros Hc Hnd. rewrite <- size_dom.
  rewrite <- (size_list_to_set (C := gset nat) l) by done.
  apply subseteq_size. intros p Hp. apply elem_of_list_to_set in Hp.
  apply elem_of_dom. by eapply chain_lookup.
Qed.

(** X4.  Teardown of a pool frees the pool and every handle on its free
    chain, closing each handle's descriptor and then the pool's; a handle
    that is still in flight is not freed: it stays allocated, pointing at
    the pool that is gone. *)
Theorem media_pool_delete_frees_free_chain (mp : ptr) (hs : list ptr)
    (w : world) (fl : list ptr)
    (Hnd : NoDup hs) (Hinv : pool_inv mp hs w fl) :
  ∃ w' p free,
    media_pool_delete w (Some mp) = Some (None, w') ∧
    pools w !! mp = Some p ∧ chain (reqs w) (Pool.free_reqs p) free ∧
    pools w' = delete mp (pools w) ∧
    (∀ r, r ∈ free → reqs w' !! r = None) ∧
    (∀ r, r ∈ fl → reqs w' !! r = reqs w !! r ∧ is_Some (reqs w !! r)) ∧
    K.log (kern w') =
      K.log (kern w) ++ chain_closes (reqs w) free ++ [SYS_close (Pool.fd p)].
Proof.
  destruct Hinv as (p & free & Hp & Hc & Hsem & Hperm & Hmp).
  assert (Hnd' : NoDup (free ++ fl)) by by rewrite Hperm.
  apply NoDup_app in Hnd' as (Hndf & Hdisj & _).
  destruct (delete_req_chain_from_spec free (size (reqs w)) (reqs w) (kern w)
              (Pool.free_reqs p) Hc Hndf (chain_length_le_size _ _ _ Hc Hndf))
    as (rs' & Hdel & Hin & Hout).
  unfold media_pool_delete, delete_req_chain. rewrite Hp. simpl.
  rewrite Hdel. simpl. eexists _, p, free. split; [done|]. simpl.
  do 4 (split; [done|]). split.
  - intros r Hr. split.
    + apply Hout. intros Hf. by apply (Hdisj r).
    + destruct (Hmp r) as (rq & Hrq & _); [|by eauto].
      rewrite <- Hperm. apply elem_of_app. by right.
  - by rewrite <- app_assoc.
Qed.


Lemma pool_demo_created_inv :
  NoDup [1; 0]%nat ∧ pool_inv 0 [1; 0]%nat pool_demo_created [].
Proof.
  split.
  - apply NoDup_cons. split; [|apply NoDup_singleton].
    intros H%list_elem_of_singleton. discriminate H.
  - eexists _, [1; 0]%nat. split; [vm_compute; reflexivity|].
    split.
    { simpl. split; [reflexivity|]. eexists. split; [vm_compute; reflexivity|].
      simpl. split; [reflexivity|]. eexists. split; [vm_compute; reflexivity|].
      reflexivity. }
    split; [reflexivity|]. split; [by rewrite app_nil_r|].
    intros r Hr. apply elem_of_cons in Hr as [-> | Hr];
      [|apply list_elem_of_singleton in Hr as ->];
      eexists; (split; [vm_compute; reflexivity | reflexivity]).
Qed.

Lemma media_pool_delete_frees_free_chain_witness :
  (NoDup [1; 0]%nat ∧ pool_inv 0 [1; 0]%nat pool_demo_created []) ∧
  ∃ w' p free,
    media_pool_delete pool_demo_created (Some 0%nat) = Some (None, w') ∧
    pools pool_demo_created !! 0%nat = Some p ∧
    chain (reqs pool_demo_created) (Pool.free_reqs p) free ∧
    pools w' = delete 0%nat (pools pool_demo_created) ∧
    (∀ r, r ∈ free → reqs w' !! r = None) ∧
    (∀ r, r ∈ [] → reqs w' !! r = reqs pool_demo_created !! r ∧
                   is_Some (reqs pool_demo_created !! r)) ∧
    K.log (kern w') =
      K.log (kern pool_demo_created) ++
        chain_closes (reqs pool_demo_created) free ++ [SYS_close (Pool.fd p)].
Proof.
  split; [exact pool_demo_created_inv|].
  exact (media_pool_delete_frees_free_chain 0 [1; 0]%nat pool_demo_created []
           (proj1 pool_demo_created_inv) (proj2 pool_demo_created_inv)).
Defined.

(** What the allocation loop of [media_pool_new] has made when it stops,
    with or without success: new requests only, all on the free chain. *)
Lemma media_pool_new_loop_frame n mp : ∀ w ok w',
  media_pool_new_loop n mp w = Some (ok, w') →
  ents w' = ents w ∧ dsts w' = dsts w ∧ ctls w' = ctls w.
Proof.
  induction n as [|n IH]; intros w ok w' Hloop; simpl in Hloop.
  - by injection Hloop as <- <-.
  - destruct (env_call (kern w) SYS_malloc) as [[a1 k1]|]; [|done].
    simpl in Hloop. destruct (is_err a1); [by injection Hloop as <- <-|].
    destruct (pools w !! mp) as [p|]; [|done]. simpl in Hloop.
    destruct (env_call k1 _) as [[a2 k2]|]; [|done]. simpl in Hloop.
    destruct (rc_of a2 =? -1); [by injection Hloop as <- <-|].
    rewrite lookup_insert_eq in Hloop. simpl in Hloop.
    destruct (env_call k2 _) as [[a3 k3]|]; [|done]. simpl in Hloop.
    destruct (is_err a3); [by injection Hloop as <- <-|].
    by apply IH in Hloop.
Qed.

Lemma media_pool_new_loop_inv n mp : ∀ w ok w' p l,
  pools w !! mp = Some p →
  chain (reqs w) (Pool.free_reqs p) l → NoDup l →
  (∀ r, r ∈ l → is_Some (reqs w !! r)) →
  media_pool_new_loop n mp w = Some (ok, w') →
  ∃ p' l', pools w' = <[mp := p']> (pools w) ∧ Pool.fd p' = Pool.fd p ∧
    chain (reqs w') (Pool.free_reqs p') (l' ++ l) ∧
    NoDup (l' ++ l) ∧
    (∀ q, q ∈ l' → reqs w !! q = None) ∧
    (∀ q, q ∉ l' → reqs w' !! q = reqs w !! q).
Proof.
  induction n as [|n IH]; intros w ok w' p l Hp Hc Hnd Hl Hloop; simpl in Hloop.
  - injection Hloop as <- <-. exists p, []. rewrite insert_id by done.
    repeat split; try done. intros q Hq. by apply elem_of_nil in Hq.
  - destruct (env_call (kern w) SYS_malloc) as [[a1 k1]|]; [|done].
    simpl in Hloop. destruct (is_err a1).
    { injection Hloop as <- <-. exists p, []. simpl. rewrite insert_id by done.
      repeat split; try done. intros q Hq. by apply elem_of_nil in Hq. }
    rewrite Hp in Hloop. simpl in Hloop.
    set (req := fresh (dom (reqs w))) in *.
    assert (Hfresh : reqs w !! req = None)
      by (apply not_elem_of_dom; apply is_fresh).
    assert (Hreq : req ∉ l).
    { intros Hin. destruct (Hl req Hin) as [rq Hrq]. congruence. }
    destruct (env_call k1 _) as [[a2 k2]|]; [|done]. simpl in Hloop.
    destruct (rc_of a2 =? -1).
    { injection Hloop as <- <-. eexists _, [req]. simpl.
      split; [done|]. split; [done|]. split.
      { split; [done|]. eexists. rewrite lookup_insert_eq. split; [done|].
        simpl. by apply chain_insert_fresh. }
      split; [by apply NoDup_cons|]. split.
      - by intros q ->%list_elem_of_singleton.
      - intros q Hq. rewrite lookup_insert_ne; [done|].
        intros <-. apply Hq. by apply list_elem_of_singleton. }
    rewrite lookup_insert_eq in Hloop. simpl in Hloop.
    destruct (env_call k2 _) as [[a3 k3]|]; [|done]. simpl in Hloop.
    rewrite insert_insert_eq in Hloop.
    assert (Hstate :
      chain (<[req := Req.set_fd (fd_of a2)
                        (Req.Request (Pool.free_reqs p) mp (-1))]> (reqs w))
        (Some req) (req :: l)).
    { simpl. split; [done|]. eexists. rewrite lookup_insert_eq.
      split; [done|]. simpl. by apply chain_insert_fresh. }
    destruct (is_err a3).
    { injection Hloop as <- <-. eexists _, [req]. simpl.
      split; [done|]. split; [done|]. split; [exact Hstate|].
      split; [by apply NoDup_cons|]. split.
      - by intros q ->%list_elem_of_singleton.
      - intros q Hq. rewrite lookup_insert_ne; [done|].
        intros <-. apply Hq. by apply list_elem_of_singleton. }
    eapply (IH _ _ _ (Pool.set_free_reqs (Some req) p) (req :: l)) in Hloop
      as (p' & l' & Hp' & Hfd & Hc' & Hnd' & Hnew & Hold).
    + exists p', (l' ++ [req]). rewrite <- app_assoc. simpl.
      simpl in Hp'. rewrite insert_insert_eq in Hp'.
      split; [done|]. split; [done|]. split; [done|]. split; [done|]. split.
      * intros q [Hq | ->%list_elem_of_singleton]%elem_of_app; [|done].
        specialize (Hnew q Hq). simpl in Hnew.
        destruct (decide (q = req)) as [-> | Hne]; [done|].
        by rewrite lookup_insert_ne in Hnew.
      * intros q Hq. rewrite Hold.
        -- simpl. rewrite lookup_insert_ne; [done|]. intros <-.
           apply Hq. apply elem_of_app. right. by apply list_elem_of_singleton.
        -- intros Hin. apply Hq. apply elem_of_app. by left.
    + simpl. apply lookup_insert_eq.
    + exact Hstate.
    + by apply NoDup_cons.
    + simpl. intros r [-> | Hr]%elem_of_cons.
      * rewrite lookup_insert_eq. eauto.
      * rewrite lookup_insert_ne by (intros ->; done). auto.
Qed.

(** X5.  [media_pool_new] fails atomically: when it returns null, whatever
    the step that failed, every request it had allocated and the pool
    itself have been freed again, so that requests and pools are exactly as
    before the call. *)
Theorem media_pool_new_failure_restores (w : world) (n : nat) (w' : world)
    (Hfail : media_pool_new w n = Some (None, w')) :
  reqs w' = reqs w ∧ pools w' = pools w ∧
  ents w' = ents w ∧ dsts w' = dsts w ∧ ctls w' = ctls w.
Proof.
  unfold media_pool_new in Hfail.
  destruct (env_call (kern w) SYS_calloc) as [[a1 k1]|]; [|done].
  simpl in Hfail. destruct (is_err a1); [by injection Hfail as <-|].
  set (mp := fresh (dom (pools w))) in *.
  assert (Hmp : pools w !! mp = None)
    by (apply not_elem_of_dom; apply is_fresh).
  destruct (env_call k1 _) as [[a2 k2]|]; [|done]. simpl in Hfail.
  rewrite lookup_insert_eq in Hfail. simpl in Hfail.
  rewrite insert_insert_eq in Hfail.
  destruct (fd_of a2 =? -1).
  { injection Hfail as <-. simpl. rewrite delete_insert_eq, delete_id by done.
    done. }
  destruct (media_pool_new_loop _ _ _) as [[ok w1]|] eqn:Hloop; [|done].
  simpl in Hfail.
  pose proof (media_pool_new_loop_frame _ _ _ _ _ Hloop) as Hframe.
  simpl in Hframe.
  eapply (media_pool_new_loop_inv _ _ _ _ _ _ []) in Hloop
    as (p' & l' & Hp' & Hfd & Hc' & Hnd' & Hnew & Hold);
    [| simpl; apply lookup_insert_eq | done | constructor
     | intros r Hr; by apply elem_of_nil in Hr].
  rewrite app_nil_r in *. simpl in *. rewrite insert_insert_eq in Hp'.
  rewrite Hp', lookup_insert_eq in Hfail. simpl in Hfail.
  destruct ok; [done|].
  destruct (delete_req_chain_from_spec l' (size (reqs w1)) (reqs w1) (kern w1)
              (Pool.free_reqs p') Hc' Hnd' (chain_length_le_size _ _ _ Hc' Hnd'))
    as (rs' & Hdel & Hin & Hout).
  unfold delete_req_chain in Hfail. rewrite Hdel in Hfail. simpl in Hfail.
  injection Hfail as <-. simpl.
  split; [|split; [|exact Hframe]].
  - apply map_eq. intros q. destruct (decide (q ∈ l')) as [Hq | Hq].
    + rewrite Hin by done. symmetry. by apply Hnew.
    + rewrite Hout by done. by apply Hold.
  - rewrite Hp', delete_insert_eq, delete_id by done. done.
Qed.

Lemma media_pool_new_failure_restores_witness :
  media_pool_new pool_fail_world 2 = Some (None, pool_fail_after) ∧
  reqs pool_fail_after = reqs pool_fail_world ∧
  pools pool_fail_after = pools pool_fail_world ∧
  ents pool_fail_after = ents pool_fail_world ∧
  dsts pool_fail_after = dsts pool_fail_world ∧
  ctls pool_fail_after = ctls pool_fail_world.
Proof.
  assert (H : media_pool_new pool_fail_world 2 = Some (None, pool_fail_after))
    by (vm_compute; reflexivity).
  split; [exact H|].
  exact (media_pool_new_failure_restores pool_fail_world 2 pool_fail_after H).
Defined.

End request_pool_more.
Section request_protocol_more.

(** X6.  Reclaiming a handle and acquiring again is a round trip: the handle
    goes back on the pool whether or not the driver accepted the
    re-initialisation, the next acquisition does not wait and hands out
    that same handle, and the pool is then exactly as before. *)
Theorem media_request_done_get_roundtrip (w : world) (req : ptr)
    (r : Req.media_request) (p : Pool.media_pool) (a : kres) (rest : list kres)
    (Hr : reqs w !! req = Some r) (Hp : pools w !! Req.mp r = Some p)
    (Hscript : K.script (kern w) = a :: rest) :
  ∃ w1 w2,
    media_request_done w req = Some w1 ∧
    media_request_get w1 (Req.mp r) = Some (Returns (Some req) w2) ∧
    pools w2 = pools w ∧
    reqs w2 = <[req := Req.set_next None r]> (reqs w) ∧
    K.log (kern w2) = K.log (kern w) ++ [MEDIA_REQUEST_IOC_REINIT (Req.fd r)] ∧
    K.script (kern w2) = rest.
Proof.
  unfold media_request_done. rewrite Hr. simpl.
  unfold env_call. rewrite Hscript. simpl. rewrite Hp. simpl.
  eexists _, _. split; [reflexivity|].
  unfold media_request_get. simpl. rewrite lookup_insert_eq. simpl.
  rewrite lookup_insert_eq. simpl. split; [reflexivity|]. simpl.
  rewrite !insert_insert_eq. split; [|done].
  destruct p as [pfd psem pfree]. simpl. by apply insert_id.
Qed.

Lemma media_request_done_get_roundtrip_witness :
  (reqs (ctl_demo_world [KErr 5]) !! 0%nat = Some (Req.Request None 0 7) ∧
   pools (ctl_demo_world [KErr 5]) !! Req.mp (Req.Request None 0 7)
     = Some (Pool.MediaPool 5 0 None) ∧
   K.script (kern (ctl_demo_world [KErr 5])) = KErr 5 :: []) ∧
  ∃ w1 w2,
    media_request_done (ctl_demo_world [KErr 5]) 0 = Some w1 ∧
    media_request_get w1 0 = Some (Returns (Some 0%nat) w2) ∧
    pools w2 = pools (ctl_demo_world [KErr 5]).
Proof.
  split; [split; [vm_compute; reflexivity|]; split; [vm_compute|]; reflexivity|].
  destruct (media_request_done_get_roundtrip (ctl_demo_world [KErr 5]) 0
              (Req.Request None 0 7) (Pool.MediaPool 5 0 None) (KErr 5) [])
    as (w1 & w2 & H1 & H2 & H3 & _);
    [vm_compute; reflexivity | vm_compute; reflexivity | reflexivity |].
  exists w1, w2. split; [exact H1|]. split; [exact H2 | exact H3].
Defined.

(** X7.  [media_request_start] repeats the queueing call for as long as it is
    interrupted.  When the driver accepts, it returns 0 and arms the poll
    task of the request for 2000; when the driver refuses, it returns the
    negated error code and arms nothing.  In both cases the handle stays
    with the caller: the pool and its free chain are untouched. *)
Theorem media_request_start_outcome (w : world) (req : ptr)
    (r : Req.media_request) (n : nat) (a : kres) (rest : list kres)
    (Hr : reqs w !! req = Some r) (Hp : is_Some (pools w !! Req.mp r))
    (Hscript : K.script (kern w) = replicate n (KErr EINTR) ++ a :: rest)
    (Ha : not_eintr a) :
  ∃ w',
    media_request_start w (Some req)
      = Some (if is_err a then - errno_of a else 0, w') ∧
    K.script (kern w') = rest ∧
    K.log (kern w') =
      K.log (kern w) ++ replicate (S n) (MEDIA_REQUEST_IOC_QUEUE (Req.fd r)) ++
        (if is_err a then [] else [pollqueue_add_task (pt_request req) 2000]) ∧
    reqs w' = reqs w ∧ pools w' = pools w.
Proof.
  destruct Hp as [p Hp].
  unfold media_request_start. simpl. rewrite Hr. simpl.
  unfold ioctl_retry. rewrite Hscript, ioctl_retry_from_eintr by done. simpl.
  unfold rc_of. destruct (is_err a); simpl.
  - eexists. split; [reflexivity|]. simpl. by rewrite app_nil_r.
  - rewrite Hp. simpl. eexists. split; [reflexivity|]. simpl.
    split; [done|]. split; [|done]. by rewrite <- app_assoc.
Qed.

Lemma media_request_start_outcome_witness :
  (reqs (ctl_demo_world [KErr EINTR; KErr 16]) !! 0%nat
     = Some (Req.Request None 0 7) ∧
   is_Some (pools (ctl_demo_world [KErr EINTR; KErr 16])
              !! Req.mp (Req.Request None 0 7)) ∧
   K.script (kern (ctl_demo_world [KErr EINTR; KErr 16]))
     = replicate 1 (KErr EINTR) ++ KErr 16 :: [] ∧
   not_eintr (KErr 16)) ∧
  ∃ w',
    media_request_start (ctl_demo_world [KErr EINTR; KErr 16]) (Some 0%nat)
      = Some (-16, w') ∧
    K.log (kern w') = [MEDIA_REQUEST_IOC_QUEUE 7; MEDIA_REQUEST_IOC_QUEUE 7].
Proof.
  assert (H1 : reqs (ctl_demo_world [KErr EINTR; KErr 16]) !! 0%nat
               = Some (Req.Request None 0 7)) by (vm_compute; reflexivity).
  assert (H2 : is_Some (pools (ctl_demo_world [KErr EINTR; KErr 16])
                          !! Req.mp (Req.Request None 0 7)))
    by (eexists; vm_compute; reflexivity).
  assert (H3 : K.script (kern (ctl_demo_world [KErr EINTR; KErr 16]))
               = replicate 1 (KErr EINTR) ++ KErr 16 :: []) by reflexivity.
  assert (H4 : not_eintr (KErr 16)) by reflexivity.
  split; [done|].
  destruct (media_request_start_outcome _ 0 _ 1 (KErr 16) [] H1 H2 H3 H4)
    as (w' & Hs & _ & Hl & _).
  exists w'. split; [exact Hs | exact Hl].
Defined.

End request_protocol_more.
(** ** Buffer queue *)

Section queue_runs.

Implicit Types (h : gmap nat Qe.qent_base) (l fl il all : list nat).

Lemma clear_run_length fuel : ∀ dh, length (clear_run fuel dh) = length dh.
Proof.
  induction fuel as [|fuel IH]; intros [|[d|] dh]; simpl; try done.
  by rewrite IH.
Qed.

Lemma queue_ents_ok_kept h h1 all :
  (∀ q e, q ∈ all → h !! q = Some e →
     ∃ e1, h1 !! q = Some e1 ∧ length (Qe.dh e1) = length (Qe.dh e)) →
  queue_ents_ok h all → queue_ents_ok h1 all.
Proof.
  intros Hk Hok q Hq. destruct (Hok q Hq) as (e & He & Hlen).
  destruct (Hk q e Hq He) as (e1 & He1 & Hl). exists e1. split; [done|].
  by rewrite Hl.
Qed.

Lemma payload_length h h1 q e :
  (payload <$> h1 !! q) = (payload <$> h !! q) → h !! q = Some e →
  ∃ e1, h1 !! q = Some e1 ∧ length (Qe.dh e1) = length (Qe.dh e).
Proof.
  intros Hp He. rewrite He in Hp. simpl in Hp.
  destruct (h1 !! q) as [e1|]; [|done]. simpl in Hp.
  exists e1. split; [done|]. unfold payload in Hp. by injection Hp as _ _ -> _.
Qed.

Lemma queue_find_extract_fd_unlinks h bp fd be h1 bp1 :
  queue_find_extract_fd h bp fd = Some (Some be, h1, bp1) →
  bq_extract_inuse h bp be = Some (h1, bp1).
Proof.
  unfold queue_find_extract_fd.
  destruct (find_fd_from _ _ _ _) as [[p|]|]; simpl; [|done..].
  destruct (bq_extract_inuse h bp p) as [[h2 bp2]|] eqn:Hx; simpl; [|done].
  intros [= <- <- <-]. exact Hx.
Qed.

Lemma held_split all fl il held be :
  NoDup all → fl ++ il ++ held ≡ₚ all → be ∈ held →
  (be ∉ fl) ∧ (be ∉ il) ∧ be ∈ all ∧ NoDup held ∧
  held ≡ₚ be :: filter (λ r, r ≠ be) held.
Proof.
  intros Hnd Hperm Hin. rewrite <- Hperm in Hnd.
  apply NoDup_app in Hnd as (_ & Hd1 & Hnd).
  apply NoDup_app in Hnd as (_ & Hd2 & Hndh).
  split; [|split; [|split; [|split]]].
  - intros Hf. apply (Hd1 be Hf). apply elem_of_app. by right.
  - intros Hi. by apply (Hd2 be Hi).
  - rewrite <- Hperm. rewrite !elem_of_app. auto.
  - done.
  - by apply filter_ne_perm.
Qed.

(** One allowed event has a result, and the result keeps the invariant. *)
Lemma queue_step_inv all st ev :
  NoDup all → queue_state_inv all st → queue_event_allowed st ev →
  ∃ st', queue_step st ev = Some st' ∧ queue_state_inv all st'.
Proof.
  intros Hnd (fl & il & Hq & Hperm & Hok) Hev.
  destruct st as [h bp held]. simpl in *.
  destruct ev as [be | | | be | fd]; simpl in Hev;
    cbn [queue_step qs_ents qs_bp qs_held].
  - (* recycle *)
    destruct (held_split _ _ _ _ _ Hnd Hperm Hev)
      as (Hfl & Hil & Hall & Hndh & Hh).
    destruct (Hok be Hall) as (e & He & Hlen).
    destruct (queue_inv_put_free h bp fl il be e Hq Hfl Hil He
                ltac:(by rewrite Hlen)) as (h1 & bp1 & Hput & Hq1).
    destruct (queue_put_free_spec h bp fl be e (proj1 Hq) Hfl He)
      as (h2 & bp2 & e1 & Hput2 & _ & _ & _ & _ & He1 & _ & Hdh & _ & _ & Hpay & _).
    rewrite Hput in Hput2. injection Hput2 as <- <-.
    rewrite decide_True by done. rewrite Hput. simpl.
    eexists. split; [reflexivity|]. exists (fl ++ [be]), il. simpl.
    split; [done|]. split.
    + rewrite <- Hperm. rewrite Hh at 2. rewrite <- app_assoc.
      apply Permutation_app_head. simpl. apply Permutation_middle.
    + eapply queue_ents_ok_kept; [|exact Hok]. intros q eq Hqa Heq.
      destruct (decide (q = be)) as [-> | Hne].
      * exists e1. split; [done|]. rewrite Hdh, len_clear_run, clear_run_length.
        congruence.
      * apply (payload_length h); [by apply Hpay | done].
  - (* take, waiting *)
    pose proof (proj1 Hq) as Hfree.
    pose proof (proj1 (proj2 (proj2 (proj2 Hq)))) as Hsem.
    destruct fl as [|p fl].
    + unfold queue_get_free. rewrite Hsem. simpl.
      eexists. split; [reflexivity|]. exists [], il. simpl.
      split; [exact Hq|]. done.
    + destruct (queue_inv_get_free h bp p fl il Hq)
        as (h1 & bp1 & e1 & Hget & _ & Hq1 & _).
      destruct (queue_get_free_spec h bp p fl Hfree Hsem)
        as (h2 & bp2 & e & e2 & Hget2 & _ & _ & _ & _ & _ & _ & _ & _ & Hpay & _).
      rewrite Hget in Hget2. injection Hget2 as <- <-.
      rewrite Hget. simpl. eexists. split; [reflexivity|].
      exists fl, il. simpl. split; [done|]. split.
      * rewrite <- Hperm. simpl. rewrite !app_assoc. symmetry.
        apply (Permutation_middle (fl ++ il) held p).
      * eapply queue_ents_ok_kept; [|exact Hok]. intros q eq _ Heq.
        apply (payload_length h); [by apply Hpay | done].
  - (* take, not waiting *)
    pose proof (proj1 Hq) as Hfree.
    pose proof (proj1 (proj2 (proj2 (proj2 Hq)))) as Hsem.
    destruct fl as [|p fl].
    + unfold queue_tryget_free. rewrite Hsem. simpl.
      eexists. split; [reflexivity|]. exists [], il. simpl.
      split; [exact Hq|]. done.
    + destruct (queue_inv_get_free h bp p fl il Hq)
        as (h1 & bp1 & e1 & _ & Hget & Hq1 & _).
      destruct (queue_get_free_spec h bp p fl Hfree Hsem)
        as (h2 & bp2 & e & e2 & _ & Hget2 & _ & _ & _ & _ & _ & _ & _ & Hpay & _).
      rewrite Hget in Hget2. injection Hget2 as <- <-.
      rewrite Hget. simpl. eexists. split; [reflexivity|].
      exists fl, il. simpl. split; [done|]. split.
      * rewrite <- Hperm. simpl. rewrite !app_assoc. symmetry.
        apply (Permutation_middle (fl ++ il) held p).
      * eapply queue_ents_ok_kept; [|exact Hok]. intros q eq _ Heq.
        apply (payload_length h); [by apply Hpay | done].
  - (* put in use *)
    destruct (held_split _ _ _ _ _ Hnd Hperm Hev)
      as (Hfl & Hil & Hall & Hndh & Hh).
    destruct (Hok be Hall) as (e & He & Hlen).
    assert (Hfd : is_Some (ent_fd h be)).
    { unfold ent_fd. rewrite He. simpl.
      destruct (Qe.dh e) as [|d0 dh]; [discriminate Hlen|]. simpl. eauto. }
    destruct (queue_inv_put_inuse h bp fl il be Hq Hfl Hil Hfd)
      as (h1 & bp1 & Hput & Hq1).
    destruct (queue_put_inuse_spec h bp il be e (proj1 (proj2 Hq)) Hil He)
      as (h2 & bp2 & e1 & Hput2 & _ & _ & _ & _ & He1 & _ & _ & Hdh & _ & Hpay & _).
    rewrite Hput in Hput2. injection Hput2 as <- <-.
    rewrite decide_True by done. rewrite Hput. simpl.
    eexists. split; [reflexivity|]. exists fl, (il ++ [be]). simpl.
    split; [done|]. split.
    + rewrite <- Hperm. rewrite Hh at 2. apply Permutation_app_head.
      by rewrite <- app_assoc.
    + eapply queue_ents_ok_kept; [|exact Hok]. intros q eq Hqa Heq.
      destruct (decide (q = be)) as [-> | Hne].
      * exists e1. split; [done|]. rewrite Hdh. congruence.
      * apply (payload_length h); [by apply Hpay | done].
  - (* look up by descriptor *)
    destruct (queue_inv_find_extract h bp fl il fd Hq)
      as (r & h1 & bp1 & il' & Hfind & Hq1 & Hcase).
    rewrite Hfind. simpl. eexists. split; [reflexivity|].
    destruct Hcase as [(-> & -> & -> & ->) | (be & l1 & l2 & -> & -> & -> & _)].
    + exists fl, il. by simpl.
    + exists fl, (l1 ++ l2). simpl. split; [done|]. split.
      * rewrite <- Hperm. apply Permutation_app_head.
        rewrite <- !app_assoc. apply Permutation_app_head. simpl.
        symmetry. apply Permutation_middle.
      * apply queue_find_extract_fd_unlinks in Hfind.
        destruct (bq_extract_inuse_spec h bp l1 be l2 (proj1 (proj2 Hq)))
          as (h2 & bp2 & e & e1 & _ & Hex & _ & _ & _ & _ & _ & _ & _ & _ & Hpay & _).
        rewrite Hfind in Hex. injection Hex as <- <-.
        eapply queue_ents_ok_kept; [|exact Hok]. intros q eq _ Heq.
        apply (payload_length h); [by apply Hpay | done].
Qed.

Lemma queue_step_allowed st ev st' :
  queue_step st ev = Some st' → queue_event_allowed st ev.
Proof.
  destruct ev as [be | | | be | fd]; simpl; try done;
    by destruct (decide (be ∈ qs_held st)).
Qed.

Lemma queue_run_inv all : ∀ evs st st',
  NoDup all → queue_state_inv all st →
  queue_run st evs = Some st' → queue_state_inv all st'.
Proof.
  induction evs as [|ev evs IH]; intros st st' Hnd Hinv Hrun; simpl in Hrun.
  - by injection Hrun as <-.
  - destruct (queue_step st ev) as [st1|] eqn:Hstep; [|done]. simpl in Hrun.
    destruct (queue_step_inv all st ev Hnd Hinv
                (queue_step_allowed _ _ _ Hstep)) as (st2 & Hst2 & Hinv2).
    rewrite Hstep in Hst2. injection Hst2 as <-. by eapply IH.
Qed.

Lemma dlist_nonempty h l hd tl :
  dlist h l hd tl → bool_decide (tl ≠ None) = bool_decide (l ≠ []).
Proof.
  intros [_ Hseg]. apply dseg_tail in Hseg. subst tl.
  destruct (last l) as [t|] eqn:Hl; simpl.
  - assert (l ≠ []) by (intros ->; discriminate Hl).
    by rewrite !bool_decide_eq_true_2.
  - apply last_None in Hl. subst l. by rewrite !bool_decide_eq_false_2 by auto.
Qed.

(** X8.  Conservation on a buffer queue.  From a new queue whose entries are
    all held by their creator, after every sequence of recycling, taking,
    putting in use and lookup by descriptor in which only held entries are
    put: the free list and the in-use list are well-formed doubly-linked
    lists, every entry is on exactly one of free list, in-use list and
    holders, the semaphore counts the free list, every free entry is
    recycled, the queue reports in-use exactly when the in-use list is not
    empty, and every further allowed call has a result. *)
Theorem queue_run_conservation (h0 : gmap nat Qe.qent_base) (all : list ptr)
    (Hnd : NoDup all) (Hok : queue_ents_ok h0 all) :
  ∀ evs st, queue_run (QueueState h0 Bp.empty all) evs = Some st →
    (∃ fl il,
       dlist (qs_ents st) fl (Bp.free_head (qs_bp st)) (Bp.free_tail (qs_bp st)) ∧
       dlist (qs_ents st) il (Bp.inuse_head (qs_bp st)) (Bp.inuse_tail (qs_bp st)) ∧
       fl ++ il ++ qs_held st ≡ₚ all ∧
       Bp.free_sem (qs_bp st) = length fl ∧
       (∀ q, q ∈ fl → ∃ e, qs_ents st !! q = Some e ∧ recycled e) ∧
       queue_is_inuse (qs_bp st) = bool_decide (il ≠ [])) ∧
    (∀ ev, queue_event_allowed st ev → is_Some (queue_step st ev)).
Proof.
  intros evs st Hrun.
  assert (Hinv : queue_state_inv all st).
  { eapply queue_run_inv; [exact Hnd| |exact Hrun].
    exists [], []. simpl. split; [apply queue_inv_new|]. by split. }
  split.
  - destruct Hinv as (fl & il & (Hf & Hi & _ & Hsem & Hrec & _) & Hperm & _).
    exists fl, il. do 5 (split; [done|]).
    unfold queue_is_inuse. by eapply dlist_nonempty.
  - intros ev Hev. destruct (queue_step_inv all st ev Hnd Hinv Hev)
      as (st' & -> & _). by eexists.
Qed.

Lemma queue_demo_ents_ok :
  NoDup [1; 2]%nat ∧ queue_ents_ok queue_demo_ents [1; 2]%nat.
Proof.
  split.
  - apply NoDup_cons. split; [|apply NoDup_singleton].
    intros H%list_elem_of_singleton. discriminate H.
  - intros q Hq. apply elem_of_cons in Hq as [-> | Hq];
      [|apply list_elem_of_singleton in Hq as ->];
      eexists; (split; [vm_compute; reflexivity | reflexivity]).
Qed.

Lemma queue_run_conservation_witness :
  (NoDup [1; 2]%nat ∧ queue_ents_ok queue_demo_ents [1; 2]%nat) ∧
  ∀ evs st,
    queue_run (QueueState queue_demo_ents Bp.empty [1; 2]%nat) evs = Some st →
    (∃ fl il,
       dlist (qs_ents st) fl (Bp.free_head (qs_bp st)) (Bp.free_tail (qs_bp st)) ∧
       dlist (qs_ents st) il (Bp.inuse_head (qs_bp st)) (Bp.inuse_tail (qs_bp st)) ∧
       fl ++ il ++ qs_held st ≡ₚ [1; 2]%nat ∧
       Bp.free_sem (qs_bp st) = length fl ∧
       (∀ q, q ∈ fl → ∃ e, qs_ents st !! q = Some e ∧ recycled e) ∧
       queue_is_inuse (qs_bp st) = bool_decide (il ≠ [])) ∧
    (∀ ev, queue_event_allowed st ev → is_Some (queue_step st ev)).
Proof.
  split; [exact queue_demo_ents_ok|].
  exact (queue_run_conservation queue_demo_ents [1; 2]%nat
           (proj1 queue_demo_ents_ok) (proj2 queue_demo_ents_ok)).
Defined.

End queue_runs.
(** ** Completion *)

Section completion.

Implicit Types (h : gmap nat Qe.qent_base) (l fl il : list nat).

(** The invariant of a queue does not depend on entries that are on
    neither of its lists. *)
Lemma queue_inv_frame h h1 bp fl il :
  (∀ p, p ∈ fl ++ il → h1 !! p = h !! p) →
  queue_inv h bp fl il → queue_inv h1 bp fl il.
Proof.
  intros Hsame (Hf & Hi & Hdisj & Hsem & Hrec & Hfd).
  split; [|split; [|split; [done|split; [done|split]]]].
  - eapply dlist_frame; [|exact Hf]. intros p Hp. apply Hsame.
    apply elem_of_app. by left.
  - eapply dlist_frame; [|exact Hi]. intros p Hp. apply Hsame.
    apply elem_of_app. by right.
  - intros q Hq. rewrite Hsame by (apply elem_of_app; by left). by apply Hrec.
  - intros q Hq. unfold ent_fd.
    rewrite Hsame by (apply elem_of_app; by right). by apply Hfd.
Qed.

Lemma NoDup_split_unique (be : nat) : ∀ l1 l2 l1' l2',
  NoDup (l1 ++ be :: l2) → l1 ++ be :: l2 = l1' ++ be :: l2' →
  l1 = l1' ∧ l2 = l2'.
Proof.
  induction l1 as [|x l1 IH]; intros l2 l1' l2' Hnd Heq.
  - destruct l1' as [|y l1']; simpl in Heq.
    + by injection Heq as ->.
    + injection Heq as <- ->. simpl in Hnd. apply NoDup_cons in Hnd as [Hn _].
      exfalso. apply Hn. apply elem_of_app. right. by left.
  - destruct l1' as [|y l1']; simpl in Heq.
    + injection Heq as -> <-. simpl in Hnd. apply NoDup_cons in Hnd as [Hn _].
      exfalso. apply Hn. apply elem_of_app. right. by left.
    + injection Heq as <- Heq. simpl in Hnd. apply NoDup_cons in Hnd as [_ Hnd].
      destruct (IH _ _ _ Hnd Heq) as [-> ->]. done.
Qed.

(** X9.  The dequeue step of the poll callback.  The call is repeated while
    interrupted.  When the driver reports an error, or reports a descriptor
    that no in-use entry carries, null is returned and neither the queue nor
    any entry is changed.  Otherwise the first in-use entry with the
    reported descriptor is unlinked from the in-use list, given the
    driver's timestamp, and marked done, or in error when the driver set the
    error flag; its plane handles and index are kept, and the queue is
    well-formed without it. *)
Theorem qe_dequeue_outcome (w : world) (bp : Bp.buf_pool) (vfd : Z)
    (f : Fmt.v4l2_format) (fl il : list ptr)
    (n : nat) (a : kres) (rest : list kres)
    (Hq : queue_inv (ents w) bp fl il)
    (Hscript : K.script (kern w) = replicate n (KErr EINTR) ++ a :: rest)
    (Ha : not_eintr a) :
  ∃ r bp' w',
    qe_dequeue w bp vfd f = Some (r, bp', w') ∧
    K.script (kern w') = rest ∧
    K.log (kern w') =
      K.log (kern w) ++ replicate (S n) (VIDIOC_DQBUF vfd (Fmt.type f)) ∧
    dsts w' = dsts w ∧ ctls w' = ctls w ∧ reqs w' = reqs w ∧
    pools w' = pools w ∧
    (is_err a = true → r = None ∧ bp' = bp ∧ ents w' = ents w) ∧
    (is_err a = false →
       (r = None ∧ bp' = bp ∧ ents w' = ents w ∧
        ∀ q, q ∈ il → ent_fd (ents w) q ≠ Some (dqbuf_of a).1.1) ∨
       (∃ be l1 l2 e e',
          r = Some be ∧ il = l1 ++ be :: l2 ∧
          ent_fd (ents w) be = Some (dqbuf_of a).1.1 ∧
          (∀ q, q ∈ l1 → ent_fd (ents w) q ≠ Some (dqbuf_of a).1.1) ∧
          queue_inv (ents w') bp' fl (l1 ++ l2) ∧
          ents w !! be = Some e ∧ ents w' !! be = Some e' ∧
          Qe.next e' = None ∧ Qe.prev e' = None ∧
          Qe.timestamp e' = (dqbuf_of a).1.2 ∧
          Qe.status e' =
            (if Z.land (dqbuf_of a).2 V4L2_BUF_FLAG_ERROR =? 0
             then QENT_DONE else QENT_ERROR) ∧
          Qe.dh e' = Qe.dh e ∧ Qe.index e' = Qe.index e)).
Proof.
  unfold qe_dequeue, ioctl_retry.
  rewrite Hscript, ioctl_retry_from_eintr by done. simpl.
  destruct (is_err a) eqn:Herr.
  { eexists None, bp, _. split; [reflexivity|]. simpl.
    do 6 (split; [done|]). split; [done|]. discriminate. }
  destruct (dqbuf_of a) as [[fd ts] flags] eqn:Hdq. simpl.
  pose proof (proj1 (proj2 Hq)) as Hil.
  pose proof (proj2 (proj2 (proj2 (proj2 (proj2 Hq))))) as Hfds.
  destruct (first_match (ents w) fd il)
    as [Hmiss | (l1 & be & l2 & Hsplit & Hfd & Hfirst)].
  - rewrite (queue_find_extract_fd_miss _ _ _ _ Hil Hfds Hmiss). simpl.
    eexists None, bp, _. split; [reflexivity|]. simpl.
    do 6 (split; [done|]). split; [discriminate|]. intros _. left.
    destruct w; done.
  - destruct (queue_find_extract_fd_hit _ _ _ _ _ _ _ Hil Hfds Hsplit Hfd Hfirst)
      as (h1 & bp1 & e & e1 & Hfind & _ & _ & Hnotin & He & He1 & Hn & Hp & Hpay).
    destruct (queue_inv_find_extract (ents w) bp fl il fd Hq)
      as (r & h2 & bp2 & il' & Hfind2 & Hq2 & Hcase).
    rewrite Hfind in Hfind2. injection Hfind2 as <- <- <-.
    destruct Hcase as [(Hr & _) | (be' & l1' & l2' & Hr & Hil' & -> & _ & Hbefl)];
      [discriminate Hr|].
    injection Hr as <-.
    assert (Hnd : NoDup (l1 ++ be :: l2)) by (rewrite <- Hsplit; apply Hil).
    rewrite Hsplit in Hil'.
    destruct (NoDup_split_unique _ _ _ _ _ Hnd Hil') as [<- <-].
    rewrite Hfind. simpl.
    rewrite (upd_Some _ _ _ _ He1). simpl. upd_again.
    rewrite insert_insert_eq.
    eexists (Some be), bp1, _. split; [reflexivity|]. simpl.
    do 6 (split; [done|]). split; [discriminate|]. intros _. right.
    exists be, l1, l2, e. eexists. split; [done|]. split; [done|].
    split; [done|]. split; [done|]. split.
    { eapply queue_inv_frame; [|exact Hq2]. intros p Hpin.
      rewrite lookup_insert_ne; [done|]. intros <-.
      apply elem_of_app in Hpin as [Hpin | Hpin]; [by apply Hbefl | by apply Hnotin]. }
    split; [done|]. split; [apply lookup_insert_eq|]. simpl.
    unfold payload in Hpay. injection Hpay as _ Hidx Hdh _.
    do 4 (split; [done|]). done.
Qed.

Lemma dequeue_demo_inv :
  queue_inv (ents dequeue_demo_world) queue_demo_bp [] [1%nat].
Proof.
  split; [split; [constructor | done]|].
  split; [exact (proj1 queue_demo_inuse_wf)|].
  split; [intros p Hp; by apply elem_of_nil in Hp|].
  split; [done|].
  split; [intros q Hq; by apply elem_of_nil in Hq|].
  exact (proj2 queue_demo_inuse_wf).
Qed.

Lemma qe_dequeue_outcome_witness :
  (queue_inv (ents dequeue_demo_world) queue_demo_bp [] [1%nat] ∧
   K.script (kern dequeue_demo_world)
     = replicate 1 (KErr EINTR) ++ KOkBuf 10 (Timeval 3 4) 0 :: [] ∧
   not_eintr (KOkBuf 10 (Timeval 3 4) 0)) ∧
  ∃ r bp' w',
    qe_dequeue dequeue_demo_world queue_demo_bp 3
      (demo_fmt V4L2_BUF_TYPE_VIDEO_CAPTURE_MPLANE) = Some (r, bp', w') ∧
    K.script (kern w') = [] ∧
    K.log (kern w') =
      [VIDIOC_DQBUF 3 V4L2_BUF_TYPE_VIDEO_CAPTURE_MPLANE;
       VIDIOC_DQBUF 3 V4L2_BUF_TYPE_VIDEO_CAPTURE_MPLANE].
Proof.
  split; [split; [exact dequeue_demo_inv | split; reflexivity]|].
  destruct (qe_dequeue_outcome dequeue_demo_world queue_demo_bp 3
              (demo_fmt V4L2_BUF_TYPE_VIDEO_CAPTURE_MPLANE) [] [1%nat]
              1 (KOkBuf 10 (Timeval 3 4) 0) []
              dequeue_demo_inv eq_refl eq_refl)
    as (r & bp' & w' & Hd & Hs & Hl & _).
  exists r, bp', w'. split; [exact Hd|]. split; [exact Hs | exact Hl].
Defined.

End completion.
(** ** Lifetime of the controller *)

Section controller_lifetime.

Lemma mediabufs_ctl_delete_ok w mbc c answers rest :
  ctls w !! mbc = Some c →
  K.script (kern w) = answers ++ rest →
  length answers = teardown_answers c →
  ∃ w',
    mediabufs_ctl_delete w (Some mbc) = Some w' ∧
    ctls w' = delete mbc (ctls w) ∧
    wlms w' = match Mbc.this_wlm c with
              | Some m => <[m := None]> (wlms w)
              | None => wlms w
              end ∧
    ents w' = ents w ∧ dsts w' = dsts w ∧ reqs w' = reqs w ∧
    pools w' = pools w ∧
    K.script (kern w') = rest ∧
    K.log (kern w') = K.log (kern w) ++ teardown_calls mbc c.
Proof.
  intros Hc Hs Hlen. unfold mediabufs_ctl_delete. rewrite Hc. simpl.
  unfold mediabufs_stream_off, teardown_calls, teardown_answers in *.
  unfold set_stream, request_buffers, env_call.
  destruct (Mbc.this_wlm c) as [m|]; simpl; rewrite lookup_insert_eq; simpl;
    (destruct (Mbc.stream_on c); simpl;
      [destruct answers as [|a1 [|a2 [|a3 [|a4 [|]]]]]; try discriminate Hlen
      |destruct answers as [|a1 [|a2 [|]]]; try discriminate Hlen]);
    simpl; rewrite ?Hs; simpl; rewrite ?lookup_insert_eq; simpl;
    (eexists; split; [reflexivity|]); simpl;
    rewrite ?insert_insert_eq, delete_insert_eq;
    do 7 (split; [done|]); rewrite <- !app_assoc; done.
Qed.

Lemma mediabufs_ctl_unref_eq w mbc c :
  ctls w !! mbc = Some c →
  mediabufs_ctl_unref w (Some mbc) =
  let w1 := set_ctls (<[mbc := Mbc.set_ref_count (Mbc.ref_count c - 1) c]>
                        (ctls w)) w in
  if Mbc.ref_count c =? 0
  then w' ← mediabufs_ctl_delete w1 (Some mbc); Some (None, w')
  else Some (None, w1).
Proof. intros Hc. unfold mediabufs_ctl_unref. by rewrite Hc. Qed.

(** X10.  Dropping a reference.  While other references remain, the count
    is decremented and nothing else happens.  Dropping the last one tears
    the controller down, whatever the driver answers on the way: the weak
    link is broken, so that no holder of an entry can reach the controller
    any more, the poll task is deleted, streaming is switched off if it was
    on, the driver's buffer tables are emptied and the device is closed, in
    this order; the entries themselves are left to their holders. *)
Theorem mediabufs_ctl_unref_outcome (w : world) (mbc : ptr)
    (c : Mbc.mediabufs_ctl) (Hc : ctls w !! mbc = Some c) :
  (Mbc.ref_count c ≠ 0 →
     mediabufs_ctl_unref w (Some mbc) =
       Some (None,
             set_ctls (<[mbc := Mbc.set_ref_count (Mbc.ref_count c - 1) c]>
                         (ctls w)) w)) ∧
  (Mbc.ref_count c = 0 →
   ∀ answers rest,
     K.script (kern w) = answers ++ rest →
     length answers = teardown_answers c →
     ∃ w',
       mediabufs_ctl_unref w (Some mbc) = Some (None, w') ∧
       ctls w' = delete mbc (ctls w) ∧
       (∀ m, Mbc.this_wlm c = Some m → ff_weak_link_lock w' (Some m) = None) ∧
       ents w' = ents w ∧ dsts w' = dsts w ∧
       K.script (kern w') = rest ∧
       K.log (kern w') = K.log (kern w) ++ teardown_calls mbc c).
Proof.
  split; intros Hn.
  - unfold mediabufs_ctl_unref. rewrite Hc. simpl.
    apply Z.eqb_neq in Hn. by rewrite Hn.
  - intros answers rest Hs Hlen.
    rewrite (mediabufs_ctl_unref_eq _ _ _ Hc), Hn.
    change (0 =? 0) with true. cbv zeta iota.
    destruct (mediabufs_ctl_delete_ok
                (set_ctls (<[mbc := Mbc.set_ref_count (0 - 1) c]> (ctls w)) w)
                mbc (Mbc.set_ref_count (0 - 1) c) answers rest)
      as (w' & Hdel & Hctl & Hw & He & Hd & _ & _ & Hrest & Hlog);
      [apply lookup_insert_eq | exact Hs | exact Hlen |].
    rewrite Hdel. simpl. eexists. split; [reflexivity|].
    simpl in *. rewrite delete_insert_eq in Hctl.
    split; [done|]. split; [|done].
    intros m Hm. unfold ff_weak_link_lock. simpl.
    rewrite Hw, Hm, lookup_insert_eq. done.
Qed.

Lemma mediabufs_ctl_unref_outcome_witness :
  ctls (ctl_demo_world [KErr 5; KErr 5]) !! 0%nat
    = Some (Mbc.Ctl 0 3 false false Bp.empty Bp.empty (Some 0%nat)
              (demo_fmt V4L2_BUF_TYPE_VIDEO_OUTPUT_MPLANE)
              (demo_fmt V4L2_BUF_TYPE_VIDEO_CAPTURE_MPLANE)) ∧
  ∃ w',
    mediabufs_ctl_unref (ctl_demo_world [KErr 5; KErr 5]) (Some 0%nat)
      = Some (None, w') ∧
    ctls w' = delete 0%nat (ctls (ctl_demo_world [KErr 5; KErr 5])) ∧
    K.log (kern w') =
      [polltask_delete (pt_ctl 0);
       VIDIOC_REQBUFS 3 V4L2_BUF_TYPE_VIDEO_OUTPUT_MPLANE V4L2_MEMORY_MMAP 0;
       VIDIOC_REQBUFS 3 V4L2_BUF_TYPE_VIDEO_CAPTURE_MPLANE V4L2_MEMORY_MMAP 0;
       SYS_close 3].
Proof.
  assert (Hc : ctls (ctl_demo_world [KErr 5; KErr 5]) !! 0%nat
    = Some (Mbc.Ctl 0 3 false false Bp.empty Bp.empty (Some 0%nat)
              (demo_fmt V4L2_BUF_TYPE_VIDEO_OUTPUT_MPLANE)
              (demo_fmt V4L2_BUF_TYPE_VIDEO_CAPTURE_MPLANE)))
    by (vm_compute; reflexivity).
  split; [exact Hc|].
  destruct (proj2 (mediabufs_ctl_unref_outcome _ 0%nat _ Hc) eq_refl
              [KErr 5; KErr 5] [] eq_refl eq_refl)
    as (w' & Hu & Hctl & _ & _ & _ & _ & Hlog).
  exists w'. split; [exact Hu|]. split; [exact Hctl | exact Hlog].
Defined.

(** X11.  Teardown and the entries that outlive it.  When the last
    reference to a controller is dropped while a consumer still holds one of
    its destination entries, freeing that entry afterwards deletes the
    entry: the handle of the weak link is given back, the condition
    variable and the mutex are destroyed, [dmabuf_free] is called on each
    of the [VIDEO_MAX_PLANES] plane slots in turn, and the entry is
    released; no call goes to the driver and no queue is touched. *)
Theorem qent_dst_free_after_last_unref (w : world) (v : E.env)
    (mbc m be : ptr)
    (c : Mbc.mediabufs_ctl) (d : Qe.qent_dst) (e : Qe.qent_base)
    (answers rest : list kres)
    (Hc : ctls w !! mbc = Some c) (Hn : Mbc.ref_count c = 0)
    (Hm : Mbc.this_wlm c = Some m)
    (Hd : dsts w !! be = Some d) (Hl : Qe.mbc_wl d = Some m)
    (He : ents w !! be = Some e)
    (Hplanes : length (Qe.dh e) = VIDEO_MAX_PLANES)
    (Hs : K.script (kern w) = answers ++ rest)
    (Hlen : length answers = teardown_answers c) :
  ∃ w1 w2,
    mediabufs_ctl_unref w (Some mbc) = Some (None, w1) ∧
    qent_dst_free w1 v (Some be)
      = Some (None, w2,
              E.Env (E.script v)
                (E.log v ++
                 [weak_link_unref (Some m); pthread_cond_destroy be;
                  pthread_mutex_destroy be] ++
                 (dmabuf_free <$> Qe.dh e))) ∧
    ents w2 = delete be (ents w) ∧ dsts w2 = delete be (dsts w) ∧
    ctls w2 = delete mbc (ctls w) ∧ kern w2 = kern w1.
Proof.
  rewrite (mediabufs_ctl_unref_eq _ _ _ Hc), Hn.
  change (0 =? 0) with true. cbv zeta iota.
  destruct (mediabufs_ctl_delete_ok
              (set_ctls (<[mbc := Mbc.set_ref_count (0 - 1) c]> (ctls w)) w)
              mbc (Mbc.set_ref_count (0 - 1) c) answers rest)
    as (w1 & Hdel & Hctl & Hw & Hents & Hdsts & _ & _ & _ & _);
    [apply lookup_insert_eq | exact Hs | exact Hlen |].
  rewrite Hdel. simpl in Hctl, Hw, Hents, Hdsts. simpl.
  assert (Hd1 : dsts w1 !! be = Some d) by (by rewrite Hdsts).
  assert (He1 : ents w1 !! be = Some e) by (by rewrite Hents).
  pose proof (qent_dst_delete_spec w1 v be d e Hd1 He1 Hplanes) as Hdelete.
  assert (Hlock : ff_weak_link_lock w1 (Qe.mbc_wl d) = None).
  { unfold ff_weak_link_lock. rewrite Hl. simpl.
    by rewrite Hw, Hm, lookup_insert_eq. }
  assert (Hfree : qent_dst_free w1 v (Some be) =
                  Some (None, set_dsts (delete be (dsts w1))
                                (set_ents (delete be (ents w1)) w1),
                        E.Env (E.script v)
                          (E.log v ++
                           [weak_link_unref (Some m); pthread_cond_destroy be;
                            pthread_mutex_destroy be] ++
                           (dmabuf_free <$> Qe.dh e)))).
  { unfold qent_dst_free. rewrite Hd1.
    change (Some d ≫= ?f) with (f d). cbv beta.
    rewrite Hlock, Hdelete, Hl. done. }
  exists w1. eexists. split; [reflexivity|]. split; [exact Hfree|]. simpl.
  rewrite Hents, Hdsts, Hctl, delete_insert_eq. done.
Qed.

Lemma qent_dst_free_after_last_unref_witness :
  ∃ w1 w2,
    mediabufs_ctl_unref (ctl_demo_world [KOk; KOk]) (Some 0%nat)
      = Some (None, w1) ∧
    qent_dst_free w1 (E.Env [] []) (Some 2%nat)
      = Some (None, w2,
              E.Env []
                ([weak_link_unref (Some 0%nat); pthread_cond_destroy 2;
                  pthread_mutex_destroy 2] ++
                 (dmabuf_free <$> demo_planes 11 0))) ∧
    ents w2 = delete 2%nat (ents (ctl_demo_world [KOk; KOk])) ∧
    dsts w2 = delete 2%nat (dsts (ctl_demo_world [KOk; KOk])) ∧
    ctls w2 = delete 0%nat (ctls (ctl_demo_world [KOk; KOk])) ∧
    kern w2 = kern w1.
Proof.
  apply (qent_dst_free_after_last_unref (ctl_demo_world [KOk; KOk])
           (E.Env [] []) 0%nat 0%nat 2%nat
           (Mbc.Ctl 0 3 false false Bp.empty Bp.empty (Some 0%nat)
              (demo_fmt V4L2_BUF_TYPE_VIDEO_OUTPUT_MPLANE)
              (demo_fmt V4L2_BUF_TYPE_VIDEO_CAPTURE_MPLANE))
           (Qe.Dst false (Some 0%nat))
           (Qe.Base None None QENT_NEW 1 (demo_planes 11 0) (Timeval 7 8))
           [KOk; KOk] []);
    try reflexivity; vm_compute; reflexivity.
Defined.

End controller_lifetime.
(** ** Streaming and polling *)

Section streaming_polling.

(** X12.  [mediabufs_stream_on] is all or nothing.  On a controller that
    is already streaming it does nothing.  Otherwise it switches the source
    direction on and then the destination direction: when the source is
    refused the destination is not attempted; when the destination is
    refused the source is switched off again; and the streaming flag is set
    only when both were accepted, the controller being unchanged in the two
    failure cases. *)
Theorem mediabufs_stream_on_outcome (w : world) (mbc : ptr)
    (c : Mbc.mediabufs_ctl) (Hc : ctls w !! mbc = Some c) :
  (Mbc.stream_on c = true →
     mediabufs_stream_on w mbc = Some (MEDIABUFS_STATUS_SUCCESS, w)) ∧
  (Mbc.stream_on c = false →
   (∀ a1 rest,
      K.script (kern w) = a1 :: rest → reports_failure a1 = true →
      ∃ w',
        mediabufs_stream_on w mbc = Some (MEDIABUFS_ERROR_OPERATION_FAILED, w') ∧
        ctls w' = ctls w ∧ K.script (kern w') = rest ∧
        K.log (kern w') =
          K.log (kern w) ++
            [VIDIOC_STREAMON (Mbc.vfd c) (Fmt.type (Mbc.src_fmt c))]) ∧
   (∀ a1 a2 a3 rest,
      K.script (kern w) = a1 :: a2 :: a3 :: rest →
      reports_failure a1 = false → reports_failure a2 = true →
      ∃ w',
        mediabufs_stream_on w mbc = Some (MEDIABUFS_ERROR_OPERATION_FAILED, w') ∧
        ctls w' = ctls w ∧ K.script (kern w') = rest ∧
        K.log (kern w') =
          K.log (kern w) ++
            [VIDIOC_STREAMON (Mbc.vfd c) (Fmt.type (Mbc.src_fmt c));
             VIDIOC_STREAMON (Mbc.vfd c) (Fmt.type (Mbc.dst_fmt c));
             VIDIOC_STREAMOFF (Mbc.vfd c) (Fmt.type (Mbc.src_fmt c))]) ∧
   (∀ a1 a2 rest,
      K.script (kern w) = a1 :: a2 :: rest →
      reports_failure a1 = false → reports_failure a2 = false →
      ∃ w',
        mediabufs_stream_on w mbc = Some (MEDIABUFS_STATUS_SUCCESS, w') ∧
        ctls w' = <[mbc := Mbc.set_stream_on true c]> (ctls w) ∧
        K.script (kern w') = rest ∧
        K.log (kern w') =
          K.log (kern w) ++
            [VIDIOC_STREAMON (Mbc.vfd c) (Fmt.type (Mbc.src_fmt c));
             VIDIOC_STREAMON (Mbc.vfd c) (Fmt.type (Mbc.dst_fmt c))])).
Proof.
  split; [|intros Hoff; split; [|split]];
    unfold mediabufs_stream_on; rewrite Hc; simpl; [|rewrite Hoff..].
  - by intros ->.
  - intros a1 rest Hs Ha1. unfold set_stream, env_call. rewrite Hs. simpl.
    rewrite set_stream_negative, Ha1. eexists. split; [reflexivity|]. done.
  - intros a1 a2 a3 rest Hs Ha1 Ha2. unfold set_stream, env_call.
    rewrite Hs. simpl. rewrite set_stream_negative, Ha1. simpl.
    rewrite set_stream_negative, Ha2. simpl.
    eexists. split; [reflexivity|]. simpl. do 2 (split; [done|]).
    by rewrite <- !app_assoc.
  - intros a1 a2 rest Hs Ha1 Ha2. unfold set_stream, env_call.
    rewrite Hs. simpl. rewrite set_stream_negative, Ha1. simpl.
    rewrite set_stream_negative, Ha2. simpl.
    eexists. split; [reflexivity|]. simpl. do 2 (split; [done|]).
    by rewrite <- !app_assoc.
Qed.

Lemma mediabufs_stream_on_outcome_witness :
  ctls (ctl_demo_world [KOk; KErr 5; KOk]) !! 0%nat
    = Some (Mbc.Ctl 0 3 false false Bp.empty Bp.empty (Some 0%nat)
              (demo_fmt V4L2_BUF_TYPE_VIDEO_OUTPUT_MPLANE)
              (demo_fmt V4L2_BUF_TYPE_VIDEO_CAPTURE_MPLANE)) ∧
  ∃ w',
    mediabufs_stream_on (ctl_demo_world [KOk; KErr 5; KOk]) 0
      = Some (MEDIABUFS_ERROR_OPERATION_FAILED, w') ∧
    ctls w' = ctls (ctl_demo_world [KOk; KErr 5; KOk]) ∧
    K.log (kern w') =
      [VIDIOC_STREAMON 3 V4L2_BUF_TYPE_VIDEO_OUTPUT_MPLANE;
       VIDIOC_STREAMON 3 V4L2_BUF_TYPE_VIDEO_CAPTURE_MPLANE;
       VIDIOC_STREAMOFF 3 V4L2_BUF_TYPE_VIDEO_OUTPUT_MPLANE].
Proof.
  assert (Hc : ctls (ctl_demo_world [KOk; KErr 5; KOk]) !! 0%nat
    = Some (Mbc.Ctl 0 3 false false Bp.empty Bp.empty (Some 0%nat)
              (demo_fmt V4L2_BUF_TYPE_VIDEO_OUTPUT_MPLANE)
              (demo_fmt V4L2_BUF_TYPE_VIDEO_CAPTURE_MPLANE)))
    by (vm_compute; reflexivity).
  split; [exact Hc|].
  destruct (proj1 (proj2 (proj2 (mediabufs_stream_on_outcome _ 0%nat _ Hc)
                            eq_refl))
              KOk (KErr 5) KOk [] eq_refl eq_refl eq_refl)
    as (w' & Hon & Hctl & _ & Hlog).
  exists w'. split; [exact Hon|]. split; [exact Hctl | exact Hlog].
Defined.

Lemma queue_put_free_keeps_inuse h bp be h1 bp1 :
  queue_put_free h bp be = Some (h1, bp1) →
  Bp.inuse_head bp1 = Bp.inuse_head bp ∧ Bp.inuse_tail bp1 = Bp.inuse_tail bp.
Proof.
  unfold queue_put_free, bq_put_free.
  destruct (upd h be _) as [h2|]; [|done]. simpl.
  destruct (upd h2 be _) as [h3|]; [|done]. simpl.
  destruct (Bp.free_tail bp) as [t|]; simpl.
  - destruct (upd h3 t _) as [h4|]; [|done]. simpl.
    destruct (upd h4 be _) as [h5|]; [|done]. simpl.
    destruct (upd h5 be _) as [h6|]; [|done]. simpl.
    by intros [= _ <-].
  - destruct (upd h3 be _) as [h5|]; [|done]. simpl.
    destruct (upd h5 be _) as [h6|]; [|done]. simpl.
    by intros [= _ <-].
Qed.

Lemma qe_dequeue_frame w bp vfd f r bp' w' :
  qe_dequeue w bp vfd f = Some (r, bp', w') →
  ctls w' = ctls w ∧ dsts w' = dsts w.
Proof.
  unfold qe_dequeue.
  destruct (ioctl_retry _ _) as [[a k]|]; [|done]. simpl.
  destruct (is_err a); [by intros [= _ _ <-]|].
  destruct (dqbuf_of a) as [[fd ts] flags].
  destruct (queue_find_extract_fd _ _ _) as [[[be h] bp1]|]; [|done]. simpl.
  destruct be as [p|]; [|by intros [= _ _ <-]].
  destruct (upd h p _) as [h2|]; [|done]. simpl.
  destruct (upd h2 p _) as [h3|]; [|done]. simpl.
  by intros [= _ _ <-].
Qed.

Lemma ctl_delete_removes w mbc w' :
  mediabufs_ctl_delete w (Some mbc) = Some w' → ctls w' !! mbc = None.
Proof.
  unfold mediabufs_ctl_delete.
  destruct (ctls w !! mbc) as [c|]; [|done]. simpl.
  destruct (mediabufs_stream_off _ _) as [[st w1]|]; [|done]. simpl.
  destruct (ctls w1 !! mbc) as [c1|]; [|done]. simpl.
  destruct (request_buffers _ _ _ _ _) as [[r1 k1]|]; [|done]. simpl.
  destruct (request_buffers _ _ _ _ _) as [[r2 k2]|]; [|done]. simpl.
  intros [= <-]. simpl. apply lookup_delete_eq.
Qed.

(** Recycling a source entry, as the poll callback and the failure path of
    a submission do it, changes the free list of the source queue only. *)
Lemma recycle_src_frame w mbc s c w' :
  ctls w !! mbc = Some c →
  (c ← ctls w !! mbc;
   '(h, bp) ← queue_put_free (ents w) (Mbc.src c) s;
   put_src (set_ents h w) mbc bp) = Some w' →
  ∃ c', ctls w' !! mbc = Some c' ∧
    Mbc.polling c' = Mbc.polling c ∧ Mbc.ref_count c' = Mbc.ref_count c ∧
    mediabufs_wants_poll c' = mediabufs_wants_poll c ∧
    Mbc.dst c' = Mbc.dst c ∧ kern w' = kern w ∧ dsts w' = dsts w.
Proof.
  intros Hc. rewrite Hc. simpl.
  destruct (queue_put_free _ _ _) as [[h bp]|] eqn:Hput; [|done]. simpl.
  apply queue_put_free_keeps_inuse in Hput as [Hh Ht].
  unfold put_src. simpl. rewrite Hc. simpl. intros [= <-]. simpl.
  eexists. split; [apply lookup_insert_eq|]. simpl.
  do 2 (split; [done|]). split; [|done].
  unfold mediabufs_wants_poll, queue_is_inuse. simpl. by rewrite Ht.
Qed.

Lemma poll_src_stage w mbc c (b : bool) r w1 :
  ctls w !! mbc = Some c →
  (if b then Some (None, w)
   else qe_dequeue w (Mbc.src c) (Mbc.vfd c) (Mbc.src_fmt c)
        ≫= λ '(be, bp, w), put_src w mbc bp ≫= λ w0 : world, Some (be, w0))
    = Some (r, w1) →
  ∃ c1, ctls w1 !! mbc = Some c1 ∧
    Mbc.polling c1 = Mbc.polling c ∧ Mbc.ref_count c1 = Mbc.ref_count c.
Proof.
  intros Hc. destruct b.
  - intros [= <- <-]. by exists c.
  - destruct (qe_dequeue _ _ _ _) as [[[be bp] w2]|] eqn:Hdq; [|done]. simpl.
    apply qe_dequeue_frame in Hdq as [Hctl _].
    unfold put_src. rewrite Hctl, Hc. simpl. intros [= <- <-]. simpl.
    eexists. split; [apply lookup_insert_eq|]. done.
Qed.

Lemma poll_dst_stage w mbc c (b : bool) r w1 :
  ctls w !! mbc = Some c →
  (if b then Some (None, w)
   else qe_dequeue w (Mbc.dst c) (Mbc.vfd c) (Mbc.dst_fmt c)
        ≫= λ '(be, bp, w), put_dst w mbc bp ≫= λ w0 : world, Some (be, w0))
    = Some (r, w1) →
  ∃ c1, ctls w1 !! mbc = Some c1 ∧
    Mbc.polling c1 = Mbc.polling c ∧ Mbc.ref_count c1 = Mbc.ref_count c.
Proof.
  intros Hc. destruct b.
  - intros [= <- <-]. by exists c.
  - destruct (qe_dequeue _ _ _ _) as [[[be bp] w2]|] eqn:Hdq; [|done]. simpl.
    apply qe_dequeue_frame in Hdq as [Hctl _].
    unfold put_dst. rewrite Hctl, Hc. simpl. intros [= <- <-]. simpl.
    eexists. split; [apply lookup_insert_eq|]. done.
Qed.

(** The tail of the poll callback: the source entry dequeued, if any, is
    recycled, and the destination entry dequeued, if any, is signalled. *)
Lemma poll_release_stage w mbc c src_be dst_be w5 :
  ctls w !! mbc = Some c →
  (match src_be with
   | Some s =>
       c ← ctls w !! mbc;
       '(h, bp) ← queue_put_free (ents w) (Mbc.src c) s;
       put_src (set_ents h w) mbc bp
   | None => Some w
   end ≫= λ w, match dst_be with
               | Some d => qe_dst_done w d
               | None => Some w
               end) = Some w5 →
  ∃ c', ctls w5 !! mbc = Some c' ∧
    Mbc.polling c' = Mbc.polling c ∧ Mbc.ref_count c' = Mbc.ref_count c ∧
    mediabufs_wants_poll c' = mediabufs_wants_poll c ∧ kern w5 = kern w.
Proof.
  intros Hc Hrel.
  destruct (match src_be with Some s => _ | None => _ end)
    as [w4|] eqn:Hsrc; [|done]. simpl in Hrel.
  assert (H4 : ∃ c', ctls w4 !! mbc = Some c' ∧
    Mbc.polling c' = Mbc.polling c ∧ Mbc.ref_count c' = Mbc.ref_count c ∧
    mediabufs_wants_poll c' = mediabufs_wants_poll c ∧ kern w4 = kern w).
  { destruct src_be as [s|].
    - destruct (recycle_src_frame _ _ _ _ _ Hc Hsrc)
        as (c' & H1 & H2 & H3 & H4 & _ & H5 & _).
      by exists c'.
    - injection Hsrc as <-. by exists c. }
  destruct H4 as (c' & H1 & H2 & H3 & H4 & H5).
  destruct dst_be as [d|].
  - unfold qe_dst_done in Hrel.
    destruct (dsts w4 !! d) as [dd|]; [|done]. simpl in Hrel.
    injection Hrel as <-. by exists c'.
  - injection Hrel as <-. by exists c'.
Qed.

Opaque mediabufs_ctl_unref mediabufs_ctl_delete.

(** X13.  The poll callback and the reference the poll holds.  After the
    callback the polling flag says exactly whether an entry is still in
    use in one of the two queues.  If so, the poll task has been added
    again as the last call, and the reference count is as before;
    otherwise the callback has dropped the reference that the armed poll
    held, which deletes the controller when it was the last one. *)
Theorem mediabufs_poll_cb_rearm (w : world) (mbc : ptr) (revents : Z)
    (c : Mbc.mediabufs_ctl) (w' : world)
    (Hc : ctls w !! mbc = Some c)
    (Hcb : mediabufs_poll_cb w mbc revents = Some w') :
  match ctls w' !! mbc with
  | Some c' =>
      Mbc.polling c' = mediabufs_wants_poll c' ∧
      (Mbc.polling c' = true →
         Mbc.ref_count c' = Mbc.ref_count c ∧
         ∃ pre, K.log (kern w') =
                pre ++ [pollqueue_add_task (pt_ctl mbc) 2000]) ∧
      (Mbc.polling c' = false →
         Mbc.ref_count c' = Mbc.ref_count c - 1 ∧ Mbc.ref_count c ≠ 0)
  | None => Mbc.ref_count c = 0
  end.
Proof.
  unfold mediabufs_poll_cb in Hcb. rewrite Hc in Hcb. simpl in Hcb.
  destruct (if Z.land revents POLLOUT =? 0 then _ else _)
    as [[src_be w1]|] eqn:Hsrc; [|done].
  simpl in Hcb.
  apply (poll_src_stage _ mbc (Mbc.set_polling false c)) in Hsrc
    as (c1 & Hc1 & Hp1 & Hr1); [|apply lookup_insert_eq].
  rewrite Hc1 in Hcb. simpl in Hcb.
  destruct (if Z.land revents POLLIN =? 0 then _ else _)
    as [[dst_be w2]|] eqn:Hdst; [|done].
  simpl in Hcb.
  apply (poll_dst_stage _ mbc c1) in Hdst as (c2 & Hc2 & Hp2 & Hr2); [|done].
  rewrite Hc2 in Hcb. simpl in Hcb. simpl in Hp1, Hr1.
  destruct (mediabufs_wants_poll c2) eqn:Hq.
  - destruct (match src_be with Some s => _ | None => _ end)
      as [w4|] eqn:Hrel4; [|done]. simpl in Hcb.
    destruct (match dst_be with Some d => _ | None => _ end)
      as [w5|] eqn:Hrel5; [|done]. simpl in Hcb. injection Hcb as <-.
    destruct (poll_release_stage
                (set_kern (env_note (kern w2) (pollqueue_add_task (pt_ctl mbc) 2000))
                   (set_ctls (<[mbc := Mbc.set_polling true c2]> (ctls w2)) w2))
                mbc (Mbc.set_polling true c2) src_be dst_be w5)
      as (c' & Hc' & Hp' & Hr' & Hw' & Hk'); [apply lookup_insert_eq| |].
    { rewrite Hrel4. simpl. exact Hrel5. }
    rewrite Hc'. simpl in *.
    assert (Hw2 : mediabufs_wants_poll c' = true) by (by rewrite Hw').
    rewrite Hp', Hw2. split; [done|]. split.
    + intros _. split; [congruence|]. rewrite Hk'. by eexists.
    + discriminate.
  - destruct (match src_be with Some s => _ | None => _ end)
      as [w4|] eqn:Hrel4; [|done]. simpl in Hcb.
    destruct (match dst_be with Some d => _ | None => _ end)
      as [w5|] eqn:Hrel5; [|done]. simpl in Hcb.
    destruct (poll_release_stage w2 mbc c2 src_be dst_be w5 Hc2)
      as (c5 & Hc5 & Hp5 & Hr5 & Hw5 & Hk5).
    { rewrite Hrel4. simpl. exact Hrel5. }
    rewrite (mediabufs_ctl_unref_eq _ _ _ Hc5) in Hcb. cbv zeta in Hcb.
    destruct (Mbc.ref_count c5 =? 0) eqn:Hn.
    + apply Z.eqb_eq in Hn.
      destruct (mediabufs_ctl_delete _ _) as [w6|] eqn:Hdel; [|done].
      simpl in Hcb. injection Hcb as <-.
      rewrite (ctl_delete_removes _ _ _ Hdel). congruence.
    + apply Z.eqb_neq in Hn. simpl in Hcb. injection Hcb as <-. simpl.
      rewrite lookup_insert_eq. simpl.
      assert (Hpf : Mbc.polling c5 = false) by congruence.
      unfold mediabufs_wants_poll in *. simpl. rewrite Hpf, Hw5, Hq.
      split; [done|]. split; [discriminate|]. intros _. split; congruence.
Qed.

Transparent mediabufs_ctl_unref mediabufs_ctl_delete.

Lemma mediabufs_poll_cb_rearm_witness :
  ∃ c,
    ctls (demo_submitted 0) !! 0%nat = Some c ∧
    mediabufs_poll_cb (demo_submitted 0) 0 POLLIN = Some (demo_completed 0) ∧
    match ctls (demo_completed 0) !! 0%nat with
    | Some c' =>
        Mbc.polling c' = mediabufs_wants_poll c' ∧
        (Mbc.polling c' = true →
           Mbc.ref_count c' = Mbc.ref_count c ∧
           ∃ pre, K.log (kern (demo_completed 0)) =
                  pre ++ [pollqueue_add_task (pt_ctl 0) 2000]) ∧
        (Mbc.polling c' = false →
           Mbc.ref_count c' = Mbc.ref_count c - 1 ∧ Mbc.ref_count c ≠ 0)
    | None => Mbc.ref_count c = 0
    end.
Proof.
  eexists. split; [vm_compute; reflexivity|].
  split; [vm_compute; reflexivity|].
  apply (mediabufs_poll_cb_rearm (demo_submitted 0) 0%nat POLLIN _
           (demo_completed 0)); vm_compute; reflexivity.
Defined.

End streaming_polling.
(** ** Submission *)

Section submission.

Implicit Types (h : gmap nat Qe.qent_base) (l sl dl : list nat).

Lemma ioctl_retry_one k c a rest :
  K.script k = a :: rest → not_eintr a →
  ioctl_retry k c = Some (a, K.Kernel rest (K.log k ++ [c])).
Proof.
  intros Hs Ha. unfold ioctl_retry. rewrite Hs.
  exact (ioctl_retry_from_eintr 0 a rest (K.log k) c Ha).
Qed.

Opaque queue_planes_from queue_put_inuse.

(** What [qe_v4l2_queue] hands to the driver for an entry whose first plane
    is populated, and what it leaves in the entry. *)
Lemma qe_v4l2_queue_ok w be vfd mreq fmt (is_dst hold : bool) e d0 a rest :
  ents w !! be = Some e →
  Qe.dh e !! 0%nat = Some (Some d0) →
  match mreq with Some req => is_Some (reqs w !! req) | None => True end →
  K.script (kern w) = a :: rest → not_eintr a →
  ∃ buf e',
    qe_v4l2_queue w be vfd mreq fmt is_dst hold =
      Some (if is_err a then - errno_of a else 0,
            set_kern (K.Kernel rest (K.log (kern w) ++ [VIDIOC_QBUF vfd buf]))
              (set_ents (<[be := e']> (ents w)) w)) ∧
    Qe.next e' = Qe.next e ∧ Qe.prev e' = Qe.prev e ∧
    Qe.status e' = Qe.status e ∧ Qe.index e' = Qe.index e ∧
    Qe.timestamp e' = (if is_dst then timeval_zero else Qe.timestamp e) ∧
    Buf.type buf = Fmt.type fmt ∧ Buf.memory buf = V4L2_MEMORY_DMABUF ∧
    Buf.index buf = Qe.index e ∧ Buf.timestamp buf = Qe.timestamp e' ∧
    Buf.flags buf =
      match mreq with
      | Some _ =>
          if is_dst then 0
          else Z.lor V4L2_BUF_FLAG_REQUEST_FD
                 (if hold then V4L2_BUF_FLAG_M2M_HOLD_CAPTURE_BUF else 0)
      | None => 0
      end ∧
    Buf.request_fd buf =
      match mreq with
      | Some req => if is_dst then 0 else default 0 (Req.fd <$> reqs w !! req)
      | None => 0
      end.
Proof.
  intros He Hd0 Hreq Hs Ha. unfold qe_v4l2_queue. rewrite He. simpl.
  destruct (if V4L2_TYPE_IS_MULTIPLANAR (Fmt.type fmt) then _ else _)
    as [[dh m]|] eqn:Hm.
  2: { exfalso. destruct (V4L2_TYPE_IS_MULTIPLANAR _).
       - by destruct (queue_planes_from _ _ _ _ _) as [[dh planes] i].
       - rewrite Hd0 in Hm. discriminate Hm. }
  clear Hm. simpl.
  destruct mreq as [req|]; [destruct is_dst|]; simpl.
  - rewrite (ioctl_retry_one _ _ _ _ Hs Ha). simpl.
    eexists _, _. split; [reflexivity|]. done.
  - destruct Hreq as [r Hr]. unfold media_request_fd. rewrite Hr. simpl.
    rewrite (ioctl_retry_one _ _ _ _ Hs Ha). simpl.
    eexists _, _. split; [reflexivity|]. done.
  - rewrite (ioctl_retry_one _ _ _ _ Hs Ha). simpl.
    eexists _, _. split; [reflexivity|]. simpl. by destruct is_dst.
Qed.


(** The destination part of a submission that the driver accepts. *)
Lemma start_request_dst_ok w mbc d c ed dd0 dd dl a1 rest1 :
  ctls w !! mbc = Some c →
  ents w !! d = Some ed → Qe.dh ed !! 0%nat = Some (Some dd0) →
  dsts w !! d = Some dd → Qe.waiting dd = false →
  dlist (ents w) dl (Bp.inuse_head (Mbc.dst c)) (Bp.inuse_tail (Mbc.dst c)) →
  d ∉ dl →
  K.script (kern w) = a1 :: rest1 → is_err a1 = false →
  ∃ w1 bp1 bd ed1,
    start_request_dst w mbc (Some d) = Some (true, w1) ∧
    kern w1 = K.Kernel rest1 (K.log (kern w) ++ [VIDIOC_QBUF (Mbc.vfd c) bd]) ∧
    Buf.type bd = Fmt.type (Mbc.dst_fmt c) ∧ Buf.index bd = Qe.index ed ∧
    Buf.timestamp bd = timeval_zero ∧ Buf.flags bd = 0 ∧
    Buf.request_fd bd = 0 ∧
    ctls w1 = <[mbc := Mbc.set_dst bp1 c]> (ctls w) ∧
    dlist (ents w1) (dl ++ [d]) (Bp.inuse_head bp1) (Bp.inuse_tail bp1) ∧
    Bp.free_head bp1 = Bp.free_head (Mbc.dst c) ∧
    Bp.free_tail bp1 = Bp.free_tail (Mbc.dst c) ∧
    Bp.free_sem bp1 = Bp.free_sem (Mbc.dst c) ∧
    ents w1 !! d = Some ed1 ∧ Qe.status ed1 = QENT_WAITING ∧
    Qe.timestamp ed1 = timeval_zero ∧ Qe.index ed1 = Qe.index ed ∧
    (∀ p, p ∉ dl → p ≠ d → ents w1 !! p = ents w !! p) ∧
    dsts w1 = <[d := Qe.set_waiting true dd]> (dsts w) ∧
    reqs w1 = reqs w ∧ pools w1 = pools w.
Proof.
  intros Hc Hed Hd0 Hdd Hwait Hdl Hd Hs Ha1.
  unfold start_request_dst, qe_dst_waiting. rewrite Hdd. simpl.
  rewrite Hwait. rewrite (upd_Some _ _ _ _ Hed). simpl. rewrite Hc. simpl.
  destruct (qe_v4l2_queue_ok
              (set_ents (<[d := Qe.set_timestamp timeval_zero ed]> (ents w))
                 (set_dsts (<[d := Qe.set_waiting true dd]> (dsts w)) w))
              d (Mbc.vfd c) None (Mbc.dst_fmt c) true false
              (Qe.set_timestamp timeval_zero ed) dd0 a1 rest1)
    as (bd & e' & Hq & Hn & Hp & Hst & Hidx & Hts & Hbt & _ & Hbi & Hbts & Hbf & Hbr);
    [apply lookup_insert_eq | exact Hd0 | exact I | exact Hs
    | unfold not_eintr; by rewrite Ha1 |].
  rewrite Hq. rewrite Ha1. simpl. rewrite insert_insert_eq.
  destruct (queue_put_inuse_spec (<[d := e']> (ents w)) (Mbc.dst c) dl d e')
    as (h1 & bp1 & e1 & Hput & Hdl1 & Hfh & Hft & Hfs & He1 & He1s & He1i & _ & He1t
        & _ & Hframe);
    [|exact Hd|apply lookup_insert_eq|].
  { eapply dlist_frame; [|exact Hdl]. intros p Hp'.
    rewrite lookup_insert_ne; [done|]. by intros <-. }
  rewrite Hput. simpl. unfold put_dst. simpl. rewrite Hc. simpl.
  exists (set_ctls (<[mbc := Mbc.set_dst bp1 c]> (ctls w))
            (set_ents h1
               (set_kern (K.Kernel rest1
                            (K.log (kern w) ++ [VIDIOC_QBUF (Mbc.vfd c) bd]))
                  (set_ents (<[d := e']> (ents w))
                     (set_dsts (<[d := Qe.set_waiting true dd]> (dsts w)) w))))),
    bp1, bd, e1.
  split; [reflexivity|]. simpl.
  split; [done|]. split; [done|]. split; [by rewrite Hbi|].
  split; [by rewrite Hbts, Hts|]. do 3 (split; [done|]).
  do 4 (split; [done|]). split; [done|]. split; [done|].
  split; [by rewrite He1t, Hts|]. split; [by rewrite He1i, Hidx|].
  split; [|done].
  intros p Hp1 Hp2. rewrite Hframe by done. by rewrite lookup_insert_ne.
Qed.

Opaque start_request_dst qe_v4l2_queue.

(** X14.  A submission the driver accepts.  The destination buffer is
    queued first, with a zero timestamp and bound to no request; then the
    source buffer, bound to the request, with the hold flag exactly when
    the submission is not final; the poll of the controller is armed, with
    a reference taken, unless it was armed already; and the request is
    queued last.  Both entries are then at the tail of their in-use lists
    in status waiting.  If the driver refuses the request itself at that
    point, the call reports failure with both buffers still queued and in
    use, and the request handle, which the caller has given up, is not
    returned to its pool. *)
Theorem mediabufs_start_request_submits (w : world) (mbc req s d : ptr)
    (is_final : bool) (c : Mbc.mediabufs_ctl) (r : Req.media_request)
    (es ed : Qe.qent_base) (ds0 dd0 : dmabuf_h) (dd : Qe.qent_dst)
    (sl dl : list ptr) (a1 a2 a3 : kres) (rest : list kres)
    (Hc : ctls w !! mbc = Some c)
    (Hr : reqs w !! req = Some r) (Hp : is_Some (pools w !! Req.mp r))
    (Hes : ents w !! s = Some es) (Hs0 : Qe.dh es !! 0%nat = Some (Some ds0))
    (Hed : ents w !! d = Some ed) (Hd0 : Qe.dh ed !! 0%nat = Some (Some dd0))
    (Hdd : dsts w !! d = Some dd) (Hwait : Qe.waiting dd = false)
    (Hsl : dlist (ents w) sl
             (Bp.inuse_head (Mbc.src c)) (Bp.inuse_tail (Mbc.src c)))
    (Hdl : dlist (ents w) dl
             (Bp.inuse_head (Mbc.dst c)) (Bp.inuse_tail (Mbc.dst c)))
    (Hdisj : ∀ p, p ∈ sl → p ∉ dl)
    (Hsd : s ≠ d) (Hs : s ∉ sl ++ dl) (Hd : d ∉ sl ++ dl)
    (Hscript : K.script (kern w) = a1 :: a2 :: a3 :: rest)
    (Ha1 : is_err a1 = false) (Ha2 : is_err a2 = false)
    (Ha3 : not_eintr a3) (Herrno : is_err a3 = true → errno_of a3 ≠ 0) :
  ∃ w' c' bd bs es' ed',
    mediabufs_start_request w mbc (Some req) (Some s) (Some d) is_final =
      Some (if is_err a3 then MEDIABUFS_ERROR_OPERATION_FAILED
            else MEDIABUFS_STATUS_SUCCESS, None, None, w') ∧
    K.script (kern w') = rest ∧
    K.log (kern w') =
      K.log (kern w) ++
        [VIDIOC_QBUF (Mbc.vfd c) bd; VIDIOC_QBUF (Mbc.vfd c) bs] ++
        (if Mbc.polling c then [] else [pollqueue_add_task (pt_ctl mbc) 2000]) ++
        MEDIA_REQUEST_IOC_QUEUE (Req.fd r) ::
        (if is_err a3 then [] else [pollqueue_add_task (pt_request req) 2000]) ∧
    (Buf.type bd = Fmt.type (Mbc.dst_fmt c) ∧ Buf.index bd = Qe.index ed ∧
     Buf.timestamp bd = timeval_zero ∧ Buf.flags bd = 0 ∧
     Buf.request_fd bd = 0) ∧
    (Buf.type bs = Fmt.type (Mbc.src_fmt c) ∧ Buf.index bs = Qe.index es ∧
     Buf.timestamp bs = Qe.timestamp es ∧
     Buf.flags bs =
       Z.lor V4L2_BUF_FLAG_REQUEST_FD
         (if is_final then 0 else V4L2_BUF_FLAG_M2M_HOLD_CAPTURE_BUF) ∧
     Buf.request_fd bs = Req.fd r) ∧
    ctls w' !! mbc = Some c' ∧ Mbc.polling c' = true ∧
    Mbc.ref_count c' =
      (if Mbc.polling c then Mbc.ref_count c else Mbc.ref_count c + 1) ∧
    dlist (ents w') (sl ++ [s])
      (Bp.inuse_head (Mbc.src c')) (Bp.inuse_tail (Mbc.src c')) ∧
    dlist (ents w') (dl ++ [d])
      (Bp.inuse_head (Mbc.dst c')) (Bp.inuse_tail (Mbc.dst c')) ∧
    ents w' !! s = Some es' ∧ Qe.status es' = QENT_WAITING ∧
    ents w' !! d = Some ed' ∧ Qe.status ed' = QENT_WAITING ∧
    dsts w' !! d = Some (Qe.set_waiting true dd) ∧
    reqs w' = reqs w ∧ pools w' = pools w.
Proof.
  assert (Hsdl : s ∉ dl) by (intros H; apply Hs, elem_of_app; by right).
  assert (Hssl : s ∉ sl) by (intros H; apply Hs, elem_of_app; by left).
  assert (Hddl : d ∉ dl) by (intros H; apply Hd, elem_of_app; by right).
  assert (Hdsl : d ∉ sl) by (intros H; apply Hd, elem_of_app; by left).
  destruct (start_request_dst_ok w mbc d c ed dd0 dd dl a1 (a2 :: a3 :: rest)
              Hc Hed Hd0 Hdd Hwait Hdl Hddl Hscript Ha1)
    as (w1 & bp1 & bd & ed1 & Hdst & Hk1 & Hbd1 & Hbd2 & Hbd3 & Hbd4 & Hbd5
        & Hctl1 & Hdl1 & _ & _ & _ & Hed1 & Hed1s & _ & _ & Hframe1
        & Hdsts1 & Hreqs1 & Hpools1).
  assert (Hes1 : ents w1 !! s = Some es) by (by rewrite Hframe1).
  destruct (qe_v4l2_queue_ok w1 s (Mbc.vfd c) (Some req) (Mbc.src_fmt c)
              false (negb is_final) es ds0 a2 (a3 :: rest))
    as (bs & es' & Hq2 & _ & _ & _ & Hidx2 & Hts2 & Hbs1 & _ & Hbs2 & Hbs3
        & Hbs4 & Hbs5);
    [exact Hes1 | exact Hs0 | rewrite Hreqs1; by eexists
    | by rewrite Hk1 | unfold not_eintr; by rewrite Ha2 |].
  destruct (queue_put_inuse_spec (<[s := es']> (ents w1)) (Mbc.src c) sl s es')
    as (h2 & bp2 & e2 & Hput2 & Hsl2 & _ & _ & _ & He2 & He2s & _ & _ & _
        & _ & Hframe2);
    [|exact Hssl|apply lookup_insert_eq|].
  { eapply dlist_frame; [|exact Hsl]. intros p Hp'.
    rewrite lookup_insert_ne by (by intros <-).
    apply Hframe1; [by apply Hdisj | by intros ->]. }
  assert (Htail : Bp.inuse_tail bp2 = Some s).
  { destruct Hsl2 as [_ Hseg]. apply dseg_tail in Hseg.
    by rewrite last_snoc in Hseg. }
  assert (Hh2 : ∀ p, p ∈ dl ++ [d] → h2 !! p = ents w1 !! p).
  { intros p Hp'. assert ((p ∉ sl) ∧ p ≠ s) as [Hp1 Hp2].
    { apply elem_of_app in Hp' as [Hp' | ->%list_elem_of_singleton].
      - split; [intros Hin; by apply (Hdisj p) | by intros ->].
      - split; [done | by intros <-]. }
    rewrite Hframe2 by done. by rewrite lookup_insert_ne. }
  unfold mediabufs_start_request. rewrite Hc. simpl.
  rewrite Hdst. simpl. rewrite Hctl1, lookup_insert_eq. simpl.
  rewrite Hq2, Ha2. simpl. rewrite Hput2. simpl.
  unfold put_src. simpl. rewrite Hctl1, lookup_insert_eq. simpl.
  rewrite lookup_insert_eq. simpl.
  assert (Hwp : mediabufs_wants_poll (Mbc.set_src bp2 (Mbc.set_dst bp1 c)) = true).
  { unfold mediabufs_wants_poll, queue_is_inuse. simpl. by rewrite Htail. }
  rewrite Hwp, andb_true_r.
  destruct Hp as [pl Hpl].
  assert (Hrc : is_err a3 = true → (- errno_of a3 =? 0) = false).
  { intros H. apply Z.eqb_neq. specialize (Herrno H). lia. }
  destruct (Mbc.polling c) eqn:Hpol; simpl;
    unfold mediabufs_ctl_ref, media_request_start; simpl;
    rewrite ?lookup_insert_eq; simpl; rewrite Hreqs1, Hr; simpl;
    (erewrite ioctl_retry_one; [|reflexivity|exact Ha3]); simpl;
    unfold rc_of; destruct (is_err a3) eqn:He3; simpl;
    rewrite ?Hrc by done; simpl;
    rewrite ?Hpools1, ?Hpl; simpl;
    eexists _, _, bd, bs, e2, ed1;
    (split; [reflexivity|]); simpl;
    rewrite ?insert_insert_eq, ?Hk1; simpl;
    (split; [done|]);
    (split; [by rewrite <- ?app_assoc|]);
    (split; [done|]);
    (split; [rewrite Hbs2, Hbs3, Hts2, Hbs4, Hbs5, Hreqs1, Hr; simpl;
             by destruct is_final|]);
    (split; [rewrite ?Hctl1, ?insert_insert_eq; apply lookup_insert_eq|]); simpl;
    (split; [done|]); (split; [done|]); (split; [done|]);
    (split; [eapply dlist_frame; [exact Hh2 | exact Hdl1]|]);
    (split; [done|]); (split; [done|]);
    (split; [rewrite Hh2; [done | apply elem_of_app; right; by left]|]);
    (split; [done|]);
    (split; [rewrite Hdsts1; apply lookup_insert_eq|]); done.
Qed.

Transparent start_request_dst qe_v4l2_queue.
Transparent queue_planes_from queue_put_inuse.

Lemma mediabufs_start_request_submits_witness :
  (ctls (ctl_demo_world [KOk; KOk; KErr 16]) !! 0%nat
     = Some (Mbc.Ctl 0 3 false false Bp.empty Bp.empty (Some 0%nat)
               (demo_fmt V4L2_BUF_TYPE_VIDEO_OUTPUT_MPLANE)
               (demo_fmt V4L2_BUF_TYPE_VIDEO_CAPTURE_MPLANE)) ∧
   dsts (ctl_demo_world [KOk; KOk; KErr 16]) !! 2%nat
     = Some (Qe.Dst false (Some 0%nat)) ∧
   K.script (kern (ctl_demo_world [KOk; KOk; KErr 16]))
     = [KOk; KOk; KErr 16] ∧
   not_eintr (KErr 16)) ∧
  ∃ w' c' es' ed',
    mediabufs_start_request (ctl_demo_world [KOk; KOk; KErr 16]) 0
      (Some 0%nat) (Some 1%nat) (Some 2%nat) true
      = Some (MEDIABUFS_ERROR_OPERATION_FAILED, None, None, w') ∧
    ctls w' !! 0%nat = Some c' ∧ Mbc.polling c' = true ∧
    Mbc.ref_count c' = 1 ∧
    ents w' !! 1%nat = Some es' ∧ Qe.status es' = QENT_WAITING ∧
    ents w' !! 2%nat = Some ed' ∧ Qe.status ed' = QENT_WAITING ∧
    pools w' = pools (ctl_demo_world [KOk; KOk; KErr 16]).
Proof.
  split; [split; [vm_compute; reflexivity|];
          split; [vm_compute; reflexivity|]; split; reflexivity|].
  destruct (mediabufs_start_request_submits
              (ctl_demo_world [KOk; KOk; KErr 16]) 0%nat 0%nat 1%nat 2%nat true
              (Mbc.Ctl 0 3 false false Bp.empty Bp.empty (Some 0%nat)
                 (demo_fmt V4L2_BUF_TYPE_VIDEO_OUTPUT_MPLANE)
                 (demo_fmt V4L2_BUF_TYPE_VIDEO_CAPTURE_MPLANE))
              (Req.Request None 0 7)
              (Qe.Base None None QENT_NEW 0 (demo_planes 10 100) (Timeval 5 6))
              (Qe.Base None None QENT_NEW 1 (demo_planes 11 0) (Timeval 7 8))
              (Dmabuf 10 4096 100) (Dmabuf 11 4096 0)
              (Qe.Dst false (Some 0%nat)) [] [] KOk KOk (KErr 16) [])
    as (w' & c' & bd & bs & es' & ed' & Hst & _ & _ & _ & _ & Hc' & Hp' & Hr'
        & _ & _ & Hes' & Hss & Hed' & Hds & _ & _ & Hpools);
    try (vm_compute; reflexivity).
  - eexists. vm_compute. reflexivity.
  - split; [constructor | done].
  - split; [constructor | done].
  - intros p Hp. by apply elem_of_nil in Hp.
  - discriminate.
  - apply not_elem_of_nil.
  - apply not_elem_of_nil.
  - discriminate.
  - exists w', c', es', ed'. split; [exact Hst|]. split; [exact Hc'|].
    split; [exact Hp'|]. split; [exact Hr'|]. split; [exact Hes'|].
    split; [exact Hss|]. split; [exact Hed'|]. split; [exact Hds | exact Hpools].
Defined.

End submission.
(** ** Reading a destination entry *)

Section reading.

Implicit Types (dh : list (option dmabuf_h)) (pre hs : list dmabuf_h)
  (v : E.env).

Lemma lookup_after_populated pre dh :
  ((Some <$> pre) ++ dh) !! length pre = dh !! 0%nat.
Proof.
  rewrite lookup_app_r by (by rewrite length_fmap).
  by rewrite length_fmap, Nat.sub_diag.
Qed.

Lemma read_unwind_spec pre : ∀ dh v,
  read_unwind (length pre) ((Some <$> pre) ++ dh) v =
  Some (E.Env (E.script v) (E.log v ++ (dmabuf_read_end <$> reverse pre))).
Proof.
  induction pre as [|d pre IH] using rev_ind; intros dh v.
  - simpl. rewrite app_nil_r. by destruct v.
  - rewrite length_app, Nat.add_1_r. simpl.
    rewrite fmap_app, <- app_assoc. simpl.
    rewrite lookup_after_populated. simpl.
    rewrite IH. simpl. rewrite reverse_snoc. simpl.
    by rewrite <- app_assoc.
Qed.

Lemma read_start_from_ok fuel : ∀ pre dh v oks rest,
  E.script v = oks ++ rest →
  length oks = length (lead_run fuel dh) →
  Forall (λ a, e_failed a = false) oks →
  read_start_from fuel (length pre) ((Some <$> pre) ++ dh) v =
  Some (MEDIABUFS_STATUS_SUCCESS,
        E.Env rest (E.log v ++ (dmabuf_read_start <$> lead_run fuel dh))).
Proof.
  induction fuel as [|fuel IH]; intros pre dh v oks rest Hs Hlen Hok.
  - simpl in *. destruct oks; [|done]. simpl in Hs.
    rewrite app_nil_r. destruct v. simpl in *. by subst.
  - simpl. rewrite lookup_after_populated.
    destruct dh as [|[d|] dh]; simpl in *.
    + destruct oks; [|done]. simpl in Hs.
      rewrite app_nil_r. destruct v. simpl in *. by subst.
    + destruct oks as [|a oks]; [done|]. simpl in *.
      apply Forall_cons in Hok as [Ha Hok].
      unfold e_call. rewrite Hs. simpl. rewrite Ha.
      specialize (IH (pre ++ [d]) dh
                    (E.Env (oks ++ rest) (E.log v ++ [dmabuf_read_start d]))
                    oks rest eq_refl ltac:(by injection Hlen) Hok).
      rewrite length_app, Nat.add_1_r, fmap_app, <- app_assoc in IH.
      simpl in IH. rewrite IH. simpl. by rewrite <- app_assoc.
    + destruct oks; [|done]. simpl in Hs.
      rewrite app_nil_r. destruct v. simpl in *. by subst.
Qed.

Lemma read_start_from_fail fuel : ∀ pre dh v oks bad rest,
  E.script v = oks ++ bad :: rest →
  (length oks < length (lead_run fuel dh))%nat →
  Forall (λ a, e_failed a = false) oks → e_failed bad = true →
  read_start_from fuel (length pre) ((Some <$> pre) ++ dh) v =
  Some (MEDIABUFS_ERROR_ALLOCATION_FAILED,
        E.Env rest
          (E.log v ++
           (dmabuf_read_start <$> take (S (length oks)) (lead_run fuel dh)) ++
           (dmabuf_read_end <$>
              reverse (pre ++ take (length oks) (lead_run fuel dh))))).
Proof.
  induction fuel as [|fuel IH]; intros pre dh v oks bad rest Hs Hlen Hok Hbad.
  - simpl in Hlen. lia.
  - simpl. rewrite lookup_after_populated.
    destruct dh as [|[d|] dh]; simpl in *; [lia| |lia].
    unfold e_call. rewrite Hs.
    destruct oks as [|a oks]; simpl.
    + rewrite Hbad.
      pose proof (read_unwind_spec pre (Some d :: dh)
                    (E.Env rest (E.log v ++ [dmabuf_read_start d]))) as Hu.
      rewrite Hu. simpl. rewrite app_nil_r, <- app_assoc. done.
    + apply Forall_cons in Hok as [Ha Hok]. rewrite Ha.
      specialize (IH (pre ++ [d]) dh
                    (E.Env (oks ++ bad :: rest)
                       (E.log v ++ [dmabuf_read_start d]))
                    oks bad rest eq_refl ltac:(simpl in Hlen; lia) Hok Hbad).
      rewrite length_app, Nat.add_1_r, fmap_app, <- app_assoc in IH.
      simpl in IH. rewrite IH. simpl. rewrite <- !app_assoc. done.
Qed.

(** X15.  [qent_dst_read_start] brackets a read over the leading run of
    populated planes.  When every plane can be started, all of them are
    started in order and the call succeeds.  When the start of a plane
    fails, the planes already started are ended again, last one first,
    nothing further is started, and allocation-failed is returned: no
    plane is left with a read open. *)
Theorem qent_dst_read_start_unwinds (be : Qe.qent_base) (v : E.env) :
  let hs := lead_run VIDEO_MAX_PLANES (Qe.dh be) in
  (∀ oks rest,
     E.script v = oks ++ rest → length oks = length hs →
     Forall (λ a, e_failed a = false) oks →
     qent_dst_read_start be v =
       Some (MEDIABUFS_STATUS_SUCCESS,
             E.Env rest (E.log v ++ (dmabuf_read_start <$> hs)))) ∧
  (∀ oks bad rest,
     E.script v = oks ++ bad :: rest → (length oks < length hs)%nat →
     Forall (λ a, e_failed a = false) oks → e_failed bad = true →
     qent_dst_read_start be v =
       Some (MEDIABUFS_ERROR_ALLOCATION_FAILED,
             E.Env rest
               (E.log v ++
                (dmabuf_read_start <$> take (S (length oks)) hs) ++
                (dmabuf_read_end <$> reverse (take (length oks) hs))))).
Proof.
  split.
  - intros oks rest Hs Hlen Hok.
    exact (read_start_from_ok VIDEO_MAX_PLANES [] (Qe.dh be) v oks rest
             Hs Hlen Hok).
  - intros oks bad rest Hs Hlen Hok Hbad.
    exact (read_start_from_fail VIDEO_MAX_PLANES [] (Qe.dh be) v oks bad rest
             Hs Hlen Hok Hbad).
Qed.

Lemma qent_dst_read_start_unwinds_witness :
  (E.script (E.Env [EOk; EFail 5] []) = [EOk] ++ EFail 5 :: [] ∧
   (length [EOk] < length (lead_run VIDEO_MAX_PLANES (Qe.dh two_plane_entry)))%nat ∧
   Forall (λ a, e_failed a = false) [EOk] ∧ e_failed (EFail 5) = true) ∧
  qent_dst_read_start two_plane_entry (E.Env [EOk; EFail 5] []) =
    Some (MEDIABUFS_ERROR_ALLOCATION_FAILED,
          E.Env []
            [dmabuf_read_start (Dmabuf 10 4096 100);
             dmabuf_read_start (Dmabuf 11 4096 50);
             dmabuf_read_end (Dmabuf 10 4096 100)]).
Proof.
  assert (H2 : (length [EOk] <
                length (lead_run VIDEO_MAX_PLANES (Qe.dh two_plane_entry)))%nat)
    by (simpl; lia).
  assert (H3 : Forall (λ a, e_failed a = false) [EOk])
    by (by apply Forall_cons).
  split; [done|].
  exact (proj2 (qent_dst_read_start_unwinds two_plane_entry
                  (E.Env [EOk; EFail 5] []))
           [EOk] (EFail 5) [] eq_refl H2 H3 eq_refl).
Defined.

Lemma read_stop_from_spec fuel : ∀ pre dh st v answers rest,
  E.script v = answers ++ rest →
  length answers = length (lead_run fuel dh) →
  read_stop_from fuel (length pre) ((Some <$> pre) ++ dh) st v =
  Some (if existsb e_failed answers
        then MEDIABUFS_ERROR_OPERATION_FAILED else st,
        E.Env rest (E.log v ++ (dmabuf_read_end <$> lead_run fuel dh))).
Proof.
  induction fuel as [|fuel IH]; intros pre dh st v answers rest Hs Hlen.
  - simpl in *. destruct answers; [|done]. simpl in *.
    rewrite app_nil_r. destruct v. simpl in *. by subst.
  - simpl. rewrite lookup_after_populated.
    destruct dh as [|[d|] dh]; simpl in *.
    + destruct answers; [|done]. simpl in *.
      rewrite app_nil_r. destruct v. simpl in *. by subst.
    + destruct answers as [|a answers]; [done|]. simpl in *.
      unfold e_call. rewrite Hs. simpl.
      specialize (IH (pre ++ [d]) dh
                    (if e_failed a then MEDIABUFS_ERROR_OPERATION_FAILED else st)
                    (E.Env (answers ++ rest) (E.log v ++ [dmabuf_read_end d]))
                    answers rest eq_refl ltac:(by injection Hlen)).
      rewrite length_app, Nat.add_1_r, fmap_app, <- app_assoc in IH.
      simpl in IH. rewrite IH. simpl. rewrite <- app_assoc.
      by destruct (e_failed a), (existsb e_failed answers).
    + destruct answers; [|done]. simpl in *.
      rewrite app_nil_r. destruct v. simpl in *. by subst.
Qed.

(** X16.  [qent_dst_read_stop] ends the read on every plane of the leading
    run of populated planes, also after one of them has failed, and
    reports operation-failed exactly when at least one of them failed. *)
Theorem qent_dst_read_stop_all_planes (be : Qe.qent_base) (v : E.env)
    (answers rest : list eres)
    (Hs : E.script v = answers ++ rest)
    (Hlen : length answers = length (lead_run VIDEO_MAX_PLANES (Qe.dh be))) :
  qent_dst_read_stop be v =
    Some (if existsb e_failed answers
          then MEDIABUFS_ERROR_OPERATION_FAILED else MEDIABUFS_STATUS_SUCCESS,
          E.Env rest
            (E.log v ++
             (dmabuf_read_end <$> lead_run VIDEO_MAX_PLANES (Qe.dh be)))).
Proof.
  exact (read_stop_from_spec VIDEO_MAX_PLANES [] (Qe.dh be)
           MEDIABUFS_STATUS_SUCCESS v answers rest Hs Hlen).
Qed.

Lemma qent_dst_read_stop_all_planes_witness :
  (E.script (E.Env [EFail 5; EOk] []) = [EFail 5; EOk] ++ [] ∧
   length [EFail 5; EOk]
     = length (lead_run VIDEO_MAX_PLANES (Qe.dh two_plane_entry))) ∧
  qent_dst_read_stop two_plane_entry (E.Env [EFail 5; EOk] []) =
    Some (MEDIABUFS_ERROR_OPERATION_FAILED,
          E.Env []
            [dmabuf_read_end (Dmabuf 10 4096 100);
             dmabuf_read_end (Dmabuf 11 4096 50)]).
Proof.
  split; [split; reflexivity|].
  exact (qent_dst_read_stop_all_planes two_plane_entry
           (E.Env [EFail 5; EOk] []) [EFail 5; EOk] [] eq_refl eq_refl).
Defined.

End reading.
(** ** Filling and importing *)

Section filling.

Import SizeClass.

(** X17.  [qent_src_data_copy] and growth.  Data that fits the buffer of
    the entry is written between a write start and a write end, and the
    recorded length becomes the length of the data written, whatever the
    offset; when the mapping fails the call returns -1 after the write
    start, without a write end.  When the buffer is missing or too small,
    the entry grows only for a write at offset 0 into an entry that is not
    of fixed size, and only with an allocator: otherwise the call returns
    [-ENOMEM] and neither calls the allocator nor touches the entry.  A
    growth that fails returns [-ENOMEM] and leaves the entry without its
    buffer. *)
Theorem qent_src_data_copy_outcome (be : Qe.qent_base) (fixed_size : bool)
    (offset len : Z) (dbsc : bool) (v : E.env) (d0 : option dmabuf_h)
    (Hd0 : Qe.dh be !! 0%nat = Some d0)
    (Hoff : 0 <= offset) (Hlen : 0 <= len)
    (Hsum : offset + len < 2 ^ SIZE_BITS) :
  let grow := match d0 with
              | None => true
              | Some d => dmabuf_size d <? offset + len
              end in
  let written d rest log0 :=
    (0, Qe.set_dh (<[0%nat := Some (dmabuf_len_set d len)]> (Qe.dh be)) be,
     E.Env rest
       (log0 ++ [dmabuf_write_start d; dmabuf_map d; memcpy d offset len;
                 dmabuf_write_end (dmabuf_len_set d len)])) in
  (∀ d a rest,
     d0 = Some d → grow = false → E.script v = a :: rest →
     qent_src_data_copy be fixed_size offset len dbsc v =
       Some (if e_failed a
             then (-1, be,
                   E.Env rest (E.log v ++ [dmabuf_write_start d; dmabuf_map d]))
             else written d rest (E.log v))) ∧
  (grow = true → fixed_size = true ∨ offset ≠ 0 ∨ dbsc = false →
   is_Some (round_up_size (offset + len)) →
     qent_src_data_copy be fixed_size offset len dbsc v
       = Some (- ENOMEM, be, v)) ∧
  (∀ newsize a rest,
     grow = true → fixed_size = false → offset = 0 → dbsc = true →
     round_up_size len = Some newsize → E.script v = a :: rest →
     match a with
     | EHandle d =>
         ∀ a2 rest2, rest = a2 :: rest2 → e_failed a2 = false →
           qent_src_data_copy be fixed_size offset len dbsc v =
             Some (written d rest2 (E.log v ++ [dmabuf_realloc d0 newsize]))
     | _ =>
         qent_src_data_copy be fixed_size offset len dbsc v =
           Some (- ENOMEM, Qe.set_dh (<[0%nat := None]> (Qe.dh be)) be,
                 E.Env rest (E.log v ++ [dmabuf_realloc d0 newsize]))
     end).
Proof.
  intros grow written.
  assert (Hmod : (offset + len) mod 2 ^ SIZE_BITS = offset + len)
    by (apply Z.mod_small; lia).
  assert (Hdh : (0 < length (Qe.dh be))%nat)
    by (by eapply lookup_lt_Some).
  unfold qent_src_data_copy, qent_base_realloc. rewrite Hmod, Hd0. simpl.
  split; [|split].
  - intros d a rest -> Hgrow Hs. subst grow. simpl in *. rewrite Hgrow.
    simpl. rewrite Hd0. simpl. unfold e_call. simpl. rewrite Hs. simpl.
    destruct (e_failed a); unfold written, e_note; simpl;
      by rewrite <- !app_assoc.
  - intros Hgrow Hwhy [ns Hns]. fold grow. rewrite Hgrow, Hns. simpl.
    assert ((if fixed_size || negb (offset =? 0) then false else dbsc) = false)
      as ->.
    { destruct Hwhy as [-> | [Hne | ->]]; [done| |].
      - apply Z.eqb_neq in Hne. rewrite Hne. by rewrite orb_true_r.
      - by destruct (fixed_size || negb (offset =? 0)). }
    done.
  - intros newsize a rest Hgrow -> -> -> Hns Hs. fold grow.
    rewrite Hgrow. simpl in *. rewrite Z.add_0_l in *. rewrite Hns. simpl.
    unfold e_call. rewrite Hs. simpl.
    destruct a as [|e|d|i]; try done.
    intros a2 rest2 -> Ha2. simpl.
    rewrite list_lookup_insert_eq by done. simpl. rewrite Ha2.
    unfold written, e_note. simpl. rewrite list_insert_insert_eq.
    by rewrite <- !app_assoc.
Qed.

Lemma qent_src_data_copy_outcome_witness :
  (Qe.dh two_plane_entry !! 0%nat = Some (Some (Dmabuf 10 4096 100)) ∧
   0 <= 16 ∧ 0 <= 5000 ∧ 16 + 5000 < 2 ^ SIZE_BITS) ∧
  qent_src_data_copy two_plane_entry false 16 5000 true (E.Env [] [])
    = Some (- ENOMEM, two_plane_entry, E.Env [] []).
Proof.
  split; [split; [reflexivity|]; split; [lia|]; split; [lia|reflexivity]|].
  refine (proj1 (proj2 (qent_src_data_copy_outcome two_plane_entry false
                          16 5000 true (E.Env [] [])
                          (Some (Dmabuf 10 4096 100)) eq_refl _ _ _)) _ _ _).
  - lia.
  - lia.
  - reflexivity.
  - reflexivity.
  - right. left. lia.
  - eexists. reflexivity.
Defined.

(** X18.  Importing a plane.  An entry that is not in import mode, or a
    plane that already has a handle, is refused without a call to the
    allocator and without any change.  Otherwise the handle that the
    allocator returns is stored in the plane, where [qent_dst_dmabuf]
    finds it, the other planes are as before, and a second import into
    the same plane is refused; when the allocator fails, the entry is
    unchanged and allocation-failed is returned. *)
Theorem qent_dst_import_fd_once (be : Qe.qent_base) (plane fd size : Z)
    (v : E.env)
    (Hplane : 0 <= plane < Z.of_nat VIDEO_MAX_PLANES)
    (Hlen : length (Qe.dh be) = VIDEO_MAX_PLANES) :
  (Qe.status be ≠ QENT_IMPORT →
     qent_dst_import_fd be plane fd size v
       = Some (MEDIABUFS_ERROR_OPERATION_FAILED, be, v)) ∧
  (Qe.status be = QENT_IMPORT →
     (∀ d, Qe.dh be !! Z.to_nat plane = Some (Some d) →
        qent_dst_import_fd be plane fd size v
          = Some (MEDIABUFS_ERROR_OPERATION_FAILED, be, v)) ∧
     (Qe.dh be !! Z.to_nat plane = Some None →
      ∀ a rest, E.script v = a :: rest →
        match a with
        | EHandle d =>
            ∃ be',
              qent_dst_import_fd be plane fd size v =
                Some (MEDIABUFS_STATUS_SUCCESS, be',
                      E.Env rest (E.log v ++ [dmabuf_import fd size])) ∧
              qent_dst_dmabuf be' plane = Some (Some d) ∧
              (∀ q, 0 <= q → q ≠ plane →
                    qent_dst_dmabuf be' q = qent_dst_dmabuf be q) ∧
              (∀ fd2 size2 v2,
                 qent_dst_import_fd be' plane fd2 size2 v2
                   = Some (MEDIABUFS_ERROR_OPERATION_FAILED, be', v2))
        | _ =>
            qent_dst_import_fd be plane fd size v =
              Some (MEDIABUFS_ERROR_ALLOCATION_FAILED, be,
                    E.Env rest (E.log v ++ [dmabuf_import fd size]))
        end)).
Proof.
  assert (Hin : (Z.to_nat plane < length (Qe.dh be))%nat)
    by (rewrite Hlen; unfold VIDEO_MAX_PLANES in *; lia).
  split; [|intros Hst; split].
  - intros Hst. unfold qent_dst_import_fd. by destruct (Qe.status be).
  - intros d Hd. unfold qent_dst_import_fd. by rewrite Hst, Hd.
  - intros Hd a rest Hs. unfold qent_dst_import_fd.
    rewrite Hst, Hd. simpl. unfold e_call. rewrite Hs. simpl.
    destruct a as [|e|d|i]; try done.
    eexists. split; [reflexivity|]. split; [|split].
    + unfold qent_dst_dmabuf. simpl.
      destruct (Z.leb_spec (Z.of_nat VIDEO_MAX_PLANES) plane); [lia|].
      by apply list_lookup_insert_eq.
    + intros q Hq Hne. unfold qent_dst_dmabuf. simpl.
      destruct (Z.of_nat VIDEO_MAX_PLANES <=? q); [done|].
      apply list_lookup_insert_ne. lia.
    + intros fd2 size2 v2. simpl. rewrite Hst.
      by rewrite list_lookup_insert_eq.
Qed.

Lemma qent_dst_import_fd_once_witness :
  (0 <= 1 < Z.of_nat VIDEO_MAX_PLANES ∧
   length (Qe.dh (Qe.Base None None QENT_IMPORT INDEX_UNSET
                    (replicate VIDEO_MAX_PLANES None) timeval_zero))
     = VIDEO_MAX_PLANES) ∧
  ∃ be',
    qent_dst_import_fd
      (Qe.Base None None QENT_IMPORT INDEX_UNSET
         (replicate VIDEO_MAX_PLANES None) timeval_zero)
      1 33 4096 (E.Env [EHandle (Dmabuf 33 4096 0)] []) =
      Some (MEDIABUFS_STATUS_SUCCESS, be',
            E.Env [] [dmabuf_import 33 4096]) ∧
    qent_dst_dmabuf be' 1 = Some (Some (Dmabuf 33 4096 0)).
Proof.
  split; [split; [unfold VIDEO_MAX_PLANES; lia | reflexivity]|].
  destruct (proj2 (proj2 (qent_dst_import_fd_once
              (Qe.Base None None QENT_IMPORT INDEX_UNSET
                 (replicate VIDEO_MAX_PLANES None) timeval_zero)
              1 33 4096 (E.Env [EHandle (Dmabuf 33 4096 0)] [])
              ltac:(unfold VIDEO_MAX_PLANES; lia) eq_refl) eq_refl)
            eq_refl (EHandle (Dmabuf 33 4096 0)) [] eq_refl)
    as (be' & Himp & Hget & _).
  exists be'. split; [exact Himp | exact Hget].
Defined.

End filling.
(** ** Creating destination slots *)

Section slots.

Implicit Types (h : gmap nat Qe.qent_base) (fl il news : list nat).

Lemma slot_index_range a :
  create_answer a → 0 <= slot_index a < 2 ^ 31.
Proof.
  destruct a as [|e|d|i]; simpl; intros H; try lia.
  rewrite Z.mod_small by lia. lia.
Qed.

Lemma create_dst_buf_spec v c a rest :
  E.script v = a :: rest → create_answer a →
  create_dst_buf v c =
    Some (slot_index a,
          E.Env rest
            (E.log v ++ [VIDIOC_CREATE_BUFS (Mbc.vfd c) 1 V4L2_MEMORY_DMABUF
                           (Mbc.dst_fmt c)])).
Proof.
  intros Hs Ha. unfold create_dst_buf. rewrite Hs. simpl.
  destruct a as [|e|d|i]; simpl in *; try done.
  - assert ((- e =? EINTR) = false) as ->
      by (apply Z.eqb_neq; unfold EINTR; lia).
    simpl. by rewrite Z.opp_involutive.
  - rewrite Z.mod_small by lia. unfold int_of_uint.
    destruct (Z.ltb_spec i (2 ^ 31)); [done | lia].
Qed.

(** X19.  [create_dst_buf] makes one call, also when that call is
    interrupted, and reports a refusal as a positive value: [err] is set to
    [-errno], which never equals [EINTR], and is negated again on return,
    so that the callers, who test for a negative value, take the error code
    for an index.  When the call is accepted it returns the [unsigned int]
    index of the driver converted to [int], which is the index itself
    below [2^31] and negative from [2^31] on. *)
Theorem create_dst_buf_refusal_positive (v : E.env) (c : Mbc.mediabufs_ctl)
    (a : eres) (rest : list eres)
    (Hs : E.script v = a :: rest)
    (Herrno : ∀ errno, a = EFail errno → 0 < errno) :
  ∃ index,
    create_dst_buf v c =
      Some (index,
            E.Env rest
              (E.log v ++ [VIDIOC_CREATE_BUFS (Mbc.vfd c) 1 V4L2_MEMORY_DMABUF
                             (Mbc.dst_fmt c)])) ∧
    (∀ errno, a = EFail errno → index = errno ∧ 0 < index) ∧
    (∀ i, a = EIndex i →
       (i mod 2 ^ 32 < 2 ^ 31 → index = i mod 2 ^ 32) ∧
       (2 ^ 31 <= i mod 2 ^ 32 → index = i mod 2 ^ 32 - 2 ^ 32 ∧ index < 0)).
Proof.
  unfold create_dst_buf. rewrite Hs. simpl.
  destruct a as [|e|d|i]; simpl.
  - eexists. split; [reflexivity|]. split; [by intros ? [=] | by intros ? [=]].
  - specialize (Herrno e eq_refl).
    assert ((- e =? EINTR) = false) as ->
      by (apply Z.eqb_neq; unfold EINTR; lia).
    simpl. rewrite Z.opp_involutive.
    eexists. split; [reflexivity|]. split; [|by intros ? [=]].
    by intros ? [= <-].
  - eexists. split; [reflexivity|]. split; [by intros ? [=] | by intros ? [=]].
  - eexists. split; [reflexivity|]. split; [by intros ? [=]|].
    intros ? [= <-]. unfold int_of_uint.
    pose proof (Z.mod_pos_bound i (2 ^ 32) ltac:(lia)) as Hb.
    destruct (Z.ltb_spec (i mod 2 ^ 32) (2 ^ 31)); split; intros; try lia.
Qed.

Lemma create_dst_buf_refusal_positive_witness :
  (E.script (E.Env [EFail EINTR] []) = EFail EINTR :: [] ∧
   ∀ errno, EFail EINTR = EFail errno → 0 < errno) ∧
  ∃ index,
    create_dst_buf (E.Env [EFail EINTR] [])
      (Mbc.Ctl 0 3 false false Bp.empty Bp.empty None
         (demo_fmt V4L2_BUF_TYPE_VIDEO_OUTPUT_MPLANE)
         (demo_fmt V4L2_BUF_TYPE_VIDEO_CAPTURE_MPLANE)) =
      Some (index,
            E.Env []
              [VIDIOC_CREATE_BUFS 3 1 V4L2_MEMORY_DMABUF
                 (demo_fmt V4L2_BUF_TYPE_VIDEO_CAPTURE_MPLANE)]) ∧
    index = EINTR.
Proof.
  assert (Ha : ∀ errno, EFail EINTR = EFail errno → 0 < errno)
    by (intros ? [= <-]; unfold EINTR; lia).
  split; [split; [reflexivity | exact Ha]|].
  destruct (create_dst_buf_refusal_positive (E.Env [EFail EINTR] [])
              (Mbc.Ctl 0 3 false false Bp.empty Bp.empty None
                 (demo_fmt V4L2_BUF_TYPE_VIDEO_OUTPUT_MPLANE)
                 (demo_fmt V4L2_BUF_TYPE_VIDEO_CAPTURE_MPLANE))
              (EFail EINTR) [] eq_refl Ha)
    as (index & Hc & Hi & _).
  exists index. split; [exact Hc | exact (proj1 (Hi EINTR eq_refl))].
Defined.

(** An index that does not fit an [int] comes back negative: the caller
    takes the slot the driver made for a failure. *)
Example create_dst_buf_large_index :
  fst <$> create_dst_buf (E.Env [EIndex 4294967295] [])
            (Mbc.Ctl 0 3 false false Bp.empty Bp.empty None
               (demo_fmt V4L2_BUF_TYPE_VIDEO_OUTPUT_MPLANE)
               (demo_fmt V4L2_BUF_TYPE_VIDEO_CAPTURE_MPLANE))
    = Some (-1).
Proof. reflexivity. Qed.

Lemma queue_inv_members h bp fl il p :
  queue_inv h bp fl il → p ∈ fl ++ il → is_Some (h !! p).
Proof.
  intros (Hf & Hi & _) [Hp | Hp]%elem_of_app.
  - destruct Hf as [_ Hf]. by eapply dseg_lookup.
  - destruct Hi as [_ Hi]. by eapply dseg_lookup.
Qed.

Lemma len_clear_empty :
  len_clear (replicate VIDEO_MAX_PLANES None) = replicate VIDEO_MAX_PLANES None.
Proof. reflexivity. Qed.

Opaque queue_put_free.

Lemma mediabufs_dst_slots_create_spec n : ∀ w v mbc c fl il oks krest answers erest,
  ctls w !! mbc = Some c →
  queue_inv (ents w) (Mbc.dst c) fl il →
  K.script (kern w) = oks ++ krest → length oks = n →
  Forall (λ a, is_err a = false) oks →
  E.script v = answers ++ erest → length answers = n →
  Forall create_answer answers →
  ∃ w' c' news,
    mediabufs_dst_slots_create w v mbc n =
      Some (MEDIABUFS_STATUS_SUCCESS, w',
            E.Env erest
              (E.log v ++
               replicate n (VIDIOC_CREATE_BUFS (Mbc.vfd c) 1 V4L2_MEMORY_DMABUF
                              (Mbc.dst_fmt c)))) ∧
    ctls w' !! mbc = Some c' ∧ Mbc.src c' = Mbc.src c ∧
    Mbc.ref_count c' = Mbc.ref_count c ∧
    queue_inv (ents w') (Mbc.dst c') (fl ++ news) il ∧
    Forall2 (λ be a, ents w !! be = None ∧
                     ∃ e, ents w' !! be = Some e ∧ Qe.index e = slot_index a ∧
                          dsts w' !! be = Some (Qe.Dst false None))
      news answers ∧
    K.script (kern w') = krest ∧
    (∀ q, is_Some (ents w !! q) →
          (payload <$> ents w' !! q) = (payload <$> ents w !! q)) ∧
    (∀ q, is_Some (dsts w !! q) → dsts w' !! q = dsts w !! q).
Proof.
  induction n as [|n IH];
    intros w v mbc c fl il oks krest answers erest Hc Hq Hk Hlo Hoks He Hla Hans.
  - destruct oks; [|done]. destruct answers; [|done]. simpl in *.
    exists w, c, []. rewrite !app_nil_r. destruct v. simpl in *. subst.
    do 5 (split; [done|]). split; [constructor|]. done.
  - destruct oks as [|ka oks]; [done|]. destruct answers as [|ea answers]; [done|].
    simpl in Hk, He, Hlo, Hla.
    apply Forall_cons in Hoks as [Hka Hoks].
    apply Forall_cons in Hans as [Hea Hans].
    pose proof (slot_index_range ea Hea) as Hrange.
    cbn [mediabufs_dst_slots_create]. unfold qe_dst_new, env_call.
    rewrite Hk. simpl. rewrite Hka. simpl. rewrite Hc. simpl.
    rewrite (create_dst_buf_spec v c ea (answers ++ erest) He Hea). simpl.
    destruct (Z.ltb_spec (slot_index ea) 0) as [|_]; [lia|].
    set (be := fresh (dom (ents w) ∪ dom (dsts w))).
    assert (Hfresh : be ∉ dom (ents w) ∪ dom (dsts w)) by apply is_fresh.
    assert (Hbe : ents w !! be = None).
    { apply not_elem_of_dom. intros H. apply Hfresh, elem_of_union. by left. }
    assert (Hbd : dsts w !! be = None).
    { apply not_elem_of_dom. intros H. apply Hfresh, elem_of_union. by right. }
    assert (Hnot : be ∉ fl ++ il).
    { intros Hin. destruct (queue_inv_members _ _ _ _ _ Hq Hin) as [x Hx].
      congruence. }
    rewrite (upd_Some _ _ _ _ (lookup_insert_eq _ _ _)). simpl.
    rewrite insert_insert_eq, Z.mod_small by lia.
    set (e0 := qe_set_index (slot_index ea) QENT_BASE_INITIALIZER).
    assert (Hq0 : queue_inv (<[be := e0]> (ents w)) (Mbc.dst c) fl il).
    { eapply queue_inv_frame; [|exact Hq]. intros p Hp.
      rewrite lookup_insert_ne; [done|]. by intros <-. }
    destruct (queue_inv_put_free _ _ fl il be e0 Hq0)
      as (h1 & bp1 & Hput & Hq1);
      [intros H; apply Hnot, elem_of_app; by left
      |intros H; apply Hnot, elem_of_app; by right
      |apply lookup_insert_eq | vm_compute; lia |].
    destruct (queue_put_free_spec _ (Mbc.dst c) fl be e0 (proj1 Hq0))
      as (h2 & bp2 & e1 & Hput2 & _ & _ & _ & _ & He1 & _ & _ & _ & Hidx & Hpay & _);
      [intros H; apply Hnot, elem_of_app; by left | apply lookup_insert_eq |].
    rewrite Hput in Hput2. injection Hput2 as <- <-.
    rewrite Hput. simpl. unfold put_dst. simpl. rewrite Hc. simpl.
    set (w2 := set_ctls (<[mbc := Mbc.set_dst bp1 c]> (ctls w))
                 (set_ents h1
                    (set_dsts (<[be := Qe.Dst false None]> (dsts w))
                       (set_ents (<[be := QENT_BASE_INITIALIZER]> (ents w))
                          (set_kern
                             (K.Kernel (oks ++ krest) (K.log (kern w) ++ [SYS_malloc]))
                             w))))).
    destruct (IH w2
                (E.Env (answers ++ erest)
                   (E.log v ++ [VIDIOC_CREATE_BUFS (Mbc.vfd c) 1
                                  V4L2_MEMORY_DMABUF (Mbc.dst_fmt c)]))
                mbc (Mbc.set_dst bp1 c) (fl ++ [be]) il oks krest answers erest)
      as (w' & c' & news & Hrun & Hc' & Hsrc & Hrc & Hq' & Hnews & Hk' & Hpay' & Hdst');
      [apply lookup_insert_eq | exact Hq1 | reflexivity | by injection Hlo
      | exact Hoks | reflexivity | by injection Hla | exact Hans |].
    exists w', c', (be :: news). split.
    { fold w2. rewrite Hrun. simpl. by rewrite <- app_assoc. }
    split; [done|]. split; [done|]. split; [done|].
    split; [by rewrite <- app_assoc in Hq'|].
    split; [|split; [done|split]].
    + constructor.
      * split; [done|].
        assert (Hin2 : is_Some (ents w2 !! be)) by (simpl; by eexists).
        specialize (Hpay' be Hin2). simpl in Hpay'. rewrite He1 in Hpay'.
        destruct (ents w' !! be) as [e'|]; [|done]. simpl in Hpay'.
        exists e'. split; [done|]. split.
        -- unfold payload in Hpay'. injection Hpay' as _ Hi _ _.
           rewrite Hi, Hidx. done.
        -- rewrite Hdst' by (simpl; rewrite lookup_insert_eq; by eexists).
           simpl. apply lookup_insert_eq.
      * eapply Forall2_impl; [exact Hnews|]. intros q a [Hnone Hrest].
        split; [|done]. simpl in Hnone.
        destruct (decide (q = be)) as [-> | Hne].
        -- by rewrite He1 in Hnone.
        -- destruct (ents w !! q) as [eq|] eqn:Hq2; [|done].
           specialize (Hpay q Hne). rewrite lookup_insert_ne in Hpay by done.
           rewrite Hq2, Hnone in Hpay. done.
    + intros q [eq Heq].
      assert (Hne : q ≠ be) by (intros ->; congruence).
      rewrite Hpay'.
      * simpl. rewrite Hpay by done. by rewrite lookup_insert_ne.
      * simpl. specialize (Hpay q Hne).
        rewrite lookup_insert_ne, Heq in Hpay by done.
        destruct (h1 !! q); [by eexists | done].
    + intros q [dq Hdq].
      assert (Hne : q ≠ be) by (intros ->; congruence).
      rewrite Hdst'; simpl; rewrite lookup_insert_ne by done; [done|by eexists].
Qed.

Transparent queue_put_free.

(** X20.  [mediabufs_dst_slots_create] does not notice a refused buffer.
    With memory for the [n] entries, it returns success and appends [n] new
    entries to the free list of the destination queue whatever the driver
    answers to the [n] calls that create the buffers: an entry whose call
    was refused is on the free list like the others, with the error code
    as its buffer index.  The new entries carry no weak link to the
    controller, and the queue stays well-formed. *)
Theorem mediabufs_dst_slots_create_ignores_refusal (w : world) (v : E.env)
    (mbc : ptr) (n : nat) (c : Mbc.mediabufs_ctl) (fl il : list ptr)
    (oks krest : list kres) (answers erest : list eres)
    (Hc : ctls w !! mbc = Some c)
    (Hq : queue_inv (ents w) (Mbc.dst c) fl il)
    (Hk : K.script (kern w) = oks ++ krest) (Hlo : length oks = n)
    (Hoks : Forall (λ a, is_err a = false) oks)
    (He : E.script v = answers ++ erest) (Hla : length answers = n)
    (Hans : Forall create_answer answers) :
  ∃ w' c' news,
    mediabufs_dst_slots_create w v mbc n =
      Some (MEDIABUFS_STATUS_SUCCESS, w',
            E.Env erest
              (E.log v ++
               replicate n (VIDIOC_CREATE_BUFS (Mbc.vfd c) 1 V4L2_MEMORY_DMABUF
                              (Mbc.dst_fmt c)))) ∧
    ctls w' !! mbc = Some c' ∧
    queue_inv (ents w') (Mbc.dst c') (fl ++ news) il ∧
    Forall2 (λ be a, ents w !! be = None ∧
                     ∃ e, ents w' !! be = Some e ∧ Qe.index e = slot_index a ∧
                          dsts w' !! be = Some (Qe.Dst false None))
      news answers.
Proof.
  destruct (mediabufs_dst_slots_create_spec n w v mbc c fl il oks krest
              answers erest Hc Hq Hk Hlo Hoks He Hla Hans)
    as (w' & c' & news & Hrun & Hc' & _ & _ & Hq' & Hnews & _).
  by exists w', c', news.
Qed.

Lemma mediabufs_dst_slots_create_ignores_refusal_witness :
  (ctls (ctl_demo_world [KOk]) !! 0%nat
     = Some (Mbc.Ctl 0 3 false false Bp.empty Bp.empty (Some 0%nat)
               (demo_fmt V4L2_BUF_TYPE_VIDEO_OUTPUT_MPLANE)
               (demo_fmt V4L2_BUF_TYPE_VIDEO_CAPTURE_MPLANE)) ∧
   Forall create_answer [EFail 22]) ∧
  ∃ w' c' news,
    mediabufs_dst_slots_create (ctl_demo_world [KOk]) (E.Env [EFail 22] []) 0 1 =
      Some (MEDIABUFS_STATUS_SUCCESS, w',
            E.Env []
              [VIDIOC_CREATE_BUFS 3 1 V4L2_MEMORY_DMABUF
                 (demo_fmt V4L2_BUF_TYPE_VIDEO_CAPTURE_MPLANE)]) ∧
    ctls w' !! 0%nat = Some c' ∧
    queue_inv (ents w') (Mbc.dst c') ([] ++ news) [] ∧
    Forall2 (λ be a, ents (ctl_demo_world [KOk]) !! be = None ∧
                     ∃ e, ents w' !! be = Some e ∧ Qe.index e = slot_index a ∧
                          dsts w' !! be = Some (Qe.Dst false None))
      news [EFail 22].
Proof.
  assert (Hc : ctls (ctl_demo_world [KOk]) !! 0%nat
     = Some (Mbc.Ctl 0 3 false false Bp.empty Bp.empty (Some 0%nat)
               (demo_fmt V4L2_BUF_TYPE_VIDEO_OUTPUT_MPLANE)
               (demo_fmt V4L2_BUF_TYPE_VIDEO_CAPTURE_MPLANE)))
    by (vm_compute; reflexivity).
  assert (Ha : Forall create_answer [EFail 22]).
  { apply Forall_cons. split; [simpl; lia | constructor]. }
  split; [by split|].
  apply (mediabufs_dst_slots_create_ignores_refusal (ctl_demo_world [KOk])
           (E.Env [EFail 22] []) 0%nat 1 _ [] [] [KOk] [] [EFail 22] [] Hc).
  - apply queue_inv_new.
  - reflexivity.
  - reflexivity.
  - apply Forall_cons. split; [reflexivity | constructor].
  - reflexivity.
  - reflexivity.
  - exact Ha.
Defined.

End slots.
(** ** Allocating the planes of an entry *)

Section plane_allocation.

Implicit Types (dh pre : list (option dmabuf_h)) (szs spre : list Z)
  (news : list dmabuf_h) (v : E.env).

Lemma insert_after pre dh (old x : option dmabuf_h) :
  <[length pre := x]> (pre ++ old :: dh) = pre ++ x :: dh.
Proof.
  rewrite insert_app_r_alt by done. by rewrite Nat.sub_diag.
Qed.

Lemma alloc_unwind_spec pre : ∀ dh v,
  alloc_unwind (length pre) (pre ++ dh) v =
  Some (replicate (length pre) None ++ dh,
        E.Env (E.script v) (E.log v ++ (dmabuf_free <$> reverse pre))).
Proof.
  induction pre as [|x pre IH] using rev_ind; intros dh v.
  - simpl. rewrite app_nil_r. by destruct v.
  - rewrite length_app, Nat.add_1_r. simpl. rewrite <- app_assoc. simpl.
    rewrite list_lookup_middle by done. simpl.
    rewrite insert_after, IH. simpl.
    rewrite reverse_snoc. simpl. rewrite <- app_assoc. simpl.
    rewrite (cons_middle None), app_assoc, <- replicate_cons_app. done.
Qed.

Lemma alloc_planes_from_ok fuel : ∀ pre spre dh szs v news rest,
  length spre = length pre →
  E.script v = (EHandle <$> news) ++ rest → length news = fuel →
  (fuel ≤ length dh)%nat → (fuel ≤ length szs)%nat →
  alloc_planes_from fuel (length pre) (spre ++ szs) (pre ++ dh) v =
  Some (0, pre ++ (Some <$> news) ++ drop fuel dh,
        E.Env rest
          (E.log v ++ zip_with dmabuf_realloc (take fuel dh) (take fuel szs))).
Proof.
  induction fuel as [|fuel IH];
    intros pre spre dh szs v news rest Hsp Hs Hn Hdh Hsz.
  - destruct news; [|done]. simpl in *. rewrite app_nil_r.
    destruct v. simpl in *. by subst.
  - destruct news as [|d news]; [done|].
    destruct dh as [|old dh]; [simpl in Hdh; lia|].
    destruct szs as [|sz szs]; [simpl in Hsz; lia|].
    simpl in *. rewrite list_lookup_middle by done. simpl.
    rewrite list_lookup_middle by done. simpl.
    unfold e_call. rewrite Hs. simpl. rewrite insert_after.
    specialize (IH (pre ++ [Some d]) (spre ++ [sz]) dh szs
                  (E.Env ((EHandle <$> news) ++ rest)
                     (E.log v ++ [dmabuf_realloc old sz]))
                  news rest).
    rewrite !length_app in IH. simpl in IH.
    rewrite !Nat.add_1_r, <- !app_assoc in IH. simpl in IH.
    etrans; [apply IH; [by rewrite Hsp | done | by injection Hn | lia | lia]|].
    simpl. by rewrite <- ?app_assoc.
Qed.

Lemma alloc_planes_from_fail fuel : ∀ pre spre dh szs v news bad rest,
  length spre = length pre →
  E.script v = (EHandle <$> news) ++ bad :: rest →
  (length news < fuel)%nat → is_handle bad = false →
  (fuel ≤ length dh)%nat → (fuel ≤ length szs)%nat →
  alloc_planes_from fuel (length pre) (spre ++ szs) (pre ++ dh) v =
  Some (-1,
        replicate (length pre + S (length news)) None ++
          drop (S (length news)) dh,
        E.Env rest
          (E.log v ++
           zip_with dmabuf_realloc (take (S (length news)) dh)
             (take (S (length news)) szs) ++
           (dmabuf_free <$> reverse (pre ++ (Some <$> news))))).
Proof.
  induction fuel as [|fuel IH];
    intros pre spre dh szs v news bad rest Hsp Hs Hn Hbad Hdh Hsz; [lia|].
  destruct dh as [|old dh]; [simpl in Hdh; lia|].
  destruct szs as [|sz szs]; [simpl in Hsz; lia|].
  simpl in Hdh, Hsz. cbn [alloc_planes_from].
  rewrite list_lookup_middle by done. simpl.
  rewrite list_lookup_middle by done. simpl.
  unfold e_call. rewrite Hs.
  destruct news as [|d news]; simpl.
  - assert (Hunw :
      alloc_unwind (length pre) (<[length pre := None]> (pre ++ old :: dh))
        (E.Env rest (E.log v ++ [dmabuf_realloc old sz])) =
      Some (replicate (length pre) None ++ None :: dh,
            E.Env rest ((E.log v ++ [dmabuf_realloc old sz]) ++
                        (dmabuf_free <$> reverse pre))))
      by (rewrite insert_after; apply alloc_unwind_spec).
    destruct bad as [|e|d|i]; try done; rewrite Hunw; simpl;
      rewrite Nat.add_1_r, replicate_S_end, <- !app_assoc, drop_0, app_nil_r;
      done.
  - rewrite insert_after.
    specialize (IH (pre ++ [Some d]) (spre ++ [sz]) dh szs
                  (E.Env ((EHandle <$> news) ++ bad :: rest)
                     (E.log v ++ [dmabuf_realloc old sz]))
                  news bad rest).
    rewrite !length_app in IH. simpl in IH.
    rewrite !Nat.add_1_r, <- !app_assoc in IH. simpl in IH.
    etrans; [apply IH;
             [by rewrite Hsp | done | simpl in Hn; lia | done | lia | lia]|].
    rewrite <- ?app_assoc. simpl.
    replace (length pre + S (S (length news)))%nat
      with (S (length pre + S (length news))) by lia.
    done.
Qed.

(** X21.  [qe_alloc_from_fmt] on a multi-planar format allocates the planes
    in order, handing the allocator the handle that each slot held.  When
    all of them succeed, the first [num_planes] slots hold the new handles
    and the other slots are untouched.  When one fails, the handles
    obtained so far in this call are freed, last one first, the slots up to
    and including the failing one are left empty, and the slots behind it
    keep what they held. *)
Theorem qe_alloc_from_fmt_planes (be : Qe.qent_base) (fmt : Fmt.v4l2_format)
    (p : Fmt.v4l2_pix_format_mplane) (v : E.env)
    (Hmp : V4L2_TYPE_IS_MULTIPLANAR (Fmt.type fmt) = true)
    (Hfmt : Fmt.fmt fmt = Fmt.pix_mp p)
    (Hn : 0 <= Fmt.mp_num_planes p <= Z.of_nat VIDEO_MAX_PLANES)
    (Hdh : length (Qe.dh be) = VIDEO_MAX_PLANES)
    (Hsz : length (Fmt.mp_plane_sizeimage p) = VIDEO_MAX_PLANES) :
  let n := Z.to_nat (Fmt.mp_num_planes p) in
  let reallocs k :=
    zip_with dmabuf_realloc (take k (Qe.dh be))
      (take k (Fmt.mp_plane_sizeimage p)) in
  (∀ news rest,
     E.script v = (EHandle <$> news) ++ rest → length news = n →
     qe_alloc_from_fmt be fmt v =
       Some (0, Qe.set_dh ((Some <$> news) ++ drop n (Qe.dh be)) be,
             E.Env rest (E.log v ++ reallocs n))) ∧
  (∀ news bad rest,
     E.script v = (EHandle <$> news) ++ bad :: rest →
     (length news < n)%nat → is_handle bad = false →
     qe_alloc_from_fmt be fmt v =
       Some (-1,
             Qe.set_dh (replicate (S (length news)) None ++
                        drop (S (length news)) (Qe.dh be)) be,
             E.Env rest
               (E.log v ++ reallocs (S (length news)) ++
                (dmabuf_free <$> reverse (Some <$> news))))).
Proof.
  intros n reallocs.
  assert (Hn8 : (n ≤ VIDEO_MAX_PLANES)%nat) by (subst n; lia).
  split.
  - intros news rest Hs Hlen. unfold qe_alloc_from_fmt. rewrite Hmp, Hfmt.
    fold n.
    pose proof (alloc_planes_from_ok n [] [] (Qe.dh be)
                  (Fmt.mp_plane_sizeimage p) v news rest eq_refl Hs Hlen) as H.
    simpl in H. rewrite H by (by rewrite ?Hdh, ?Hsz). done.
  - intros news bad rest Hs Hlen Hbad. unfold qe_alloc_from_fmt.
    rewrite Hmp, Hfmt. fold n.
    pose proof (alloc_planes_from_fail n [] [] (Qe.dh be)
                  (Fmt.mp_plane_sizeimage p) v news bad rest eq_refl Hs Hlen
                  Hbad) as H.
    simpl in H. rewrite H by (by rewrite ?Hdh, ?Hsz). done.
Qed.

Lemma qe_alloc_from_fmt_planes_witness :
  (V4L2_TYPE_IS_MULTIPLANAR (Fmt.type two_plane_fmt) = true ∧
   0 <= 2 <= Z.of_nat VIDEO_MAX_PLANES ∧
   length (Qe.dh two_plane_entry) = VIDEO_MAX_PLANES) ∧
  qe_alloc_from_fmt two_plane_entry two_plane_fmt
    (E.Env [EHandle (Dmabuf 20 8192 0); EFail 12] []) =
    Some (-1, Qe.set_dh (replicate VIDEO_MAX_PLANES None) two_plane_entry,
          E.Env []
            [dmabuf_realloc (Some (Dmabuf 10 4096 100)) 8192;
             dmabuf_realloc (Some (Dmabuf 11 4096 50)) 4096;
             dmabuf_free (Some (Dmabuf 20 8192 0))]).
Proof.
  assert (Hn : 0 <= 2 <= Z.of_nat VIDEO_MAX_PLANES)
    by (unfold VIDEO_MAX_PLANES; lia).
  split; [split; [reflexivity|]; split; [exact Hn | reflexivity]|].
  exact (proj2 (qe_alloc_from_fmt_planes two_plane_entry two_plane_fmt
                  (Fmt.PixMp 1920 1080 875967048
                     (8192 :: 4096 :: replicate 6 0) 2)
                  (E.Env [EHandle (Dmabuf 20 8192 0); EFail 12] [])
                  eq_refl eq_refl Hn eq_refl eq_refl)
           [Dmabuf 20 8192 0] (EFail 12) [] eq_refl
           ltac:(simpl; lia) eq_refl).
Defined.

End plane_allocation.
(** ** Source entries and submissions without one *)

Section source_entries.

Opaque queue_put_free queue_get_free.

(** X22.  Taking a source entry and giving it back.
    [mediabufs_src_qent_get] waits on an empty free list; otherwise it
    hands out the entry at the head of the free list, and
    [mediabufs_src_qent_abort] of that entry puts it back at the tail: the
    free list has rotated by one, its semaphore is as before, and the
    queues are well-formed. *)
Theorem mediabufs_src_qent_get_abort (w : world) (mbc : ptr)
    (c : Mbc.mediabufs_ctl) (fl il : list ptr)
    (Hc : ctls w !! mbc = Some c)
    (Hq : queue_inv (ents w) (Mbc.src c) fl il)
    (Hok : queue_ents_ok (ents w) fl) :
  match fl with
  | [] => mediabufs_src_qent_get w mbc = Some Blocks
  | p :: fl' =>
      ∃ w1 w2 c2,
        mediabufs_src_qent_get w mbc = Some (Returns (Some p) w1) ∧
        mediabufs_src_qent_abort w1 mbc (Some p) = Some (None, w2) ∧
        ctls w2 !! mbc = Some c2 ∧
        queue_inv (ents w2) (Mbc.src c2) (fl' ++ [p]) il ∧
        Bp.free_sem (Mbc.src c2) = Bp.free_sem (Mbc.src c) ∧
        Mbc.dst c2 = Mbc.dst c
  end.
Proof.
  destruct fl as [|p fl'].
  - unfold mediabufs_src_qent_get. rewrite Hc. simpl.
    pose proof (proj1 (proj2 (proj2 (proj2 Hq)))) as Hsem. simpl in Hsem.
    Transparent queue_get_free.
    unfold queue_get_free. rewrite Hsem. done.
    Opaque queue_get_free.
  - pose proof (proj1 (proj2 (proj2 (proj2 Hq)))) as Hsem.
    destruct (queue_inv_get_free _ _ p fl' il Hq)
      as (h1 & bp1 & e1 & Hget & _ & Hq1 & He1 & _ & Hnf & Hni).
    destruct (queue_get_free_spec _ _ p fl' (proj1 Hq) Hsem)
      as (h1' & bp1' & e & e1' & Hget' & _ & _ & _ & _ & _ & He & He1' & Hpay & _).
    rewrite Hget in Hget'. injection Hget' as <- <-.
    rewrite He1 in He1'. injection He1' as <-.
    destruct (Hok p ltac:(by left)) as (e' & He' & Hlen).
    rewrite He in He'. injection He' as <-.
    assert (Hlen1 : (length (Qe.dh e1) ≤ VIDEO_MAX_PLANES)%nat).
    { unfold payload in Hpay. injection Hpay as _ _ Hdh _. rewrite Hdh, Hlen. done. }
    destruct (queue_inv_put_free h1 bp1 fl' il p e1 Hq1 Hnf Hni He1 Hlen1)
      as (h2 & bp2 & Hput & Hq2).
    set (w1 := set_ctls (<[mbc := Mbc.set_src bp1 c]> (ctls w)) (set_ents h1 w)).
    set (w2 := set_ctls (<[mbc := Mbc.set_src bp2 (Mbc.set_src bp1 c)]> (ctls w1))
                 (set_ents h2 w1)).
    assert (Hg : mediabufs_src_qent_get w mbc = Some (Returns (Some p) w1)).
    { unfold mediabufs_src_qent_get. rewrite Hc. simpl. rewrite Hget. simpl.
      unfold put_src. simpl. by rewrite Hc. }
    assert (Ha : mediabufs_src_qent_abort w1 mbc (Some p) = Some (None, w2)).
    { unfold mediabufs_src_qent_abort. simpl. rewrite lookup_insert_eq. simpl.
      rewrite Hput. simpl. unfold put_src. simpl.
      by rewrite lookup_insert_eq. }
    exists w1, w2, (Mbc.set_src bp2 (Mbc.set_src bp1 c)).
    split; [exact Hg|]. split; [exact Ha|]. simpl.
    split; [apply lookup_insert_eq|]. split; [done|]. split; [|done].
    rewrite (proj1 (proj2 (proj2 (proj2 Hq2)))), Hsem.
    rewrite length_app. simpl. lia.
Qed.

Lemma src_demo_inv :
  queue_inv (ents src_demo_world) queue_demo_free_bp [1%nat] [] ∧
  queue_ents_ok (ents src_demo_world) [1%nat].
Proof.
  split.
  - split; [exact (proj1 queue_demo_free_wf)|].
    split; [split; [constructor | done]|].
    split; [intros p _; apply not_elem_of_nil|].
    split; [done|].
    split; [exact (proj2 queue_demo_free_wf)|].
    intros q Hq. by apply elem_of_nil in Hq.
  - intros q ->%list_elem_of_singleton. eexists.
    split; [vm_compute; reflexivity | reflexivity].
Qed.

Lemma mediabufs_src_qent_get_abort_witness :
  (queue_inv (ents src_demo_world) queue_demo_free_bp [1%nat] [] ∧
   queue_ents_ok (ents src_demo_world) [1%nat]) ∧
  ∃ w1 w2 c2,
    mediabufs_src_qent_get src_demo_world 0 = Some (Returns (Some 1%nat) w1) ∧
    mediabufs_src_qent_abort w1 0 (Some 1%nat) = Some (None, w2) ∧
    ctls w2 !! 0%nat = Some c2 ∧
    queue_inv (ents w2) (Mbc.src c2) ([] ++ [1%nat]) [] ∧
    Bp.free_sem (Mbc.src c2) = 1%nat.
Proof.
  split; [exact src_demo_inv|].
  destruct (mediabufs_src_qent_get_abort src_demo_world 0%nat
              (Mbc.Ctl 0 3 false false queue_demo_free_bp Bp.empty None
                 (demo_fmt V4L2_BUF_TYPE_VIDEO_OUTPUT_MPLANE)
                 (demo_fmt V4L2_BUF_TYPE_VIDEO_CAPTURE_MPLANE))
              [1%nat] [] ltac:(vm_compute; reflexivity)
              (proj1 src_demo_inv) (proj2 src_demo_inv))
    as (w1 & w2 & c2 & Hg & Ha & Hc2 & Hq2 & Hsem & _).
  exists w1, w2, c2. split; [exact Hg|]. split; [exact Ha|].
  split; [exact Hc2|]. split; [exact Hq2 | exact Hsem].
Defined.

Transparent queue_put_free queue_get_free.

(** X23.  A submission without a source entry queues nothing.  It reports
    operation-failed and gives up the request, which goes back on the free
    chain of its pool with the semaphore posted; no buffer is handed to the
    driver and no entry or queue is changed; and the waiting flag of the
    destination entry, if one was passed, is cleared whatever it was. *)
Theorem mediabufs_start_request_no_source (w : world) (mbc : ptr)
    (c : Mbc.mediabufs_ctl) (mreq dst_be : option ptr) (is_final : bool)
    (Hc : ctls w !! mbc = Some c)
    (Hreq : match mreq with
            | Some req =>
                ∃ r, reqs w !! req = Some r ∧
                     is_Some (pools w !! Req.mp r) ∧ K.script (kern w) ≠ []
            | None => True
            end)
    (Hdst : match dst_be with
            | Some d => is_Some (dsts w !! d)
            | None => True
            end) :
  ∃ w',
    mediabufs_start_request w mbc mreq None dst_be is_final =
      Some (MEDIABUFS_ERROR_OPERATION_FAILED, None, None, w') ∧
    ents w' = ents w ∧ ctls w' = ctls w ∧
    (∀ d dd, dst_be = Some d → dsts w !! d = Some dd →
             dsts w' !! d = Some (Qe.set_waiting false dd)) ∧
    match mreq with
    | Some req =>
        ∃ r p p',
          reqs w !! req = Some r ∧ pools w !! Req.mp r = Some p ∧
          pools w' !! Req.mp r = Some p' ∧
          Pool.free_reqs p' = Some req ∧ Pool.sem p' = S (Pool.sem p) ∧
          K.log (kern w') =
            K.log (kern w) ++ [MEDIA_REQUEST_IOC_REINIT (Req.fd r)]
    | None => kern w' = kern w ∧ pools w' = pools w
    end.
Proof.
  unfold mediabufs_start_request, start_request_fail1. rewrite Hc. simpl.
  assert (Hab : ∃ w1,
    media_request_abort w mreq = Some (0, None, w1) ∧
    ents w1 = ents w ∧ ctls w1 = ctls w ∧ dsts w1 = dsts w ∧
    match mreq with
    | Some req =>
        ∃ r p p',
          reqs w !! req = Some r ∧ pools w !! Req.mp r = Some p ∧
          pools w1 !! Req.mp r = Some p' ∧
          Pool.free_reqs p' = Some req ∧ Pool.sem p' = S (Pool.sem p) ∧
          K.log (kern w1) =
            K.log (kern w) ++ [MEDIA_REQUEST_IOC_REINIT (Req.fd r)]
    | None => kern w1 = kern w ∧ pools w1 = pools w
    end).
  { destruct mreq as [req|]; simpl; [|by exists w].
    destruct Hreq as (r & Hr & [p Hp] & Hs).
    unfold media_request_done. rewrite Hr. simpl. unfold env_call.
    destruct (K.script (kern w)) as [|a rest]; [done|]. simpl.
    rewrite Hp. simpl. eexists. split; [reflexivity|]. simpl.
    do 3 (split; [done|]). exists r, p. eexists.
    split; [done|]. split; [done|]. split; [apply lookup_insert_eq|]. done. }
  destruct Hab as (w1 & -> & He1 & Hc1 & Hd1 & Hpool). simpl.
  destruct dst_be as [d|]; simpl.
  - destruct Hdst as [dd Hdd]. unfold qe_dst_done. rewrite Hd1, Hdd. simpl.
    eexists. split; [reflexivity|]. simpl. do 2 (split; [done|]).
    split; [|done]. intros d' dd' [= <-] Hdd'. rewrite Hdd in Hdd'.
    injection Hdd' as <-. apply lookup_insert_eq.
  - exists w1. split; [reflexivity|]. do 2 (split; [done|]). split; [|done].
    by intros d dd [=].
Qed.

Lemma mediabufs_start_request_no_source_witness :
  (ctls (ctl_demo_world [KOk]) !! 0%nat
     = Some (Mbc.Ctl 0 3 false false Bp.empty Bp.empty (Some 0%nat)
               (demo_fmt V4L2_BUF_TYPE_VIDEO_OUTPUT_MPLANE)
               (demo_fmt V4L2_BUF_TYPE_VIDEO_CAPTURE_MPLANE)) ∧
   is_Some (dsts (ctl_demo_world [KOk]) !! 2%nat)) ∧
  ∃ w',
    mediabufs_start_request (ctl_demo_world [KOk]) 0 (Some 0%nat) None
      (Some 2%nat) true =
      Some (MEDIABUFS_ERROR_OPERATION_FAILED, None, None, w') ∧
    ents w' = ents (ctl_demo_world [KOk]) ∧
    ctls w' = ctls (ctl_demo_world [KOk]).
Proof.
  assert (Hc : ctls (ctl_demo_world [KOk]) !! 0%nat
     = Some (Mbc.Ctl 0 3 false false Bp.empty Bp.empty (Some 0%nat)
               (demo_fmt V4L2_BUF_TYPE_VIDEO_OUTPUT_MPLANE)
               (demo_fmt V4L2_BUF_TYPE_VIDEO_CAPTURE_MPLANE)))
    by (vm_compute; reflexivity).
  assert (Hd : is_Some (dsts (ctl_demo_world [KOk]) !! 2%nat))
    by (eexists; vm_compute; reflexivity).
  split; [by split|].
  destruct (mediabufs_start_request_no_source (ctl_demo_world [KOk]) 0%nat _
              (Some 0%nat) (Some 2%nat) true Hc)
    as (w' & Hst & He & Hctl & _).
  - exists (Req.Request None 0 7). split; [vm_compute; reflexivity|].
    split; [eexists; vm_compute; reflexivity | discriminate].
  - exact Hd.
  - exists w'. split; [exact Hst|]. split; [exact He | exact Hctl].
Defined.

End source_entries.
(** ** Negotiating the destination format *)

Section negotiation.

Lemma fmt_set_success fmt0 k fd buftype pixfmt width height bufsize f k' :
  fmt_set fmt0 k fd buftype pixfmt width height bufsize
    = Some (MEDIABUFS_STATUS_SUCCESS, f, k') →
  width <= Fmt.width (Fmt.fmt f) ∧ height <= Fmt.height (Fmt.fmt f) ∧
  Fmt.pixelformat (Fmt.fmt f) = pixfmt.
Proof.
  unfold fmt_set.
  destruct (ioctl_retry _ _) as [[a k1]|]; [|done]. simpl.
  destruct (is_err a); [done|].
  destruct (Fmt.width _ <? width) eqn:Hw; [done|].
  destruct (Fmt.height _ <? height) eqn:Hh; [done|].
  destruct (Fmt.pixelformat _ =? pixfmt) eqn:Hp; [|done]. simpl.
  intros [= <- _]. apply Z.ltb_ge in Hw, Hh. by apply Z.eqb_eq in Hp.
Qed.

(** What one pass of the enumeration can return. *)
Lemma find_fmt_flags_result s : ∀ fmt k fd ty must not_ width height accept
    st f k' s',
  find_fmt_flags s fmt k fd ty must not_ width height accept
    = Some (st, f, k', s') →
  (st = MEDIABUFS_STATUS_SUCCESS ∨
   st = MEDIABUFS_ERROR_UNSUPPORTED_BUFFERTYPE) ∧
  (∃ used, s = used ++ s') ∧
  (st = MEDIABUFS_STATUS_SUCCESS →
     width <= Fmt.width (Fmt.fmt f) ∧ height <= Fmt.height (Fmt.fmt f) ∧
     ∃ d, EnumOk d ∈ s ∧ accept d = true ∧
          Z.land (desc_flags d) must = must ∧
          Z.land (desc_flags d) not_ = 0 ∧
          Fmt.pixelformat (Fmt.fmt f) = desc_pixelformat d).
Proof.
  induction s as [|a s IH];
    intros fmt k fd ty must not_ width height accept st f k' s' Hfind;
    simpl in Hfind; [done|].
  assert (Hrec : ∀ fmt1 k1,
    find_fmt_flags s fmt1 k1 fd ty must not_ width height accept
      = Some (st, f, k', s') →
    (st = MEDIABUFS_STATUS_SUCCESS ∨
     st = MEDIABUFS_ERROR_UNSUPPORTED_BUFFERTYPE) ∧
    (∃ used, a :: s = used ++ s') ∧
    (st = MEDIABUFS_STATUS_SUCCESS →
       width <= Fmt.width (Fmt.fmt f) ∧ height <= Fmt.height (Fmt.fmt f) ∧
       ∃ d, EnumOk d ∈ a :: s ∧ accept d = true ∧
            Z.land (desc_flags d) must = must ∧
            Z.land (desc_flags d) not_ = 0 ∧
            Fmt.pixelformat (Fmt.fmt f) = desc_pixelformat d)).
  { intros fmt1 k1 H. destruct (IH _ _ _ _ _ _ _ _ _ _ _ _ _ H)
      as (Hst & [used ->] & Hok).
    split; [done|]. split; [by exists (a :: used)|].
    intros Hs. destruct (Hok Hs) as (Hw & Hh & d & Hd & Hrest).
    split; [done|]. split; [done|]. exists d. split; [by right | done]. }
  destruct a as [d | errno].
  - destruct (Z.land (desc_flags d) must =? must) eqn:Hm; simpl in Hfind;
      [|by eapply Hrec].
    destruct (Z.land (desc_flags d) not_ =? 0) eqn:Hn; simpl in Hfind;
      [|by eapply Hrec].
    destruct (accept d) eqn:Hacc; simpl in Hfind; [|by eapply Hrec].
    destruct (fmt_set _ _ _ _ _ _ _ _) as [[[st1 f1] k1]|] eqn:Hset; [|done].
    simpl in Hfind.
    destruct st1; try (by eapply Hrec).
    injection Hfind as <- <- <- <-.
    apply fmt_set_success in Hset as (Hw & Hh & Hp).
    split; [by left|]. split; [by exists [EnumOk d]|].
    intros _. split; [done|]. split; [done|]. exists d.
    split; [by left|]. split; [done|].
    apply Z.eqb_eq in Hm, Hn. done.
  - destruct (errno =? EINTR); [by eapply Hrec|].
    injection Hfind as <- <- <- <-.
    split; [by right|]. split; [by exists [EnumErr errno]|]. done.
Qed.

(** X24.  [mediabufs_dst_fmt_set] reports success or unsupported-buffer-type
    and nothing else: a format that the driver refuses to set is passed
    over, never reported as operation-failed.  On success the format
    stored in the controller is at least as wide and as high as asked for,
    and its pixel format is that of an enumerated description which the
    caller's filter accepted.  The source format and both queues are as
    before. *)
Theorem mediabufs_dst_fmt_set_outcome (w : world) (mbc : ptr)
    (s : list enum_res) (width height : Z) (accept_fn : fmtdesc → bool)
    (c : Mbc.mediabufs_ctl) (st : MediaBufsStatus) (w' : world)
    (s' : list enum_res)
    (Hc : ctls w !! mbc = Some c)
    (Hset : mediabufs_dst_fmt_set w mbc s width height accept_fn
              = Some (st, w', s')) :
  (st = MEDIABUFS_STATUS_SUCCESS ∨
   st = MEDIABUFS_ERROR_UNSUPPORTED_BUFFERTYPE) ∧
  ∃ f,
    ctls w' = <[mbc := mbc_set_dst_fmt f c]> (ctls w) ∧
    ents w' = ents w ∧ dsts w' = dsts w ∧
    (st = MEDIABUFS_STATUS_SUCCESS →
       width <= Fmt.width (Fmt.fmt f) ∧ height <= Fmt.height (Fmt.fmt f) ∧
       ∃ d, EnumOk d ∈ s ∧ accept_fn d = true ∧
            Fmt.pixelformat (Fmt.fmt f) = desc_pixelformat d).
Proof.
  unfold mediabufs_dst_fmt_set in Hset. rewrite Hc in Hset. simpl in Hset.
  destruct (find_fmt_flags s _ _ _ _ _ _ _ _ _) as [[[[st1 f1] k1] s1]|] eqn:H1;
    [|done].
  simpl in Hset.
  destruct (find_fmt_flags_result _ _ _ _ _ _ _ _ _ _ _ _ _ _ H1)
    as (Hst1 & [used1 ->] & Hok1).
  destruct Hst1 as [-> | ->].
  - injection Hset as <- <- <-. split; [by left|]. exists f1.
    do 3 (split; [done|]). intros _.
    destruct (Hok1 eq_refl) as (Hw & Hh & d & Hd & Hacc & _ & _ & Hp).
    split; [done|]. split; [done|]. by exists d.
  - destruct (find_fmt_flags s1 _ _ _ _ _ _ _ _ _)
      as [[[[st2 f2] k2] s2]|] eqn:H2; [|done].
    simpl in Hset. injection Hset as <- <- <-.
    destruct (find_fmt_flags_result _ _ _ _ _ _ _ _ _ _ _ _ _ _ H2)
      as (Hst2 & _ & Hok2).
    split; [done|]. exists f2. do 3 (split; [done|]). intros Hs.
    destruct (Hok2 Hs) as (Hw & Hh & d & Hd & Hacc & _ & _ & Hp).
    split; [done|]. split; [done|]. exists d. split; [|done].
    apply elem_of_app. by right.
Qed.

Lemma mediabufs_dst_fmt_set_outcome_witness :
  (ctls fmt_demo_world !! 0%nat
     = Some (Mbc.Ctl 0 3 false false Bp.empty Bp.empty (Some 0%nat)
               (demo_fmt V4L2_BUF_TYPE_VIDEO_OUTPUT_MPLANE)
               (demo_fmt V4L2_BUF_TYPE_VIDEO_CAPTURE_MPLANE)) ∧
   mediabufs_dst_fmt_set fmt_demo_world 0 fmt_demo_descs 1920 1080 (λ _, true)
     = Some (MEDIABUFS_STATUS_SUCCESS, fmt_demo_after, [EnumErr 22])) ∧
  ∃ f,
    ctls fmt_demo_after =
      <[0%nat := mbc_set_dst_fmt f
                   (Mbc.Ctl 0 3 false false Bp.empty Bp.empty (Some 0%nat)
                      (demo_fmt V4L2_BUF_TYPE_VIDEO_OUTPUT_MPLANE)
                      (demo_fmt V4L2_BUF_TYPE_VIDEO_CAPTURE_MPLANE))]>
        (ctls fmt_demo_world) ∧
    1920 <= Fmt.width (Fmt.fmt f).
Proof.
  assert (Hc : ctls fmt_demo_world !! 0%nat
     = Some (Mbc.Ctl 0 3 false false Bp.empty Bp.empty (Some 0%nat)
               (demo_fmt V4L2_BUF_TYPE_VIDEO_OUTPUT_MPLANE)
               (demo_fmt V4L2_BUF_TYPE_VIDEO_CAPTURE_MPLANE)))
    by (vm_compute; reflexivity).
  assert (Hrun :
    mediabufs_dst_fmt_set fmt_demo_world 0 fmt_demo_descs 1920 1080 (λ _, true)
      = Some (MEDIABUFS_STATUS_SUCCESS, fmt_demo_after, [EnumErr 22]))
    by (vm_compute; reflexivity).
  split; [by split|].
  destruct (mediabufs_dst_fmt_set_outcome _ _ _ _ _ _ _ _ _ _ Hc Hrun)
    as (_ & f & Hctl & _ & _ & Hok).
  exists f. split; [exact Hctl|]. exact (proj1 (Hok eq_refl)).
Defined.

End negotiation.
(** ** Allocating a destination entry *)

Section dst_alloc.

Implicit Types (dh : list (option dmabuf_h)) (v : E.env).

Lemma alloc_unwind_length i : ∀ dh v dh' v',
  alloc_unwind i dh v = Some (dh', v') → length dh' = length dh.
Proof.
  induction i as [|i IH]; intros dh v dh' v' H; simpl in H.
  - by injection H as <- _.
  - destruct (dh !! i) as [d0|]; [|done]. simpl in H.
    apply IH in H. by rewrite length_insert in H.
Qed.

Lemma alloc_planes_from_length fuel : ∀ i sizes dh v rc dh' v',
  alloc_planes_from fuel i sizes dh v = Some (rc, dh', v') →
  length dh' = length dh.
Proof.
  induction fuel as [|fuel IH]; intros i sizes dh v rc dh' v' H; simpl in H.
  - by injection H as _ <- _.
  - destruct (dh !! i) as [old|]; [|done]. simpl in H.
    destruct (sizes !! i) as [size|]; [|done]. simpl in H.
    destruct (e_call v _) as [[a v1]|]; [|done]. simpl in H.
    destruct a as [|e|d|ix];
      try (destruct (alloc_unwind _ _ _) as [[dh1 v2]|] eqn:Hu; [|done];
           simpl in H; injection H as _ <- _;
           apply alloc_unwind_length in Hu;
           by rewrite length_insert in Hu).
    apply IH in H. by rewrite length_insert in H.
Qed.

(** The outcome of [qe_alloc_from_fmt] depends on the plane handles of the
    entry only, and it changes nothing else in the entry. *)
Lemma qe_alloc_from_fmt_dh be fmt v rc be' v' :
  qe_alloc_from_fmt be fmt v = Some (rc, be', v') →
  length (Qe.dh be') = length (Qe.dh be) ∧
  ∀ be1, Qe.dh be1 = Qe.dh be →
    qe_alloc_from_fmt be1 fmt v = Some (rc, Qe.set_dh (Qe.dh be') be1, v').
Proof.
  unfold qe_alloc_from_fmt.
  destruct (V4L2_TYPE_IS_MULTIPLANAR _), (Fmt.fmt fmt) as [p|p]; try done.
  - destruct (alloc_planes_from _ _ _ _ _) as [[[rc1 dh1] v1]|] eqn:Ha; [|done].
    simpl. intros [= <- <- <-]. simpl. split.
    + by eapply alloc_planes_from_length.
    + intros be1 ->. by rewrite Ha.
  - destruct (Qe.dh be !! 0%nat) as [old|] eqn:Hold; [|done]. simpl.
    destruct (e_call v _) as [[a v1]|] eqn:Hcall; [|done]. simpl.
    destruct a as [|e|d|ix]; intros [= <- <- <-]; simpl;
      (split; [by rewrite length_insert|]);
      intros be1 Hdh; by rewrite Hdh, Hold; simpl; rewrite Hcall.
Qed.

Opaque queue_put_free queue_tryget_free qe_alloc_from_fmt.

(** X25.  [mediabufs_dst_qent_alloc] with a free entry at hand.  The entry
    at the head of the free list is taken, without creating a buffer, and
    its planes are allocated for the destination format.  When that
    succeeds the entry is handed out, with its buffer index, and the queue
    is well-formed without it.  When it fails, null is returned and the
    entry is not lost: it is put back at the tail of the free list, with
    the semaphore as before. *)
Theorem mediabufs_dst_qent_alloc_recycles (w : world) (v : E.env) (mbc p : ptr)
    (c : Mbc.mediabufs_ctl) (fl il : list ptr) (e e' : Qe.qent_base)
    (rc : Z) (v' : E.env)
    (Hc : ctls w !! mbc = Some c)
    (Hq : queue_inv (ents w) (Mbc.dst c) (p :: fl) il)
    (He : ents w !! p = Some e)
    (Hlen : length (Qe.dh e) = VIDEO_MAX_PLANES)
    (Halloc : qe_alloc_from_fmt e (Mbc.dst_fmt c) v = Some (rc, e', v')) :
  ∃ w' c',
    mediabufs_dst_qent_alloc w v (Some mbc) =
      Some (if rc =? 0 then Some p else None, w', v') ∧
    ctls w' !! mbc = Some c' ∧ Mbc.src c' = Mbc.src c ∧ kern w' = kern w ∧
    if rc =? 0
    then queue_inv (ents w') (Mbc.dst c') fl il ∧
         ∃ e1, ents w' !! p = Some e1 ∧ Qe.dh e1 = Qe.dh e' ∧
               Qe.index e1 = Qe.index e
    else queue_inv (ents w') (Mbc.dst c') (fl ++ [p]) il ∧
         Bp.free_sem (Mbc.dst c') = Bp.free_sem (Mbc.dst c).
Proof.
  pose proof (proj1 (proj2 (proj2 (proj2 Hq)))) as Hsem.
  destruct (queue_inv_get_free _ _ p fl il Hq)
    as (h1 & bp1 & e1 & _ & Htry & Hq1 & He1 & _ & Hnf & Hni).
  destruct (queue_get_free_spec _ _ p fl (proj1 Hq) Hsem)
    as (h1' & bp1' & e0 & e1' & _ & Htry' & _ & _ & _ & _ & He0 & He1' & Hpay & _).
  rewrite Htry in Htry'. injection Htry' as <- <-.
  rewrite He in He0. injection He0 as <-.
  rewrite He1 in He1'. injection He1' as <-.
  unfold payload in Hpay. injection Hpay as _ Hidx Hdh _.
  destruct (qe_alloc_from_fmt_dh _ _ _ _ _ _ Halloc) as [Hlen' Hdep].
  specialize (Hdep e1 Hdh).
  set (e2 := Qe.set_dh (Qe.dh e') e1) in *.
  set (w1 := set_ctls (<[mbc := Mbc.set_dst bp1 c]> (ctls w)) (set_ents h1 w)).
  set (w2 := set_ents (<[p := e2]> h1) w1).
  assert (Hnot : p ∉ fl ++ il).
  { intros [H | H]%elem_of_app; [by apply Hnf | by apply Hni]. }
  assert (Hq2 : queue_inv (<[p := e2]> h1) bp1 fl il).
  { eapply queue_inv_frame; [|exact Hq1]. intros q Hin.
    rewrite lookup_insert_ne; [done|]. by intros <-. }
  assert (Hhead :
    mediabufs_dst_qent_alloc w v (Some mbc) =
      (if negb (rc =? 0)
       then '(h, bp) ← queue_put_free (<[p := e2]> h1) bp1 p;
            w ← put_dst (set_ents h w2) mbc bp; Some (None, w, v')
       else Some (Some p, w2, v'))).
  { unfold mediabufs_dst_qent_alloc. rewrite Hc. simpl.
    rewrite Htry. simpl.
    rewrite (put_dst_Some (set_ents h1 w) mbc bp1 c Hc). simpl.
    rewrite lookup_insert_eq. simpl. rewrite He1. simpl. rewrite Hdep. done. }
  rewrite Hhead. clear Hhead.
  destruct (rc =? 0) eqn:Hrc; simpl.
  - exists w2, (Mbc.set_dst bp1 c). split; [done|]. simpl.
    split; [apply lookup_insert_eq|]. do 2 (split; [done|]).
    split; [done|]. exists e2. split; [apply lookup_insert_eq|]. done.
  - destruct (queue_inv_put_free _ _ fl il p e2 Hq2 Hnf Hni
                (lookup_insert_eq _ _ _))
      as (h3 & bp3 & Hput & Hq3).
    { subst e2. simpl. rewrite Hlen', Hlen. done. }
    rewrite Hput. simpl. unfold put_dst. simpl.
    rewrite lookup_insert_eq. simpl.
    eexists _, (Mbc.set_dst bp3 (Mbc.set_dst bp1 c)).
    split; [reflexivity|]. simpl. rewrite insert_insert_eq.
    split; [apply lookup_insert_eq|]. do 2 (split; [done|]).
    split; [done|].
    rewrite (proj1 (proj2 (proj2 (proj2 Hq3)))), Hsem, length_app.
    simpl. lia.
Qed.

Transparent queue_put_free queue_tryget_free qe_alloc_from_fmt.

Lemma mediabufs_dst_qent_alloc_recycles_witness :
  (queue_inv (ents dst_demo_world) queue_demo_free_bp [1%nat] [] ∧
   qe_alloc_from_fmt
     (Qe.Base None None QENT_WAITING 0 (demo_planes 10 0) timeval_zero)
     two_plane_fmt (E.Env [EHandle (Dmabuf 20 8192 0); EFail 12] []) =
   Some (-1,
         Qe.Base None None QENT_WAITING 0 (replicate VIDEO_MAX_PLANES None)
           timeval_zero,
         E.Env [] [dmabuf_realloc (Some (Dmabuf 10 4096 0)) 8192;
                   dmabuf_realloc None 4096;
                   dmabuf_free (Some (Dmabuf 20 8192 0))])) ∧
  ∃ w' c',
    mediabufs_dst_qent_alloc dst_demo_world
      (E.Env [EHandle (Dmabuf 20 8192 0); EFail 12] []) (Some 0%nat) =
      Some (None, w',
            E.Env [] [dmabuf_realloc (Some (Dmabuf 10 4096 0)) 8192;
                      dmabuf_realloc None 4096;
                      dmabuf_free (Some (Dmabuf 20 8192 0))]) ∧
    ctls w' !! 0%nat = Some c' ∧
    queue_inv (ents w') (Mbc.dst c') ([] ++ [1%nat]) [] ∧
    Bp.free_sem (Mbc.dst c') = 1%nat.
Proof.
  assert (Ha : qe_alloc_from_fmt
     (Qe.Base None None QENT_WAITING 0 (demo_planes 10 0) timeval_zero)
     two_plane_fmt (E.Env [EHandle (Dmabuf 20 8192 0); EFail 12] []) =
   Some (-1,
         Qe.Base None None QENT_WAITING 0 (replicate VIDEO_MAX_PLANES None)
           timeval_zero,
         E.Env [] [dmabuf_realloc (Some (Dmabuf 10 4096 0)) 8192;
                   dmabuf_realloc None 4096;
                   dmabuf_free (Some (Dmabuf 20 8192 0))]))
    by (vm_compute; reflexivity).
  split; [split; [exact (proj1 src_demo_inv) | exact Ha]|].
  destruct (mediabufs_dst_qent_alloc_recycles dst_demo_world _ 0%nat 1%nat
              (Mbc.Ctl 0 3 false false Bp.empty queue_demo_free_bp None
                 (demo_fmt V4L2_BUF_TYPE_VIDEO_OUTPUT_MPLANE) two_plane_fmt)
              [] [] _ _ _ _
              ltac:(vm_compute; reflexivity) (proj1 src_demo_inv)
              ltac:(vm_compute; reflexivity) eq_refl Ha)
    as (w' & c' & Hrun & Hc' & _ & _ & Hq' & Hsem).
  exists w', c'. split; [exact Hrun|]. split; [exact Hc'|].
  split; [exact Hq' | exact Hsem].
Defined.

End dst_alloc.

(** ** Releasing the free source entries *)

Lemma qe_src_delete_ok h be e v :
  h !! be = Some e → length (Qe.dh e) = VIDEO_MAX_PLANES →
  ∃ v', qe_src_delete h (Some be) v = Some (delete be h, v') ∧
        E.script v' = E.script v ∧
        E.log v' = E.log v ++ (dmabuf_free <$> Qe.dh e).
Proof.
  intros He Hlen.
  exists (E.Env (E.script v) (E.log v ++ (dmabuf_free <$> Qe.dh e))).
  split; [|done].
  unfold qe_src_delete. rewrite He.
  change (Some e ≫= ?f) with (f e). cbv beta.
  by rewrite (qe_base_uninit_spec e v Hlen).
Qed.

Lemma bq_free_all_free_src_from_spec fl :
  ∀ fuel h bp v,
    dlist h fl (Bp.free_head bp) (Bp.free_tail bp) →
    queue_ents_ok h fl →
    (length fl < fuel)%nat →
    ∃ h' bp' v',
      bq_free_all_free_src_from fuel h bp v = Some (h', bp', v') ∧
      Bp.free_head bp' = None ∧ Bp.free_tail bp' = None ∧
      Bp.free_sem bp' = Bp.free_sem bp ∧
      Bp.inuse_head bp' = Bp.inuse_head bp ∧
      Bp.inuse_tail bp' = Bp.inuse_tail bp ∧
      (∀ p, p ∈ fl → h' !! p = None) ∧
      (∀ p, p ∉ fl → h' !! p = h !! p) ∧
      E.script v' = E.script v ∧
      ∃ tail,
        E.log v' = E.log v ++ tail ∧
        length tail = (VIDEO_MAX_PLANES * length fl)%nat ∧
        Forall (λ c, ∃ d, c = dmabuf_free d) tail.
Proof.
  induction fl as [|be l IH]; intros fuel h bp v Hdl Hok Hfuel.
  - destruct fuel as [|fuel]; [simpl in Hfuel; lia|].
    destruct Hdl as [_ [Hhd Htl]].
    exists h, bp, v. cbn [bq_free_all_free_src_from].
    unfold bq_get_free. rewrite Hhd. simpl.
    split; [done|]. split; [done|]. split; [done|]. split; [done|].
    split; [done|]. split; [done|].
    split; [by intros p Hp; apply elem_of_nil in Hp|].
    split; [done|]. split; [done|]. exists [].
    rewrite app_nil_r. split; [done|]. split; [simpl length; lia | done].
  - destruct fuel as [|fuel]; [simpl in Hfuel; lia|].
    pose proof Hdl as [Hnd _]. apply NoDup_cons in Hnd as [Hbe Hnd].
    destruct (bq_get_free_spec h bp be l Hdl)
      as (h1 & bp1 & e & e1 & He & Hget & Hdl1 & Hih & Hit & Hsem & He1 &
          _ & _ & Hpay & Hpays & Hfr).
    destruct (Hok be ltac:(left)) as (e0 & He0 & Hlen0).
    assert (e0 = e) as -> by congruence.
    assert (length (Qe.dh e1) = VIDEO_MAX_PLANES) as Hlen1.
    { unfold payload in Hpay. injection Hpay as _ _ Hdh _. by rewrite Hdh. }
    destruct (qe_src_delete_ok h1 be e1 v He1 Hlen1) as (v1 & Hdel & Hs1 & Hl1).
    destruct (IH fuel (delete be h1) bp1 v1) as
      (h' & bp' & v' & Hrun & Hfh & Hft & Hsem' & Hih' & Hit' & Hgone &
       Hkept & Hs' & tail & Hl' & Hlt & Hft').
    { eapply dlist_frame; [|exact Hdl1]. intros p Hp.
      apply lookup_delete_ne. intros ->. done. }
    { intros q Hq. destruct (Hok q ltac:(by right)) as (eq & Heq & Hleq).
      destruct (payload_length h h1 q eq (Hpays q) Heq) as (eq1 & Heq1 & Hl).
      exists eq1. split; [|by rewrite Hl].
      rewrite lookup_delete_ne; [done|]. intros ->. done. }
    { simpl in Hfuel. lia. }
    exists h', bp', v'. cbn [bq_free_all_free_src_from].
    rewrite Hget. Opaque qe_src_delete. simpl. Transparent qe_src_delete.
    rewrite Hdel. simpl. rewrite Hrun.
    split; [done|]. split; [done|]. split; [done|].
    split; [congruence|]. split; [congruence|]. split; [congruence|].
    split; [|split; [|split]].
    + intros p Hp. apply elem_of_cons in Hp as [->|Hp]; [|by apply Hgone].
      rewrite (Hkept be Hbe). apply lookup_delete_eq.
    + intros p Hp. apply not_elem_of_cons in Hp as [Hne Hp].
      rewrite (Hkept p Hp). rewrite lookup_delete_ne by done.
      apply Hfr. by apply not_elem_of_cons.
    + by rewrite Hs', Hs1.
    + exists ((dmabuf_free <$> Qe.dh e1) ++ tail).
      split; [by rewrite Hl', Hl1, <- app_assoc|]. split.
      * rewrite length_app, length_fmap, Hlen1, Hlt. simpl length.
        unfold VIDEO_MAX_PLANES. lia.
      * apply Forall_app. split; [|done].
        apply Forall_fmap, Forall_forall. intros d _. by exists d.
Qed.

(** X26. [bq_free_all_free_src] releases every entry of the free list
    (eight calls each, all of them [dmabuf_free]) and leaves the list empty and the
    in-use list as it was, but it takes nothing from the semaphore: the
    count still is the number of entries released, so that a later
    [queue_get_free] on a queue that had free entries returns null at once
    instead of waiting. *)
Theorem bq_free_all_free_src_keeps_count h bp fl il v :
  queue_inv h bp fl il → queue_ents_ok h fl →
  ∃ h' bp' v',
    bq_free_all_free_src h bp v = Some (h', bp', v') ∧
    (∀ p, p ∈ fl → h' !! p = None) ∧
    (∀ p, p ∉ fl → h' !! p = h !! p) ∧
    Bp.free_head bp' = None ∧ Bp.free_tail bp' = None ∧
    dlist h' il (Bp.inuse_head bp') (Bp.inuse_tail bp') ∧
    Bp.free_sem bp' = length fl ∧
    E.script v' = E.script v ∧
    length (E.log v')
      = (length (E.log v) + VIDEO_MAX_PLANES * length fl)%nat ∧
    (∃ tail, E.log v' = E.log v ++ tail ∧
             Forall (λ c, ∃ d, c = dmabuf_free d) tail) ∧
    (fl ≠ [] →
     queue_get_free h' bp'
       = Some (Returns None
                 (h', Bp.set_free_sem (pred (length fl)) bp'))).
Proof.
  intros (Hfl & Hil & Hdisj & Hsem & _ & _) Hok.
  pose proof (dlist_length_le_size _ _ _ _ Hfl) as Hsz.
  destruct (bq_free_all_free_src_from_spec fl (S (size h)) h bp v Hfl Hok
              ltac:(lia))
    as (h' & bp' & v' & Hrun & Hfh & Hft & Hsem' & Hih & Hit & Hgone &
        Hkept & Hs & tail & Hl & Hlt & Hfree).
  exists h', bp', v'. split; [exact Hrun|].
  split; [done|]. split; [done|]. split; [done|]. split; [done|].
  split; [|split; [congruence|split; [done|split;
    [by rewrite Hl, length_app, Hlt|split; [by exists tail|]]]]].
  - rewrite Hih, Hit. eapply dlist_frame; [|exact Hil].
    intros p Hp. apply Hkept. intros Hp'. by apply (Hdisj p).
  - intros Hne. unfold queue_get_free. rewrite Hsem', Hsem.
    destruct fl as [|p l]; [done|]. simpl.
    assert (Bp.free_head (Bp.set_free_sem (length l) bp') = None) as Hfh'
      by (by destruct bp').
    unfold bq_get_free. by rewrite Hfh'.
Qed.

Lemma bq_free_all_free_src_keeps_count_witness :
  (queue_inv (ents src_demo_world) queue_demo_free_bp [1%nat] [] ∧
   queue_ents_ok (ents src_demo_world) [1%nat]) ∧
  ∃ h' bp' v',
    bq_free_all_free_src (ents src_demo_world) queue_demo_free_bp
      (E.Env [] []) = Some (h', bp', v') ∧
    h' !! 1%nat = None ∧
    Bp.free_head bp' = None ∧
    Bp.free_sem bp' = 1%nat ∧
    length (E.log v') = VIDEO_MAX_PLANES ∧
    queue_get_free h' bp' = Some (Returns None (h', Bp.set_free_sem 0 bp')).
Proof.
  split; [exact src_demo_inv|].
  destruct (bq_free_all_free_src_keeps_count (ents src_demo_world)
              queue_demo_free_bp [1%nat] [] (E.Env [] [])
              (proj1 src_demo_inv) (proj2 src_demo_inv))
    as (h' & bp' & v' & Hrun & Hgone & _ & Hfh & _ & _ & Hsem & _ & Hlog &
        _ & Hget).
  exists h', bp', v'. split; [exact Hrun|].
  split; [apply Hgone; left|]. split; [exact Hfh|]. split; [exact Hsem|].
  split; [exact Hlog|]. by apply Hget.
Defined.

(** ** A submission whose destination buffer the driver refuses *)

Section refused_submission.

Implicit Types (h : gmap nat Qe.qent_base) (l : list nat).

(** The destination part of a submission that the driver refuses: the
    waiting flag is set and the timestamp cleared, the buffer is handed to
    the driver once, and the entry is not put on the in-use list, so that
    its status is the one it had. *)
Lemma start_request_dst_refused w mbc be c e d0 d err rest :
  ctls w !! mbc = Some c →
  ents w !! be = Some e → Qe.dh e !! 0%nat = Some (Some d0) →
  dsts w !! be = Some d → Qe.waiting d = false →
  K.script (kern w) = KErr err :: rest → err ≠ EINTR → err ≠ 0 →
  ∃ qb e1,
    start_request_dst w mbc (Some be) =
      Some (false,
            set_kern (K.Kernel rest (K.log (kern w) ++ [VIDIOC_QBUF (Mbc.vfd c) qb]))
              (set_ents (<[be := e1]> (ents w))
                 (set_dsts (<[be := Qe.set_waiting true d]> (dsts w)) w))) ∧
    Qe.status e1 = Qe.status e ∧
    Buf.type qb = Fmt.type (Mbc.dst_fmt c).
Proof.
  intros Hc He Hd0 Hd Hwait Hs Herr Herr0.
  unfold start_request_dst, qe_dst_waiting. rewrite Hd. simpl.
  rewrite Hwait. rewrite (upd_Some _ _ _ _ He). simpl. rewrite Hc. simpl.
  destruct (qe_v4l2_queue_ok
              (set_ents (<[be := Qe.set_timestamp timeval_zero e]> (ents w))
                 (set_dsts (<[be := Qe.set_waiting true d]> (dsts w)) w))
              be (Mbc.vfd c) None (Mbc.dst_fmt c) true false
              (Qe.set_timestamp timeval_zero e) d0 (KErr err) rest)
    as (qb & e1 & Hq & _ & _ & Hst & _ & _ & Hbt & _);
    [apply lookup_insert_eq | exact Hd0 | exact I | exact Hs
    | unfold not_eintr; simpl; by apply Z.eqb_neq |].
  rewrite Hq. simpl. rewrite insert_insert_eq.
  assert ((- err =? 0) = false) as -> by (apply Z.eqb_neq; lia).
  simpl. exists qb, e1. done.
Qed.

(** The calls that giving up a request adds to the log. *)
Lemma media_request_abort_ok w mreq :
  match mreq with
  | Some req =>
      ∃ r, reqs w !! req = Some r ∧ is_Some (pools w !! Req.mp r) ∧
           K.script (kern w) ≠ []
  | None => True
  end →
  ∃ w1 tail,
    media_request_abort w mreq = Some (0, None, w1) ∧
    ents w1 = ents w ∧ ctls w1 = ctls w ∧ dsts w1 = dsts w ∧
    K.log (kern w1) = K.log (kern w) ++ tail ∧
    ∀ c, c ∈ tail → ∃ fd, c = MEDIA_REQUEST_IOC_REINIT fd.
Proof.
  intros Hreq. destruct mreq as [req|]; simpl.
  - destruct Hreq as (r & Hr & [p Hp] & Hs).
    unfold media_request_done. rewrite Hr. simpl. unfold env_call.
    destruct (K.script (kern w)) as [|a rest]; [done|]. simpl.
    rewrite Hp. simpl. eexists _, [_]. split; [reflexivity|]. simpl.
    do 4 (split; [done|]). intros c ->%list_elem_of_singleton. eauto.
  - exists w, []. rewrite app_nil_r. do 5 (split; [done|]).
    intros c Hc. by apply elem_of_nil in Hc.
Qed.

Opaque start_request_dst media_request_abort queue_put_free.

(** A submission refused at the destination buffer leaves the entry with
    the status it had: [fail1] gives up the request, recycles the source
    entry and clears the waiting flag, and nothing sets the status, which
    on the accepted path [queue_put_inuse] resets to [QENT_WAITING].  A
    wait on the entry then returns at once with the result of that earlier
    status, although the driver has completed nothing. *)
Lemma start_request_refused_keeps_status w mbc c mreq s be d e d0 es err rest
    l is_final :
  ctls w !! mbc = Some c →
  dsts w !! be = Some d → Qe.waiting d = false →
  ents w !! be = Some e → Qe.dh e !! 0%nat = Some (Some d0) →
  K.script (kern w) = KErr err :: rest → err ≠ EINTR → err ≠ 0 →
  match mreq with
  | Some req =>
      ∃ r, reqs w !! req = Some r ∧ is_Some (pools w !! Req.mp r) ∧ rest ≠ []
  | None => True
  end →
  ents w !! s = Some es → s ≠ be →
  dlist (ents w) l (Bp.free_head (Mbc.src c)) (Bp.free_tail (Mbc.src c)) →
  s ∉ l → be ∉ l →
  ∃ w' e' qb tail,
    mediabufs_start_request w mbc mreq (Some s) (Some be) is_final
      = Some (MEDIABUFS_ERROR_OPERATION_FAILED, None, None, w') ∧
    ents w' !! be = Some e' ∧ Qe.status e' = Qe.status e ∧
    K.log (kern w')
      = K.log (kern w) ++ VIDIOC_QBUF (Mbc.vfd c) qb :: tail ∧
    (∀ k, k ∈ tail → ∃ fd, k = MEDIA_REQUEST_IOC_REINIT fd) ∧
    ∀ cond_wait_fails,
      qent_dst_wait w' be cond_wait_fails
        = Some (Returns (status_result (Qe.status e)) w').
Proof.
  intros Hc Hd Hwait He Hd0 Hs Herr Herr0 Hreq Hes Hsbe Hdl Hsl Hbel.
  destruct (start_request_dst_refused w mbc be c e d0 d err rest
              Hc He Hd0 Hd Hwait Hs Herr Herr0) as (qb & e1 & Hdst & Hst1 & _).
  set (w1 := set_kern _ _) in Hdst.
  destruct (media_request_abort_ok w1 mreq) as
    (w2 & tail & Hab & Hents2 & Hctls2 & Hdsts2 & Hlog2 & Htail).
  { destruct mreq as [req|]; [|done].
    destruct Hreq as (r & Hr & Hp & Hrest). exists r. done. }
  assert (Hdl1 : dlist (<[be := e1]> (ents w)) l
                   (Bp.free_head (Mbc.src c)) (Bp.free_tail (Mbc.src c))).
  { eapply dlist_frame; [|exact Hdl]. intros p Hp.
    rewrite lookup_insert_ne; [done|]. by intros <-. }
  destruct (queue_put_free_spec (<[be := e1]> (ents w)) (Mbc.src c) l s es
              Hdl1 Hsl) as
    (h3 & bp3 & es3 & Hput & _ & _ & _ & _ & _ & _ & _ & _ & _ & Hpay & _).
  { by rewrite lookup_insert_ne. }
  pose proof (Hpay be ltac:(done)) as Hpbe.
  rewrite lookup_insert_eq in Hpbe.
  destruct (h3 !! be) as [e3|] eqn:He3; [|done].
  simpl in Hpbe. injection Hpbe as Hst3 _ _ _.
  unfold mediabufs_start_request. rewrite Hc. simpl. rewrite Hdst. simpl.
  unfold start_request_fail1. rewrite Hab. simpl.
  rewrite Hctls2. simpl. rewrite Hc. simpl.
  rewrite Hents2. simpl. rewrite Hput. simpl.
  unfold put_src. simpl. rewrite Hctls2. simpl. rewrite Hc. simpl.
  unfold qe_dst_done. simpl. rewrite Hdsts2. simpl.
  rewrite lookup_insert_eq. simpl.
  eexists _, e3, qb, tail. split; [reflexivity|]. simpl.
  split; [exact He3|]. split; [congruence|].
  split; [rewrite Hlog2; simpl; by rewrite <- app_assoc|].
  split; [exact Htail|].
  intros cwf. unfold qent_dst_wait. simpl.
  rewrite lookup_insert_eq. simpl. rewrite He3. simpl.
  by rewrite Hst3, Hst1.
Qed.

Transparent start_request_dst media_request_abort queue_put_free.

(** C4, at an input where the result of the wait is not what the
    completion path posted.  The destination entry 2 goes through a first
    submission that the driver completes ([QENT_DONE], and the wait
    returns success); its holder frees it, which recycles it onto the free
    list with that status, and gets it again for a second submission.
    This time the driver refuses the destination buffer with [EINVAL]:
    the submission reports operation-failed, nothing is queued and no
    buffer is dequeued, and the waiting flag is cleared.  The wait on the
    entry returns success all the same: it reads the status of the first
    submission, which nothing has reset. *)
Theorem qent_dst_wait_stale_success :
  ∃ w1 w2 w3 w4 w5 w6 w7 v7 w8 qb e2,
    (* first submission, completed by the driver *)
    mediabufs_start_request resubmit_demo_world 0
      (Some 0%nat) (Some 1%nat) (Some 2%nat) true
      = Some (MEDIABUFS_STATUS_SUCCESS, None, None, w1) ∧
    mediabufs_poll_cb w1 0 (Z.lor POLLIN POLLOUT) = Some w2 ∧
    media_request_done w2 0 = Some w3 ∧
    qent_dst_wait w3 2 false = Some (Returns MEDIABUFS_STATUS_SUCCESS w3) ∧
    (* the entry is recycled and handed out again *)
    qent_dst_free w3 resubmit_demo_env (Some 2%nat)
      = Some (None, w4, resubmit_demo_env) ∧
    media_request_get w4 0 = Some (Returns (Some 0%nat) w5) ∧
    mediabufs_src_qent_get w5 0 = Some (Returns (Some 1%nat) w6) ∧
    mediabufs_dst_qent_alloc w6 resubmit_demo_env (Some 0%nat)
      = Some (Some 2%nat, w7, v7) ∧
    ents w7 !! 2%nat = Some e2 ∧ Qe.status e2 = QENT_DONE ∧
    (* second submission, refused at the destination buffer *)
    K.script (kern w7) = [KErr 22; KOk] ∧
    mediabufs_start_request w7 0 (Some 0%nat) (Some 1%nat) (Some 2%nat) true
      = Some (MEDIABUFS_ERROR_OPERATION_FAILED, None, None, w8) ∧
    K.log (kern w8)
      = K.log (kern w7) ++ [VIDIOC_QBUF 3 qb; MEDIA_REQUEST_IOC_REINIT 7] ∧
    Buf.type qb = V4L2_BUF_TYPE_VIDEO_CAPTURE_MPLANE ∧
    qent_dst_wait w8 2 false = Some (Returns MEDIABUFS_STATUS_SUCCESS w8).
Proof.
  eexists _, _, _, _, _, _, _, _, _, _, _.
  do 14 (split; [vm_compute; reflexivity|]).
  vm_compute; reflexivity.
Qed.

End refused_submission.

(** ** Where recorded plane lengths come from *)

(** The entries the code builds keep [planes_unwritten]: a new entry has no
    handle at all, and each function that stores a handle or a length
    either works on slot 0, or stores a handle as the allocator made it, or
    stores the length 0. *)
Section plane_lengths.

Implicit Types (dh : list (option dmabuf_h)) (e be : Qe.qent_base).

Lemma unwritten_insert dh i o :
  planes_unwritten dh →
  (i = 0%nat ∨ ∀ d, o = Some d → dh_len d = 0) →
  planes_unwritten (<[i := o]> dh).
Proof.
  intros Hu Hi j d Hj Hd.
  destruct (decide (i = j)) as [-> | Hne].
  - destruct (decide (j < length dh)%nat) as [Hlt | Hge].
    + rewrite list_lookup_insert_eq in Hd by done. injection Hd as ->.
      destruct Hi as [-> | Hi]; [lia | by apply Hi].
    + rewrite list_insert_ge in Hd by lia. by apply (Hu j).
  - rewrite list_lookup_insert_ne in Hd by done. by apply (Hu j).
Qed.

Lemma all_len_zero_unwritten dh : all_len_zero dh → planes_unwritten dh.
Proof. intros Hz i d _ Hd. by apply (Hz i). Qed.

Lemma initializer_unwritten :
  planes_unwritten (Qe.dh QENT_BASE_INITIALIZER).
Proof.
  intros i d _ Hd. unfold QENT_BASE_INITIALIZER in Hd. cbn [Qe.dh] in Hd.
  apply lookup_replicate in Hd as [Hd _]. discriminate Hd.
Qed.

Lemma qent_base_realloc_unwritten be len dbsc v rc be' v' :
  qent_base_realloc be len dbsc v = Some (rc, be', v') →
  planes_unwritten (Qe.dh be) → planes_unwritten (Qe.dh be').
Proof.
  unfold qent_base_realloc. intros Hr Hu.
  destruct (Qe.dh be !! 0%nat) as [d0|]; [|done]. simpl in Hr.
  destruct (match d0 with Some d => _ | None => _ end).
  - destruct (SizeClass.round_up_size len) as [newsize|]; [|done].
    simpl in Hr. destruct (negb dbsc); [by injection Hr as _ <- _|].
    destruct (e_call v _) as [[a v1]|]; [|done]. simpl in Hr.
    destruct a; injection Hr as _ <- _; simpl;
      apply unwritten_insert; auto.
  - by injection Hr as _ <- _.
Qed.

Lemma qent_src_data_copy_unwritten be fixed_size offset len dbsc v rc be' v' :
  qent_src_data_copy be fixed_size offset len dbsc v = Some (rc, be', v') →
  planes_unwritten (Qe.dh be) → planes_unwritten (Qe.dh be').
Proof.
  unfold qent_src_data_copy. intros Hc Hu.
  destruct (qent_base_realloc _ _ _ _) as [[[rv be1] v1]|] eqn:Hr; [|done].
  apply qent_base_realloc_unwritten in Hr; [|done]. simpl in Hc.
  destruct (negb (rv =? 0)); [by injection Hc as _ <- _|].
  destruct (Qe.dh be1 !! 0%nat) as [[d|]|]; try done. simpl in Hc.
  destruct (e_call _ _) as [[a v2]|]; [|done]. simpl in Hc.
  destruct (e_failed a); injection Hc as _ <- _; [done|]. simpl.
  apply unwritten_insert; auto.
Qed.

Lemma alloc_unwind_unwritten i : ∀ dh v dh' v',
  alloc_unwind i dh v = Some (dh', v') →
  planes_unwritten dh → planes_unwritten dh'.
Proof.
  induction i as [|i IH]; intros dh v dh' v'; simpl.
  - by intros [= <- _].
  - destruct (dh !! i) as [d0|]; [|done]. simpl. intros Hun Hu.
    eapply IH; [exact Hun|]. apply unwritten_insert; [done|].
    right. by intros d.
Qed.

Lemma alloc_planes_from_unwritten fuel : ∀ i sizes dh v rc dh' v',
  alloc_planes_from fuel i sizes dh v = Some (rc, dh', v') →
  (∀ j a, E.script v !! j = Some a → (0 < i + j)%nat → fresh_handle a) →
  planes_unwritten dh → planes_unwritten dh'.
Proof.
  induction fuel as [|fuel IH]; intros i sizes dh v rc dh' v'; simpl.
  - by intros [= _ <- _].
  - destruct (dh !! i) as [old|]; [|done]. simpl.
    destruct (sizes !! i) as [size|]; [|done]. simpl.
    unfold e_call. destruct (E.script v) as [|a rest] eqn:Hs; [done|]. simpl.
    intros Hal Hfr Hu.
    destruct a as [|errno|d|ix]; simpl in Hal.
    1, 2, 4:
      destruct (alloc_unwind _ _ _) as [[dh1 v1]|] eqn:Hun; [|done];
      simpl in Hal; injection Hal as _ <- _;
      eapply alloc_unwind_unwritten; [exact Hun|];
      apply unwritten_insert; [done | right; by intros ?].
    eapply IH; [exact Hal | |].
    + simpl. intros j a Hj _. apply (Hfr (S j) a); [done | lia].
    + apply unwritten_insert; [done|].
      destruct i as [|i]; [by left | right].
      intros ? [= <-]. apply (Hfr 0%nat (EHandle d)); [done | lia].
Qed.

(** [qe_alloc_from_fmt] keeps it, with an allocator whose handles for the
    planes behind the primary one record no length yet. *)
Lemma qe_alloc_from_fmt_unwritten be fmt v rc be' v' :
  qe_alloc_from_fmt be fmt v = Some (rc, be', v') →
  Forall fresh_handle (drop 1 (E.script v)) →
  planes_unwritten (Qe.dh be) → planes_unwritten (Qe.dh be').
Proof.
  unfold qe_alloc_from_fmt. intros Hal Hfr Hu.
  destruct (V4L2_TYPE_IS_MULTIPLANAR _); destruct (Fmt.fmt fmt) as [p|p];
    try done.
  - destruct (alloc_planes_from _ _ _ _ _) as [[[rc1 dh1] v1]|] eqn:Hp;
      [|done].
    simpl in Hal. injection Hal as _ <- _. simpl.
    eapply alloc_planes_from_unwritten; [exact Hp | | done].
    intros j a Hj Hpos. destruct j as [|j]; [lia|].
    rewrite Forall_lookup in Hfr. apply (Hfr j).
    by rewrite lookup_drop.
  - destruct (Qe.dh be !! 0%nat) as [old|]; [|done]. simpl in Hal.
    destruct (e_call v _) as [[a v1]|]; [|done]. simpl in Hal.
    destruct a; injection Hal as _ <- _; simpl; apply unwritten_insert; auto.
Qed.

Lemma queue_planes_from_unwritten fuel : ∀ i is_dst dh planes,
  planes_unwritten dh →
  planes_unwritten (queue_planes_from fuel i is_dst dh planes).1.1.
Proof.
  induction fuel as [|fuel IH]; intros i is_dst dh planes Hu; simpl; [done|].
  destruct (dh !! i) as [[d|]|] eqn:Hd; simpl; try done.
  apply IH. intros j d' Hj Hd'.
  destruct (decide (i = j)) as [-> | Hne].
  - rewrite list_lookup_insert_eq in Hd' by by eapply lookup_lt_Some.
    injection Hd' as <-. destruct is_dst; [done | by apply (Hu j)].
  - rewrite list_lookup_insert_ne in Hd' by done. by apply (Hu j).
Qed.

Opaque queue_planes_from.

(** Handing a buffer to the driver keeps it. *)
Lemma qe_v4l2_queue_unwritten w (p : ptr) vfd mreq fmt is_dst hold rc w' e :
  qe_v4l2_queue w p vfd mreq fmt is_dst hold = Some (rc, w') →
  ents w !! p = Some e → planes_unwritten (Qe.dh e) →
  ∃ e', ents w' !! p = Some e' ∧ planes_unwritten (Qe.dh e').
Proof.
  unfold qe_v4l2_queue. intros Hq He Hu. rewrite He in Hq. simpl in Hq.
  destruct (if V4L2_TYPE_IS_MULTIPLANAR (Fmt.type fmt) then _ else _)
    as [[dh m]|] eqn:Hm; [|done].
  assert (Hdh : planes_unwritten dh).
  { destruct (V4L2_TYPE_IS_MULTIPLANAR _).
    - pose proof (queue_planes_from_unwritten VIDEO_MAX_PLANES 0 is_dst
                    (Qe.dh e) (replicate VIDEO_MAX_PLANES Buf.zero_plane) Hu)
        as Hp.
      destruct (queue_planes_from _ _ _ _ _) as [[dh1 planes] i].
      simpl in Hm, Hp. injection Hm as <- _. exact Hp.
    - destruct (Qe.dh e !! 0%nat) as [[d|]|]; try done. simpl in Hm.
      injection Hm as <- _. apply unwritten_insert; auto. }
  simpl in Hq.
  destruct (match mreq with Some _ => _ | None => _ end) as [[fl rfd]|];
    [|done].
  simpl in Hq. destruct (ioctl_retry _ _) as [[a k]|]; [|done].
  simpl in Hq. injection Hq as _ <-. simpl.
  rewrite lookup_insert_eq. eexists. split; [reflexivity|]. done.
Qed.

Transparent queue_planes_from.

(** An entry made for import has no weak link, so that [qent_dst_free]
    deletes it: the handles that [qent_dst_import_fd] stores never reach a
    free list. *)
Lemma import_entry_not_recycled w v (p : ptr) d e :
  dsts w !! p = Some d → Qe.mbc_wl d = None →
  ents w !! p = Some e → length (Qe.dh e) = VIDEO_MAX_PLANES →
  ∃ w' v',
    qent_dst_free w v (Some p) = Some (None, w', v') ∧
    ents w' !! p = None ∧ ctls w' = ctls w.
Proof.
  intros Hd Hl He Hlen.
  pose proof (qent_dst_delete_spec w v p d e Hd He Hlen) as Hdel.
  unfold qent_dst_free. rewrite Hd.
  change (Some d ≫= ?f) with (f d). cbv beta.
  rewrite Hl. unfold ff_weak_link_lock at 1.
  change (None ≫= ?f) with (@None ptr).
  rewrite Hl in Hdel. rewrite Hdel. simpl.
  eexists _, _. split; [reflexivity|]. simpl.
  split; [apply lookup_delete_eq | done].
Qed.

Lemma qent_dst_import_fd_only_import be plane fd size v st be' v' :
  qent_dst_import_fd be plane fd size v = Some (st, be', v') →
  Qe.status be ≠ QENT_IMPORT → be' = be.
Proof.
  unfold qent_dst_import_fd. intros Hi Hst.
  destruct (Qe.status be); try done; by injection Hi as _ <- _.
Qed.

End plane_lengths.
